(* ===== verification/_CoqProject ===== *)
-Q . S2P
Prelude.v
Endian.v
Buffer.v
CStdlib.v
PzmqData.v
StackFlowUtil.v
NetTypes.v
Frame.v
Kernel.v
Channel.v
Poller.v
SocketsOps.v
EventLoop.v
LoopFrame.v
TcpConnection.v
EventLoopThreadPool.v
Acceptor.v
Connector.v
TcpInfo.v
TcpServer.v
TcpClient.v
System.v
Json.v
Pzmq.v
UnitCall.v
Manager.v
UnitTable.v
UnitAction.v
TcpComm.v
Node.v
LlmChannel.v
StackFlow.v
Registration.v
LlmNode.v
LlmLife.v
LlmEvents.v
LlmRun.v
Forwarding.v
Sessions.v
Replies.v
SessionTable.v
ManagerRun.v
