(* ===== verification/Prelude.v ===== *)
(** * double_turnouts: a verification library

    The repository is a small "edge AI" system in C++: clients talk JSON over TCP
    to a _unit manager_; the manager forwards their requests over zmq to _unit
    nodes_ (here the LLM node); a node answers over the socket the manager keeps
    for that client, or publishes on its own.  This library translates the C++
    sources into executable Rocq definitions and proves what they do.

    ** The parts and how they interact

<<
      network/            a muduo-style reactor: Buffer, Channel, Poller, EventLoop,
                          EventLoopThreadPool, Acceptor, Connector, TcpConnection,
                          TcpServer, TcpClient
      hybrid-comm/        pzmq (RPC, publish/subscribe, push/pull over zmq) and the
                          two-parameter messages of pzmq_data
      infra-controller/   StackFlow (a node's RPC actions, event queue and calls to the
                          manager), llm_channel_obj (a unit's sockets), StackFlowUtil
      unit-manager/       key store, port table and units ("sys" server), the routing of
                          client requests, TCP sessions, configuration, main
      node/test/          the LLM node: llm_task, llm_llm, main
>>

    A request's way: TcpServer accepts a connection and its callback opens a
    session with a pull socket (TcpComm); onMessage hands the text to
    unit_action_match (UnitAction), which pushes an inference to the unit's
    publisher or calls the node's RPC action (UnitCall, Pzmq); the node queues
    the call as an event (StackFlow), its event loop runs llm_llm's handler
    (LlmNode), which registers a unit with the manager (Registration, Manager),
    and the unit's channel (LlmChannel) receives the inferences and sends the
    replies back to the session's socket.

    ** The method

    A C++ operation on a state [S] is a function of type [M S A] (below): it
    returns, throws, or stops the program.  Objects are cells of finite maps
    addressed by [ptr]; [this] is the first argument; reading a freed cell is
    [Crash Undefined], so "does not crash" includes the absence of dangling
    pointers, failed assertions and reads of indeterminate values.  Closures
    built by [std::bind] are the constructors of a type, run by one function.
    Machine integers are [Z] with their wrap-around ([wrap], [swrap]); bytes are
    [ascii]; [std::map] and [std::unordered_map] are [gmap] (the order of the
    latter is the class [Hashing]).  [wpe m Q E s] says that [m] run from [s]
    returns in [Q] or throws in [E] and does not crash; [wp] forbids throwing,
    [may_throw] allows it.  Each component has a tactic that runs its programs
    as far as their steps are determined ([wp_run_cells], [z_run], [m_run],
    [n_run]).

    What is not under src/ is a type class, with what the code relies on as a
    second class of laws and an executable instance for the witnesses: [Kernel]
    with [KernelLaws], [SocketLaws], [EventfdLaws] (system calls; Kernel.v),
    [Inet] (address texts), [Zmq] with [ZmqHealthy], [RepLaws] (libzmq),
    [JsonLib] (nlohmann's parse and dump), [Simdjson], [Clock], [HostOrder].

    ** The files

<<
      Prelude             outcomes, the monad and its logic, wrap-around, byte lists
      CStdlib             find, substr, to_string, stoi, snprintf/sprintf/sscanf of an int
      Endian              network/include/network/Endian.h
      Buffer              Buffer.h, Buffer.cc
      NetTypes, Frame,    the objects of network/ and their world; what operations leave
      Kernel, LoopFrame   alone; the kernel's laws
      Channel, Poller, EventLoop, TcpConnection, EventLoopThreadPool, Acceptor,
      Connector, TcpServer, TcpClient, SocketsOps, TcpInfo
                          the source files of the same names (SocketsOps also
                          InetAddress.cc and Socket.cc, whose getTcpInfo is TcpInfo;
                          the channel operations that go through the loop are
                          EventLoop.ChannelOps)
      System              the callbacks the library binds to itself, and the loop that runs
                          them
      PzmqData, Pzmq      pzmq_data.h/.cpp, pzmq.hpp
      StackFlowUtil,      StackFlowUtil.h/.cpp
      UnitCall
      Json                the values nlohmann::json holds
      Manager, UnitTable  unit-manager: all.h, unit_data, remote_server.cpp; the invariant
      UnitAction, TcpComm zmq_bus.cpp, remote_action.cpp, session.h, tcp_comm.cpp,
                          config.cpp, main.cpp
      Node, LlmChannel,   StackFlow.h/.cpp, channel.h/.cpp
      StackFlow
      LlmNode             node/test/src/main.cpp
      Registration        a node against the manager
      LlmLife, LlmEvents, the LLM node's refusals and shutdown, its invariant, and every
      LlmRun              state it can reach
      Forwarding          a client's request from the manager to the node's handler
      Sessions            a client's session from its connection to its end
      SessionTable,       the manager's sessions and objects, and every state it can
      ManagerRun          reach
      Replies             a unit's answers, and their way to the client
>>

    ** What the theorems show

    - Buffer: every sequence of calls is a byte queue's ([buffer_refines_queue]);
      append, readFd and integer headers exactly.
    - The reactor: a loop's channels, poller and epoll agree with a table of
      interests ([interest_refines_table]); no wake-up is lost under any
      interleaving with other threads ([no_lost_wakeup]); callbacks are selected
      by the returned events.
    - Connections: the bytes written and buffered are the messages sent, in
      order ([stream_in_order]); closing and destroying leave no cell and no
      registration; the sequences of calls that fail an assertion.
    - Servers and clients: each descriptor accepted, connected or refused has
      exactly one fate; the map of connections; the whole path from a peer's
      close to the connection's destruction through the loop of System.
    - pzmq: an RPC server answers every request in order exactly once
      ([event_loop_serves]); a call ends without a socket left ([unit_call_outcome]).
    - Texts: parameters, work ids, UTF-8, the hand-written field extractor and
      the reassembly of streams, round trips and the inputs they get wrong.
    - The manager: its key store, ports and units stay consistent under every
      action ([sys_rpc_consistent]); allocating and releasing a unit is the
      identity; a registration read back by the node ([registration_roundtrip]).
    - The whole path of a client: the session and its pull socket
      ([session_lifecycle]), an inference's frame as the unit's channel reads it
      ([inference_reaches_unit]), any other request as the handler's call
      ([request_reaches_handler]), what the unit answers ([inference_answers])
      and how an answer gets into the client's stream ([reply_reaches_client]).
    - The manager as a whole: every state that its start and any interleaving of
      its threads, its clients and its units can reach is consistent, and nothing
      it does next has undefined behaviour ([manager_safe]).  zmq is arbitrary;
      the network library is assumed to keep the connections that sessions hold
      (they are shared_ptr), the nodes to ask for units with plain names while
      two ports are free ([allocate_exhausted] shows what happens otherwise).
    - The LLM node: every reachable state is well formed and no turn of a
      thread has undefined behaviour ([llm_node_safe]); refused requests end the
      process; how destruction ends.

    ** Fuel and bounds

    Loops whose end is not structural carry fuel, and running out is the
    separate fault [Unfollowed], so that "does not crash" also says the fuel is
    enough: [dec_digits] runs with log2 n + 1 ([dec_fuel_enough]); [find_action]
    with the length of the text + 1 ([find_action_ret]); [llm_dtor_loop] with the
    number of tasks ([wp_llm_dtor_loop]); the retries of [creat] with [Attempts],
    where [ZmqHealthy] makes the first succeed.  The endless loops
    ([EventLoop.loop], [zmq_event_loop], [even_loop]) take a number of turns and
    return [false] when it is used up: theorems about them hold for every
    number, or for one turn from any reachable state.

    ** Not modelled, and why

    Logging (formatted output; [LOG(FATAL)] is the fault [LogFatal]), hostname
    and thread-name look-ups, the sample programs, the vendored headers
    (nlohmann::json beyond its value type, zmq.h, eventpp, simdjson): output,
    examples, or code that is not the program's.  Reference counts of
    [shared_ptr] are not kept: the death of an object is an operation of its
    own, run where the last owner goes.  Threads interleave at the granularity
    of the operations (a mutex section, a turn of a loop); data races inside an
    operation are not modelled.  Memory exhaustion is modelled for Buffer only. *)

From Stdlib Require Export Ascii String.
From stdpp Require Export base tactics option list numbers gmap strings.

#[export] Set Default Goal Selector "!".

(** ** C++ outcomes

    A C++ operation on a state [S] returns a value, throws an exception (the
    mutations made before the throw are kept), or stops the program: a failed
    [assert] (the build is a Debug build, so assertions are live), a
    [LOG(FATAL)], an uncaught exception, or undefined behaviour.  [Unfollowed]
    is a loop that the fuel of its model does not cover. *)

Inductive exn :=
| out_of_range
| invalid_argument
| length_error
| bad_any_cast
| boost_bad_any_cast
| runtime_error
| system_error
| bad_function_call
| json_type_error
| json_parse_error
| thrown_int (n : Z).

Inductive fault :=
| AssertFailed
| LogFatal
| Terminated
| Undefined
| Unfollowed.

#[global] Instance exn_eq_dec : EqDecision exn.
Proof. solve_decision. Defined.

#[global] Instance fault_eq_dec : EqDecision fault.
Proof. solve_decision. Defined.

Inductive outcome (S A : Type) :=
| Ret (a : A) (s : S)
| Throw (e : exn) (s : S)
| Crash (f : fault).

Arguments Ret {S A} a s.
Arguments Throw {S A} e s.
Arguments Crash {S A} f.

Definition M (S A : Type) : Type := S → outcome S A.

Declare Scope cpp_scope.
Delimit Scope cpp_scope with cpp.

Section Monad.
Context {S : Type}.

Definition ret {A} (a : A) : M S A := λ s, Ret a s.
Definition throw {A} (e : exn) : M S A := λ s, Throw e s.
Definition crash {A} (f : fault) : M S A := λ _, Crash f.
Definition bind {A B} (m : M S A) (k : A → M S B) : M S B := λ s,
  match m s with
  | Ret a s' => k a s'
  | Throw e s' => Throw e s'
  | Crash f => Crash f
  end.
Definition get : M S S := λ s, Ret s s.
Definition gets {A} (f : S → A) : M S A := λ s, Ret (f s) s.
Definition put (s : S) : M S unit := λ _, Ret tt s.
Definition modify (f : S → S) : M S unit := λ s, Ret tt (f s).

(** [assert(b)] in a Debug build. *)
Definition assert_ (b : bool) : M S unit := λ s,
  if b then Ret tt s else Crash AssertFailed.

(** [try { m } catch (...) { h }]. *)
Definition try_catch {A} (m : M S A) (h : exn → M S A) : M S A := λ s,
  match m s with
  | Throw e s' => h e s'
  | r => r
  end.

(** Dereferencing: [None] is a dangling or null pointer, or an access out of
    bounds. *)
Definition deref {A} (o : option A) : M S A := λ s,
  match o with Some a => Ret a s | None => Crash Undefined end.

(** A throwing access, as [map::at]. *)
Definition at_ {A} (o : option A) : M S A := λ s,
  match o with Some a => Ret a s | None => Throw out_of_range s end.

Definition when (b : bool) (m : M S unit) : M S unit :=
  if b then m else ret tt.

Fixpoint forM {A} (l : list A) (f : A → M S unit) : M S unit :=
  match l with
  | [] => ret tt
  | x :: l' => bind (f x) (λ _, forM l' f)
  end.
End Monad.

Notation "'let*' x ':=' m 'in' k" := (bind m (λ x, k))
  (at level 10, x binder, m at level 100, k at level 200,
   format "'[v' 'let*'  x  ':='  m  'in' '//' k ']'") : cpp_scope.
Notation "m ;;; k" := (bind m (λ _, k))
  (at level 100, right associativity, format "'[v' m ;;; '//' k ']'") : cpp_scope.

#[global] Open Scope cpp_scope.
#[global] Open Scope Z_scope.

(** An operation of a part of the state (a member object) run on the whole. *)
Definition zoom {S T A} (g : S → T) (p : T → S → S) (m : M T A) : M S A := λ s,
  match m (g s) with
  | Ret a t => Ret a (p t s)
  | Throw e t => Throw e (p t s)
  | Crash f => Crash f
  end.

(** ** Weakest preconditions

    [wpe m Q E s]: from [s], [m] does not crash, returns into [Q] or throws
    into [E].  [wp m Q s] also excludes exceptions; [safe m s] excludes only
    crashes; [may_throw m Q s] claims nothing of the state an exception
    leaves. *)

Definition wpe {S A} (m : M S A) (Q : A → S → Prop) (E : exn → S → Prop) (s : S) : Prop :=
  match m s with
  | Ret a s' => Q a s'
  | Throw e s' => E e s'
  | Crash _ => False
  end.

Abbreviation wp m Q := (wpe m Q (λ _ _, False)).
Abbreviation safe m := (wpe m (λ _ _, True) (λ _ _, True)).
Abbreviation may_throw m Q := (wpe m Q (λ _ _, True)).

Section Wp.
Context {S : Type}.

Lemma wpe_bind {A B} (m : M S A) (k : A → M S B) Q E s :
  wpe (bind m k) Q E s ↔ wpe m (λ a s', wpe (k a) Q E s') E s.
Proof. unfold wpe, bind. by destruct (m s). Qed.

Lemma wpe_mono {A} (m : M S A) (Q Q' : A → S → Prop) (E E' : exn → S → Prop) s :
  wpe m Q E s → (∀ a s', Q a s' → Q' a s') → (∀ e s', E e s' → E' e s') →
  wpe m Q' E' s.
Proof. unfold wpe. destruct (m s); naive_solver. Qed.

Lemma wp_mono {A} (m : M S A) (Q Q' : A → S → Prop) (E : exn → S → Prop) s :
  wp m Q s → (∀ a s', Q a s' → Q' a s') → wpe m Q' E s.
Proof. intros H HQ. eapply wpe_mono; [exact H|done|done]. Qed.

Lemma wpe_conj {A} (m : M S A) (Q Q' : A → S → Prop) (E E' : exn → S → Prop) s :
  wpe m Q E s → wpe m Q' E' s →
  wpe m (λ a s', Q a s' ∧ Q' a s') (λ e s', E e s' ∧ E' e s') s.
Proof. unfold wpe. by destruct (m s). Qed.

(** The three outcomes, from a run. *)
Lemma wp_run {A} (m : M S A) (Q : A → S → Prop) s :
  wp m Q s ↔ ∃ a s', m s = Ret a s' ∧ Q a s'.
Proof.
  unfold wpe. split.
  - destruct (m s); [eauto|done|done].
  - by intros (a & s' & -> & ?).
Qed.
Lemma wpe_Ret {A} (m : M S A) Q E s a s' :
  wpe m Q E s → m s = Ret a s' → Q a s'.
Proof. unfold wpe. intros H Hm. by rewrite Hm in H. Qed.
Lemma wpe_Throw {A} (m : M S A) Q E s e s' :
  wpe m Q E s → m s = Throw e s' → E e s'.
Proof. unfold wpe. intros H Hm. by rewrite Hm in H. Qed.
Lemma wpe_not_Crash {A} (m : M S A) Q E s f : wpe m Q E s → m s ≠ Crash f.
Proof. unfold wpe. by intros H Hm; rewrite Hm in H. Qed.

Lemma wpe_ret {A} (a : A) Q E (s : S) : wpe (ret a) Q E s ↔ Q a s.
Proof. done. Qed.
Lemma wpe_throw {A} e (Q : A → S → Prop) E (s : S) : wpe (throw e) Q E s ↔ E e s.
Proof. done. Qed.
Lemma wpe_crash {A} f (Q : A → S → Prop) E (s : S) : wpe (crash f) Q E s ↔ False.
Proof. done. Qed.
Lemma wpe_get (Q : S → S → Prop) E (s : S) : wpe get Q E s ↔ Q s s.
Proof. done. Qed.
Lemma wpe_gets {A} (f : S → A) Q E (s : S) : wpe (gets f) Q E s ↔ Q (f s) s.
Proof. done. Qed.
Lemma wpe_put (t : S) Q E (s : S) : wpe (put t) Q E s ↔ Q tt t.
Proof. done. Qed.
Lemma wpe_modify (f : S → S) Q E (s : S) : wpe (modify f) Q E s ↔ Q tt (f s).
Proof. done. Qed.
Lemma wpe_assert (b : bool) Q E (s : S) : wpe (assert_ b) Q E s ↔ b = true ∧ Q tt s.
Proof. unfold wpe, assert_. destruct b; [tauto|intuition discriminate]. Qed.
Lemma wpe_deref {A} (o : option A) Q E (s : S) :
  wpe (deref o) Q E s ↔ ∃ a, o = Some a ∧ Q a s.
Proof.
  unfold wpe, deref. split; [destruct o; [eauto|done]|].
  by intros (? & -> & ?).
Qed.
Lemma wpe_at {A} (o : option A) Q E (s : S) :
  wpe (at_ o) Q E s ↔ match o with Some a => Q a s | None => E out_of_range s end.
Proof. unfold wpe, at_. by destruct o. Qed.
Lemma wpe_when (b : bool) (m : M S unit) Q E (s : S) :
  wpe (when b m) Q E s ↔ if b then wpe m Q E s else Q tt s.
Proof. by destruct b. Qed.
Lemma wpe_if (b : bool) {A} (m n : M S A) Q E (s : S) :
  wpe (if b then m else n) Q E s ↔ if b then wpe m Q E s else wpe n Q E s.
Proof. by destruct b. Qed.
Lemma wpe_try_catch {A} (m : M S A) h Q E (s : S) :
  wpe (try_catch m h) Q E s ↔ wpe m Q (λ e s', wpe (h e) Q E s') s.
Proof. unfold wpe, try_catch. by destruct (m s). Qed.
End Wp.

Lemma wpe_eq {S A} (m m' : M S A) Q E s s' : m s = m' s' → wpe m' Q E s' → wpe m Q E s.
Proof. unfold wpe. by intros ->. Qed.

Lemma wpe_Ret_eq {S A} (m : M S A) a s s' (Q : A → S → Prop) E : m s = Ret a s' → Q a s' → wpe m Q E s.
Proof. unfold wpe. by intros ->. Qed.

Lemma bind_ext {S A B} (m : M S A) (k k' : A → M S B) s :
  (∀ a s', m s = Ret a s' → k a s' = k' a s') → bind m k s = bind m k' s.
Proof. unfold bind. intros Hk. destruct (m s); auto. Qed.

Lemma forM_app {S A B} (l1 l2 : list A) (f : A → M S unit) (k : M S B) s :
  (forM (l1 ++ l2) f ;;; k) s = (forM l1 f ;;; forM l2 f ;;; k) s.
Proof.
  revert s. induction l1 as [|x l1 IH]; intros s; [done|]. cbn. unfold bind in *.
  destruct (f x s); [apply IH|done|done].
Qed.

Lemma wpe_zoom {S T A} (g : S → T) (p : T → S → S) (m : M T A) Q E s :
  wpe (zoom g p m) Q E s ↔ wpe m (λ a t, Q a (p t s)) (λ e t, E e (p t s)) (g s).
Proof. unfold wpe, zoom. by destruct (m (g s)). Qed.

(** A turn of a thread's loop: an exception that leaves the thread ends the
    process. *)
Definition turn_ok {S A} (m : M S A) (Q : S → Prop) (s : S) : Prop :=
  match m s with Ret _ s' => Q s' | Throw _ _ => False | Crash f => f = Terminated end.

Lemma turn_ok_catch {S A B} (m : M S A) (k : A → M S B) P Q s :
  may_throw m (λ _ s', P s') s → (∀ a s', P s' → turn_ok (k a) Q s') →
  turn_ok (let* a := try_catch m (λ _, crash Terminated) in k a) Q s.
Proof.
  unfold turn_ok, bind, try_catch, wpe. intros Hm Hk. destruct (m s) as [a s'|e s'|f]; [by apply Hk|done|done].
Qed.
Lemma turn_ok_ret {S A} (m : M S A) Q s a s' : turn_ok m Q s → m s = Ret a s' → Q s'.
Proof. unfold turn_ok. intros H E. by rewrite E in H. Qed.
Lemma turn_ok_crash {S A} (m : M S A) Q s f : turn_ok m Q s → m s = Crash f → f = Terminated.
Proof. unfold turn_ok. intros H E. by rewrite E in H. Qed.

Create Rewrite HintDb wpdb.
#[export] Hint Rewrite @wpe_bind @wpe_ret @wpe_throw @wpe_crash @wpe_get @wpe_gets
  @wpe_put @wpe_modify @wpe_assert @wpe_deref @wpe_at @wpe_when @wpe_if
  @wpe_try_catch @wpe_zoom : wpdb.

(** Push [wpe] through the program text. *)
Ltac wp_simp := repeat (progress (autorewrite with wpdb; cbn beta)).
Ltac wp_simp_in H := repeat (progress (autorewrite with wpdb in H; cbn beta in H)).

(** One step of a program whose head is an operation of the monad. *)
Ltac wp_basic :=
  lazymatch goal with
  | |- wpe (bind _ _) _ _ _ => refine (proj2 (wpe_bind _ _ _ _ _) _)
  | |- wpe (ret _) _ _ _ => refine (proj2 (wpe_ret _ _ _ _) _)
  | |- wpe (throw _) _ _ _ => refine (proj2 (wpe_throw _ _ _ _) _)
  | |- wpe (gets _) _ _ _ => refine (proj2 (wpe_gets _ _ _ _) _)
  | |- wpe (assert_ _) _ _ _ => refine (proj2 (wpe_assert _ _ _ _) _)
  | |- wpe (deref _) _ _ _ => refine (proj2 (wpe_deref _ _ _ _) _)
  | |- wpe (at_ _) _ _ _ => refine (proj2 (wpe_at _ _ _ _) _)
  | |- wpe (when _ _) _ _ _ => refine (proj2 (wpe_when _ _ _ _ _) _)
  | |- wpe (if _ then _ else _) _ _ _ => refine (proj2 (wpe_if _ _ _ _ _ _) _)
  | |- wpe get _ _ _ => refine (proj2 (wpe_get _ _ _) _)
  | |- wpe (modify _) _ _ _ => refine (proj2 (wpe_modify _ _ _ _) _)
  | |- wpe (try_catch _ _) _ _ _ => refine (proj2 (wpe_try_catch _ _ _ _ _) _)
  | |- wpe (put _) _ _ _ => refine (proj2 (wpe_put _ _ _ _) _)
  end.

(** Find the cell a program dereferences. *)
Ltac solve_cell :=
  cbn; first
  [ eassumption
  | apply lookup_insert_eq
  | rewrite lookup_insert_ne by (congruence || done); solve_cell ].

(** Booleans of the code's tests as propositions. *)
Ltac zify_bools :=
  repeat match goal with
  | H : (_ && _)%bool = true |- _ => apply andb_prop in H as [? ?]
  | H : (_ <=? _) = true |- _ => apply Z.leb_le in H
  | H : (_ <=? _) = false |- _ => apply Z.leb_gt in H
  | H : (_ <? _) = true |- _ => apply Z.ltb_lt in H
  | H : (_ <? _) = false |- _ => apply Z.ltb_ge in H
  | H : (_ =? _) = true |- _ => apply Z.eqb_eq in H
  | H : (_ =? _) = false |- _ => apply Z.eqb_neq in H
  end.

(** Case analysis on a comparison in the goal. *)
Ltac case_cmp :=
  match goal with
  | |- context [?x <? ?y] => destruct (Z.ltb_spec x y)
  | |- context [?x <=? ?y] => destruct (Z.leb_spec x y)
  | |- context [?x =? ?y] => destruct (Z.eqb_spec x y)
  end.

(** ** Machine integers

    A [w]-bit unsigned value is kept in [0, 2^w); [swrap w] is the two's
    complement reading of the low [w] bits. *)

Definition wrap (w x : Z) : Z := x mod 2 ^ w.
Definition swrap (w x : Z) : Z :=
  let y := wrap w x in if y <? 2 ^ (w - 1) then y else y - 2 ^ w.

(** [size_t], [uint64_t]. *)
Definition u64 : Z → Z := wrap 64.
Definition INT_MIN : Z := - 2 ^ 31.
Definition INT_MAX : Z := 2 ^ 31 - 1.

Lemma wrap_small w x : 0 ≤ x < 2 ^ w → wrap w x = x.
Proof. apply Z.mod_small. Qed.

Lemma wrap_bound w x : 0 ≤ w → 0 ≤ wrap w x < 2 ^ w.
Proof. intros. apply Z.mod_pos_bound. lia. Qed.

Lemma u64_small x : 0 ≤ x < 2 ^ 64 → u64 x = x.
Proof. apply wrap_small. Qed.

Lemma wrap_idemp w x : wrap w (wrap w x) = wrap w x.
Proof.
  unfold wrap. destruct (decide (2 ^ w = 0)) as [->|].
  - by rewrite !Z.mod_0_r.
  - by rewrite Z.mod_mod.
Qed.

Lemma swrap_small w x : 0 < w → - 2 ^ (w - 1) ≤ x < 2 ^ (w - 1) → swrap w x = x.
Proof.
  intros Hw Hx. unfold swrap, wrap.
  assert (E : 2 ^ w = 2 * 2 ^ (w - 1)).
  { rewrite <-Z.pow_succ_r by lia. f_equal. lia. }
  destruct (decide (0 ≤ x)).
  - rewrite Z.mod_small by lia. destruct (Z.ltb_spec x (2 ^ (w - 1))); lia.
  - rewrite <-(Z.mod_add x 1) by lia. rewrite Z.mod_small by lia.
    destruct (Z.ltb_spec (x + 1 * 2 ^ w) (2 ^ (w - 1))); lia.
Qed.

Lemma swrap_wrap w x : swrap w (wrap w x) = swrap w x.
Proof. unfold swrap. by rewrite wrap_idemp. Qed.

(** Testing one bit with a mask. *)
Lemma land_bit e n : 0 ≤ n → negb (Z.land e (2 ^ n) =? 0) = Z.testbit e n.
Proof.
  intros Hn. destruct (Z.testbit e n) eqn:Hb.
  - destruct (Z.eqb_spec (Z.land e (2 ^ n)) 0) as [E|]; [|done].
    apply (f_equal (λ z, Z.testbit z n)) in E.
    by rewrite Z.land_spec, Hb, Z.pow2_bits_true, Z.bits_0 in E.
  - replace (Z.land e (2 ^ n)) with 0; [done|]. symmetry. apply Z.bits_inj'. intros i Hi.
    rewrite Z.land_spec, Z.pow2_bits_eqb, Z.bits_0 by done.
    destruct (Z.eqb_spec n i) as [<-|]; [by rewrite Hb|by rewrite andb_false_r].
Qed.

(** ** Characters and byte strings

    [std::string] and [std::vector<char>] are lists of 8-bit characters. *)

Abbreviation bytes := (list ascii).

Definition str (s : string) : bytes := list_ascii_of_string s.

(** The double quote, and JSON text written with single quotes. *)
Definition dquote : ascii := "034"%char.
Definition json (s : string) : bytes :=
  map (λ c, if bool_decide (c = "'"%char) then dquote else c) (str s).

(** [unsigned char] and (signed, as on x86-64) [char] values. *)
Definition uchar (c : ascii) : Z := Z.of_N (N_of_ascii c).
Definition schar (c : ascii) : Z := swrap 8 (uchar c).
(** [static_cast<char>(z)]. *)
Definition char_of (z : Z) : ascii := ascii_of_N (Z.to_N (wrap 8 z)).

Lemma uchar_bound c : 0 ≤ uchar c < 256.
Proof. unfold uchar. pose proof (N_ascii_bounded c). lia. Qed.

Lemma uchar_char_of z : uchar (char_of z) = wrap 8 z.
Proof.
  unfold uchar, char_of. pose proof (wrap_bound 8 z ltac:(lia)).
  rewrite N_ascii_embedding; lia.
Qed.

Lemma char_of_uchar c : char_of (uchar c) = c.
Proof.
  unfold char_of. rewrite wrap_small by (pose proof (uchar_bound c); lia).
  unfold uchar. rewrite N2Z.id. apply ascii_N_embedding.
Qed.

Lemma uchar_inj c d : uchar c = uchar d → c = d.
Proof. intros H. by rewrite <-(char_of_uchar c), H, char_of_uchar. Qed.

Lemma schar_char_of z : schar (char_of z) = swrap 8 z.
Proof. unfold schar. by rewrite uchar_char_of, swrap_wrap. Qed.

(** ** Lists indexed by [Z] *)

Section ZList.
Context {A : Type}.
Implicit Types l : list A.

Definition zlen l : Z := Z.of_nat (length l).
Definition ztake (n : Z) l : list A := take (Z.to_nat n) l.
Definition zdrop (n : Z) l : list A := drop (Z.to_nat n) l.
(** The [n] elements from offset [o]. *)
Definition zslice (o n : Z) l : list A := ztake n (zdrop o l).
(** [l] with the elements from offset [o] overwritten by [d]. *)
Definition zblit (o : Z) (d l : list A) : list A :=
  ztake o l ++ d ++ zdrop (o + zlen d) l.

Lemma zlen_nonneg l : 0 ≤ zlen l.
Proof. unfold zlen. lia. Qed.
Lemma zlen_nil : zlen (@nil A) = 0.
Proof. done. Qed.
Lemma zlen_cons x l : zlen (x :: l) = 1 + zlen l.
Proof. unfold zlen. cbn [length]. lia. Qed.
Lemma zlen_app l1 l2 : zlen (l1 ++ l2) = zlen l1 + zlen l2.
Proof. unfold zlen. rewrite length_app. lia. Qed.
Lemma zlen_ztake n l : 0 ≤ n ≤ zlen l → zlen (ztake n l) = n.
Proof. unfold zlen, ztake. rewrite length_take. lia. Qed.
Lemma zlen_zdrop n l : 0 ≤ n ≤ zlen l → zlen (zdrop n l) = zlen l - n.
Proof. unfold zlen, zdrop. rewrite length_drop. lia. Qed.
Lemma zlen_zslice o n l : 0 ≤ o → 0 ≤ n → o + n ≤ zlen l → zlen (zslice o n l) = n.
Proof. intros. unfold zslice. rewrite zlen_ztake; [done|]. rewrite zlen_zdrop; lia. Qed.
Lemma zlen_zblit o d l : 0 ≤ o → o + zlen d ≤ zlen l → zlen (zblit o d l) = zlen l.
Proof.
  intros. pose proof (zlen_nonneg d). unfold zblit.
  rewrite !zlen_app, zlen_ztake, zlen_zdrop; lia.
Qed.

Lemma zslice_0 o l : zslice o 0 l = [].
Proof. done. Qed.
Lemma zslice_all l : zslice 0 (zlen l) l = l.
Proof. unfold zslice, ztake, zdrop, zlen. cbn. apply take_ge. lia. Qed.
Lemma zslice_split o n m l : 0 ≤ o → 0 ≤ n → 0 ≤ m →
  zslice o (n + m) l = zslice o n l ++ zslice (o + n) m l.
Proof.
  intros. unfold zslice, ztake, zdrop.
  rewrite !Z2Nat.inj_add, <-drop_drop by lia. symmetry. apply take_take_drop.
Qed.
Lemma zslice_app_l o n l k : 0 ≤ o → 0 ≤ n → o + n ≤ zlen l →
  zslice o n (l ++ k) = zslice o n l.
Proof.
  unfold zslice, ztake, zdrop, zlen. intros.
  rewrite drop_app_le by lia. rewrite take_app_le; [done|].
  rewrite length_drop. lia.
Qed.
Lemma zslice_app_r o n l k : zlen l ≤ o →
  zslice o n (l ++ k) = zslice (o - zlen l) n k.
Proof.
  unfold zslice, ztake, zdrop, zlen. intros.
  rewrite drop_app_ge by lia. do 2 f_equal. lia.
Qed.
Lemma zslice_zslice o n o' n' l : 0 ≤ o → 0 ≤ o' → 0 ≤ n' → o' + n' ≤ n →
  zslice o' n' (zslice o n l) = zslice (o + o') n' l.
Proof.
  unfold zslice, ztake, zdrop. intros.
  rewrite skipn_firstn_comm, take_take, drop_drop, Nat.min_l by lia.
  do 2 f_equal. lia.
Qed.
Lemma zslice_ztake o n m l : 0 ≤ o → 0 ≤ n → o + n ≤ m →
  zslice o n (ztake m l) = zslice o n l.
Proof.
  intros. replace (ztake m l) with (zslice 0 m l) by done.
  rewrite zslice_zslice by lia. f_equal.
Qed.

(** Reading back what was written, and what was left alone. *)
Lemma zslice_zblit_eq o d l : 0 ≤ o → o + zlen d ≤ zlen l →
  zslice o (zlen d) (zblit o d l) = d.
Proof.
  intros. pose proof (zlen_nonneg d). unfold zblit.
  rewrite zslice_app_r by (rewrite zlen_ztake; lia).
  rewrite zlen_ztake by lia. rewrite Z.sub_diag, zslice_app_l by lia.
  apply zslice_all.
Qed.
Lemma zslice_zblit_before o d l i n :
  0 ≤ o ≤ zlen l → 0 ≤ i → 0 ≤ n → i + n ≤ o →
  zslice i n (zblit o d l) = zslice i n l.
Proof.
  intros. unfold zblit. rewrite zslice_app_l by (rewrite ?zlen_ztake; lia).
  apply zslice_ztake; lia.
Qed.
Lemma zslice_zblit_after o d l i n :
  0 ≤ o → o + zlen d ≤ zlen l → o + zlen d ≤ i →
  zslice i n (zblit o d l) = zslice i n l.
Proof.
  intros. pose proof (zlen_nonneg d). unfold zblit.
  rewrite zslice_app_r by (rewrite zlen_ztake; lia).
  rewrite zlen_ztake, zslice_app_r by lia.
  unfold zslice, zdrop. rewrite drop_drop. do 2 f_equal. lia.
Qed.
End ZList.

Create Rewrite HintDb zlist.
#[export] Hint Rewrite @zlen_nil @zlen_cons @zlen_app : zlist.
#[export] Hint Rewrite @zlen_ztake @zlen_zdrop @zlen_zslice @zlen_zblit
  using lia : zlist.

(** Arithmetic on lengths of lists. *)
Ltac zlist := autorewrite with zlist in *; try lia.

(** Unchecked [operator[]] of a vector: [None] is out of bounds. *)
Definition znth {A} (l : list A) (i : Z) : option A :=
  if i <? 0 then None else l !! Z.to_nat i.

Lemma znth_nat {A} (l : list A) (n : nat) : znth l (Z.of_nat n) = l !! n.
Proof. unfold znth. rewrite (proj2 (Z.ltb_ge _ _)), Nat2Z.id by lia. done. Qed.
