(* ===== verification/Endian.v ===== *)
(** * Byte order (network/include/network/Endian.h)

    The host's integer layout and the [htobe]/[betoh] family are the platform's;
    [HostOrder] states what the code relies on, and both a little-endian and a
    big-endian host satisfy it.  [hostToNetwork]/[networkToHost] are the inline
    wrappers of Endian.h, indexed by the width in bytes (2, 4 or 8). *)

From S2P Require Import Prelude.

(** Little-endian digits of [x] in base 256, and the value of digits. *)
Fixpoint le_bytes (n : nat) (x : Z) : bytes :=
  match n with
  | O => []
  | S n' => char_of x :: le_bytes n' (x / 256)
  end.

Fixpoint le_value (l : bytes) : Z :=
  match l with
  | [] => 0
  | c :: l' => uchar c + 256 * le_value l'
  end.

Definition be_bytes (n : nat) (x : Z) : bytes := rev (le_bytes n x).
Definition be_value (l : bytes) : Z := le_value (rev l).

Lemma length_le_bytes n x : length (le_bytes n x) = n.
Proof. revert x. induction n as [|n IH]; intros x; cbn; [done|]. by rewrite IH. Qed.

Lemma length_be_bytes n x : length (be_bytes n x) = n.
Proof. unfold be_bytes. by rewrite length_rev, length_le_bytes. Qed.

Lemma zlen_be_bytes n x : zlen (be_bytes n x) = Z.of_nat n.
Proof. unfold zlen. by rewrite length_be_bytes. Qed.

Lemma le_value_bytes n x : le_value (le_bytes n x) = wrap (8 * Z.of_nat n) x.
Proof.
  revert x. induction n as [|n IH]; intros x; cbn [le_bytes le_value].
  - unfold wrap. cbn. by rewrite Z.mod_1_r.
  - rewrite IH, uchar_char_of. unfold wrap.
    replace (8 * Z.of_nat (S n)) with (8 + 8 * Z.of_nat n) by lia.
    rewrite Z.pow_add_r by lia. change (2 ^ 8) with 256.
    rewrite Z.rem_mul_r by lia. done.
Qed.

Lemma le_value_bound l : 0 ≤ le_value l < 2 ^ (8 * zlen l).
Proof.
  induction l as [|c l IH]; [done|]. cbn [le_value]. rewrite zlen_cons.
  replace (8 * (1 + zlen l)) with (8 + 8 * zlen l) by lia.
  rewrite Z.pow_add_r by (pose proof (zlen_nonneg l); lia).
  change (2 ^ 8) with 256. pose proof (uchar_bound c).
  lia.
Qed.

Lemma le_bytes_value l : le_bytes (length l) (le_value l) = l.
Proof.
  induction l as [|c l IH]; [done|]. cbn [length le_bytes le_value].
  pose proof (uchar_bound c).
  f_equal.
  - apply uchar_inj. rewrite uchar_char_of. unfold wrap. change (2 ^ 8) with 256.
    rewrite Z.mul_comm, Z.mod_add by lia. apply Z.mod_small. lia.
  - rewrite Z.mul_comm, Z.div_add, Z.div_small by lia. apply IH.
Qed.

Lemma be_value_bytes n x : be_value (be_bytes n x) = wrap (8 * Z.of_nat n) x.
Proof. unfold be_value, be_bytes. rewrite rev_involutive. apply le_value_bytes. Qed.

Lemma be_value_bound l : 0 ≤ be_value l < 2 ^ (8 * zlen l).
Proof.
  unfold be_value. replace (zlen l) with (zlen (rev l)); [apply le_value_bound|].
  unfold zlen. by rewrite length_rev.
Qed.

Lemma be_bytes_wrap n x : be_bytes n (wrap (8 * Z.of_nat n) x) = be_bytes n x.
Proof.
  unfold be_bytes. f_equal. rewrite <-le_value_bytes.
  rewrite <-(length_le_bytes n x) at 1. apply le_bytes_value.
Qed.

(** ** The host *)

Class HostOrder := {
  (** object representation of an unsigned integer of [n] bytes *)
  host_bytes : nat → Z → bytes;
  host_value : bytes → Z;
  (** [htobe16/32/64] and [be16/32/64toh], by width in bytes *)
  htobe : nat → Z → Z;
  betoh : nat → Z → Z;
}.

Class HostOrderLaws `{HostOrder} : Prop := {
  host_bytes_htobe n x : host_bytes n (htobe n x) = be_bytes n x;
  betoh_host_value n l : length l = n → betoh n (host_value l) = be_value l;
  htobe_bound n x : 0 ≤ htobe n x < 2 ^ (8 * Z.of_nat n);
  host_value_bound l : 0 ≤ host_value l < 2 ^ (8 * zlen l);
}.

(** A little-endian host (x86-64, the target of the build) swaps bytes. *)
Module LittleEndianHost.
Definition bswap (n : nat) (x : Z) : Z := le_value (be_bytes n x).
#[export] Instance order : HostOrder := {|
  host_bytes := le_bytes; host_value := le_value;
  htobe := bswap; betoh := bswap |}.
#[export] Instance laws : HostOrderLaws.
Proof.
  constructor; cbn.
  - intros n x. unfold bswap. rewrite <-(length_be_bytes n x) at 1.
    apply le_bytes_value.
  - intros n l <-. unfold bswap, be_bytes, be_value. by rewrite le_bytes_value.
  - intros n x. unfold bswap. rewrite <-(zlen_be_bytes n x). apply le_value_bound.
  - apply le_value_bound.
Qed.
End LittleEndianHost.

(** On a big-endian host the conversions are the identity. *)
Module BigEndianHost.
#[export] Instance order : HostOrder := {|
  host_bytes := be_bytes; host_value := be_value;
  htobe n x := wrap (8 * Z.of_nat n) x; betoh n x := x |}.
#[export] Instance laws : HostOrderLaws.
Proof.
  constructor; cbn.
  - intros n x. rewrite <-be_value_bytes. unfold be_bytes, be_value.
    rewrite rev_involutive. f_equal.
    rewrite <-(length_le_bytes n x) at 1. apply le_bytes_value.
  - done.
  - intros n x. apply wrap_bound. lia.
  - apply be_value_bound.
Qed.
End BigEndianHost.

Lemma wrap_swrap w x : 0 < w → wrap w (swrap w x) = wrap w x.
Proof.
  intros Hw. unfold swrap. pose proof (wrap_bound w x ltac:(lia)).
  case_cmp; [apply wrap_idemp|].
  unfold wrap at 1. rewrite <-(Z.mod_add _ 1) by lia.
  replace (wrap w x - 2 ^ w + 1 * 2 ^ w) with (wrap w x) by lia. by apply Z.mod_small.
Qed.

Section Wrappers.
Context `{HostOrder}.
(** Unsigned parameters and results: arguments are converted modulo 2^w. *)
Definition hostToNetwork16 (host16 : Z) : Z := htobe 2 (wrap 16 host16).
Definition hostToNetwork32 (host32 : Z) : Z := htobe 4 (wrap 32 host32).
Definition hostToNetwork64 (host64 : Z) : Z := htobe 8 (wrap 64 host64).
Definition networkToHost16 (net16 : Z) : Z := betoh 2 (wrap 16 net16).
Definition networkToHost32 (net32 : Z) : Z := betoh 4 (wrap 32 net32).
Definition networkToHost64 (net64 : Z) : Z := betoh 8 (wrap 64 net64).
End Wrappers.
