(* ===== verification/Buffer.v ===== *)
(** * The byte buffer (network/include/network/Buffer.h, network/src/Buffer.cc)

    [Buffer.Buffer] is the class's three data members; each method is an
    operation on that state with its assertions.  [peek] and [beginWrite] are
    offsets into [buffer_]; dereferencing outside [buffer_] is undefined
    behaviour.  [contents] is the abstract value (the readable bytes), [inv]
    the representation invariant that every method keeps. *)

From S2P Require Import Prelude.
From S2P Require Import Endian.

Module Buffer.

Definition kCheapPrepend : Z := 8.
Definition kInitialSize : Z := 1024 * 4.
(** [std::vector<char>::max_size()]. *)
Definition max_size : Z := 2 ^ 63 - 1.

Record Buffer := mkBuffer {
  buffer_ : bytes;
  readerIndex_ : Z;
  writerIndex_ : Z;
}.

(** ** Operations *)

Definition size (b : Buffer) : Z := zlen (buffer_ b).
Definition readableBytes (b : Buffer) : Z := u64 (writerIndex_ b - readerIndex_ b).
Definition writableBytes (b : Buffer) : Z := u64 (size b - writerIndex_ b).
Definition prependableBytes (b : Buffer) : Z := readerIndex_ b.
Definition peek (b : Buffer) : Z := readerIndex_ b.
Definition beginWrite (b : Buffer) : Z := writerIndex_ b.

(** [Buffer(size_t initialSize)]: the vector's constructor throws when the
    length exceeds [max_size]. *)
Definition Buffer_ctor {S} (initialSize : Z) : M S Buffer :=
  let n := u64 (kCheapPrepend + initialSize) in
  (if max_size <? n then throw length_error else ret tt) ;;;
  let b := mkBuffer (replicate (Z.to_nat n) "000"%char) kCheapPrepend kCheapPrepend in
  assert_ (readableBytes b =? 0) ;;;
  assert_ (writableBytes b =? initialSize) ;;;
  assert_ (prependableBytes b =? kCheapPrepend) ;;;
  ret b.

(** Reading [n] bytes at offset [o] of [buffer_], and writing [d] there. *)
Definition load (o n : Z) : M Buffer bytes :=
  let* b := get in
  if (0 <=? o) && (0 <=? n) && (o + n <=? size b)
  then ret (zslice o n (buffer_ b)) else crash Undefined.

Definition store (o : Z) (d : bytes) : M Buffer unit :=
  let* b := get in
  if (0 <=? o) && (o + zlen d <=? size b)
  then put {| b with buffer_ := zblit o d (buffer_ b) |} else crash Undefined.

(** [buffer_.resize(n)]. *)
Definition resize (n : Z) : M Buffer unit :=
  let* b := get in
  if max_size <? n then throw length_error
  else put {| b with buffer_ :=
         ztake n (buffer_ b) ++ replicate (Z.to_nat (n - size b)) "000"%char |}.

Definition retrieveAll : M Buffer unit :=
  modify (λ b, {| b with readerIndex_ := kCheapPrepend;
                         writerIndex_ := kCheapPrepend |}).

Definition retrieve (len : Z) : M Buffer unit :=
  let* b := get in
  assert_ (len <=? readableBytes b) ;;;
  if len <? readableBytes b
  then put {| b with readerIndex_ := u64 (readerIndex_ b + len) |}
  else retrieveAll.

Definition retrieveInt64 : M Buffer unit := retrieve 8.
Definition retrieveInt32 : M Buffer unit := retrieve 4.
Definition retrieveInt16 : M Buffer unit := retrieve 2.
Definition retrieveInt8 : M Buffer unit := retrieve 1.

Definition retrieveAsString (len : Z) : M Buffer bytes :=
  let* b := get in
  assert_ (len <=? readableBytes b) ;;;
  let* result := load (peek b) len in
  retrieve len ;;;
  ret result.

Definition retrieveAllAsString : M Buffer bytes :=
  let* b := get in retrieveAsString (readableBytes b).

Definition makeSpace (len : Z) : M Buffer unit :=
  let* b := get in
  if u64 (writableBytes b + prependableBytes b) <? u64 (len + kCheapPrepend)
  then resize (u64 (writerIndex_ b + len))
  else
    assert_ (kCheapPrepend <? readerIndex_ b) ;;;
    let readable := readableBytes b in
    let* data := load (readerIndex_ b) (writerIndex_ b - readerIndex_ b) in
    store kCheapPrepend data ;;;
    modify (λ b, {| b with readerIndex_ := kCheapPrepend;
                           writerIndex_ := u64 (kCheapPrepend + readable) |}) ;;;
    let* b := get in
    assert_ (readable =? readableBytes b).

Definition ensureWritableBytes (len : Z) : M Buffer unit :=
  let* b := get in
  when (writableBytes b <? len) (makeSpace len) ;;;
  let* b := get in
  assert_ (len <=? writableBytes b).

Definition hasWritten (len : Z) : M Buffer unit :=
  let* b := get in
  assert_ (len <=? writableBytes b) ;;;
  put {| b with writerIndex_ := u64 (writerIndex_ b + len) |}.

Definition unwrite (len : Z) : M Buffer unit :=
  let* b := get in
  assert_ (len <=? readableBytes b) ;;;
  put {| b with writerIndex_ := u64 (writerIndex_ b - len) |}.

(** [append(const char *data, size_t len)] with [len] the length of [data]. *)
Definition append (data : bytes) : M Buffer unit :=
  ensureWritableBytes (zlen data) ;;;
  let* b := get in
  store (beginWrite b) data ;;;
  hasWritten (zlen data).

Definition prepend (data : bytes) : M Buffer unit :=
  let* b := get in
  assert_ (zlen data <=? prependableBytes b) ;;;
  put {| b with readerIndex_ := u64 (readerIndex_ b - zlen data) |} ;;;
  let* b := get in
  store (readerIndex_ b) data.

Section Integers.
Context `{HostOrder}.

(** The signed temporaries [be64], [be32], [be16] are [swrap]ped, and their
    object representation is that of the unsigned value. *)
Definition appendInt64 (x : Z) : M Buffer unit :=
  let be64 := swrap 64 (hostToNetwork64 x) in append (host_bytes 8 (wrap 64 be64)).
Definition appendInt32 (x : Z) : M Buffer unit :=
  let be32 := swrap 32 (hostToNetwork32 x) in append (host_bytes 4 (wrap 32 be32)).
Definition appendInt16 (x : Z) : M Buffer unit :=
  let be16 := swrap 16 (hostToNetwork16 x) in append (host_bytes 2 (wrap 16 be16)).
Definition appendInt8 (x : Z) : M Buffer unit := append [char_of x].

Definition peekInt64 : M Buffer Z :=
  let* b := get in
  assert_ (8 <=? readableBytes b) ;;;
  let* d := load (peek b) 8 in
  let be64 := swrap 64 (host_value d) in ret (swrap 64 (networkToHost64 be64)).
Definition peekInt32 : M Buffer Z :=
  let* b := get in
  assert_ (4 <=? readableBytes b) ;;;
  let* d := load (peek b) 4 in
  let be32 := swrap 32 (host_value d) in ret (swrap 32 (networkToHost32 be32)).
Definition peekInt16 : M Buffer Z :=
  let* b := get in
  assert_ (2 <=? readableBytes b) ;;;
  let* d := load (peek b) 2 in
  let be16 := swrap 16 (host_value d) in ret (swrap 16 (networkToHost16 be16)).
Definition peekInt8 : M Buffer Z :=
  let* b := get in
  assert_ (1 <=? readableBytes b) ;;;
  let* d := load (peek b) 1 in
  let* x := deref (head d) in ret (schar x).

Definition readInt64 : M Buffer Z :=
  let* result := peekInt64 in retrieveInt64 ;;; ret result.
Definition readInt32 : M Buffer Z :=
  let* result := peekInt32 in retrieveInt32 ;;; ret result.
Definition readInt16 : M Buffer Z :=
  let* result := peekInt16 in retrieveInt16 ;;; ret result.
Definition readInt8 : M Buffer Z :=
  let* result := peekInt8 in retrieveInt8 ;;; ret result.

Definition prependInt64 (x : Z) : M Buffer unit :=
  let be64 := swrap 64 (hostToNetwork64 x) in prepend (host_bytes 8 (wrap 64 be64)).
Definition prependInt32 (x : Z) : M Buffer unit :=
  let be32 := swrap 32 (hostToNetwork32 x) in prepend (host_bytes 4 (wrap 32 be32)).
Definition prependInt16 (x : Z) : M Buffer unit :=
  let be16 := swrap 16 (hostToNetwork16 x) in prepend (host_bytes 2 (wrap 16 be16)).
Definition prependInt8 (x : Z) : M Buffer unit := prepend [char_of x].
End Integers.

(** ** [readFd]

    [sizeof extrabuf], the room offered to [readv] (the second [iovec] is used
    only when the first is smaller than [extrabuf]), and what the method does
    with [readv]'s result: the error number, or the [n] bytes scattered over
    the two areas. *)
Definition extrabuf_size : Z := 1024 * 1024.

Definition readFd_room (b : Buffer) : Z :=
  let writable := writableBytes b in
  if writable <? extrabuf_size then writable + extrabuf_size else writable.

Definition readFd (readv : Z → Z + bytes) : M Buffer (Z * option Z) :=
  let* b := get in
  let writable := writableBytes b in
  match readv (readFd_room b) with
  | inl err => ret (-1, Some err)
  | inr d =>
      let n := zlen d in
      store (writerIndex_ b) (ztake writable d) ;;;
      (if n <=? writable
       then modify (λ b, {| b with writerIndex_ := u64 (writerIndex_ b + n) |})
       else modify (λ b, {| b with writerIndex_ := size b |}) ;;;
            append (zdrop writable d)) ;;;
      ret (n, None)
  end.

(** ** Specification *)

Record inv (b : Buffer) : Prop := mkInv {
  inv_reader : 0 ≤ readerIndex_ b;
  inv_order : readerIndex_ b ≤ writerIndex_ b;
  inv_writer : writerIndex_ b ≤ size b;
  inv_prepend : kCheapPrepend ≤ size b;
  inv_max : size b ≤ max_size;
}.

Definition contents (b : Buffer) : bytes :=
  zslice (readerIndex_ b) (writerIndex_ b - readerIndex_ b) (buffer_ b).

(** ** Lemmas *)

Lemma size_lt64 b : inv b → 0 ≤ size b < 2 ^ 63.
Proof. intros [? ? ? ? Hm]. unfold max_size in Hm. lia. Qed.

Ltac u64_lia := rewrite ?u64_small by lia; try lia.

Lemma readable_eq b : inv b → readableBytes b = writerIndex_ b - readerIndex_ b.
Proof. intros Hb. pose proof (size_lt64 b Hb). destruct Hb. apply u64_small. lia. Qed.

Lemma writable_eq b : inv b → writableBytes b = size b - writerIndex_ b.
Proof. intros Hb. pose proof (size_lt64 b Hb). destruct Hb. apply u64_small. lia. Qed.

Lemma zlen_contents b : inv b → zlen (contents b) = writerIndex_ b - readerIndex_ b.
Proof. intros []. unfold contents. apply zlen_zslice; unfold size in *; lia. Qed.

Lemma readable_contents b : inv b → readableBytes b = zlen (contents b).
Proof. intros. by rewrite readable_eq, zlen_contents. Qed.

Lemma inv_retrieveAll b : inv b →
  inv {| b with readerIndex_ := kCheapPrepend; writerIndex_ := kCheapPrepend |}.
Proof.
  intros []. unfold kCheapPrepend in *.
  constructor; unfold size, kCheapPrepend in *; cbn; lia.
Qed.

(** Loads and stores stay inside [buffer_]. *)
Lemma wpe_load o n Q E b : 0 ≤ o → 0 ≤ n → o + n ≤ size b →
  Q (zslice o n (buffer_ b)) b → wpe (load o n) Q E b.
Proof.
  intros. unfold load. wp_simp.
  destruct (Z.leb_spec 0 o), (Z.leb_spec 0 n), (Z.leb_spec (o + n) (size b)); try lia.
  done.
Qed.

Lemma wpe_store o d Q E b : 0 ≤ o → o + zlen d ≤ size b →
  Q tt {| b with buffer_ := zblit o d (buffer_ b) |} → wpe (store o d) Q E b.
Proof.
  intros. unfold store. wp_simp.
  destruct (Z.leb_spec 0 o), (Z.leb_spec (o + zlen d) (size b)); try lia. done.
Qed.

(** *** Consuming *)

Lemma wp_retrieve len b : inv b → 0 ≤ len ≤ zlen (contents b) →
  wp (retrieve len) (λ _ b', inv b' ∧ contents b' = zdrop len (contents b)
                             ∧ size b' = size b) b.
Proof.
  intros Hb Hlen. pose proof (size_lt64 b Hb) as Hs.
  pose proof (readable_contents b Hb) as Hr. pose proof (zlen_contents b Hb) as Hc.
  unfold retrieve, retrieveAll. wp_simp. split; [lia|].
  destruct (Z.ltb_spec len (readableBytes b)).
  - destruct Hb. repeat split; unfold size in *; cbn; u64_lia.
    unfold contents. cbn. u64_lia. unfold zslice, zdrop, ztake.
    rewrite skipn_firstn_comm, drop_drop. repeat f_equal; lia.
  - split; [by apply inv_retrieveAll|]. split; [|done].
    unfold contents at 1, zdrop. cbn. rewrite drop_ge; [done|]. unfold zlen in *. lia.
Qed.

Lemma wp_retrieveAll b : inv b →
  wp retrieveAll (λ _ b', inv b' ∧ contents b' = [] ∧ size b' = size b) b.
Proof. intros Hb. unfold retrieveAll. wp_simp. split; [by apply inv_retrieveAll|done]. Qed.

Lemma contents_prefix b len : inv b → 0 ≤ len ≤ zlen (contents b) →
  zslice (readerIndex_ b) len (buffer_ b) = ztake len (contents b).
Proof.
  intros Hb Hl. rewrite zlen_contents in Hl by done. destruct Hb. unfold contents.
  change (ztake len ?l) with (zslice 0 len l).
  rewrite zslice_zslice by lia. f_equal. lia.
Qed.

Lemma wp_retrieveAsString len b : inv b → 0 ≤ len ≤ zlen (contents b) →
  wp (retrieveAsString len) (λ r b', r = ztake len (contents b) ∧ inv b'
      ∧ contents b' = zdrop len (contents b) ∧ size b' = size b) b.
Proof.
  intros Hb Hlen. pose proof (readable_contents b Hb). pose proof (zlen_contents b Hb).
  unfold retrieveAsString. wp_simp. split; [lia|].
  apply wpe_load; unfold peek; [apply Hb|lia|destruct Hb; lia|]. wp_simp.
  eapply wp_mono; [by apply wp_retrieve|]. intros _ b' (? & ? & ?).
  wp_simp. by rewrite contents_prefix.
Qed.

Lemma wp_retrieveAllAsString b : inv b →
  wp retrieveAllAsString (λ r b', r = contents b ∧ inv b' ∧ contents b' = [] ∧ size b' = size b) b.
Proof.
  intros Hb. unfold retrieveAllAsString. wp_simp. rewrite readable_contents by done.
  pose proof (zlen_nonneg (contents b)).
  eapply wp_mono; [apply wp_retrieveAsString; [done|lia]|].
  intros x b' (-> & ? & Hc & Hs). rewrite Hc, Hs. unfold ztake, zdrop, zlen.
  by rewrite Nat2Z.id, take_ge, drop_ge by lia.
Qed.

(** *** Growing *)

Lemma contents_blit b o d : inv b → 0 ≤ o → o + zlen d ≤ size b →
  writerIndex_ b ≤ o →
  contents {| b with buffer_ := zblit o d (buffer_ b) |} = contents b.
Proof.
  intros [] **. unfold contents, size in *. cbn.
  pose proof (zlen_nonneg d). apply zslice_zblit_before; lia.
Qed.

Definition grow_size (b : Buffer) (len : Z) : Z :=
  if zlen (contents b) + len + kCheapPrepend <=? size b
  then size b else writerIndex_ b + len.

Lemma wpe_makeSpace len b : inv b → writableBytes b < len ≤ max_size →
  wpe (makeSpace len)
    (λ _ b', inv b' ∧ contents b' = contents b ∧ len ≤ writableBytes b'
             ∧ size b' = grow_size b len)
    (λ e b', e = length_error ∧ b' = b ∧ max_size < writerIndex_ b + len) b.
Proof.
  intros Hb Hlen. pose proof (size_lt64 b Hb) as Hs. unfold grow_size.
  rewrite zlen_contents by done.
  rewrite writable_eq in Hlen by done. pose proof Hb as [? ? ? ? ?].
  unfold makeSpace, resize, prependableBytes. wp_simp.
  rewrite writable_eq, readable_eq by done. unfold kCheapPrepend, max_size in *. u64_lia.
  destruct (Z.ltb_spec (size b - writerIndex_ b + readerIndex_ b) (len + 8)).
  - case_cmp; [by split_and!|]. wp_simp. case_cmp; [lia|].
    set (b' := {| b with buffer_ := _ |}).
    assert (Hs' : size b' = writerIndex_ b + len).
    { unfold size, b'. cbn. unfold ztake, zlen. rewrite length_app, length_replicate.
      unfold size, zlen in *. rewrite firstn_all2 by lia. lia. }
    assert (inv b') by (constructor; unfold b', kCheapPrepend, max_size in *; cbn; lia).
    assert (Hw' : writerIndex_ b' = writerIndex_ b) by done.
    split; [done|]. split; [|rewrite writable_eq, Hs', Hw' by done; lia].
    unfold contents, b'. cbn. unfold size in *.
    rewrite zslice_app_l by (unfold ztake, zlen in *; rewrite ?firstn_all2; lia).
    apply zslice_ztake; lia.
  - wp_simp. split; [by apply Z.ltb_lt; lia|]. case_cmp; [|lia].
    apply wpe_load; [lia..|]. wp_simp.
    change (zslice _ _ (buffer_ b)) with (contents b).
    pose proof (zlen_contents b Hb) as Hc.
    apply wpe_store; [unfold kCheapPrepend; lia..|]. wp_simp. cbn.
    set (b' := {| buffer_ := _; readerIndex_ := _; writerIndex_ := _ |}).
    assert (Hs' : size b' = size b).
    { unfold size, b'. cbn. apply zlen_zblit; unfold size in *; lia. }
    assert (inv b') as Hb'.
    { constructor; unfold b', kCheapPrepend, max_size in *; cbn; rewrite ?u64_small by lia; try lia.
      all: unfold b' in Hs'; rewrite Hs'; lia. }
    rewrite readable_eq by done. rewrite writable_eq by done. cbn. u64_lia.
    split; [apply Z.eqb_eq; lia|]. split; [done|]. split; [|cbn in Hs'; rewrite Hs'; lia].
    unfold contents at 1. cbn. u64_lia.
    replace (8 + (writerIndex_ b - readerIndex_ b) - 8) with (zlen (contents b)) by lia.
    apply zslice_zblit_eq; unfold size in *; lia.
Qed.

Definition append_fits (b : Buffer) (len : Z) : Prop :=
  writableBytes b < len → writerIndex_ b + len ≤ max_size.

Lemma wpe_ensureWritableBytes len b : inv b → 0 ≤ len ≤ max_size →
  wpe (ensureWritableBytes len)
    (λ _ b', inv b' ∧ contents b' = contents b ∧ len ≤ writableBytes b'
             ∧ size b' = if writableBytes b <? len then grow_size b len else size b)
    (λ e b', e = length_error ∧ b' = b ∧ max_size < writerIndex_ b + len) b.
Proof.
  intros Hb Hlen. unfold ensureWritableBytes. wp_simp.
  destruct (Z.ltb_spec (writableBytes b) len).
  - eapply wpe_mono; [apply wpe_makeSpace; [done|lia]|..|done]. intros _ b' (? & ? & ? & ?).
    wp_simp. split; [by apply Z.leb_le|done].
  - wp_simp. split; [by apply Z.leb_le|done].
Qed.

(** Writing into the writable area and advancing [writerIndex_] past it. *)
Lemma advance_ok d b : inv b → zlen d ≤ writableBytes b →
  let b' := mkBuffer (zblit (writerIndex_ b) d (buffer_ b)) (readerIndex_ b)
              (writerIndex_ b + zlen d) in
  inv b' ∧ contents b' = contents b ++ d ∧ size b' = size b.
Proof.
  intros Hb Hd b'. pose proof (zlen_nonneg d). rewrite writable_eq in Hd by done.
  pose proof Hb as [? ? ? ? ?].
  assert (Hs : size b' = size b) by (apply zlen_zblit; unfold size in *; lia).
  split; [constructor; rewrite ?Hs; cbn; lia|]. split; [|done].
  unfold contents at 1. cbn.
  replace (writerIndex_ b + zlen d - readerIndex_ b)
    with (writerIndex_ b - readerIndex_ b + zlen d) by lia.
  rewrite zslice_split by lia. f_equal.
  - apply (contents_blit b); done || lia.
  - replace (readerIndex_ b + _) with (writerIndex_ b) by lia.
    apply zslice_zblit_eq; unfold size in *; lia.
Qed.

Lemma wp_commit d b : inv b → zlen d ≤ writableBytes b →
  wp (store (writerIndex_ b) d ;;; hasWritten (zlen d))
    (λ _ b', inv b' ∧ contents b' = contents b ++ d ∧ size b' = size b) b.
Proof.
  intros Hb Hd. pose proof (advance_ok d b Hb Hd) as Hadv.
  pose proof (size_lt64 b Hb). pose proof (zlen_nonneg d). pose proof (writable_eq b Hb).
  pose proof Hb as [? ? ? ? ?]. wp_simp.
  apply wpe_store; [lia..|]. unfold hasWritten. wp_simp.
  set (b1 := {| b with buffer_ := _ |}).
  assert (Hw : writableBytes b1 = writableBytes b).
  { unfold writableBytes. do 2 f_equal. apply zlen_zblit; unfold size in *; lia. }
  rewrite Hw. split; [by apply Z.leb_le|]. cbn. u64_lia. exact Hadv.
Qed.

Lemma wpe_append d b : inv b → zlen d ≤ max_size →
  wpe (append d)
    (λ _ b', inv b' ∧ contents b' = contents b ++ d
             ∧ size b' = if writableBytes b <? zlen d then grow_size b (zlen d) else size b)
    (λ e b', e = length_error ∧ b' = b ∧ max_size < writerIndex_ b + zlen d) b.
Proof.
  intros Hb Hd. pose proof (zlen_nonneg d). unfold append. wp_simp.
  eapply wpe_mono; [apply wpe_ensureWritableBytes; [done|lia]|..|done].
  intros _ b1 (Hb1 & Hc & Hw & Hs). wp_simp.
  apply (wpe_bind (store _ d) (λ _, hasWritten (zlen d))).
  eapply wp_mono; [by apply wp_commit|].
  intros _ b2 (? & -> & ->). by rewrite Hc.
Qed.

Lemma wp_append d b : inv b → writerIndex_ b + zlen d ≤ max_size →
  wp (append d) (λ _ b', inv b' ∧ contents b' = contents b ++ d) b.
Proof.
  intros Hb Hd. pose proof Hb as [? ? ? ? ?].
  eapply wpe_mono; [apply wpe_append; [done|lia]|intros _ b' (? & ? & _); done|].
  cbn. intros e b' (_ & _ & Hbig). lia.
Qed.

Lemma wp_unwrite len b : inv b → 0 ≤ len ≤ zlen (contents b) →
  wp (unwrite len) (λ _ b', inv b' ∧ contents b' = ztake (zlen (contents b) - len) (contents b)
                            ∧ size b' = size b) b.
Proof.
  intros Hb Hlen. pose proof (size_lt64 b Hb). pose proof (readable_contents b Hb).
  pose proof (zlen_contents b Hb) as Hc. pose proof Hb as [? ? ? ? ?].
  unfold unwrite. wp_simp. split; [apply Z.leb_le; lia|]. cbn. u64_lia. split_and!; [|..|done].
  - constructor; cbn; unfold size in *; cbn; lia.
  - rewrite <-contents_prefix by (done || lia). unfold contents at 1. cbn. f_equal. lia.
Qed.

Lemma wp_prepend d b : inv b → zlen d ≤ prependableBytes b →
  wp (prepend d) (λ _ b', inv b' ∧ contents b' = d ++ contents b ∧ size b' = size b
                          ∧ prependableBytes b' = prependableBytes b - zlen d) b.
Proof.
  unfold prependableBytes. intros Hb Hd. pose proof (size_lt64 b Hb) as Hs.
  pose proof (zlen_nonneg d). pose proof Hb as [? ? ? ? ?].
  unfold prepend. wp_simp. split; [by apply Z.leb_le|]. cbn. u64_lia.
  apply wpe_store; cbn; [lia|unfold size in *; cbn; lia|].
  assert (Hs' : zlen (zblit (readerIndex_ b - zlen d) d (buffer_ b)) = size b).
  { apply zlen_zblit; unfold size in *; lia. }
  split_and!; [|..|done|done].
  - constructor; unfold size in *; cbn; lia.
  - unfold contents. cbn.
    replace (writerIndex_ b - (readerIndex_ b - zlen d))
      with (zlen d + (writerIndex_ b - readerIndex_ b)) by lia.
    rewrite zslice_split by lia. f_equal.
    + apply zslice_zblit_eq; unfold size in *; lia.
    + replace (readerIndex_ b - zlen d + zlen d) with (readerIndex_ b) by lia.
      apply zslice_zblit_after; unfold size in *; lia.
Qed.

(** *** Integers in network byte order *)

Section IntegerSpecs.
Context `{HO : HostOrder} {HL : HostOrderLaws}.

Inductive width := W8 | W16 | W32 | W64.

Definition nbytes (w : width) : nat :=
  match w with W8 => 1 | W16 => 2 | W32 => 4 | W64 => 8 end.
Definition bits (w : width) : Z := 8 * Z.of_nat (nbytes w).
Definition appendInt (w : width) : Z → M Buffer unit :=
  match w with
  | W8 => appendInt8 | W16 => appendInt16 | W32 => appendInt32 | W64 => appendInt64
  end.
Definition prependInt (w : width) : Z → M Buffer unit :=
  match w with
  | W8 => prependInt8 | W16 => prependInt16 | W32 => prependInt32 | W64 => prependInt64
  end.
Definition peekInt (w : width) : M Buffer Z :=
  match w with W8 => peekInt8 | W16 => peekInt16 | W32 => peekInt32 | W64 => peekInt64 end.
Definition readInt (w : width) : M Buffer Z :=
  match w with W8 => readInt8 | W16 => readInt16 | W32 => readInt32 | W64 => readInt64 end.

(** The bytes that reach [append] and the value [memcpy] reads back. *)
Lemma encode_bytes n x :
  host_bytes (S n) (wrap (8 * Z.of_nat (S n)) (swrap (8 * Z.of_nat (S n))
    (htobe (S n) (wrap (8 * Z.of_nat (S n)) x)))) = be_bytes (S n) x.
Proof.
  rewrite wrap_swrap by lia. rewrite wrap_small by apply htobe_bound.
  rewrite host_bytes_htobe. apply be_bytes_wrap.
Qed.

Lemma decode_bytes n d : length d = S n →
  betoh (S n) (wrap (8 * Z.of_nat (S n)) (swrap (8 * Z.of_nat (S n)) (host_value d)))
  = be_value d.
Proof.
  intros Hd. rewrite wrap_swrap by lia.
  rewrite wrap_small; [by apply betoh_host_value|].
  pose proof (host_value_bound d) as Hb. unfold zlen in Hb. by rewrite Hd in Hb.
Qed.

Lemma appendInt_append w x : appendInt w x = append (be_bytes (nbytes w) x).
Proof.
  destruct w; [done|..]; cbn [appendInt nbytes];
    unfold appendInt16, appendInt32, appendInt64,
      hostToNetwork16, hostToNetwork32, hostToNetwork64; cbn zeta.
  - by rewrite <-(encode_bytes 1).
  - by rewrite <-(encode_bytes 3).
  - by rewrite <-(encode_bytes 7).
Qed.

Lemma prependInt_prepend w x : prependInt w x = prepend (be_bytes (nbytes w) x).
Proof.
  destruct w; [done|..]; cbn [prependInt nbytes];
    unfold prependInt16, prependInt32, prependInt64,
      hostToNetwork16, hostToNetwork32, hostToNetwork64; cbn zeta.
  - by rewrite <-(encode_bytes 1).
  - by rewrite <-(encode_bytes 3).
  - by rewrite <-(encode_bytes 7).
Qed.

Lemma zslice_one (c : ascii) (l : bytes) : zslice 0 1 (c :: l) = [c].
Proof. done. Qed.

Lemma wp_peekInt w b : inv b → Z.of_nat (nbytes w) ≤ zlen (contents b) →
  wp (peekInt w)
     (λ r b', r = swrap (bits w) (be_value (ztake (Z.of_nat (nbytes w)) (contents b)))
              ∧ b' = b) b.
Proof.
  intros Hb Hl. pose proof (readable_contents b Hb) as Hr.
  pose proof (zlen_contents b Hb) as Hc. pose proof Hb as [? ? ? ? ?].
  assert (Hlen : length (ztake (Z.of_nat (nbytes w)) (contents b)) = nbytes w).
  { unfold ztake, zlen in *. rewrite length_take. lia. }
  destruct w; cbn [peekInt nbytes] in *;
    unfold peekInt8, peekInt16, peekInt32, peekInt64, peek; wp_simp;
    (split; [by apply Z.leb_le; rewrite Hr|]);
    (apply wpe_load; [lia..|]); rewrite contents_prefix by (done || lia).
  - change (Z.of_nat 1) with 1 in *.
    destruct (ztake 1 (contents b)) as [|c [|]] eqn:E; try done. wp_simp.
    exists c. split; [done|]. split; [|done].
    unfold schar, be_value. cbn. by rewrite Z.add_0_r.
  - wp_simp. split; [|done]. unfold networkToHost16. cbn zeta. f_equal.
    apply (decode_bytes 1). exact Hlen.
  - wp_simp. split; [|done]. unfold networkToHost32. cbn zeta. f_equal.
    apply (decode_bytes 3). exact Hlen.
  - wp_simp. split; [|done]. unfold networkToHost64. cbn zeta. f_equal.
    apply (decode_bytes 7). exact Hlen.
Qed.

Lemma readInt_peek_retrieve w :
  readInt w = (let* r := peekInt w in retrieve (Z.of_nat (nbytes w)) ;;; ret r).
Proof. by destruct w. Qed.

Lemma wp_readInt w b : inv b → Z.of_nat (nbytes w) ≤ zlen (contents b) →
  wp (readInt w)
     (λ r b', r = swrap (bits w) (be_value (ztake (Z.of_nat (nbytes w)) (contents b)))
              ∧ inv b' ∧ contents b' = zdrop (Z.of_nat (nbytes w)) (contents b)
              ∧ size b' = size b) b.
Proof.
  intros Hb Hl. rewrite readInt_peek_retrieve. wp_simp.
  eapply wp_mono; [by apply wp_peekInt|]. intros r ? [-> ->]. wp_simp.
  eapply wp_mono; [apply wp_retrieve; [done|lia]|]. intros _ b' (? & ? & ?).
  wp_simp. done.
Qed.
End IntegerSpecs.

(** *** Reading from a descriptor *)

Lemma readFd_room_pos b : inv b → 0 < readFd_room b ≤ writableBytes b + extrabuf_size.
Proof.
  intros Hb. pose proof (size_lt64 b Hb). pose proof Hb as [? ? ? ? ?].
  unfold readFd_room, extrabuf_size. rewrite writable_eq by done. case_cmp; lia.
Qed.

Lemma ztake_zdrop_app {A} n (l : list A) : ztake n l ++ zdrop n l = l.
Proof. apply take_drop. Qed.

Lemma wp_readFd_data readv d b :
  inv b → readv (readFd_room b) = inr d → zlen d ≤ readFd_room b →
  size b + extrabuf_size ≤ max_size →
  wp (readFd readv) (λ r b', r = (zlen d, None) ∧ inv b' ∧ contents b' = contents b ++ d) b.
Proof.
  intros Hb Hr Hd Hmax. pose proof (zlen_nonneg d). pose proof (size_lt64 b Hb).
  pose proof (readFd_room_pos b Hb). pose proof (writable_eq b Hb) as Hw.
  pose proof Hb as [? ? ? ? ?]. unfold readFd. wp_simp. rewrite Hr. wp_simp.
  destruct (Z.leb_spec (zlen d) (writableBytes b)) as [Hle|Hgt].
  - replace (ztake (writableBytes b) d) with d
      by (symmetry; apply take_ge; unfold zlen in *; lia).
    destruct (advance_ok d b) as (? & ? & _); [done..|].
    apply wpe_store; [lia..|]. wp_simp. cbn. u64_lia. done.
  - assert (Ht : zlen (ztake (writableBytes b) d) = writableBytes b) by (apply zlen_ztake; lia).
    destruct (advance_ok (ztake (writableBytes b) d) b) as (Hb1 & Hc1 & Hs1); [done|lia|].
    apply wpe_store; [lia..|]. wp_simp. cbn.
    set (b1 := {| buffer_ := _; readerIndex_ := _; writerIndex_ := _ |}) in *.
    match goal with |- wp _ _ ?b2 => replace b2 with b1 end.
    2:{ unfold b1. f_equal. change (writerIndex_ b + zlen (ztake (writableBytes b) d) = size b1).
        rewrite Hs1. lia. }
    eapply wp_mono.
    + apply wp_append; [done|]. subst b1. cbn [writerIndex_].
      rewrite Ht, zlen_zdrop by lia. lia.
    + intros _ b2 (? & Hc2). wp_simp. split_and!; [done..|].
      rewrite Hc2, Hc1, <-app_assoc. by rewrite ztake_zdrop_app.
Qed.

Lemma wp_readFd_error readv err b :
  readv (readFd_room b) = inl err →
  wp (readFd readv) (λ r b', r = (-1, Some err) ∧ b' = b) b.
Proof. intros Hr. unfold readFd. wp_simp. rewrite Hr. by wp_simp. Qed.

(** ** Refinement of a byte queue

    A client's view: a sequence of bytes.  [queue_step] says what each call
    returns and leaves, and when it may be made; [buffer_step] is the call on
    the concrete object.  Integers go through [appendInt]/[readInt]. *)

Inductive call :=
| CAppend (d : bytes)
| CAppendInt (w : width) (x : Z)
| CPeekInt (w : width)
| CReadInt (w : width)
| CRetrieve (n : Z)
| CRetrieveAll
| CRetrieveAsString (n : Z)
| CRetrieveAllAsString
| CUnwrite (n : Z).

Inductive reply := RUnit | RInt (x : Z) | RString (s : bytes).

Definition in_range (n : Z) (q : bytes) : bool := (0 <=? n) && (n <=? zlen q).

Definition queue_step (c : call) (q : bytes) : option (reply * bytes) :=
  match c with
  | CAppend d => Some (RUnit, q ++ d)
  | CAppendInt w x => Some (RUnit, q ++ be_bytes (nbytes w) x)
  | CPeekInt w =>
      let n := Z.of_nat (nbytes w) in
      if in_range n q then Some (RInt (swrap (bits w) (be_value (ztake n q))), q) else None
  | CReadInt w =>
      let n := Z.of_nat (nbytes w) in
      if in_range n q
      then Some (RInt (swrap (bits w) (be_value (ztake n q))), zdrop n q) else None
  | CRetrieve n => if in_range n q then Some (RUnit, zdrop n q) else None
  | CRetrieveAll => Some (RUnit, [])
  | CRetrieveAsString n =>
      if in_range n q then Some (RString (ztake n q), zdrop n q) else None
  | CRetrieveAllAsString => Some (RString q, [])
  | CUnwrite n => if in_range n q then Some (RUnit, ztake (zlen q - n) q) else None
  end.

Fixpoint queue_run (cs : list call) (q : bytes) : option (list reply * bytes) :=
  match cs with
  | [] => Some ([], q)
  | c :: cs' =>
      '(r, q1) ← queue_step c q; '(rs, q2) ← queue_run cs' q1; Some (r :: rs, q2)
  end.

(** Bytes a call adds. *)
Definition call_growth (c : call) : Z :=
  match c with
  | CAppend d => zlen d
  | CAppendInt w _ => Z.of_nat (nbytes w)
  | _ => 0
  end.
Definition growth (cs : list call) : Z := foldr (λ c n, call_growth c + n) 0 cs.

Section Refinement.
Context `{HO : HostOrder} {HL : HostOrderLaws}.

Definition buffer_step (c : call) : M Buffer reply :=
  match c with
  | CAppend d => append d ;;; ret RUnit
  | CAppendInt w x => appendInt w x ;;; ret RUnit
  | CPeekInt w => let* x := peekInt w in ret (RInt x)
  | CReadInt w => let* x := readInt w in ret (RInt x)
  | CRetrieve n => retrieve n ;;; ret RUnit
  | CRetrieveAll => retrieveAll ;;; ret RUnit
  | CRetrieveAsString n => let* s := retrieveAsString n in ret (RString s)
  | CRetrieveAllAsString => let* s := retrieveAllAsString in ret (RString s)
  | CUnwrite n => unwrite n ;;; ret RUnit
  end.

Fixpoint buffer_run (cs : list call) : M Buffer (list reply) :=
  match cs with
  | [] => ret []
  | c :: cs' => let* r := buffer_step c in let* rs := buffer_run cs' in ret (r :: rs)
  end.

Lemma in_range_spec n q : in_range n q = true ↔ 0 ≤ n ≤ zlen q.
Proof. unfold in_range. rewrite andb_true_iff, !Z.leb_le. done. Qed.

Lemma wp_append_sized d b : inv b → size b + zlen d ≤ max_size →
  wp (append d) (λ _ b', inv b' ∧ contents b' = contents b ++ d
                         ∧ size b' ≤ size b + zlen d) b.
Proof.
  intros Hb Hd. pose proof Hb as [? ? ? ? ?]. pose proof (zlen_nonneg d).
  eapply wpe_mono; [apply wpe_append; [done|lia]|..].
  - intros _ b' (? & ? & ->). split_and!; [done..|].
    unfold grow_size. repeat case_cmp; lia.
  - cbn. intros e b' (_ & _ & Hbig). lia.
Qed.

Lemma buffer_step_ok c b r q :
  inv b → queue_step c (contents b) = Some (r, q) → size b + call_growth c ≤ max_size →
  wp (buffer_step c) (λ r' b', r' = r ∧ inv b' ∧ contents b' = q
                               ∧ size b' ≤ size b + call_growth c) b.
Proof.
  intros Hb Hq Hmax.
  destruct c; cbn [queue_step buffer_step call_growth] in *; cbn zeta in Hq;
    try (destruct (in_range _ _) eqn:Hin; [apply in_range_spec in Hin|done]);
    injection Hq as <- <-; try rewrite appendInt_append; wp_simp.
  - eapply wp_mono; [by apply wp_append_sized|]. intros ? b' (? & ? & ?). by wp_simp.
  - eapply wp_mono; [apply wp_append_sized; [done|by rewrite zlen_be_bytes]|].
    rewrite zlen_be_bytes. intros ? b' (? & ? & ?). by wp_simp.
  - eapply wp_mono; [apply wp_peekInt; [done|lia]|]. intros x ? [-> ->]. wp_simp.
    split_and!; done || lia.
  - eapply wp_mono; [apply wp_readInt; [done|lia]|]. intros x b' (-> & ? & ? & Hs).
    wp_simp. rewrite Hs. split_and!; done || lia.
  - eapply wp_mono; [by apply wp_retrieve|]. intros _ b' (? & ? & Hs). wp_simp. rewrite Hs.
    split_and!; done || lia.
  - eapply wp_mono; [by apply wp_retrieveAll|]. intros _ b' (? & ? & Hs). wp_simp. rewrite Hs.
    split_and!; done || lia.
  - eapply wp_mono; [by apply wp_retrieveAsString|]. intros x b' (-> & ? & ? & Hs).
    wp_simp. rewrite Hs. split_and!; done || lia.
  - eapply wp_mono; [by apply wp_retrieveAllAsString|]. intros x b' (-> & ? & Hc & Hs). wp_simp. rewrite Hc, Hs.
    split_and!; done || lia.
  - eapply wp_mono; [by apply wp_unwrite|]. intros _ b' (? & ? & Hs). wp_simp. rewrite Hs.
    split_and!; done || lia.
Qed.

Lemma call_growth_nonneg c : 0 ≤ call_growth c.
Proof. destruct c; cbn; try apply zlen_nonneg; lia. Qed.
Lemma growth_nonneg cs : 0 ≤ growth cs.
Proof.
  induction cs as [|c cs IH]; [done|]. cbn. pose proof (call_growth_nonneg c).
  unfold growth in IH. lia.
Qed.

(** C1: every sequence of client calls the byte queue allows runs on a
    well-formed Buffer without assertion failure, out-of-bounds access or
    exception, returns the queue's replies and leaves the queue's bytes as
    its readable bytes, provided the vector never needs more than
    [max_size]. *)
Theorem buffer_refines_queue cs b rs q :
  inv b → queue_run cs (contents b) = Some (rs, q) → size b + growth cs ≤ max_size →
  wp (buffer_run cs) (λ rs' b', rs' = rs ∧ inv b' ∧ contents b' = q) b.
Proof.
  revert b rs q. induction cs as [|c cs IH]; intros b rs q Hb Hq Hmax.
  { cbn in Hq. by injection Hq as <- <-. }
  cbn in Hq. destruct (queue_step c (contents b)) as [[r q1]|] eqn:Hc; [|done].
  cbn in Hq. destruct (queue_run cs q1) as [[rs1 q2]|] eqn:Hcs; [|done].
  cbn in Hq. injection Hq as <- <-. cbn [growth foldr] in Hmax.
  change (foldr _ 0 cs) with (growth cs) in Hmax.
  pose proof (growth_nonneg cs).
  cbn [buffer_run]. wp_simp.
  eapply wp_mono; [apply buffer_step_ok; [done..|lia]|].
  intros r' b1 (-> & Hb1 & Hc1 & Hs1). wp_simp.
  eapply wp_mono; [apply IH; [done|by rewrite Hc1|lia]|].
  intros rs' b2 (-> & ? & ?). by wp_simp.
Qed.
End Refinement.

(** C6: [append] never fails an assertion nor leaves [buffer_]; it either
    appends exactly [data] to the readable bytes, reusing the prependable slack
    whenever the readable bytes, [data] and [kCheapPrepend] fit and otherwise
    growing to exactly [writerIndex_ + len], or it throws [length_error] and
    leaves the Buffer as it was. *)
Theorem buffer_append_exact d b : inv b → zlen d ≤ max_size →
  (∃ b', append d b = Ret tt b' ∧ inv b' ∧ contents b' = contents b ++ d
         ∧ size b' = if zlen d <=? size b - writerIndex_ b then size b
                     else if zlen (contents b) + zlen d + kCheapPrepend <=? size b
                     then size b else writerIndex_ b + zlen d)
  ∨ (append d b = Throw length_error b ∧ max_size < writerIndex_ b + zlen d).
Proof.
  intros Hb Hd. pose proof (wpe_append d b Hb Hd) as H. unfold wpe in H.
  rewrite writable_eq in H by done. unfold grow_size in H.
  destruct (append d b) as [[] b'|e b'|f]; [left|right|done].
  - exists b'. destruct H as (? & ? & ->). split_and!; [done..|].
    destruct (Z.ltb_spec (size b - writerIndex_ b) (zlen d)),
      (Z.leb_spec (zlen d) (size b - writerIndex_ b)); done || lia.
  - by destruct H as (-> & -> & ?).
Qed.

Lemma buffer_append_exact_witness :
  let b := mkBuffer (replicate 24 "x"%char) 16 20 in
  ∃ b', append (str "0123456789") b = Ret tt b'
        ∧ contents b' = str "xxxx0123456789" ∧ size b' = 24.
Proof.
  intros b. destruct (buffer_append_exact (str "0123456789") b) as [(b' & Hr & _ & Hc & Hs)|[Hr _]].
  - constructor; vm_compute; congruence.
  - vm_compute. congruence.
  - exists b'. split; [exact Hr|]. split; [rewrite Hc; reflexivity|rewrite Hs; reflexivity].
  - vm_compute in Hr. discriminate Hr.
Defined.

Section LittleEndianWitnesses.
Import LittleEndianHost.

Lemma buffer_refines_queue_witness :
  let b := mkBuffer (replicate 12 "x"%char) 8 8 in
  wp (buffer_run
        [CAppend (str "ab"); CAppendInt W32 (-2); CRetrieve 2; CReadInt W32; CRetrieveAll])
     (λ rs b', rs = [RUnit; RUnit; RUnit; RInt (-2); RUnit] ∧ inv b' ∧ contents b' = []) b.
Proof.
  intros b. apply buffer_refines_queue.
  - constructor; vm_compute; congruence.
  - vm_compute. reflexivity.
  - vm_compute. congruence.
Defined.

End LittleEndianWitnesses.

Lemma append_keeps_prepend d b b' :
  append d b = Ret tt b' → kCheapPrepend ≤ readerIndex_ b → kCheapPrepend ≤ readerIndex_ b'.
Proof.
  unfold append, ensureWritableBytes, when, makeSpace, resize, load, store, hasWritten,
    bind, get, put, modify, assert_, ret, throw, crash.
  intros H Hr. repeat case_match; simplify_eq; cbn in *; lia.
Qed.

(** C15: an integer header prepended to a body is read back unchanged and leaves
    the body, for every width and on either kind of host. *)
Theorem buffer_header_roundtrip `{HO : HostOrder, !HostOrderLaws} w x body b :
  inv b → contents b = [] → kCheapPrepend ≤ prependableBytes b →
  writerIndex_ b + zlen body ≤ max_size →
  - 2 ^ (bits w - 1) ≤ x < 2 ^ (bits w - 1) →
  wp (append body ;;; prependInt w x ;;; readInt w)
     (λ r b', r = x ∧ inv b' ∧ contents b' = body) b.
Proof.
  intros Hb Hc Hp Hmax Hx. wp_simp.
  pose proof (wp_append body b Hb Hmax) as ([] & b1 & Hr & Hb1 & Hc1)%wp_run.
  unfold wpe at 1. rewrite Hr, prependInt_prepend.
  pose proof (append_keeps_prepend _ _ _ Hr Hp) as Hp1. rewrite Hc in Hc1. cbn in Hc1.
  assert (Hn : (0 < nbytes w ≤ 8)%nat) by (destruct w; cbn; lia).
  wp_simp. unfold kCheapPrepend in *.
  eapply wp_mono; [apply wp_prepend; [done|rewrite zlen_be_bytes; unfold prependableBytes; lia]|].
  intros _ b2 (Hb2 & Hc2 & _). rewrite Hc1 in Hc2.
  eapply wp_mono; [apply wp_readInt; [done|]|].
  { rewrite Hc2, zlen_app, zlen_be_bytes. pose proof (zlen_nonneg body). lia. }
  intros r b3 (-> & Hb3 & Hc3 & _). split; [|split; [done|]].
  - rewrite Hc2. unfold ztake. rewrite Nat2Z.id.
    rewrite <-(length_be_bytes (nbytes w) x) at 1.
    rewrite take_app_length, be_value_bytes. fold (bits w).
    rewrite swrap_wrap. apply swrap_small; [unfold bits; lia|done].
  - rewrite Hc3, Hc2. unfold zdrop. rewrite Nat2Z.id.
    rewrite <-(length_be_bytes (nbytes w) x) at 1. apply drop_app_length.
Qed.

Section LittleEndianHeader.
Import LittleEndianHost.

Lemma buffer_header_roundtrip_witness :
  let b := mkBuffer (replicate 12 "x"%char) 8 8 in
  wp (append (str "abc") ;;; prependInt W32 3 ;;; readInt W32)
     (λ r b', r = 3 ∧ inv b' ∧ contents b' = str "abc") b.
Proof.
  intros b. apply buffer_header_roundtrip; try (vm_compute; congruence).
  - constructor; vm_compute; congruence.
  - split; vm_compute; congruence.
Defined.

End LittleEndianHeader.

(** C17: [readFd] on a successful [readv] stores the [n] bytes it delivered, in
    order, after the readable bytes, whether they fit the writable area or
    spill into [extrabuf]; on an error it reports the error number and leaves
    the Buffer unchanged. *)
Theorem buffer_readFd_appends (readv : Z → Z + bytes) b :
  inv b → size b + extrabuf_size ≤ max_size →
  (∀ room d, 0 ≤ room → readv room = inr d → zlen d ≤ room) →
  wp (readFd readv) (λ r b', inv b' ∧
      match readv (readFd_room b) with
      | inl err => r = (-1, Some err) ∧ b' = b
      | inr d => r = (zlen d, None) ∧ contents b' = contents b ++ d
      end) b.
Proof.
  intros Hb Hmax Hread. destruct (readv (readFd_room b)) as [err|d] eqn:Hr.
  - eapply wp_mono; [by apply wp_readFd_error|]. by intros r b' [-> ->].
  - pose proof (readFd_room_pos b Hb).
    eapply wp_mono; [apply wp_readFd_data; eauto with lia|]. by intros r b' (-> & ? & ?).
Qed.

Lemma buffer_readFd_appends_witness :
  let b := mkBuffer (replicate 12 "x"%char) 8 10 in
  let readv room := inr (ztake room (str "yyzz")) in
  wp (readFd readv) (λ r b', inv b' ∧ r = (4, None) ∧ contents b' = str "xxyyzz") b.
Proof.
  intros b readv. apply (buffer_readFd_appends readv b).
  - constructor; vm_compute; congruence.
  - vm_compute. congruence.
  - intros room d Hroom [= <-]. unfold zlen, ztake. rewrite length_take. lia.
Defined.

End Buffer.
