(* ===== verification/CStdlib.v ===== *)
(** * The parts of the C and C++ standard library the sources call

    [std::string::find]/[substr], [std::to_string], [std::stoi], [snprintf]
    into a bounded buffer, and [sprintf] and [sscanf] of one [int], as the
    formats of master_config.json use them. *)

From S2P Require Import Prelude.

(** [time(NULL)]. *)
Class Clock (K : Type) := { sys_time : K → Z * K }.

(** ** [std::string] *)

Fixpoint prefixb (p s : bytes) : bool :=
  match p, s with
  | [], _ => true
  | c :: p', d :: s' => bool_decide (c = d) && prefixb p' s'
  | _ :: _, [] => false
  end.

(** [s.find(p)]: the first position, [None] for [npos]. *)
Fixpoint find (p s : bytes) : option nat :=
  if prefixb p s then Some O
  else match s with
       | [] => None
       | _ :: s' => S <$> find p s'
       end.

(** [s.find(p, pos)]. *)
Definition find_from (p s : bytes) (pos : nat) : option nat :=
  if (length s <? pos)%nat then None else (λ n, pos + n)%nat <$> find p (drop pos s).

Definition contains (p s : bytes) : bool := bool_decide (is_Some (find p s)).

(** [s.substr(pos)] throws when [pos > size()]. *)
Definition substr {T} (s : bytes) (pos : Z) : M T bytes :=
  if (0 <=? pos) && (pos <=? zlen s) then ret (zdrop pos s) else throw out_of_range.

Lemma prefixb_spec p s : prefixb p s = true ↔ ∃ t, s = p ++ t.
Proof.
  revert s. induction p as [|c p IH]; intros s.
  - cbn. split; [eauto|done].
  - destruct s as [|d s]; cbn; [split; [done|by intros [t ?]]|].
    rewrite andb_true_iff, bool_decide_eq_true, IH. split.
    + intros [-> [t ->]]. eauto.
    + intros [t [= -> ->]]. eauto.
Qed.

Lemma find_Some p s n : find p s = Some n →
  ∃ t, drop n s = p ++ t ∧ (n ≤ length s)%nat.
Proof.
  revert n. induction s as [|d s IH]; intros n; cbn.
  - destruct (prefixb p []) eqn:Hp; [|done]. intros [= <-].
    apply prefixb_spec in Hp as [t ->]. eauto.
  - destruct (prefixb p (d :: s)) eqn:Hp.
    + intros [= <-]. apply prefixb_spec in Hp as [t Ht]. exists t. split; [done|lia].
    + destruct (find p s) as [m|] eqn:Hm; [|done]. cbn. intros [= <-].
      destruct (IH m eq_refl) as (t & ? & ?). exists t. cbn. split; [done|lia].
Qed.

(** Single characters: [find] stops at the first occurrence. *)
Lemma find_char_app c (s t : bytes) : c ∉ s → find [c] (s ++ c :: t) = Some (length s).
Proof.
  induction s as [|d s IH]; intros Hs; cbn.
  - by rewrite bool_decide_eq_true_2.
  - apply not_elem_of_cons in Hs as [Hd Hs].
    rewrite bool_decide_eq_false_2 by done. cbn. by rewrite IH.
Qed.

Lemma find_char_None c (s : bytes) : find [c] s = None ↔ c ∉ s.
Proof.
  induction s as [|d s IH]; cbn.
  - split; [intros _; apply not_elem_of_nil|done].
  - rewrite not_elem_of_cons. case_bool_decide; cbn; [split; [done|by intros [??]]|].
    rewrite fmap_None, IH. split; [by split|by intros [??]].
Qed.

(** [snprintf(buf, size, ...)] of the text [s]: what the buffer holds before
    its terminator. *)
Definition snprintf (size : Z) (s : bytes) : bytes := ztake (size - 1) s.

(** ** Decimal output *)

Definition digit (n : Z) : ascii := char_of (48 + n).

(** Digits of [n >= 0], most significant first, before [acc]. *)
Fixpoint dec_digits (fuel : nat) (n : Z) (acc : bytes) : bytes :=
  match fuel with
  | O => acc
  | S f =>
      let acc' := digit (n mod 10) :: acc in
      if n / 10 =? 0 then acc' else dec_digits f (n / 10) acc'
  end.

(** One digit per bit is always enough. *)
Definition dec_fuel (n : Z) : nat := S (Z.to_nat (Z.log2 n)).
Definition dec_nonneg (n : Z) : bytes := dec_digits (dec_fuel n) n [].

Definition to_string (n : Z) : bytes :=
  if n <? 0 then "-"%char :: dec_nonneg (- n) else dec_nonneg n.

(** ** Decimal input: [std::stoi] *)

Definition isspace (c : ascii) : bool :=
  let n := uchar c in (n =? 32) || ((9 <=? n) && (n <=? 13)).
Definition isdigit (c : ascii) : bool := (48 <=? uchar c) && (uchar c <=? 57).
Definition digit_value (c : ascii) : Z := uchar c - 48.

Fixpoint skip_space (s : bytes) : bytes :=
  match s with
  | c :: s' => if isspace c then skip_space s' else s
  | [] => []
  end.

(** The longest run of digits: its value, its length, what follows. *)
Fixpoint scan_digits (s : bytes) (v : Z) (k : nat) : Z * nat * bytes :=
  match s with
  | c :: s' => if isdigit c then scan_digits s' (10 * v + digit_value c) (S k) else (v, k, s)
  | [] => (v, k, [])
  end.

Definition scan_sign (s : bytes) : bool * bytes :=
  match s with
  | "-"%char :: s' => (true, s')
  | "+"%char :: s' => (false, s')
  | _ => (false, s)
  end.

Definition stoi {T} (s : bytes) : M T Z :=
  let '(neg, s1) := scan_sign (skip_space s) in
  let '(v, k, _) := scan_digits s1 0 0 in
  match k with
  | O => throw invalid_argument
  | S _ =>
      let n := if neg then - v else v in
      if (n <? INT_MIN) || (INT_MAX <? n) then throw out_of_range else ret n
  end.

Lemma digit_ok n : 0 ≤ n < 10 → uchar (digit n) = 48 + n.
Proof. intros. unfold digit. rewrite uchar_char_of. apply wrap_small. lia. Qed.

Lemma isdigit_digit n : 0 ≤ n < 10 → isdigit (digit n) = true.
Proof. intros. unfold isdigit. rewrite digit_ok by done. apply andb_true_intro. lia. Qed.

Lemma digit_value_digit n : 0 ≤ n < 10 → digit_value (digit n) = n.
Proof. intros. unfold digit_value. rewrite digit_ok by done. lia. Qed.

Definition digits_only (s : bytes) : Prop := Forall (λ c, isdigit c = true) s.

(** What the digits written for [n] are worth to the scanner. *)
Lemma scan_dec_digits fuel n acc v k :
  0 ≤ n → n < 2 ^ Z.of_nat fuel → (0 < fuel)%nat → 
  ∃ m, (0 < m)%nat ∧ scan_digits (dec_digits fuel n acc) v k
       = scan_digits acc (v * 10 ^ Z.of_nat m + n) (k + m).
Proof.
  revert n acc v k. induction fuel as [|f IH]; intros n acc v k Hn Hf Hpos; [lia|].
  cbn [dec_digits]. pose proof (Z.mod_pos_bound n 10 ltac:(lia)).
  pose proof (Z.div_mod n 10 ltac:(lia)) as Hdm.
  destruct (Z.eqb_spec (n / 10) 0) as [Hz|Hz].
  - exists 1%nat. split; [lia|]. cbn [scan_digits].
    rewrite isdigit_digit, digit_value_digit by done.
    f_equal; [|lia]. change (10 ^ Z.of_nat 1) with 10. lia.
  - assert (0 < n / 10) by (pose proof (Z.div_pos n 10); lia).
    assert (Hf' : n / 10 < 2 ^ Z.of_nat f).
    { rewrite Nat2Z.inj_succ, Z.pow_succ_r in Hf by lia. apply Z.div_lt_upper_bound; lia. }
    assert ((0 < f)%nat) by (destruct f; [cbn in Hf'; lia|lia]).
    destruct (IH (n / 10) (digit (n mod 10) :: acc) v k) as (m & Hm & ->); [lia..|].
    exists (S m). split; [lia|]. cbn [scan_digits].
    rewrite isdigit_digit, digit_value_digit by done. f_equal; [|lia].
    rewrite Nat2Z.inj_succ, Z.pow_succ_r by lia. lia.
Qed.

Lemma dec_fuel_enough n : 0 ≤ n → n < 2 ^ Z.of_nat (dec_fuel n).
Proof.
  intros Hn. unfold dec_fuel. destruct (decide (n = 0)) as [->|]; [done|].
  pose proof (Z.log2_spec n ltac:(lia)) as [_ Hl]. pose proof (Z.log2_nonneg n).
  rewrite Nat2Z.inj_succ, Z2Nat.id by lia. done.
Qed.

Lemma scan_dec_nonneg n t : 0 ≤ n → (∀ c t', t = c :: t' → isdigit c = false) →
  ∃ m, scan_digits (dec_nonneg n ++ t) 0 0 = (n, S m, t).
Proof.
  intros Hn Ht.
  assert (Happ : ∀ f n acc t, dec_digits f n acc ++ t = dec_digits f n (acc ++ t)).
  { clear. induction f as [|f IH]; intros n acc t; cbn; [done|]. case_match; [done|].
    by rewrite IH. }
  unfold dec_nonneg. rewrite Happ. cbn [app].
  destruct (scan_dec_digits (dec_fuel n) n t 0 0) as ([|m] & Hm & ->);
    [done|by apply dec_fuel_enough|unfold dec_fuel; lia|lia|].
  exists m. cbn [Nat.add]. rewrite Z.mul_0_l, Z.add_0_l.
  destruct t as [|c t']; cbn [scan_digits]; [done|]. by rewrite (Ht c t').
Qed.

Lemma dec_digits_only f n acc : 0 ≤ n → digits_only acc → digits_only (dec_digits f n acc).
Proof.
  revert n acc. induction f as [|f IH]; intros n acc Hn Ha; cbn; [done|].
  assert (digits_only (digit (n mod 10) :: acc)).
  { constructor; [|done]. apply isdigit_digit. apply Z.mod_pos_bound. lia. }
  case_match; [done|]. apply IH; [apply Z.div_pos; lia|done].
Qed.

Lemma dec_nonneg_cons n : 0 ≤ n → ∃ c s, dec_nonneg n = c :: s ∧ isdigit c = true.
Proof.
  intros Hn. pose proof (dec_digits_only (dec_fuel n) n [] Hn (Forall_nil_2 _)) as Hd.
  destruct (scan_dec_nonneg n [] Hn) as [m Hm]; [done|]. rewrite app_nil_r in Hm.
  fold (dec_nonneg n) in Hd. destruct (dec_nonneg n) as [|c s]; [done|].
  inversion Hd; subst. eauto.
Qed.

Lemma isdigit_sound c : isdigit c = true → 48 ≤ uchar c ≤ 57.
Proof. unfold isdigit. intros H. zify_bools. lia. Qed.

Lemma digit_not_space c : isdigit c = true → isspace c = false.
Proof.
  intros H%isdigit_sound. unfold isspace. apply orb_false_intro; [lia|].
  apply andb_false_iff. right. lia.
Qed.

Lemma digit_no_sign c s : isdigit c = true → scan_sign (c :: s) = (false, c :: s).
Proof.
  intros H%isdigit_sound. unfold scan_sign.
  destruct c as [[] [] [] [] [] [] [] []]; vm_compute in H; try done; destruct H; done.
Qed.

(** [std::stoi] inverts [std::to_string], whatever follows the number. *)
Lemma stoi_to_string {T} n t (st : T) : INT_MIN ≤ n ≤ INT_MAX →
  (∀ c t', t = c :: t' → isdigit c = false) →
  stoi (to_string n ++ t) st = Ret n st.
Proof.
  intros Hn Ht. unfold stoi, to_string.
  assert (Hr : (n <? INT_MIN) || (INT_MAX <? n) = false).
  { apply orb_false_intro; apply Z.ltb_ge; lia. }
  destruct (Z.ltb_spec n 0) as [Hneg|Hpos].
  - destruct (scan_dec_nonneg (- n) t ltac:(lia) Ht) as [m Hm].
    cbn [app skip_space]. change (isspace "-"%char) with false. cbn [scan_sign].
    rewrite Hm. rewrite Z.opp_involutive, Hr. done.
  - destruct (scan_dec_nonneg n t Hpos Ht) as [m Hm].
    destruct (dec_nonneg_cons n Hpos) as (c & s & Hc & Hd).
    rewrite Hc in *. cbn [app skip_space]. rewrite digit_not_space by done.
    rewrite digit_no_sign by done. cbn [app] in Hm. rewrite Hm, Hr. done.
Qed.

Lemma to_string_inj m n : INT_MIN ≤ m ≤ INT_MAX → INT_MIN ≤ n ≤ INT_MAX →
  to_string m = to_string n → m = n.
Proof.
  intros Hm Hn E. pose proof (stoi_to_string m [] tt Hm ltac:(done)) as H1.
  pose proof (stoi_to_string n [] tt Hn ltac:(done)) as H2. rewrite E in H1. congruence.
Qed.

Lemma length_dec_digits fuel : ∀ n acc (k : nat), 0 ≤ n < 10 ^ Z.of_nat (S k) →
  (length (dec_digits fuel n acc) ≤ S k + length acc)%nat.
Proof.
  induction fuel as [|f IH]; intros n acc k Hn; cbn [dec_digits]; [lia|].
  destruct (Z.eqb_spec (n / 10) 0) as [|Hd]; [cbn; lia|].
  destruct k as [|k].
  { destruct Hd. apply Z.div_small. change (10 ^ Z.of_nat 1) with 10 in Hn. lia. }
  rewrite (IH _ _ k); [cbn; lia|]. split; [apply Z.div_pos; lia|].
  apply Z.div_lt_upper_bound; [lia|]. rewrite <-Z.pow_succ_r by lia.
  replace (Z.succ (Z.of_nat (S k))) with (Z.of_nat (S (S k))) by lia. lia.
Qed.

(** A non-negative [int] prints in at most ten digits. *)
Lemma zlen_to_string n : 0 ≤ n ≤ INT_MAX → zlen (to_string n) ≤ 10.
Proof.
  intros Hn. unfold to_string, dec_nonneg, zlen. rewrite (proj2 (Z.ltb_ge _ _)) by lia.
  pose proof (length_dec_digits (dec_fuel n) n [] 9). unfold INT_MAX in Hn.
  change (10 ^ Z.of_nat 10) with 10000000000 in *. cbn [length] in *. lia.
Qed.

Lemma snprintf_fits size s : zlen s < size → snprintf size s = s.
Proof. intros. unfold snprintf, ztake, zlen in *. apply take_ge. lia. Qed.

(** ** Formatted output and input of one [int]

    The formats of the program hold literal text and one [%i] or [%d] (or [%u]
    of a non-negative number).  [None] stands for undefined behaviour, a
    conversion without an argument, and for the conversions that are not
    modelled. *)

Definition is_conv (c : ascii) : bool :=
  bool_decide (c = "i"%char) || bool_decide (c = "d"%char) || bool_decide (c = "u"%char).

(** [sprintf(buf, fmt, n)]; [arg] is the argument not yet consumed. *)
Fixpoint sprintf_int (fmt : bytes) (arg : option Z) : option bytes :=
  match fmt with
  | [] => Some []
  | c :: fmt' =>
      if bool_decide (c = "%"%char) then
        match fmt' with
        | d :: fmt'' =>
            if bool_decide (d = "%"%char) then (cons d) <$> sprintf_int fmt'' arg
            else if is_conv d then
              match arg with
              | Some n => (app (to_string n)) <$> sprintf_int fmt'' None
              | None => None
              end
            else None
        | [] => None
        end
      else (cons c) <$> sprintf_int fmt' arg
  end.

Definition hex_value (c : ascii) : option Z :=
  let n := uchar c in
  if isdigit c then Some (n - 48)
  else if (97 <=? n) && (n <=? 102) then Some (n - 87)
  else if (65 <=? n) && (n <=? 70) then Some (n - 55) else None.

Fixpoint scan_base (base : Z) (s : bytes) (v : Z) (k : nat) : Z * nat :=
  match s with
  | c :: s' =>
      match hex_value c with
      | Some d => if d <? base then scan_base base s' (base * v + d) (S k) else (v, k)
      | None => (v, k)
      end
  | [] => (v, k)
  end.

(** The base [%i] takes from the prefix of the number. *)
Definition scan_prefix (s : bytes) : Z * bytes :=
  match s with
  | "0"%char :: "x"%char :: s' | "0"%char :: "X"%char :: s' => (16, s')
  | "0"%char :: _ => (8, s)
  | _ => (10, s)
  end.

(** What a conversion [c] assigns, read from [s]. *)
Definition scan_conv (c : ascii) (s : bytes) : option Z :=
  let '(neg, s1) := scan_sign (skip_space s) in
  let '(base, s2) := if bool_decide (c = "i"%char) then scan_prefix s1 else (10, s1) in
  match scan_base base s2 0 0 with
  | (_, O) => None
  | (v, S _) => Some (swrap 32 (if neg then - v else v))
  end.

(** [sscanf(s, fmt, &n)]: the value assigned to [n], if the match gets so far. *)
Fixpoint sscanf_int (fmt s : bytes) : option Z :=
  match fmt with
  | [] => None
  | c :: fmt' =>
      if bool_decide (c = "%"%char) then
        match fmt' with
        | d :: _ => if is_conv d then scan_conv d s else None
        | [] => None
        end
      else if isspace c then sscanf_int fmt' (skip_space s)
      else match s with
           | c' :: s' => if bool_decide (c = c') then sscanf_int fmt' s' else None
           | [] => None
           end
  end.

(** Literal text of a format. *)
Definition literal_char (c : ascii) : bool := negb (bool_decide (c = "%"%char)) && negb (isspace c).

Lemma sprintf_literal l fmt arg : forallb literal_char l = true →
  sprintf_int (l ++ fmt) arg = (app l) <$> sprintf_int fmt arg.
Proof.
  induction l as [|c l IH]; cbn -[bool_decide]; intros Hl; [by destruct (sprintf_int fmt arg)|].
  apply andb_prop in Hl as [[Hc _]%andb_prop Hl]. apply negb_true_iff in Hc. rewrite Hc.
  rewrite IH by done. by destruct (sprintf_int fmt arg).
Qed.

Lemma sscanf_literal l fmt s : forallb literal_char l = true →
  sscanf_int (l ++ fmt) (l ++ s) = sscanf_int fmt s.
Proof.
  induction l as [|c l IH]; cbn -[bool_decide]; intros Hl; [done|].
  apply andb_prop in Hl as [[Hc Hs]%andb_prop Hl].
  apply negb_true_iff in Hc. apply negb_true_iff in Hs. rewrite Hc, Hs.
  rewrite bool_decide_true by done. by apply IH.
Qed.

Lemma hex_value_dec c : isdigit c = true → hex_value c = Some (digit_value c) ∧ 0 ≤ digit_value c < 10.
Proof.
  intros H. unfold hex_value, digit_value. rewrite H. apply isdigit_sound in H. split; [done|lia].
Qed.

(** In base ten the two scanners agree up to the first character that is not a digit. *)
Lemma scan_base_digits ds : ∀ t v k, digits_only ds → (∀ c t', t = c :: t' → isdigit c = false) →
  scan_base 10 (ds ++ t) v k = (scan_digits (ds ++ t) v k).1.
Proof.
  induction ds as [|c ds IH]; intros t v k Hd Ht; cbn [app].
  - destruct t as [|c t']; [done|]. cbn. rewrite (Ht c t') by done. unfold hex_value.
    rewrite (Ht c t') by done. repeat case_match; try done; zify_bools; simplify_eq; try lia.
  - inversion Hd as [|? ? Hc Hds]; subst. cbn [scan_base scan_digits].
    destruct (hex_value_dec c Hc) as [-> Hb]. rewrite Hc.
    rewrite (proj2 (Z.ltb_lt _ _)) by lia. by apply IH.
Qed.

Lemma dec_digits_head fuel : ∀ n acc, 0 < n → n < 2 ^ Z.of_nat fuel →
  ∃ d s, dec_digits fuel n acc = digit d :: s ∧ 0 < d < 10.
Proof.
  induction fuel as [|f IH]; intros n acc Hn Hf; [cbn in Hf; lia|]. cbn [dec_digits].
  destruct (Z.eqb_spec (n / 10) 0) as [Hz|Hz].
  - apply Z.div_small_iff in Hz as [|]; [|lia|lia]. rewrite Z.mod_small by lia. eauto with lia.
  - rewrite Nat2Z.inj_succ, Z.pow_succ_r in Hf by lia. pose proof (Z.div_pos n 10).
    apply IH; [lia|]. apply Z.div_lt_upper_bound; lia.
Qed.

(** [%i] reads back the decimal text of a positive [int]. *)
Lemma scan_conv_i n t : 0 < n ≤ INT_MAX → (∀ c t', t = c :: t' → isdigit c = false) →
  scan_conv "i" (to_string n ++ t) = Some n.
Proof.
  intros Hn Ht. unfold to_string. rewrite (proj2 (Z.ltb_ge _ _)) by lia.
  destruct (dec_digits_head (dec_fuel n) n [] ltac:(lia) ltac:(apply dec_fuel_enough; lia)) as (d & s & Hd & Hr).
  destruct (scan_dec_nonneg n t ltac:(lia) Ht) as [m Hm].
  assert (digits_only (dec_nonneg n)) as Hdo by (apply dec_digits_only; [lia|constructor]).
  unfold dec_nonneg in *. rewrite Hd in *.
  pose proof (isdigit_digit d ltac:(lia)) as Hdig.
  unfold scan_conv. cbn [app skip_space]. rewrite digit_not_space, digit_no_sign by done.
  rewrite bool_decide_true by done.
  assert (scan_prefix (digit d :: s ++ t) = (10, digit d :: s ++ t)) as ->.
  { pose proof (digit_ok d ltac:(lia)) as Hu. unfold scan_prefix.
    assert (digit d ≠ "0"%char) as Hne by (intros E; rewrite E in Hu; change (uchar "0"%char) with 48 in Hu; lia).
    destruct (digit d) as [[] [] [] [] [] [] [] []]; done. }
  pose proof (scan_base_digits (digit d :: s) t 0 0 Hdo Ht) as Hs. cbn [app] in Hs, Hm.
  rewrite Hs, Hm. cbn -[swrap].
  rewrite swrap_small; [done|lia|unfold INT_MAX in *; lia].
Qed.

(** A format [l%ir]: [sscanf] with the same format reads back what [sprintf]
    printed, whatever text follows. *)
Lemma sscanf_sprintf l r n t : forallb literal_char l = true → forallb literal_char r = true →
  (∀ c t', r ++ t = c :: t' → isdigit c = false) → 0 < n ≤ INT_MAX →
  sprintf_int (l ++ str "%i" ++ r) (Some n) = Some (l ++ to_string n ++ r) ∧
  sscanf_int (l ++ str "%i" ++ r) ((l ++ to_string n ++ r) ++ t) = Some n.
Proof.
  intros Hl Hr Ht Hn. split.
  - rewrite sprintf_literal by done. change (str "%i" ++ r) with ("%"%char :: "i"%char :: r). cbn -[to_string].
    assert (sprintf_int r None = Some r) as ->; [|done].
    pose proof (sprintf_literal r [] None Hr) as E. by rewrite app_nil_r in E; cbn in E; rewrite app_nil_r in E.
  - rewrite <-!app_assoc, sscanf_literal by done.
    change (str "%i" ++ r) with ("%"%char :: "i"%char :: r). cbn -[to_string scan_conv].
    by apply scan_conv_i.
Qed.
