(* ===== verification/PzmqData.v ===== *)
(** * ZMQ messages and the two-parameter encoding
    (hybrid-comm/include/pzmq_data.h, hybrid-comm/src/pzmq_data.cpp)

    A [pzmq_data] owns a [zmq_msg_t], here its bytes.  [set_param] packs two
    strings behind a one-byte length kept in a [char]; [get_param] reads that
    byte back as a signed [char], so it splits correctly exactly when the first
    string has at most 127 bytes. *)

From S2P Require Import Prelude.

Module PzmqData.

Record pzmq_data := mkData { msg : bytes }.

Definition string_ (d : pzmq_data) : bytes := msg d.
Definition size (d : pzmq_data) : Z := zlen (msg d).

(** [std::string::max_size()] in libstdc++ on a 64-bit host. *)
Definition max_string : Z := 2 ^ 62 - 1.

(** [std::string(mem + off, static_cast<size_t>(count))]: the length check comes
    first; copying outside [mem] is undefined. *)
Definition string_at {T} (mem : bytes) (off count : Z) : M T bytes :=
  let n := u64 count in
  if max_string <? n then throw length_error
  else if (0 <=? off) && (off + n <=? zlen mem) then ret (zslice off n mem)
  else crash Undefined.

(** [get_param(index, idata)]; [idata] is NUL-terminated, the message is not. *)
Definition get_param {T} (d : pzmq_data) (index : Z) (idata : bytes) : M T bytes :=
  let '(mem, size) :=
    if 0 <? zlen idata then (idata ++ ["000"%char], swrap 32 (zlen idata))
    else (msg d, swrap 32 (zlen (msg d))) in
  let* c := deref (head mem) in
  let data0 := schar c in
  if Z.rem index 2 =? 0 then string_at mem 1 data0
  else string_at mem (data0 + 1) (size - data0 - 1).

Definition set_param (param0 param1 : bytes) : bytes :=
  let data := str " " ++ param0 ++ param1 in
  <[0%nat := char_of (zlen param0)]> data.

(** ** Specification *)

Lemma set_param_cons p0 p1 : set_param p0 p1 = char_of (zlen p0) :: p0 ++ p1.
Proof. done. Qed.

Lemma zlen_set_param p0 p1 : zlen (set_param p0 p1) = 1 + zlen (p0 ++ p1).
Proof. rewrite set_param_cons. apply zlen_cons. Qed.

(** The length byte as [get_param] reads it. *)
Definition split_at (p0 : bytes) : Z := swrap 8 (zlen p0).

(** Where a packet sits when [get_param] reads it: in the message, or in [idata]. *)
Definition packed_in (d : pzmq_data) (idata packet : bytes) : Prop :=
  (idata = [] ∧ msg d = packet) ∨ idata = packet.

Lemma string_at_fits {T} mem off count (s : T) :
  0 ≤ off → 0 ≤ count → off + count ≤ zlen mem → zlen mem ≤ max_string →
  string_at mem off count s = Ret (zslice off count mem) s.
Proof.
  intros. unfold string_at, max_string in *. rewrite u64_small by lia.
  repeat (case_cmp; try lia). done.
Qed.

Lemma string_at_negative {T} mem off count (s : T) :
  - 2 ^ 31 ≤ count < 0 → string_at mem off count s = Throw length_error s.
Proof.
  intros. unfold string_at, u64, wrap, max_string.
  rewrite <-(Z.mod_add _ 1), Z.mod_small by lia. case_cmp; [done|lia].
Qed.

Lemma get_param_mem {T} d index idata p0 p1 (s : T) :
  packed_in d idata (set_param p0 p1) → zlen (p0 ++ p1) < 2 ^ 31 - 1 →
  ∃ tail, get_param d index idata s =
    (if Z.rem index 2 =? 0
     then string_at (set_param p0 p1 ++ tail) 1 (split_at p0)
     else string_at (set_param p0 p1 ++ tail) (split_at p0 + 1)
            (zlen (p0 ++ p1) - split_at p0)) s ∧ zlen tail ≤ 1.
Proof.
  intros Hp Hl. pose proof (zlen_nonneg (p0 ++ p1)) as Hnn.
  assert (Hsz : swrap 32 (zlen (set_param p0 p1)) = zlen (p0 ++ p1) + 1).
  { rewrite zlen_set_param. rewrite swrap_small; lia. }
  assert (Hif : ∀ t : bytes, zlen (set_param p0 p1) = zlen t → (0 <? zlen t) = true).
  { intros t <-. rewrite zlen_set_param. apply Z.ltb_lt. lia. }
  assert (Hh : ∀ t, head (set_param p0 p1 ++ t) = Some (char_of (zlen p0))) by done.
  assert (Hend : zlen (p0 ++ p1) + 1 - split_at p0 - 1 = zlen (p0 ++ p1) - split_at p0) by lia.
  unfold get_param, bind, deref. destruct Hp as [[-> ->]| ->].
  - exists []. split; [|done]. change (0 <? zlen []) with false. cbv iota beta zeta.
    rewrite <-(app_nil_r (set_param p0 p1)) at 1. rewrite Hh, Hsz, app_nil_r.
    rewrite schar_char_of. fold (split_at p0). rewrite Hend. by case_match.
  - exists ["000"%char]. split; [|done]. rewrite (Hif _ eq_refl). cbv iota beta zeta.
    rewrite Hh, Hsz, schar_char_of. fold (split_at p0). rewrite Hend. by case_match.
Qed.

Lemma split_at_small p0 : zlen p0 ≤ 127 → split_at p0 = zlen p0.
Proof. intros. pose proof (zlen_nonneg p0). apply swrap_small; lia. Qed.

Lemma split_at_bound p0 : - 128 ≤ split_at p0 ≤ 127 ∧ split_at p0 ≤ zlen p0.
Proof.
  pose proof (zlen_nonneg p0). pose proof (wrap_bound 8 (zlen p0) ltac:(lia)).
  pose proof (Z.mod_le (zlen p0) (2 ^ 8)). unfold split_at, swrap, wrap in *.
  change (2 ^ 8) with 256 in *. change (2 ^ (8 - 1)) with 128 in *. case_cmp; lia.
Qed.

Lemma zslice_tail {A} k (c : A) (l t : list A) : 0 ≤ k ≤ zlen l →
  zslice (k + 1) (zlen l - k) ((c :: l) ++ t) = zdrop k l.
Proof.
  intros. rewrite zslice_app_l by (rewrite ?zlen_cons; lia).
  unfold zslice, zdrop, ztake. rewrite Z2Nat.inj_add by lia.
  change (Z.to_nat 1) with 1%nat. rewrite Nat.add_1_r. cbn [drop].
  apply take_ge. rewrite length_drop. unfold zlen in *. lia.
Qed.

Lemma zslice_head {A} k (c : A) (l t : list A) : 0 ≤ k ≤ zlen l →
  zslice 1 k ((c :: l) ++ t) = ztake k l.
Proof.
  intros. rewrite zslice_app_l by (rewrite ?zlen_cons; lia). done.
Qed.

(** Reading a packet back, on both sides of the sign of its length byte. *)
Lemma get_param_packet {T} d idata p0 p1 (s : T) :
  packed_in d idata (set_param p0 p1) → zlen (p0 ++ p1) < 2 ^ 31 - 1 →
  let k := split_at p0 in
  (0 ≤ k → get_param d 0 idata s = Ret (ztake k (p0 ++ p1)) s
           ∧ get_param d 1 idata s = Ret (zdrop k (p0 ++ p1)) s)
  ∧ (k < 0 → get_param d 0 idata s = Throw length_error s)
  ∧ (k < -1 → get_param d 1 idata s = Crash Undefined).
Proof.
  intros Hp Hl k. pose proof (split_at_bound p0) as [Hk1 Hk2]. fold k in Hk1, Hk2.
  pose proof (zlen_nonneg p1). pose proof (zlen_app p0 p1) as Happ.
  destruct (get_param_mem d 0 idata p0 p1 s) as (t0 & -> & Ht0); [done..|].
  destruct (get_param_mem d 1 idata p0 p1 s) as (t1 & -> & Ht1); [done..|].
  fold k. cbn [Z.rem Z.eqb]. change (Z.rem 0 2 =? 0) with true. change (Z.rem 1 2 =? 0) with false.
  pose proof (zlen_nonneg t0). pose proof (zlen_nonneg t1).
  assert (Hm : ∀ t, zlen (set_param p0 p1 ++ t) = 1 + zlen (p0 ++ p1) + zlen t).
  { intros t. by rewrite zlen_app, zlen_set_param. }
  split_and!; intros Hk.
  - rewrite !string_at_fits by (rewrite ?Hm; unfold max_string; lia).
    rewrite set_param_cons. split; [rewrite zslice_head by lia|rewrite zslice_tail by lia]; done.
  - apply string_at_negative. lia.
  - unfold string_at, max_string. rewrite u64_small by lia.
    case_cmp; [lia|]. case_cmp; [lia|done].
Qed.

(** C18: packing two strings and reading them back, from the message or from
    [idata], recovers both exactly when the first has at most 127 bytes. *)
Theorem param_roundtrip_iff {T} d idata p0 p1 (s : T) :
  packed_in d idata (set_param p0 p1) → zlen (p0 ++ p1) < 2 ^ 31 - 1 →
  (get_param d 0 idata s = Ret p0 s ∧ get_param d 1 idata s = Ret p1 s)
  ↔ zlen p0 ≤ 127.
Proof.
  intros Hp Hl. destruct (get_param_packet d idata p0 p1 s Hp Hl) as (Hpos & Hneg & _).
  pose proof (split_at_bound p0) as [Hb ?]. pose proof (zlen_app p0 p1).
  pose proof (zlen_nonneg p1). split.
  - intros [Hz _]. destruct (decide (0 ≤ split_at p0)) as [Hk|Hk].
    + destruct (Hpos Hk) as [H0' _]. rewrite H0' in Hz. injection Hz as Hz.
      apply (f_equal zlen) in Hz. rewrite zlen_ztake in Hz by lia. lia.
    + rewrite Hneg in Hz by lia. done.
  - intros Hle. rewrite (split_at_small p0 Hle) in *.
    destruct Hpos as [-> ->]; [apply zlen_nonneg|].
    unfold ztake, zdrop, zlen. rewrite Nat2Z.id. by rewrite take_app_length, drop_app_length.
Qed.

Lemma param_roundtrip_iff_witness :
  let p := set_param (str "ipc:///tmp/llm/5010.sock") (str "{}") in
  get_param (mkData p) 0 [] tt = Ret (str "ipc:///tmp/llm/5010.sock") tt
  ∧ get_param (mkData p) 1 [] tt = Ret (str "{}") tt.
Proof.
  intros p. apply (param_roundtrip_iff (mkData p) []).
  - left. split; reflexivity.
  - vm_compute. congruence.
  - vm_compute. congruence.
Defined.

(** A first string of 128 to 254 bytes makes the length byte negative: reading
    parameter 0 throws [length_error] and reading parameter 1 starts before the
    packet, which is undefined behaviour. *)
Theorem param_long_head_undefined {T} d idata p0 p1 (s : T) :
  packed_in d idata (set_param p0 p1) → zlen (p0 ++ p1) < 2 ^ 31 - 1 →
  128 ≤ zlen p0 ≤ 254 →
  get_param d 0 idata s = Throw length_error s ∧ get_param d 1 idata s = Crash Undefined.
Proof.
  intros Hp Hl Hlen. destruct (get_param_packet d idata p0 p1 s Hp Hl) as (_ & H0 & H1).
  assert (split_at p0 = zlen p0 - 256) as Hk.
  { unfold split_at, swrap. rewrite wrap_small by lia. case_cmp; lia. }
  split; [apply H0|apply H1]; lia.
Qed.

Lemma param_long_head_undefined_witness :
  let p0 := replicate 130 "u"%char in
  get_param (mkData (set_param p0 (str "x"))) 0 [] tt = Throw length_error tt
  ∧ get_param (mkData (set_param p0 (str "x"))) 1 [] tt = Crash Undefined.
Proof.
  intros p0. apply (param_long_head_undefined (mkData (set_param p0 (str "x"))) [] p0 (str "x")).
  - left. split; reflexivity.
  - vm_compute. congruence.
  - split; vm_compute; congruence.
Defined.

End PzmqData.
