(* ===== verification/StackFlowUtil.v ===== *)
(** * StackFlow utilities
    (infra-controller/include/StackFlowUtil.h, infra-controller/src/StackFlowUtil.cpp)

    The hand-written JSON field extractor, the ["unit.number"] work ids, the
    UTF-8 encoder and the reassembly of streamed text. *)

From S2P Require Import Prelude.
From S2P Require Import CStdlib.

Module StackFlowUtil.

Definition WORK_ID_NONE : Z := -100.

(** ** [sample_json_str_get] *)

Record scan := mkScan {
  key_val : bytes;
  status : Z;
  last_c : ascii;
  obj_flage : Z;
}.

Definition scan_init : scan := mkScan [] 0 "000"%char 0.

Definition push (s : scan) (c : ascii) : scan := {| s with key_val := key_val s ++ [c] |}.

(** The body of the [for] loop: one character. *)
Definition scan_step (s : scan) (c : ascii) : scan :=
  let s' :=
    if status s =? 0 then
      match c with
      | "034"%char => {| s with status := 100 |}
      | "{"%char => let s := push s c in {| s with obj_flage := 1; status := 10 |}
      | ":"%char => {| s with obj_flage := 1 |}
      | ","%char | "}"%char => {| s with obj_flage := 0; status := -1 |}
      | " "%char => s
      | _ => if obj_flage s =? 0 then s else push s c
      end
    else if status s =? 10 then
      let s := push s c in
      let s := if bool_decide (c = "{"%char)
               then {| s with obj_flage := obj_flage s + 1 |} else s in
      let s := if bool_decide (c = "}"%char)
               then {| s with obj_flage := obj_flage s - 1 |} else s in
      if obj_flage s =? 0
      then (if bool_decide (key_val s = []) then s else {| s with status := -1 |})
      else s
    else if status s =? 100 then
      if bool_decide (c = dquote) && negb (bool_decide (last_c s = "\"%char))
      then {| s with obj_flage := 0; status := -1 |}
      else push s c
    else s in
  {| s' with last_c := c |}.

Definition scan_all (text : bytes) (s : scan) : scan := foldl scan_step s text.

Definition scan_result (s : scan) : bytes :=
  if obj_flage s =? 0 then key_val s else [].

Definition quoted (k : bytes) : bytes := [dquote] ++ k ++ [dquote].

(** [int subs_start = json_str.find(find_key)] narrows the position to [int]. *)
Definition sample_json_str_get {T} (json_str json_key : bytes) : M T bytes :=
  let find_key := quoted json_key in
  match find find_key json_str with
  | None => ret []
  | Some pos =>
      let subs_start := swrap 32 (Z.of_nat pos) in
      if subs_start =? -1 then ret []
      else
        let* rest := substr json_str (u64 (subs_start + zlen find_key)) in
        ret (scan_result (scan_all rest scan_init))
  end.

(** ** Work ids *)

Definition sample_get_work_id_num {T} (work_id : bytes) : M T Z :=
  match find (str ".") work_id with
  | None => ret WORK_ID_NONE
  | Some a =>
      if Z.of_nat a =? zlen work_id - 1 then ret WORK_ID_NONE
      else let* rest := substr work_id (Z.of_nat a + 1) in stoi rest
  end.

Definition sample_get_work_id_name (work_id : bytes) : bytes :=
  match find (str ".") work_id with
  | None => work_id
  | Some a => take a work_id
  end.

Definition sample_get_work_id (work_id_num : Z) (unit_name : bytes) : bytes :=
  unit_name ++ str "." ++ to_string work_id_num.

(** ** [unicode_to_utf8]: the bytes written to [output]; [*length] is their number. *)
Definition unicode_to_utf8 (codepoint : Z) : bytes :=
  if codepoint <=? 0x7F then [char_of (Z.land codepoint 0x7F)]
  else if codepoint <=? 0x7FF then
    [char_of (Z.lor 0xC0 (Z.land (Z.shiftr codepoint 6) 0x1F));
     char_of (Z.lor 0x80 (Z.land codepoint 0x3F))]
  else if codepoint <=? 0xFFFF then
    [char_of (Z.lor 0xE0 (Z.land (Z.shiftr codepoint 12) 0x0F));
     char_of (Z.lor 0x80 (Z.land (Z.shiftr codepoint 6) 0x3F));
     char_of (Z.lor 0x80 (Z.land codepoint 0x3F))]
  else if codepoint <=? 0x10FFFF then
    [char_of (Z.lor 0xF0 (Z.land (Z.shiftr codepoint 18) 0x07));
     char_of (Z.lor 0x80 (Z.land (Z.shiftr codepoint 12) 0x3F));
     char_of (Z.lor 0x80 (Z.land (Z.shiftr codepoint 6) 0x3F));
     char_of (Z.lor 0x80 (Z.land codepoint 0x3F))]
  else [].

(** ** [decode_stream]

    The state is the caller's [out] and its [stream_buff]. *)
Record stream := mkStream { out : bytes; stream_buff : gmap Z bytes }.

(** [for (i = 0; i < n; i++) out += stream_buff.at(i)]. *)
Fixpoint append_chunks (n : nat) (i : Z) : M stream unit :=
  match n with
  | O => ret tt
  | S n' =>
      let* st := get in
      let* d := at_ (stream_buff st !! i) in
      modify (λ st, {| st with out := out st ++ d |}) ;;;
      append_chunks n' (i + 1)
  end.

Definition decode_stream (in_ : bytes) : M stream bool :=
  let* idx := sample_json_str_get in_ (str "index") in
  let* index := stoi idx in
  let* finish := sample_json_str_get in_ (str "finish") in
  let* delta := sample_json_str_get in_ (str "delta") in
  modify (λ st, {| st with stream_buff := <[index := delta]> (stream_buff st) |}) ;;;
  if contains (str "f") finish then ret true
  else
    let* st := get in
    append_chunks (size (stream_buff st)) 0 ;;;
    modify (λ st, {| st with stream_buff := ∅ |}) ;;;
    ret false.

(** ** What [sample_json_str_get] extracts *)

(** Text of a string value after its opening quote: every quote inside is
    preceded by a backslash, and the last character is not a backslash. *)
Fixpoint string_body (last : ascii) (v : bytes) : bool :=
  match v with
  | [] => negb (bool_decide (last = "\"%char))
  | c :: v' =>
      negb (bool_decide (c = dquote) && negb (bool_decide (last = "\"%char)))
      && string_body c v'
  end.

(** Text of an object after its opening brace: the brace depth, counted over all
    characters, returns to 0 exactly at the end. *)
Fixpoint object_body (depth : nat) (v : bytes) : bool :=
  match v with
  | [] => false
  | c :: v' =>
      let depth' := if bool_decide (c = "{"%char) then S depth
                    else if bool_decide (c = "}"%char) then pred depth else depth in
      match depth' with
      | O => bool_decide (v' = [])
      | S _ => object_body depth' v'
      end
  end.

(** Characters of a number or keyword. *)
Definition bare_char (c : ascii) : bool :=
  negb (bool_decide (c ∈ [dquote; "{"%char; ":"%char; ","%char; "}"%char; " "%char])).

Definition spaces (n : nat) : bytes := replicate n " "%char.

(** [field_text raw v]: after a key's closing quote, [raw] starts with a value
    whose extraction is [v]. *)
Inductive field_text : bytes → bytes → Prop :=
| FieldString n m v rest :
    string_body dquote v = true →
    field_text (spaces n ++ str ":" ++ spaces m ++ [dquote] ++ v ++ [dquote] ++ rest) v
| FieldObject n m v rest :
    object_body 1 v = true →
    field_text (spaces n ++ str ":" ++ spaces m ++ str "{" ++ v ++ rest) (str "{" ++ v)
| FieldBare n m p v stop rest :
    forallb bare_char v = true → stop = ","%char ∨ stop = "}"%char →
    field_text (spaces n ++ str ":" ++ spaces m ++ v ++ spaces p ++ stop :: rest) v.

Lemma scan_all_app t1 t2 s : scan_all (t1 ++ t2) s = scan_all t2 (scan_all t1 s).
Proof. apply foldl_app. Qed.

Lemma scan_all_cons c t s : scan_all (c :: t) s = scan_all t (scan_step s c).
Proof. done. Qed.

(** Once finished, the scan ignores the rest of the text. *)
Lemma scan_done t s : status s = -1 →
  key_val (scan_all t s) = key_val s ∧ obj_flage (scan_all t s) = obj_flage s.
Proof.
  revert s. induction t as [|c t IH]; intros s Hs; [done|].
  destruct s as [kv st l o]. cbn in Hs. subst st. rewrite scan_all_cons.
  change (scan_step _ c) with (mkScan kv (-1) c o). apply (IH (mkScan kv (-1) c o)). done.
Qed.

Lemma scan_result_done t s : status s = -1 → obj_flage s = 0 →
  scan_result (scan_all t s) = key_val s.
Proof.
  intros Hs Ho. destruct (scan_done t s Hs) as [Hk Hf].
  unfold scan_result. by rewrite Hf, Ho, Hk.
Qed.

Lemma scan_spaces n kv l o :
  ∃ l', scan_all (spaces n) (mkScan kv 0 l o) = mkScan kv 0 l' o.
Proof.
  revert l. induction n as [|n IH]; intros l; [by exists l|].
  cbn [spaces replicate]. rewrite scan_all_cons. apply IH.
Qed.

Lemma scan_string v kv l : string_body l v = true →
  ∃ l', scan_all v (mkScan kv 100 l 1) = mkScan (kv ++ v) 100 l' 1 ∧ l' ≠ "\"%char.
Proof.
  revert kv l. induction v as [|c v IH]; intros kv l Hv; cbn in Hv.
  - exists l. rewrite app_nil_r. split; [done|]. intros ->. done.
  - apply andb_prop in Hv as [Hc Hv]. rewrite scan_all_cons.
    unfold scan_step. cbn [status Z.eqb]. cbn -[bool_decide].
    apply negb_true_iff in Hc. rewrite Hc. unfold push. cbn -[bool_decide].
    destruct (IH (kv ++ [c]) c Hv) as (l' & Hl & Hne). exists l'.
    by rewrite Hl, <-app_assoc.
Qed.

Lemma scan_bare v kv l o : o ≠ 0 → forallb bare_char v = true →
  ∃ l', scan_all v (mkScan kv 0 l o) = mkScan (kv ++ v) 0 l' o.
Proof.
  intros Ho. revert kv l. induction v as [|c v IH]; intros kv l Hv.
  { exists l. by rewrite app_nil_r. }
  cbn in Hv. apply andb_prop in Hv as [Hc Hv]. rewrite scan_all_cons.
  assert (scan_step (mkScan kv 0 l o) c = mkScan (kv ++ [c]) 0 c o) as ->.
  { apply Z.eqb_neq in Ho. unfold scan_step. cbn.
    destruct c as [[] [] [] [] [] [] [] []]; cbn in *; rewrite ?Ho; try done; discriminate Hc. }
  destruct (IH (kv ++ [c]) c Hv) as [l' Hl]. exists l'. by rewrite Hl, <-app_assoc.
Qed.

Lemma scan_object v kv l d : object_body (S d) v = true →
  ∃ l', scan_all v (mkScan kv 10 l (Z.of_nat (S d))) = mkScan (kv ++ v) (-1) l' 0.
Proof.
  revert kv l d. induction v as [|c v IH]; intros kv l d Hv; [done|].
  cbn -[bool_decide] in Hv. rewrite scan_all_cons.
  unfold scan_step. cbn -[bool_decide Z.of_nat scan_all].
  assert (Hne : bool_decide (kv ++ [c] = []) = false).
  { apply bool_decide_eq_false_2. by destruct kv. }
  assert (Hnext : ∀ d', object_body (S d') v = true → ∃ l',
    scan_all v (mkScan (kv ++ [c]) 10 c (Z.of_nat (S d'))) = mkScan (kv ++ c :: v) (-1) l' 0).
  { intros d' Hd'. destruct (IH (kv ++ [c]) c d' Hd') as [l' Hl]. exists l'.
    by rewrite Hl, <-app_assoc. }
  destruct (bool_decide (c = "{"%char)) eqn:B1, (bool_decide (c = "}"%char)) eqn:B2;
    cbn -[bool_decide Z.of_nat scan_all].
  - apply bool_decide_eq_true in B1 as ->. discriminate B2.
  - replace (Z.of_nat (S d) + 1) with (Z.of_nat (S (S d))) by lia.
    destruct (Z.eqb_spec (Z.of_nat (S (S d))) 0); [lia|]. by apply Hnext.
  - replace (Z.of_nat (S d) - 1) with (Z.of_nat d) by lia. cbn [pred] in Hv.
    destruct d as [|d].
    + apply bool_decide_eq_true in Hv as ->. cbn -[bool_decide]. rewrite Hne. by eexists.
    + destruct (Z.eqb_spec (Z.of_nat (S d)) 0); [lia|]. by apply Hnext.
  - destruct (Z.eqb_spec (Z.of_nat (S d)) 0); [lia|]. by apply Hnext.
Qed.

Lemma scan_field raw v : field_text raw v → scan_result (scan_all raw scan_init) = v.
Proof.
  intros H.
  assert (Hpre : ∀ n m t, ∃ l, scan_all (spaces n ++ str ":" ++ spaces m ++ t) scan_init
                               = scan_all t (mkScan [] 0 l 1)).
  { intros n m t. rewrite scan_all_app. destruct (scan_spaces n [] "000"%char 0) as [l1 E1].
    unfold scan_init. rewrite E1, scan_all_app.
    change (scan_all (str ":") _) with (mkScan [] 0 ":"%char 1).
    rewrite scan_all_app. destruct (scan_spaces m [] ":"%char 1) as [l2 E2].
    exists l2. by rewrite E2. }
  destruct H as [n m v rest Hv|n m v rest Hv|n m p v stop rest Hv Hstop];
    destruct (Hpre n m) as [l0 ->] || (edestruct (Hpre n m) as [l0 E0]; rewrite E0; clear E0).
  - rewrite scan_all_app. change (scan_all [dquote] _) with (mkScan [] 100 dquote 1).
    rewrite scan_all_app. destruct (scan_string v [] dquote Hv) as (l1 & -> & Hl1).
    cbn [app]. rewrite scan_all_cons. unfold scan_step. cbn -[bool_decide].
    rewrite (bool_decide_eq_true_2 (dquote = dquote)), (bool_decide_eq_false_2 (l1 = _)) by done.
    by apply scan_result_done.
  - rewrite scan_all_app. change (scan_all (str "{") _) with (mkScan (str "{") 10 "{"%char 1).
    rewrite scan_all_app. destruct (scan_object v (str "{") "{"%char 0 Hv) as [l1 E1].
    change (Z.of_nat 1) with 1 in E1. rewrite E1.
    by apply scan_result_done.
  - rewrite scan_all_app. destruct (scan_bare v [] l0 1) as [l1 ->]; [done..|].
    rewrite scan_all_app. destruct (scan_spaces p ([] ++ v) l1 1) as [l2 ->].
    rewrite scan_all_cons. destruct Hstop as [-> | ->]; by apply scan_result_done.
Qed.

(** The extractor on texts shorter than 2^31 bytes, where positions fit [int]. *)
Definition json_value (json k : bytes) : bytes :=
  match find (quoted k) json with
  | None => []
  | Some pos => scan_result (scan_all (drop (pos + length (quoted k)) json) scan_init)
  end.

Lemma sample_json_str_get_eq {T} json k (st : T) : zlen json < 2 ^ 31 →
  sample_json_str_get json k st = Ret (json_value json k) st.
Proof.
  intros Hl. unfold json_value, sample_json_str_get. destruct (find (quoted k) json) as [pos|] eqn:Hf; [|done].
  destruct (find_Some _ _ _ Hf) as (t & Ht & Hpos).
  apply (f_equal length) in Ht. rewrite length_drop, length_app in Ht. unfold zlen in *.
  rewrite swrap_small by lia. destruct (Z.eqb_spec (Z.of_nat pos) (-1)); [lia|].
  unfold bind, substr. rewrite u64_small by lia.
  destruct (Z.leb_spec 0 (Z.of_nat pos + Z.of_nat (length (quoted k)))); [|lia].
  destruct (Z.leb_spec (Z.of_nat pos + Z.of_nat (length (quoted k))) (zlen json));
    [|unfold zlen in *; lia].
  cbn -[scan_all]. unfold zdrop. do 4 f_equal. lia.
Qed.

(** C19: [sample_json_str_get] looks at the first occurrence of the quoted key; if
    a string, an object or a bare token follows, it returns the text of the
    string (escapes kept), the whole object, or the token, whatever comes
    after; without the key it returns the empty string. *)
Theorem json_get_field {T} json k (st : T) : zlen json < 2 ^ 31 →
  (find (quoted k) json = None → sample_json_str_get json k st = Ret [] st)
  ∧ (∀ pos v, find (quoted k) json = Some pos →
       field_text (drop (pos + length (quoted k)) json) v →
       sample_json_str_get json k st = Ret v st).
Proof.
  intros Hl. rewrite sample_json_str_get_eq by done. unfold json_value.
  split; [by intros ->|].
  intros pos v -> Hv. by rewrite (scan_field _ v Hv).
Qed.

Definition request_example : bytes :=
  json "{'request_id':'4','work_id': 'llm.1000','data':{'a':{'b':'c'}},'code' : -2 }".

Lemma json_get_field_witness :
  sample_json_str_get request_example (str "work_id") tt = Ret (str "llm.1000") tt
  ∧ sample_json_str_get request_example (str "data") tt = Ret (json "{'a':{'b':'c'}}") tt
  ∧ sample_json_str_get request_example (str "code") tt = Ret (str "-2") tt
  ∧ sample_json_str_get request_example (str "object") tt = Ret [] tt.
Proof.
  assert (Hl : zlen request_example < 2 ^ 31) by (vm_compute; congruence).
  split_and!.
  - eapply (json_get_field request_example); [exact Hl|reflexivity|].
    apply (FieldString 0 1 (str "llm.1000")). reflexivity.
  - eapply (json_get_field request_example); [exact Hl|reflexivity|].
    apply (FieldObject 0 0 (json "'a':{'b':'c'}}")). reflexivity.
  - eapply (json_get_field request_example); [exact Hl|reflexivity|].
    apply (FieldBare 1 1 1 (str "-2") "}"%char []); [reflexivity|by right].
  - apply (json_get_field request_example); [exact Hl|reflexivity].
Defined.

(** Text before the first quoted key. *)
Lemma json_value_skip k t s : find (quoted k) (t ++ s) = (λ n, length t + n)%nat <$> find (quoted k) s →
  json_value (t ++ s) k = json_value s k.
Proof.
  unfold json_value. intros ->. destruct (find (quoted k) s) as [n|]; [|done]. cbn.
  by rewrite <-Nat.add_assoc, drop_app_add.
Qed.
Lemma find_cons p c s : find p (c :: s) = if prefixb p (c :: s) then Some O else S <$> find p s.
Proof. done. Qed.
Lemma find_quoted_text k t s : dquote ∉ t →
  find (quoted k) (t ++ s) = (λ n, length t + n)%nat <$> find (quoted k) s.
Proof.
  induction t as [|c t IH]; [intros _; cbn; by destruct (find _ s)|].
  intros [Hc Ht]%not_elem_of_cons. cbn [app length]. rewrite find_cons, IH by done.
  assert (prefixb (quoted k) (c :: t ++ s) = false) as -> by (cbn; by rewrite bool_decide_false).
  by destruct (find _ s).
Qed.
Lemma json_value_text k t s : dquote ∉ t → json_value (t ++ s) k = json_value s k.
Proof. intros Ht. by apply json_value_skip, find_quoted_text. Qed.
Lemma find_quoted_miss k t s : dquote ∉ t → prefixb (quoted k) (dquote :: t ++ s) = false →
  find (quoted k) (dquote :: t ++ s) = (λ n, length (dquote :: t) + n)%nat <$> find (quoted k) s.
Proof. intros Ht Hp. rewrite find_cons, Hp, find_quoted_text by done. by destruct (find _ s). Qed.
Lemma json_value_miss k t s : dquote ∉ t → prefixb (quoted k) (dquote :: t ++ s) = false →
  json_value (dquote :: t ++ s) k = json_value s k.
Proof. intros Ht Hp. by apply (json_value_skip k (dquote :: t)), find_quoted_miss. Qed.
Lemma prefixb_quoted k a rest : dquote ∉ k → dquote ∉ a → k ≠ a →
  prefixb (quoted k) (dquote :: a ++ dquote :: rest) = false.
Proof.
  intros Hk Ha Hne. apply not_true_iff_false. rewrite prefixb_spec. intros [t [= E]].
  apply Hne. rewrite <-app_assoc in E. cbn [app] in E. symmetry in E. clear Hne. revert a Ha E.
  induction k as [|c k IH]; intros [|d a] Ha E; cbn in E; [done| | |].
  - injection E as <- _. by apply not_elem_of_cons in Ha as [].
  - injection E as -> _. by apply not_elem_of_cons in Hk as [].
  - injection E as -> E. apply not_elem_of_cons in Hk as [_ Hk], Ha as [_ Ha].
    f_equal. by apply IH.
Qed.

(** ** Work ids *)

Lemma substr_ok {T} pos (w : bytes) (st : T) : 0 ≤ pos ≤ zlen w →
  substr w pos st = Ret (zdrop pos w) st.
Proof. intros. unfold substr. repeat (case_cmp; [|lia]). done. Qed.

Lemma work_id_num_dotted {T} u rest (st : T) : "."%char ∉ u → rest ≠ [] →
  sample_get_work_id_num (u ++ str "." ++ rest) st = stoi rest st.
Proof.
  intros Hu Hr. unfold sample_get_work_id_num. cbn [str list_ascii_of_string app].
  rewrite find_char_app by done. rewrite zlen_app, zlen_cons. fold (zlen u).
  destruct rest as [|c rest]; [done|]. rewrite zlen_cons. pose proof (zlen_nonneg rest).
  destruct (Z.eqb_spec (zlen u) (zlen u + (1 + (1 + zlen rest)) - 1)); [lia|].
  unfold bind. rewrite substr_ok by (rewrite zlen_app, !zlen_cons; pose proof (zlen_nonneg u); lia).
  unfold zdrop, zlen. replace (Z.to_nat (Z.of_nat (length u) + 1)) with (length u + 1)%nat by lia.
  rewrite <-drop_drop, drop_app_length. done.
Qed.



(** ** UTF-8 *)

(** The reference decoder: one code point of well-formed UTF-8 (shortest form),
    and what follows. *)
Definition continuation (c : ascii) : option Z :=
  if (128 <=? uchar c) && (uchar c <? 192) then Some (uchar c - 128) else None.

Definition utf8_decode (s : bytes) : option (Z * bytes) :=
  c0 ← head s;
  let b := uchar c0 in
  if b <? 128 then Some (b, drop 1 s)
  else if (192 <=? b) && (b <? 224) then
    x1 ← s !! 1%nat ≫= continuation;
    let v := (b - 192) * 64 + x1 in
    if 128 <=? v then Some (v, drop 2 s) else None
  else if (224 <=? b) && (b <? 240) then
    x1 ← s !! 1%nat ≫= continuation; x2 ← s !! 2%nat ≫= continuation;
    let v := (b - 224) * 4096 + x1 * 64 + x2 in
    if 2048 <=? v then Some (v, drop 3 s) else None
  else if (240 <=? b) && (b <? 248) then
    x1 ← s !! 1%nat ≫= continuation; x2 ← s !! 2%nat ≫= continuation;
    x3 ← s !! 3%nat ≫= continuation;
    let v := (b - 240) * 262144 + x1 * 4096 + x2 * 64 + x3 in
    if (65536 <=? v) && (v <=? 1114111) then Some (v, drop 4 s) else None
  else None.

Lemma lor_low k n x : 0 ≤ n → 0 ≤ x < 2 ^ n → Z.lor (k * 2 ^ n) x = k * 2 ^ n + x.
Proof.
  intros Hn Hx. symmetry. apply Z.add_nocarry_lor.
  rewrite <-(Z.mod_small x (2 ^ n)), <-Z.land_ones by done.
  rewrite (Z.land_comm x), Z.land_assoc, Z.land_ones, Z.mod_mul by lia. apply Z.land_0_l.
Qed.

Lemma low_bits x : Z.land x 0x3F = x mod 64 ∧ Z.land x 0x1F = x mod 32
  ∧ Z.land x 0x0F = x mod 16 ∧ Z.land x 0x07 = x mod 8 ∧ Z.land x 0x7F = x mod 128.
Proof.
  change 0x3F with (Z.ones 6). change 0x1F with (Z.ones 5). change 0x0F with (Z.ones 4).
  change 0x07 with (Z.ones 3). change 0x7F with (Z.ones 7).
  rewrite !Z.land_ones by lia. done.
Qed.

(** Lead and continuation bytes as sums. *)
Lemma utf8_lead x y n b : 0 ≤ n → 0 ≤ x < 2 ^ n → b = y * 2 ^ n → 0 ≤ b → b + x < 256 →
  uchar (char_of (Z.lor b x)) = b + x.
Proof.
  intros Hn Hx -> ? ?. rewrite uchar_char_of, lor_low by done. apply wrap_small. lia.
Qed.

Lemma utf8_cont x : uchar (char_of (Z.lor 0x80 (Z.land x 0x3F))) = 128 + x mod 64.
Proof.
  destruct (low_bits x) as [-> _]. pose proof (Z.mod_pos_bound x 64 ltac:(lia)).
  apply (utf8_lead _ 2 6); lia.
Qed.

Lemma continuation_cont x :
  continuation (char_of (Z.lor 0x80 (Z.land x 0x3F))) = Some (x mod 64).
Proof.
  unfold continuation. rewrite utf8_cont. pose proof (Z.mod_pos_bound x 64 ltac:(lia)).
  repeat (case_cmp; [|lia]). cbn. f_equal. lia.
Qed.

(** Code points rebuilt from their groups of six bits. *)
Lemma six_bits x : x = x / 64 * 64 + x mod 64 ∧ 0 ≤ x mod 64 < 64.
Proof.
  pose proof (Z.div_mod x 64 ltac:(lia)). pose proof (Z.mod_pos_bound x 64 ltac:(lia)). lia.
Qed.

Lemma shiftr_64 x : Z.shiftr x 6 = x / 64 ∧ Z.shiftr x 12 = x / 64 / 64
  ∧ Z.shiftr x 18 = x / 64 / 64 / 64.
Proof.
  rewrite !Z.shiftr_div_pow2 by lia. rewrite !Z.div_div by lia. done.
Qed.

(** C21: [unicode_to_utf8] emits nothing above U+10FFFF, and for every other code
    point the reference decoder reads the emitted bytes back to that code
    point, in shortest form, whatever bytes follow. *)
Theorem utf8_roundtrip cp rest : 0 ≤ cp →
  if cp <=? 0x10FFFF
  then utf8_decode (unicode_to_utf8 cp ++ rest) = Some (cp, rest)
  else unicode_to_utf8 cp = [].
Proof.
  intros Hcp. unfold unicode_to_utf8.
  pose proof (low_bits cp) as (_ & _ & _ & _ & L7).
  destruct (shiftr_64 cp) as (S6 & S12 & S18).
  pose proof (six_bits cp). pose proof (six_bits (cp / 64)). pose proof (six_bits (cp / 64 / 64)).
  destruct (Z.leb_spec cp 0x7F); [|destruct (Z.leb_spec cp 0x7FF);
    [|destruct (Z.leb_spec cp 0xFFFF)]]; destruct (Z.leb_spec cp 0x10FFFF); try lia.
  - unfold utf8_decode. cbn [app head mbind option_bind]. rewrite L7, uchar_char_of.
    rewrite Z.mod_small, wrap_small by lia. case_cmp; [done|lia].
  - destruct (low_bits (cp / 64)) as (_ & L5 & _). rewrite S6, L5, Z.mod_small by lia.
    unfold utf8_decode. cbn [app head mbind option_bind lookup list_lookup].
    rewrite continuation_cont, (utf8_lead _ 6 5) by lia. cbn [mbind option_bind].
    repeat (case_cmp; try lia). cbn. repeat f_equal. lia.
  - destruct (low_bits (cp / 64 / 64)) as (_ & _ & L4 & _).
    rewrite S12, S6, L4, Z.mod_small by lia.
    unfold utf8_decode. cbn [app head mbind option_bind lookup list_lookup].
    rewrite !continuation_cont, (utf8_lead _ 14 4) by lia. cbn [mbind option_bind].
    repeat (case_cmp; try lia). cbn. repeat f_equal. lia.
  - destruct (low_bits (cp / 64 / 64 / 64)) as (_ & _ & _ & L3 & _).
    rewrite S18, S12, S6, L3, Z.mod_small by lia.
    unfold utf8_decode. cbn [app head mbind option_bind lookup list_lookup].
    rewrite !continuation_cont, (utf8_lead _ 30 3) by lia. cbn [mbind option_bind].
    repeat (case_cmp; try lia). cbn. repeat f_equal. lia.
  - done.
Qed.

Lemma utf8_roundtrip_witness :
  utf8_decode (unicode_to_utf8 8364 ++ str "!") = Some (8364, str "!").
Proof. apply (utf8_roundtrip 8364 (str "!")). lia. Defined.

(** ** Streamed text *)

(** What a stream message carries, as [decode_stream] reads it. *)
Record chunk := mkChunk { c_index : Z; c_delta : bytes; c_finish : bool }.

Definition carries (in_ : bytes) (c : chunk) : Prop :=
  zlen in_ < 2 ^ 31 ∧ INT_MIN ≤ c_index c ≤ INT_MAX ∧
  json_value in_ (str "index") = to_string (c_index c) ∧
  json_value in_ (str "delta") = c_delta c ∧
  contains (str "f") (json_value in_ (str "finish")) = negb (c_finish c).

Definition decode_chunk (c : chunk) : M stream bool :=
  modify (λ st, {| st with stream_buff := <[c_index c := c_delta c]> (stream_buff st) |}) ;;;
  if negb (c_finish c) then ret true
  else
    let* st := get in
    append_chunks (size (stream_buff st)) 0 ;;;
    modify (λ st, {| st with stream_buff := ∅ |}) ;;;
    ret false.

Lemma decode_stream_chunk in_ c st : carries in_ c → decode_stream in_ st = decode_chunk c st.
Proof.
  intros (Hl & Hi & Hidx & Hd & Hf). unfold decode_stream, bind.
  rewrite !sample_json_str_get_eq, Hidx by done.
  rewrite <-(app_nil_r (to_string _)), stoi_to_string by done.
  rewrite !sample_json_str_get_eq, Hd, Hf by done. done.
Qed.

Lemma append_chunks_ok ds i o m :
  (∀ k d, ds !! k = Some d → m !! (i + Z.of_nat k) = Some d) →
  append_chunks (length ds) i (mkStream o m) = Ret tt (mkStream (o ++ concat ds) m).
Proof.
  revert i o. induction ds as [|d ds IH]; intros i o Hm; cbn [length append_chunks concat].
  { by rewrite app_nil_r. }
  unfold bind at 1. cbn [get]. unfold bind at 1. cbn [stream_buff].
  specialize (Hm 0%nat d eq_refl) as H0. rewrite Z.add_0_r in H0.
  unfold at_. rewrite H0. unfold bind at 1, modify. cbn.
  rewrite IH; [by rewrite <-app_assoc|].
  intros k d' Hk. rewrite <-(Hm (S k) d' Hk). f_equal. lia.
Qed.

Lemma append_chunks_missing n i o m j :
  i ≤ j < i + Z.of_nat n → m !! j = None →
  ∃ o', append_chunks n i (mkStream o m) = Throw out_of_range (mkStream o' m).
Proof.
  revert i o. induction n as [|n IH]; intros i o Hj Hm; [lia|].
  cbn [append_chunks]. unfold bind at 1. cbn [get]. unfold bind at 1. cbn [stream_buff].
  unfold at_. destruct (m !! i) as [d|] eqn:Hi.
  - unfold bind at 1, modify. cbn. apply IH; [|done].
    assert (i ≠ j) by congruence. lia.
  - by exists o.
Qed.

Lemma decode_chunk_finish c o m ds :
  c_finish c = true → let m' := <[c_index c := c_delta c]> m in
  size m' = length ds → (∀ k d, ds !! k = Some d → m' !! Z.of_nat k = Some d) →
  decode_chunk c (mkStream o m) = Ret false (mkStream (o ++ concat ds) ∅).
Proof.
  intros Hf m' Hs Hm. unfold decode_chunk, bind, modify, get, ret. cbn. rewrite Hf. cbn.
  fold m'. by rewrite Hs, append_chunks_ok.
Qed.

Lemma decode_chunk_gap c o m j :
  c_finish c = true → let m' := <[c_index c := c_delta c]> m in
  0 ≤ j < Z.of_nat (size m') → m' !! j = None →
  ∃ o', decode_chunk c (mkStream o m) = Throw out_of_range (mkStream o' m').
Proof.
  intros Hf m' Hj Hm. unfold decode_chunk, bind, modify, get, ret. cbn. rewrite Hf. cbn.
  fold m'. destruct (append_chunks_missing (size m') 0 o m' j) as [o' ->]; [lia|done|].
  by exists o'.
Qed.

(** The numbered pieces of a text. *)
Definition numbered (ds : list bytes) : list (Z * bytes) :=
  imap (λ k d, (Z.of_nat k, d)) ds.

Definition chunk_pair (c : chunk) : Z * bytes := (c_index c, c_delta c).

Lemma numbered_lookup ds k d : ds !! k = Some d → (Z.of_nat k, d) ∈ numbered ds.
Proof.
  intros Hk. apply list_elem_of_lookup. exists k. unfold numbered.
  by rewrite list_lookup_imap, Hk.
Qed.

Lemma numbered_NoDup ds : NoDup (numbered ds).*1.
Proof.
  apply NoDup_alt. intros i j x Hi Hj. unfold numbered in *.
  rewrite list_lookup_fmap, list_lookup_imap in Hi, Hj.
  destruct (ds !! i), (ds !! j); naive_solver lia.
Qed.

Lemma length_numbered ds : length (numbered ds) = length ds.
Proof. apply length_imap. Qed.

(** The buffer after receiving the pieces in some order. *)
Definition received (ps : list (Z * bytes)) : gmap Z bytes := list_to_map (rev ps).

Lemma received_snoc ps i d : received (ps ++ [(i, d)]) = <[i:=d]> (received ps).
Proof. unfold received. by rewrite rev_app_distr. Qed.

Lemma received_numbered ps ds : ps ≡ₚ numbered ds →
  size (received ps) = length ds ∧ ∀ k d, ds !! k = Some d → received ps !! Z.of_nat k = Some d.
Proof.
  intros Hp. assert (Hr : rev ps ≡ₚ numbered ds) by (by rewrite <-Permutation_rev).
  assert (Hnd : NoDup (rev ps).*1) by (rewrite Hr; apply numbered_NoDup).
  split.
  - unfold received. rewrite map_size_list_to_map by done.
    by rewrite Hr, length_numbered.
  - intros k d Hk. apply elem_of_list_to_map; [done|]. rewrite Hr. by apply numbered_lookup.
Qed.

Fixpoint decode_all (ins : list bytes) : M stream (list bool) :=
  match ins with
  | [] => ret []
  | i :: ins' => let* r := decode_stream i in let* rs := decode_all ins' in ret (r :: rs)
  end.

Lemma decode_pending ins cs o ps :
  Forall2 carries ins cs → Forall (λ c, c_finish c = false) cs →
  decode_all ins (mkStream o (received ps))
  = Ret (map (λ _, true) ins) (mkStream o (received (ps ++ map chunk_pair cs))).
Proof.
  intros Hc. revert ps. induction Hc as [|i c ins cs Hic Hc IH]; intros ps Hf.
  { cbn. by rewrite app_nil_r. }
  inversion Hf as [|? ? Hfc Hfs]; subst. cbn [decode_all map]. unfold bind at 1.
  rewrite (decode_stream_chunk _ _ _ Hic). unfold decode_chunk, bind at 1, modify. cbn.
  rewrite Hfc. cbn. rewrite <-received_snoc. unfold bind. rewrite IH by done. cbn.
  rewrite <-app_assoc. done.
Qed.

Lemma decode_all_snoc ins i st :
  decode_all (ins ++ [i]) st
  = (let* bs := decode_all ins in let* r := decode_stream i in ret (bs ++ [r])) st.
Proof.
  revert st. induction ins as [|j ins IH]; intros st; cbn [decode_all app]; unfold bind; cbn beta.
  - unfold ret. cbn. by destruct (decode_stream i st).
  - destruct (decode_stream j st) as [r s1|e s1|f]; [|done..]. rewrite IH. unfold bind. cbn beta.
    destruct (decode_all ins s1) as [rs s2|e s2|f]; [|done..].
    unfold ret. cbn. by destruct (decode_stream i s2).
Qed.

(** C22: a text cut into numbered pieces is reassembled in order whatever the
    order in which the pieces arrive, as long as the piece flagged [finish]
    comes last: every earlier call returns [true], the last returns [false],
    appends exactly the text to [out] and empties [stream_buff]. *)
Theorem decode_stream_reassembles ins cs in_last c_last ds o :
  Forall2 carries ins cs → Forall (λ c, c_finish c = false) cs →
  carries in_last c_last → c_finish c_last = true →
  map chunk_pair (cs ++ [c_last]) ≡ₚ numbered ds →
  decode_all (ins ++ [in_last]) (mkStream o ∅)
  = Ret (map (λ _, true) ins ++ [false]) (mkStream (o ++ concat ds) ∅).
Proof.
  intros Hc Hf Hl Hfl Hp.
  pose proof (decode_pending _ _ o [] Hc Hf) as Hpend.
  change (received []) with (∅ : gmap Z bytes) in Hpend. cbn [app] in Hpend.
  rewrite map_app in Hp. destruct (received_numbered _ _ Hp) as [Hsz Hlk].
  change (map chunk_pair [c_last]) with [(c_index c_last, c_delta c_last)] in *.
  rewrite received_snoc in Hsz, Hlk.
  rewrite decode_all_snoc. unfold bind. rewrite Hpend, (decode_stream_chunk _ _ _ Hl).
  by rewrite (decode_chunk_finish _ _ _ ds).
Qed.

(** When the [finish] piece arrives while a lower number is still missing,
    [decode_stream] throws [out_of_range] and keeps every piece received. *)
Theorem decode_stream_gap in_ c o m j :
  carries in_ c → c_finish c = true →
  let m' := <[c_index c := c_delta c]> m in
  0 ≤ j < Z.of_nat (size m') → m' !! j = None →
  ∃ o', decode_stream in_ (mkStream o m) = Throw out_of_range (mkStream o' m').
Proof.
  intros Hc Hf m' Hj Hm. rewrite (decode_stream_chunk _ _ _ Hc).
  by apply (decode_chunk_gap c o m j).
Qed.

Definition piece (i : Z) (d : bytes) (fin : bool) : bytes :=
  json "{'index':" ++ to_string i ++ json ",'delta':'" ++ d ++ json "','finish':"
  ++ (if fin then str "true" else str "false") ++ str "}".

Lemma decode_stream_reassembles_witness :
  decode_all [piece 1 (str "lo ") false; piece 0 (str "hel") false; piece 2 (str "you") true]
    (mkStream [] ∅)
  = Ret [true; true; false] (mkStream (str "hello you") ∅).
Proof.
  apply (decode_stream_reassembles
    [piece 1 (str "lo ") false; piece 0 (str "hel") false]
    [mkChunk 1 (str "lo ") false; mkChunk 0 (str "hel") false]
    (piece 2 (str "you") true) (mkChunk 2 (str "you") true)
    [str "hel"; str "lo "; str "you"] []).
  - repeat constructor; vm_compute; congruence.
  - repeat constructor.
  - repeat constructor; vm_compute; congruence.
  - reflexivity.
  - cbn. apply Permutation_swap.
Defined.

Lemma decode_stream_gap_witness :
  ∃ o', decode_stream (piece 3 (str "x") true) (mkStream [] ∅)
        = Throw out_of_range (mkStream o' {[3 := str "x"]}).
Proof.
  apply (decode_stream_gap (piece 3 (str "x") true) (mkChunk 3 (str "x") true) [] ∅ 0).
  - repeat constructor; vm_compute; congruence.
  - reflexivity.
  - vm_compute. split; congruence.
  - reflexivity.
Defined.

End StackFlowUtil.
