(* ===== verification/NetTypes.v ===== *)
(** * The network library's objects and the world they live in
    (the class declarations of network/include/network/*.h)

    Objects are heap cells addressed by pointers ([ptr]); a method is an
    operation on the [World] taking [this] as its first argument, and
    dereferencing a pointer with no cell is undefined behaviour.  The
    [std::function]s built by [std::bind] are the constructors of
    [EventCallback] and [Functor].  The operating system is a parameter: the
    class [Kernel] lists the system calls the library makes. *)

From S2P Require Import Prelude.
From S2P Require Import Buffer.

Definition ptr : Type := Z.

(** ** Constants of the platform's headers (x86-64 Linux) *)

Definition EPOLLIN : Z := 0x001.
Definition EPOLLPRI : Z := 0x002.
Definition EPOLLOUT : Z := 0x004.
Definition EPOLLERR : Z := 0x008.
Definition EPOLLHUP : Z := 0x010.
Definition EPOLLNVAL : Z := 0x020.
Definition EPOLLRDHUP : Z := 0x2000.

Definition EPOLL_CTL_ADD : Z := 1.
Definition EPOLL_CTL_DEL : Z := 2.
Definition EPOLL_CTL_MOD : Z := 3.

Definition EPERM : Z := 1.
Definition EINTR : Z := 4.
Definition EBADF : Z := 9.
Definition EAGAIN : Z := 11.
Definition EWOULDBLOCK : Z := 11.
Definition EACCES : Z := 13.
Definition EFAULT : Z := 14.
Definition EMFILE : Z := 24.
Definition EPIPE : Z := 32.
Definition ENOTSOCK : Z := 88.
Definition EAFNOSUPPORT : Z := 97.
Definition EADDRINUSE : Z := 98.
Definition EADDRNOTAVAIL : Z := 99.
Definition ENETUNREACH : Z := 101.
Definition EPROTO : Z := 71.
Definition ECONNABORTED : Z := 103.
Definition ECONNRESET : Z := 104.
Definition EISCONN : Z := 106.
Definition ECONNREFUSED : Z := 111.
Definition EALREADY : Z := 114.
Definition EINPROGRESS : Z := 115.

(** ** System calls

    A call returns its result or [inl errno], and the new state of the system. *)

Record epoll_event := mkEvent { ev_events : Z; ev_ptr : ptr }.

(** The bytes of a [sockaddr_in6]. *)
Abbreviation sockaddr := bytes.

Class Kernel (K : Type) := {
  sys_epoll_create1 : K → (Z + Z) * K;
  sys_epoll_ctl : Z → Z → Z → epoll_event → K → (Z + unit) * K;
  sys_epoll_wait : Z → Z → Z → K → (Z + list epoll_event) * K;
  sys_eventfd : K → (Z + Z) * K;
  sys_read : Z → Z → K → (Z + bytes) * K;
  sys_readv : Z → Z → K → (Z + bytes) * K;
  sys_write : Z → bytes → K → (Z + Z) * K;
  sys_close : Z → K → (Z + unit) * K;
  sys_shutdown_wr : Z → K → (Z + unit) * K;
  sys_setsockopt : Z → Z → bool → K → (Z + unit) * K;
  sys_socket : Z → K → (Z + Z) * K;
  sys_bind : Z → sockaddr → K → (Z + unit) * K;
  sys_listen : Z → K → (Z + unit) * K;
  sys_accept : Z → K → (Z + (Z * sockaddr)) * K;
  sys_connect : Z → sockaddr → K → (Z + unit) * K;
  sys_so_error : Z → K → (Z + Z) * K;
  sys_getsockname : Z → K → (Z + sockaddr) * K;
  sys_getpeername : Z → K → (Z + sockaddr) * K;
  sys_open_null : K → (Z + Z) * K;
  sys_clone : K → (Z + Z) * K;
}.

(** ** Closures *)

(** Connection callbacks the user installs, by number. *)
Inductive UserCallback := DefaultCallback | User (n : Z).

Inductive CloseCallback :=
| TcpServer_removeConnection (server : ptr)
| TcpClient_removeConnection (client : ptr)
| Detail_removeConnection (loop : ptr).

(** Read, write, close and error callbacks of channels. *)
Inductive EventCallback :=
| EventLoop_handleRead (loop : ptr)
| TcpConnection_handleRead (conn : ptr)
| TcpConnection_handleWrite (conn : ptr)
| TcpConnection_handleClose (conn : ptr)
| TcpConnection_handleError (conn : ptr)
| Acceptor_handleRead (acceptor : ptr)
| Connector_handleWrite (connector : ptr)
| Connector_handleError (connector : ptr).

(** Work queued on a loop. *)
Inductive Functor :=
| F_sendInLoop (conn : ptr) (message : bytes)
| F_shutdownInLoop (conn : ptr)
| F_forceCloseInLoop (conn : ptr)
| F_startReadInLoop (conn : ptr)
| F_stopReadInLoop (conn : ptr)
| F_connectEstablished (conn : ptr)
| F_connectDestroyed (conn : ptr)
| F_writeComplete (cb : UserCallback) (conn : ptr)
| F_setCloseCallback (conn : ptr) (cb : CloseCallback)
| F_removeConnectionInLoop (server : ptr) (conn : ptr)
| F_listen (acceptor : ptr)
| F_startInLoop (connector : ptr)
| F_stopInLoop (connector : ptr)
| F_resetChannel (connector : ptr)
| F_user (n : Z).

(** ** Objects *)

Record Channel := mkChannel {
  ch_loop_ : ptr;
  ch_fd_ : Z;
  events_ : Z;
  revents_ : Z;
  index_ : Z;
  event_handling_ : bool;
  addedToLoop_ : bool;
  readCallback_ : option EventCallback;
  writeCallback_ : option EventCallback;
  ch_closeCallback_ : option EventCallback;
  errorCallback_ : option EventCallback;
}.

(** [po_events_] is the length of the scratch vector given to [epoll_wait]. *)
Record Poller := mkPoller {
  ownerLoop_ : ptr;
  epollfd_ : Z;
  po_events_ : Z;
  channels_ : gmap Z ptr;
}.

Record EventLoop := mkEventLoop {
  looping_ : bool;
  quit_ : bool;
  eventHandling_ : bool;
  callingPendingFunctors_ : bool;
  iteration_ : Z;
  threadId_ : Z;
  poller_ : Poller;
  wakeupFd_ : Z;
  wakeupChannel_ : ptr;
  activeChannels_ : list ptr;
  currentActiveChannel_ : option ptr;
  pendingFunctors_ : list Functor;
}.

Inductive StateE := kDisconnected | kConnecting | kConnected | kDisconnecting.
#[global] Instance StateE_eq_dec : EqDecision StateE.
Proof. solve_decision. Defined.

Record TcpConnection := mkTcpConnection {
  loop_ : ptr;
  name_ : bytes;
  state_ : StateE;
  reading_ : bool;
  socket_ : Z;
  channel_ : ptr;
  localAddr_ : sockaddr;
  peerAddr_ : sockaddr;
  connectionCallback_ : option UserCallback;
  messageCallback_ : option UserCallback;
  writeCompleteCallback_ : option UserCallback;
  closeCallback_ : option CloseCallback;
  inputBuffer_ : Buffer.Buffer;
  outputBuffer_ : Buffer.Buffer;
}.

Inductive ConnectorState := CsDisconnected | CsConnecting | CsConnected.
#[global] Instance ConnectorState_eq_dec : EqDecision ConnectorState.
Proof. solve_decision. Defined.

(** [newConnectionCallback_] of a Connector is the TcpClient it reports to. *)
Record Connector := mkConnector {
  co_loop_ : ptr;
  serverAddr_ : sockaddr;
  connect_ : bool;
  co_state_ : ConnectorState;
  co_channel_ : option ptr;
  co_newConnectionCallback_ : option ptr;
  retryDelayMs_ : Z;
}.

(** [newConnectionCallback_] of an Acceptor is the TcpServer it reports to. *)
Record Acceptor := mkAcceptor {
  ac_loop_ : ptr;
  acceptSocket_ : Z;
  acceptChannel_ : ptr;
  ac_newConnectionCallback_ : option ptr;
  listening_ : bool;
  idleFd_ : Z;
}.

(** [thread_] is the id of the running thread. *)
Record EventLoopThread := mkThread {
  th_loop_ : option ptr;
  exiting_ : bool;
  thread_ : option Z;
}.

Record EventLoopThreadPool := mkPool {
  baseLoop_ : ptr;
  pool_name_ : bytes;
  started_ : bool;
  numThreads_ : Z;
  next_ : Z;
  threads_ : list ptr;
  loops_ : list ptr;
}.

Record TcpServer := mkTcpServer {
  sv_loop_ : ptr;
  ipPort_ : bytes;
  sv_name_ : bytes;
  acceptor_ : ptr;
  threadPool_ : ptr;
  sv_connectionCallback_ : option UserCallback;
  sv_messageCallback_ : option UserCallback;
  sv_writeCompleteCallback_ : option UserCallback;
  sv_nextConnId_ : Z;
  connections_ : gmap bytes ptr;
}.

Record TcpClient := mkTcpClient {
  cl_loop_ : ptr;
  connector_ : ptr;
  cl_name_ : bytes;
  cl_connectionCallback_ : option UserCallback;
  cl_messageCallback_ : option UserCallback;
  cl_writeCompleteCallback_ : option UserCallback;
  cl_retry_ : bool;
  cl_connect_ : bool;
  cl_nextConnId_ : Z;
  connection_ : option ptr;
}.

(** ** The world

    [w_tid] is the thread that runs, [w_next] the next free address, [w_tls]
    the thread-local [t_loopInThisThread]. *)
Record World (K : Type) := mkWorld {
  w_kernel : K;
  w_tid : Z;
  w_next : ptr;
  w_channels : gmap ptr Channel;
  w_loops : gmap ptr EventLoop;
  w_conns : gmap ptr TcpConnection;
  w_connectors : gmap ptr Connector;
  w_acceptors : gmap ptr Acceptor;
  w_threads : gmap ptr EventLoopThread;
  w_pools : gmap ptr EventLoopThreadPool;
  w_servers : gmap ptr TcpServer;
  w_clients : gmap ptr TcpClient;
  w_tls : gmap Z ptr;
}.
Arguments mkWorld {K}.
Arguments w_kernel {K} _.
Arguments w_tid {K} _.
Arguments w_next {K} _.
Arguments w_channels {K} _.
Arguments w_loops {K} _.
Arguments w_conns {K} _.
Arguments w_connectors {K} _.
Arguments w_acceptors {K} _.
Arguments w_threads {K} _.
Arguments w_pools {K} _.
Arguments w_servers {K} _.
Arguments w_clients {K} _.
Arguments w_tls {K} _.

Section Access.
Context {K : Type}.

Definition syscall {A} (f : K → A * K) : M (World K) A := λ w,
  let '(a, k) := f (w_kernel w) in Ret a {| w with w_kernel := k |}.

Definition new_ptr : M (World K) ptr := λ w,
  Ret (w_next w) {| w with w_next := w_next w + 1 |}.

Definition get_channel (c : ptr) : M (World K) Channel :=
  let* w := get in deref (w_channels w !! c).
Definition set_channel (c : ptr) (x : Channel) : M (World K) unit :=
  modify (λ w, {| w with w_channels := <[c := x]> (w_channels w) |}).
Definition upd_channel (c : ptr) (f : Channel → Channel) : M (World K) unit :=
  let* x := get_channel c in set_channel c (f x).

(** Freeing the cell. *)
Definition del_channel (c : ptr) : M (World K) unit :=
  modify (λ w, {| w with w_channels := delete c (w_channels w) |}).

Definition get_loop (l : ptr) : M (World K) EventLoop :=
  let* w := get in deref (w_loops w !! l).
Definition set_loop (l : ptr) (x : EventLoop) : M (World K) unit :=
  modify (λ w, {| w with w_loops := <[l := x]> (w_loops w) |}).
Definition upd_loop (l : ptr) (f : EventLoop → EventLoop) : M (World K) unit :=
  let* x := get_loop l in set_loop l (f x).

Definition del_loop (l : ptr) : M (World K) unit :=
  modify (λ w, {| w with w_loops := delete l (w_loops w) |}).

Definition get_conn (c : ptr) : M (World K) TcpConnection :=
  let* w := get in deref (w_conns w !! c).
Definition set_conn (c : ptr) (x : TcpConnection) : M (World K) unit :=
  modify (λ w, {| w with w_conns := <[c := x]> (w_conns w) |}).
Definition upd_conn (c : ptr) (f : TcpConnection → TcpConnection) : M (World K) unit :=
  let* x := get_conn c in set_conn c (f x).

Definition get_connector (c : ptr) : M (World K) Connector :=
  let* w := get in deref (w_connectors w !! c).
Definition set_connector (c : ptr) (x : Connector) : M (World K) unit :=
  modify (λ w, {| w with w_connectors := <[c := x]> (w_connectors w) |}).
Definition upd_connector (c : ptr) (f : Connector → Connector) : M (World K) unit :=
  let* x := get_connector c in set_connector c (f x).

Definition get_acceptor (a : ptr) : M (World K) Acceptor :=
  let* w := get in deref (w_acceptors w !! a).
Definition set_acceptor (a : ptr) (x : Acceptor) : M (World K) unit :=
  modify (λ w, {| w with w_acceptors := <[a := x]> (w_acceptors w) |}).
Definition upd_acceptor (a : ptr) (f : Acceptor → Acceptor) : M (World K) unit :=
  let* x := get_acceptor a in set_acceptor a (f x).

Definition get_thread (t : ptr) : M (World K) EventLoopThread :=
  let* w := get in deref (w_threads w !! t).
Definition set_thread (t : ptr) (x : EventLoopThread) : M (World K) unit :=
  modify (λ w, {| w with w_threads := <[t := x]> (w_threads w) |}).
Definition upd_thread (t : ptr) (f : EventLoopThread → EventLoopThread) : M (World K) unit :=
  let* x := get_thread t in set_thread t (f x).

Definition get_pool (p : ptr) : M (World K) EventLoopThreadPool :=
  let* w := get in deref (w_pools w !! p).
Definition set_pool (p : ptr) (x : EventLoopThreadPool) : M (World K) unit :=
  modify (λ w, {| w with w_pools := <[p := x]> (w_pools w) |}).
Definition upd_pool (p : ptr) (f : EventLoopThreadPool → EventLoopThreadPool)
    : M (World K) unit :=
  let* x := get_pool p in set_pool p (f x).

Definition get_server (s : ptr) : M (World K) TcpServer :=
  let* w := get in deref (w_servers w !! s).
Definition set_server (s : ptr) (x : TcpServer) : M (World K) unit :=
  modify (λ w, {| w with w_servers := <[s := x]> (w_servers w) |}).
Definition upd_server (s : ptr) (f : TcpServer → TcpServer) : M (World K) unit :=
  let* x := get_server s in set_server s (f x).

Definition get_client (c : ptr) : M (World K) TcpClient :=
  let* w := get in deref (w_clients w !! c).
Definition set_client (c : ptr) (x : TcpClient) : M (World K) unit :=
  modify (λ w, {| w with w_clients := <[c := x]> (w_clients w) |}).
Definition upd_client (c : ptr) (f : TcpClient → TcpClient) : M (World K) unit :=
  let* x := get_client c in set_client c (f x).
End Access.

(** A world with no object yet. *)
Definition start_world {K} (k : K) : World K := mkWorld k 1 1 ∅ ∅ ∅ ∅ ∅ ∅ ∅ ∅ ∅ ∅.

(** Addresses from [w_next] on are unused. *)
Record fresh {K} (w : World K) : Prop := {
  fresh_channel : ∀ p, w_next w ≤ p → w_channels w !! p = None;
  fresh_owner : ∀ c ch, w_channels w !! c = Some ch → ch_loop_ ch < w_next w;
  fresh_loop : ∀ p, w_next w ≤ p → w_loops w !! p = None;
  fresh_conn : ∀ p, w_next w ≤ p → w_conns w !! p = None;
}.

Lemma fresh_start {K} (k : K) : fresh (start_world k).
Proof. split; done. Qed.

(** ** Weakest preconditions of the accesses *)

Section WpAccess.
Context {K : Type}.
Implicit Types w : World K.

Lemma wpe_syscall {A} (f : K → A * K) Q E w :
  wpe (syscall f) Q E w
  ↔ Q (f (w_kernel w)).1 {| w with w_kernel := (f (w_kernel w)).2 |}.
Proof. unfold wpe, syscall. by destruct (f (w_kernel w)). Qed.

Lemma wpe_new_ptr Q E w :
  wpe new_ptr Q E w ↔ Q (w_next w) {| w with w_next := w_next w + 1 |}.
Proof. done. Qed.

Lemma wpe_get_channel p Q E w :
  wpe (get_channel p) Q E w ↔ ∃ x, w_channels w !! p = Some x ∧ Q x w.
Proof. unfold get_channel. by wp_simp. Qed.
Lemma wpe_set_channel p x Q E w :
  wpe (set_channel p x) Q E w ↔ Q tt {| w with w_channels := <[p := x]> (w_channels w) |}.
Proof. done. Qed.
Lemma wpe_upd_channel p f Q E w :
  wpe (upd_channel p f) Q E w
  ↔ ∃ x, w_channels w !! p = Some x ∧ Q tt {| w with w_channels := <[p := f x]> (w_channels w) |}.
Proof. unfold upd_channel, get_channel. by wp_simp. Qed.

Lemma wpe_get_loop p Q E w :
  wpe (get_loop p) Q E w ↔ ∃ x, w_loops w !! p = Some x ∧ Q x w.
Proof. unfold get_loop. by wp_simp. Qed.
Lemma wpe_set_loop p x Q E w :
  wpe (set_loop p x) Q E w ↔ Q tt {| w with w_loops := <[p := x]> (w_loops w) |}.
Proof. done. Qed.
Lemma wpe_upd_loop p f Q E w :
  wpe (upd_loop p f) Q E w
  ↔ ∃ x, w_loops w !! p = Some x ∧ Q tt {| w with w_loops := <[p := f x]> (w_loops w) |}.
Proof. unfold upd_loop, get_loop. by wp_simp. Qed.

Lemma wpe_get_conn p Q E w :
  wpe (get_conn p) Q E w ↔ ∃ x, w_conns w !! p = Some x ∧ Q x w.
Proof. unfold get_conn. by wp_simp. Qed.
Lemma wpe_set_conn p x Q E w :
  wpe (set_conn p x) Q E w ↔ Q tt {| w with w_conns := <[p := x]> (w_conns w) |}.
Proof. done. Qed.
Lemma wpe_upd_conn p f Q E w :
  wpe (upd_conn p f) Q E w
  ↔ ∃ x, w_conns w !! p = Some x ∧ Q tt {| w with w_conns := <[p := f x]> (w_conns w) |}.
Proof. unfold upd_conn, get_conn. by wp_simp. Qed.

Lemma wpe_get_connector p Q E w :
  wpe (get_connector p) Q E w ↔ ∃ x, w_connectors w !! p = Some x ∧ Q x w.
Proof. unfold get_connector. by wp_simp. Qed.
Lemma wpe_set_connector p x Q E w :
  wpe (set_connector p x) Q E w ↔ Q tt {| w with w_connectors := <[p := x]> (w_connectors w) |}.
Proof. done. Qed.
Lemma wpe_upd_connector p f Q E w :
  wpe (upd_connector p f) Q E w
  ↔ ∃ x, w_connectors w !! p = Some x ∧ Q tt {| w with w_connectors := <[p := f x]> (w_connectors w) |}.
Proof. unfold upd_connector, get_connector. by wp_simp. Qed.

Lemma wpe_get_acceptor p Q E w :
  wpe (get_acceptor p) Q E w ↔ ∃ x, w_acceptors w !! p = Some x ∧ Q x w.
Proof. unfold get_acceptor. by wp_simp. Qed.
Lemma wpe_set_acceptor p x Q E w :
  wpe (set_acceptor p x) Q E w ↔ Q tt {| w with w_acceptors := <[p := x]> (w_acceptors w) |}.
Proof. done. Qed.
Lemma wpe_upd_acceptor p f Q E w :
  wpe (upd_acceptor p f) Q E w
  ↔ ∃ x, w_acceptors w !! p = Some x ∧ Q tt {| w with w_acceptors := <[p := f x]> (w_acceptors w) |}.
Proof. unfold upd_acceptor, get_acceptor. by wp_simp. Qed.

Lemma wpe_get_thread p Q E w :
  wpe (get_thread p) Q E w ↔ ∃ x, w_threads w !! p = Some x ∧ Q x w.
Proof. unfold get_thread. by wp_simp. Qed.
Lemma wpe_set_thread p x Q E w :
  wpe (set_thread p x) Q E w ↔ Q tt {| w with w_threads := <[p := x]> (w_threads w) |}.
Proof. done. Qed.
Lemma wpe_upd_thread p f Q E w :
  wpe (upd_thread p f) Q E w
  ↔ ∃ x, w_threads w !! p = Some x ∧ Q tt {| w with w_threads := <[p := f x]> (w_threads w) |}.
Proof. unfold upd_thread, get_thread. by wp_simp. Qed.

Lemma wpe_get_pool p Q E w :
  wpe (get_pool p) Q E w ↔ ∃ x, w_pools w !! p = Some x ∧ Q x w.
Proof. unfold get_pool. by wp_simp. Qed.
Lemma wpe_set_pool p x Q E w :
  wpe (set_pool p x) Q E w ↔ Q tt {| w with w_pools := <[p := x]> (w_pools w) |}.
Proof. done. Qed.
Lemma wpe_upd_pool p f Q E w :
  wpe (upd_pool p f) Q E w
  ↔ ∃ x, w_pools w !! p = Some x ∧ Q tt {| w with w_pools := <[p := f x]> (w_pools w) |}.
Proof. unfold upd_pool, get_pool. by wp_simp. Qed.

Lemma wpe_get_server p Q E w :
  wpe (get_server p) Q E w ↔ ∃ x, w_servers w !! p = Some x ∧ Q x w.
Proof. unfold get_server. by wp_simp. Qed.
Lemma wpe_set_server p x Q E w :
  wpe (set_server p x) Q E w ↔ Q tt {| w with w_servers := <[p := x]> (w_servers w) |}.
Proof. done. Qed.
Lemma wpe_upd_server p f Q E w :
  wpe (upd_server p f) Q E w
  ↔ ∃ x, w_servers w !! p = Some x ∧ Q tt {| w with w_servers := <[p := f x]> (w_servers w) |}.
Proof. unfold upd_server, get_server. by wp_simp. Qed.

Lemma wpe_get_client p Q E w :
  wpe (get_client p) Q E w ↔ ∃ x, w_clients w !! p = Some x ∧ Q x w.
Proof. unfold get_client. by wp_simp. Qed.
Lemma wpe_set_client p x Q E w :
  wpe (set_client p x) Q E w ↔ Q tt {| w with w_clients := <[p := x]> (w_clients w) |}.
Proof. done. Qed.
Lemma wpe_upd_client p f Q E w :
  wpe (upd_client p f) Q E w
  ↔ ∃ x, w_clients w !! p = Some x ∧ Q tt {| w with w_clients := <[p := f x]> (w_clients w) |}.
Proof. unfold upd_client, get_client. by wp_simp. Qed.
End WpAccess.

#[export] Hint Rewrite
  @wpe_get_channel @wpe_upd_channel @wpe_get_loop @wpe_upd_loop
  @wpe_get_conn @wpe_upd_conn @wpe_get_connector @wpe_upd_connector
  @wpe_get_acceptor @wpe_upd_acceptor @wpe_get_thread @wpe_upd_thread @wpe_get_pool @wpe_upd_pool
  @wpe_get_server @wpe_upd_server @wpe_get_client @wpe_upd_client : wpdb.

(** ** EventLoop::assertInLoopThread *)
Section LoopThread.
Context {K : Type}.

Definition isInLoopThread (l : ptr) : M (World K) bool :=
  let* x := get_loop l in
  let* tid := gets w_tid in
  ret (threadId_ x =? tid).

(** Its only statement is commented out in the source. *)
Definition abortNotInLoopThread (l : ptr) : M (World K) unit := ret tt.

Definition assertInLoopThread (l : ptr) : M (World K) unit :=
  let* b := isInLoopThread l in
  if negb b then abortNotInLoopThread l else ret tt.

Lemma wpe_isInLoopThread l Q E (w : World K) :
  wpe (isInLoopThread l) Q E w
  ↔ ∃ x, w_loops w !! l = Some x ∧ Q (threadId_ x =? w_tid w) w.
Proof. unfold isInLoopThread, get_loop. by wp_simp. Qed.

Lemma wpe_assertInLoopThread l Q E (w : World K) :
  wpe (assertInLoopThread l) Q E w ↔ is_Some (w_loops w !! l) ∧ Q tt w.
Proof.
  unfold assertInLoopThread, abortNotInLoopThread, is_Some.
  rewrite wpe_bind, wpe_isInLoopThread. split.
  - intros (x & ? & ?). by destruct (negb _); eauto.
  - intros [[x ?] ?]. exists x. by destruct (negb _).
Qed.

Lemma assertInLoopThread_ok l (w : World K) x : w_loops w !! l = Some x →
  assertInLoopThread l w = Ret tt w.
Proof.
  intros Hl. unfold assertInLoopThread, isInLoopThread, get_loop, bind, get, gets, deref, ret.
  rewrite Hl. by destruct (negb _).
Qed.
End LoopThread.

(** Read the fields of an updated world. *)
Ltac simpl_world :=
  cbn [w_kernel w_tid w_next w_channels w_loops w_conns w_connectors w_acceptors
       w_threads w_pools w_servers w_clients w_tls].

(** One step of the program at the head of the goal. *)
Ltac wp_step :=
  lazymatch goal with
  | |- wpe (syscall _) _ _ _ => refine (proj2 (wpe_syscall _ _ _ _) _)
  | |- wpe new_ptr _ _ _ => refine (proj2 (wpe_new_ptr _ _ _) _)
  | |- wpe (get_channel _) _ _ _ => refine (proj2 (wpe_get_channel _ _ _ _) _)
  | |- wpe (set_channel _ _) _ _ _ => refine (proj2 (wpe_set_channel _ _ _ _ _) _)
  | |- wpe (upd_channel _ _) _ _ _ => refine (proj2 (wpe_upd_channel _ _ _ _ _) _)
  | |- wpe (get_loop _) _ _ _ => refine (proj2 (wpe_get_loop _ _ _ _) _)
  | |- wpe (set_loop _ _) _ _ _ => refine (proj2 (wpe_set_loop _ _ _ _ _) _)
  | |- wpe (upd_loop _ _) _ _ _ => refine (proj2 (wpe_upd_loop _ _ _ _ _) _)
  | |- wpe (get_conn _) _ _ _ => refine (proj2 (wpe_get_conn _ _ _ _) _)
  | |- wpe (set_conn _ _) _ _ _ => refine (proj2 (wpe_set_conn _ _ _ _ _) _)
  | |- wpe (upd_conn _ _) _ _ _ => refine (proj2 (wpe_upd_conn _ _ _ _ _) _)
  | |- wpe (get_connector _) _ _ _ => refine (proj2 (wpe_get_connector _ _ _ _) _)
  | |- wpe (set_connector _ _) _ _ _ => refine (proj2 (wpe_set_connector _ _ _ _ _) _)
  | |- wpe (upd_connector _ _) _ _ _ => refine (proj2 (wpe_upd_connector _ _ _ _ _) _)
  | |- wpe (get_acceptor _) _ _ _ => refine (proj2 (wpe_get_acceptor _ _ _ _) _)
  | |- wpe (set_acceptor _ _) _ _ _ => refine (proj2 (wpe_set_acceptor _ _ _ _ _) _)
  | |- wpe (upd_acceptor _ _) _ _ _ => refine (proj2 (wpe_upd_acceptor _ _ _ _ _) _)
  | |- wpe (get_thread _) _ _ _ => refine (proj2 (wpe_get_thread _ _ _ _) _)
  | |- wpe (set_thread _ _) _ _ _ => refine (proj2 (wpe_set_thread _ _ _ _ _) _)
  | |- wpe (upd_thread _ _) _ _ _ => refine (proj2 (wpe_upd_thread _ _ _ _ _) _)
  | |- wpe (get_pool _) _ _ _ => refine (proj2 (wpe_get_pool _ _ _ _) _)
  | |- wpe (set_pool _ _) _ _ _ => refine (proj2 (wpe_set_pool _ _ _ _ _) _)
  | |- wpe (upd_pool _ _) _ _ _ => refine (proj2 (wpe_upd_pool _ _ _ _ _) _)
  | |- wpe (get_server _) _ _ _ => refine (proj2 (wpe_get_server _ _ _ _) _)
  | |- wpe (set_server _ _) _ _ _ => refine (proj2 (wpe_set_server _ _ _ _ _) _)
  | |- wpe (upd_server _ _) _ _ _ => refine (proj2 (wpe_upd_server _ _ _ _ _) _)
  | |- wpe (get_client _) _ _ _ => refine (proj2 (wpe_get_client _ _ _ _) _)
  | |- wpe (set_client _ _) _ _ _ => refine (proj2 (wpe_set_client _ _ _ _ _) _)
  | |- wpe (upd_client _ _) _ _ _ => refine (proj2 (wpe_upd_client _ _ _ _ _) _)
  | _ => wp_basic
  end; cbn beta; simpl_world.

(** Run the program at the head of the goal as far as its steps are determined,
    resolving dereferences of known cells. *)
Ltac wp_run_cells :=
  repeat lazymatch goal with
  | |- ∃ x, _ !! _ = Some x ∧ _ => eexists; split; [solve [solve_cell]|]; cbn beta
  | |- is_Some (_ !! _) ∧ _ => split; [eexists; solve [solve_cell]|]
  | |- wpe (isInLoopThread _) _ _ _ => refine (proj2 (wpe_isInLoopThread _ _ _ _) _); cbn beta
  | |- wpe (assertInLoopThread _) _ _ _ =>
      refine (proj2 (wpe_assertInLoopThread _ _ _ _) _); cbn beta
  | _ => wp_step
  end.

(** Discharge an assertion the program stopped at, and go on. *)
Tactic Notation "wp_assert" "by" tactic3(t) := split; [solve [t]|]; wp_run_cells.
