(* ===== verification/Frame.v ===== *)
(** * What an operation leaves alone

    [Preserves f m]: whenever [m] returns, the part [f] of the state is what it
    was.  The instances follow the syntax of the operations, so that type class
    search proves such facts from the program text. *)

From S2P Require Import Prelude.
From S2P Require Import NetTypes.

Class Preserves {S T A} (f : S → T) (m : M S A) : Prop :=
  preserves : ∀ s a s', m s = Ret a s' → f s' = f s.

Section Generic.
Context {S T : Type} (f : S → T).

#[global] Instance preserves_ret {A} (a : A) : Preserves f (ret a).
Proof. by intros s ? s' [= _ <-]. Qed.
#[global] Instance preserves_throw {A} e : Preserves f (throw (A := A) e).
Proof. done. Qed.
#[global] Instance preserves_crash {A} e : Preserves f (crash (A := A) e).
Proof. done. Qed.
#[global] Instance preserves_get : Preserves f get.
Proof. by intros s ? s' [= _ <-]. Qed.
#[global] Instance preserves_gets {A} (g : S → A) : Preserves f (gets g).
Proof. by intros s ? s' [= _ <-]. Qed.
#[global] Instance preserves_assert b : Preserves f (assert_ b).
Proof. intros s [] s'. unfold assert_. by destruct b; intros ?; simplify_eq. Qed.
#[global] Instance preserves_deref {A} (o : option A) : Preserves f (deref o).
Proof. intros s a s'. unfold deref. by destruct o; intros ?; simplify_eq. Qed.
#[global] Instance preserves_at {A} (o : option A) : Preserves f (at_ o).
Proof. intros s a s'. unfold at_. by destruct o; intros ?; simplify_eq. Qed.
#[global] Instance preserves_bind {A B} (m : M S A) (k : A → M S B) :
  Preserves f m → (∀ a, Preserves f (k a)) → Preserves f (bind m k).
Proof.
  intros Hm Hk s b s'. unfold bind. destruct (m s) as [a s1| |] eqn:E; [|done|done].
  intros Hb. rewrite (Hk a _ _ _ Hb). by apply Hm in E.
Qed.
#[global] Instance preserves_when b (m : M S unit) : Preserves f m → Preserves f (when b m).
Proof. destruct b; [done|]. intros _. apply preserves_ret. Qed.
#[global] Instance preserves_forM {A} (l : list A) (m : A → M S unit) :
  (∀ a, Preserves f (m a)) → Preserves f (forM l m).
Proof. intros Hm. induction l as [|a l IH]; cbn; apply _. Qed.
Lemma preserves_modify (g : S → S) : (∀ s, f (g s) = f s) → Preserves f (modify g).
Proof. by intros Hg s ? s' [= _ <-]. Qed.
Lemma preserves_zoom {T' A} (g : S → T') (p : T' → S → S) (m : M T' A) :
  (∀ t s, f (p t s) = f s) → Preserves f (zoom g p m).
Proof. intros Hp s a s'. unfold zoom. destruct (m (g s)); intros ?; by simplify_eq. Qed.
End Generic.

#[export] Hint Extern 1 (Preserves _ (modify _)) =>
  apply preserves_modify; intros; reflexivity : typeclass_instances.
#[export] Hint Extern 1 (Preserves _ (zoom _ _ _)) =>
  apply preserves_zoom; intros; reflexivity : typeclass_instances.

(** The system calls and the allocator change [w_kernel] and [w_next] only. *)
Section World.
Context {K T : Type} (f : World K → T).

Lemma preserves_syscall {A} (g : K → A * K) :
  (∀ w k, f {| w with w_kernel := k |} = f w) → Preserves f (syscall g).
Proof. intros Hf w a w'. unfold syscall. destruct (g _). intros [= <- <-]. apply Hf. Qed.
Lemma preserves_new_ptr : (∀ w n, f {| w with w_next := n |} = f w) → Preserves f new_ptr.
Proof. intros Hf w a w' [= <- <-]. apply Hf. Qed.
End World.

#[export] Hint Extern 1 (Preserves _ (syscall _)) =>
  apply preserves_syscall; intros; reflexivity : typeclass_instances.
#[export] Hint Extern 1 (Preserves _ new_ptr) =>
  apply preserves_new_ptr; intros; reflexivity : typeclass_instances.

(** An operation preserves what its definition does. *)
Ltac head_of t := lazymatch t with ?f _ => head_of f | _ => t end.
Ltac unfold_op :=
  lazymatch goal with
  | |- Preserves _ ?m =>
      let h := head_of m in
      lazymatch h with
      | @bind => fail | @ret => fail | @throw => fail | @crash => fail | @get => fail
      | @gets => fail | @modify => fail | @assert_ => fail | @deref => fail | @at_ => fail
      | @when => fail | @forM => fail | @zoom => fail | @syscall => fail | @new_ptr => fail
      | _ => progress (unfold h)
      end
  end.
(** A conditional preserves what its branches do. *)
Ltac destruct_op :=
  lazymatch goal with |- Preserves _ (match ?r with _ => _ end) => destruct r end.
#[export] Hint Extern 7 (Preserves _ _) => destruct_op : typeclass_instances.
#[export] Hint Extern 8 (Preserves _ _) => progress (cbv beta zeta) : typeclass_instances.
#[export] Hint Extern 9 (Preserves _ _) => unfold_op : typeclass_instances.

(** A fact of a run carried by what it preserves. *)
Lemma wpe_preserves {S T A} (f : S → T) (m : M S A) `{!Preserves f m} Q E s :
  wpe m (λ a s', f s' = f s → Q a s') E s → wpe m Q E s.
Proof.
  unfold wpe. destruct (m s) as [a s'| |] eqn:Em; [|done|done]. intros HQ.
  apply HQ. by eapply preserves.
Qed.

(** The cells of the objects above channels, loops and connections. *)
Definition registry {K} (w : World K) :=
  (w_connectors w, w_acceptors w, w_threads w, w_pools w, w_servers w, w_clients w).
(** Everything but the system, the channels and the loops. *)
Definition others {K} (w : World K) :=
  (registry w, w_conns w, w_tid w, w_next w, w_tls w).
