(* ===== verification/Kernel.v ===== *)
(** * What the library relies on from the operating system

    [KernelLaws] states the documented behaviour of the calls (epoll_ctl(2),
    epoll_wait(2), write(2), readv(2), shutdown(2)) over four observables of
    the kernel state; [Sim] is a small executable kernel that satisfies it, in
    which witnesses run. *)

From S2P Require Import Prelude.
From S2P Require Import Buffer.
From S2P Require Import NetTypes.

(** - [interest k ep]: the interest list of the epoll instance [ep], by fd;
    - [pollable k fd]: [fd] is open, supports epoll and can be registered;
    - [sent k fd]: the bytes written to [fd] so far;
    - [fin k fd]: the write side of [fd] has been shut down. *)
Class Observe (K : Type) := {
  interest : K → Z → gmap Z epoll_event;
  pollable : K → Z → Prop;
  sent : K → Z → bytes;
  fin : K → Z → bool;
}.

Section Frames.
Context `{Observe K}.

Definition epoll_frame (k k' : K) : Prop :=
  (∀ ep, interest k' ep = interest k ep) ∧ (∀ fd, pollable k fd → pollable k' fd).
Definition stream_frame (k k' : K) : Prop :=
  (∀ fd, sent k' fd = sent k fd) ∧ (∀ fd, fin k' fd = fin k fd).
(** No observable changed. *)
Definition quiet (k k' : K) : Prop := epoll_frame k k' ∧ stream_frame k k'.
(** Only the interest list of [ep] changed, to [m]. *)
Definition ctl_post (k k' : K) (ep : Z) (m : gmap Z epoll_event) : Prop :=
  interest k' ep = m ∧ (∀ ep', ep' ≠ ep → interest k' ep' = interest k ep')
  ∧ (∀ fd, pollable k fd → pollable k' fd) ∧ stream_frame k k'.

#[global] Instance epoll_frame_preorder : PreOrder epoll_frame.
Proof.
  split; [done|]. intros k1 k2 k3 [E1 P1] [E2 P2].
  split; [intros ep; by rewrite E2|auto].
Qed.
#[global] Instance stream_frame_preorder : PreOrder stream_frame.
Proof.
  split; [done|]. intros k1 k2 k3 [E1 P1] [E2 P2].
  split; intros fd; [by rewrite E2|by rewrite P2].
Qed.
#[global] Instance quiet_preorder : PreOrder quiet.
Proof.
  split; [done|]. intros k1 k2 k3 [??] [??]. split; by etransitivity.
Qed.
End Frames.

Class KernelLaws (K : Type) `{Kernel K, Observe K} := {
  (** A new instance watches nothing; a new eventfd can be watched. *)
  epoll_create_empty k r k' : sys_epoll_create1 k = (r, k') →
    (∀ fd, pollable k fd → pollable k' fd) ∧ stream_frame k k' ∧
    match r with
    | inr ep => interest k' ep = ∅ ∧ (∀ ep', ep' ≠ ep → interest k' ep' = interest k ep')
    | inl _ => ∀ ep', interest k' ep' = interest k ep'
    end;
  eventfd_pollable k r k' : sys_eventfd k = (r, k') →
    quiet k k' ∧ ∀ fd, r = inr fd → pollable k' fd;
  ctl_add k ep fd ev : pollable k fd → interest k ep !! fd = None →
    ∃ k', sys_epoll_ctl ep EPOLL_CTL_ADD fd ev k = (inr tt, k')
          ∧ ctl_post k k' ep (<[fd := ev]> (interest k ep));
  ctl_mod k ep fd ev : is_Some (interest k ep !! fd) →
    ∃ k', sys_epoll_ctl ep EPOLL_CTL_MOD fd ev k = (inr tt, k')
          ∧ ctl_post k k' ep (<[fd := ev]> (interest k ep));
  ctl_del k ep fd ev : is_Some (interest k ep !! fd) →
    ∃ k', sys_epoll_ctl ep EPOLL_CTL_DEL fd ev k = (inr tt, k')
          ∧ ctl_post k k' ep (delete fd (interest k ep));
  (** At most [n] events, each for a registered descriptor. *)
  wait_events k ep n t r k' : sys_epoll_wait ep n t k = (r, k') →
    quiet k k' ∧
    match r with
    | inr evs => zlen evs ≤ Z.max n 0 ∧
        Forall (λ ev, ∃ fd mask, interest k ep !! fd = Some (mkEvent mask (ev_ptr ev))
                  ∧ Z.land (ev_events ev) (Z.lnot (Z.lor mask (Z.lor EPOLLERR EPOLLHUP))) = 0)
               evs
    | inl _ => True
    end;
  write_sends k fd d r k' : sys_write fd d k = (r, k') →
    epoll_frame k k' ∧ (∀ fd', fin k' fd' = fin k fd') ∧
    (∀ fd', fd' ≠ fd → sent k' fd' = sent k fd') ∧
    match r with
    | inr n => 0 ≤ n ≤ zlen d ∧ sent k' fd = sent k fd ++ ztake n d
    | inl e => sent k' fd = sent k fd
    end;
  readv_room k fd n r k' : sys_readv fd n k = (r, k') →
    quiet k k' ∧ ∀ d, r = inr d → 0 ≤ n → zlen d ≤ n;
  read_room k fd n r k' : sys_read fd n k = (r, k') →
    quiet k k' ∧ ∀ d, r = inr d → 0 ≤ n → zlen d ≤ n;
  shutdown_fin k fd r k' : sys_shutdown_wr fd k = (r, k') →
    epoll_frame k k' ∧ (∀ fd', sent k' fd' = sent k fd') ∧
    (∀ fd', fd' ≠ fd → fin k' fd' = fin k fd') ∧
    fin k' fd = (if r is inr _ then true else fin k fd);
  so_error_quiet k fd : quiet k (sys_so_error fd k).2;
  setsockopt_quiet k fd o b : quiet k (sys_setsockopt fd o b k).2;
}.

(** Sockets: a new descriptor is one that was not open; closing one forgets it
    everywhere; the other calls change neither interest nor openness. *)
Class SocketLaws (K : Type) `{Kernel K, Observe K} := {
  socket_new k fam fd k' : sys_socket fam k = (inr fd, k') →
    epoll_frame k k' ∧ pollable k' fd ∧ ¬ pollable k fd;
  connect_frame k fd a : epoll_frame k (sys_connect fd a k).2;
  getsockname_frame k fd : quiet k (sys_getsockname fd k).2;
  getpeername_frame k fd : quiet k (sys_getpeername fd k).2;
  close_frame k fd : let k' := (sys_close fd k).2 in
    (∀ ep, interest k' ep = delete fd (interest k ep)) ∧
    (∀ fd', fd' ≠ fd → pollable k fd' → pollable k' fd') ∧ ¬ pollable k' fd;
}.

(** eventfd(2): a write leaves the counter positive (it fails only when the
    counter is at its maximum); only a read of the descriptor lowers it. *)
Class EventfdLaws (K : Type) `{Kernel K} := {
  is_eventfd : K → Z → Prop;
  evcount : K → Z → Z;
  eventfd_write k fd d r k' : is_eventfd k fd → zlen d = 8 → sys_write fd d k = (r, k') →
    is_eventfd k' fd ∧ 0 < evcount k' fd;
  eventfd_read k fd n r k' : is_eventfd k fd → sys_read fd n k = (r, k') → is_eventfd k' fd;
  eventfd_wait k fd ep n t r k' : is_eventfd k fd → sys_epoll_wait ep n t k = (r, k') →
    is_eventfd k' fd ∧ evcount k' fd = evcount k fd;
}.

(** ** An executable kernel

    Scripts give the results of calls in turn: [sm_ready] the readiness
    reported by each epoll_wait as (fd, events) pairs, [sm_room] how many bytes
    each write accepts or its error (when it runs out, writes accept
    everything), [sm_input] what readv finds on an fd ([EAGAIN] when it runs
    out). *)
Module Sim.
Record sim := mkSim {
  sm_open : gset Z;
  sm_next : Z;
  sm_epoll : gmap Z (gmap Z epoll_event);
  sm_sent : gmap Z bytes;
  sm_fin : gset Z;
  sm_ready : list (list (Z * Z));
  sm_room : list (Z + Z);
  sm_input : gmap Z (list (Z + bytes));
  sm_error : gmap Z Z;
  sm_pending : list (Z + sockaddr);
  sm_connects : list (Z + unit);
  sm_names : gmap Z sockaddr;
  sm_peers : gmap Z sockaddr;
  sm_count : gmap Z Z;
}.

Definition empty : sim := mkSim ∅ 3 ∅ ∅ ∅ [] [] ∅ ∅ [] [] ∅ ∅ ∅.

Definition list_of (k : sim) (ep : Z) : gmap Z epoll_event := default ∅ (sm_epoll k !! ep).
Definition set_list (ep : Z) (m : gmap Z epoll_event) (k : sim) : sim :=
  {| k with sm_epoll := <[ep := m]> (sm_epoll k) |}.
(** A descriptor that is not open. *)
Definition unused_fd (k : sim) : Z :=
  foldr (λ x m, Z.max (x + 1) m) (sm_next k) (elements (sm_open k)).
Definition new_fd (k : sim) : Z * sim :=
  let fd := unused_fd k in
  (fd, {| k with sm_next := fd + 1; sm_open := {[fd]} ∪ sm_open k |}).

Definition open_fd (k : sim) : (Z + Z) * sim := let '(fd, k') := new_fd k in (inr fd, k').
(** An eventfd with its counter at 0. *)
Definition eventfd (k : sim) : (Z + Z) * sim :=
  let '(fd, k') := new_fd k in (inr fd, {| k' with sm_count := <[fd := 0]> (sm_count k') |}).
Definition epoll_create1 (k : sim) : (Z + Z) * sim :=
  let '(fd, k') := new_fd k in (inr fd, set_list fd ∅ k').

Definition epoll_ctl (ep op fd : Z) (ev : epoll_event) (k : sim) : (Z + unit) * sim :=
  let m := list_of k ep in
  if op =? EPOLL_CTL_ADD then
    if negb (bool_decide (fd ∈ sm_open k)) then (inl EBADF, k)
    else if bool_decide (is_Some (m !! fd)) then (inl 17, k)
    else (inr tt, set_list ep (<[fd := ev]> m) k)
  else if negb (bool_decide (is_Some (m !! fd))) then (inl 2, k)
  else if op =? EPOLL_CTL_MOD then (inr tt, set_list ep (<[fd := ev]> m) k)
  else (inr tt, set_list ep (delete fd m) k).

(** The part of the readiness [revents] of [fd] that epoll reports. *)
Definition report (m : gmap Z epoll_event) (r : Z * Z) : option epoll_event :=
  ev ← m !! r.1;
  let e := Z.land r.2 (Z.lor (ev_events ev) (Z.lor EPOLLERR EPOLLHUP)) in
  if e =? 0 then None else Some (mkEvent e (ev_ptr ev)).

Definition epoll_wait (ep n t : Z) (k : sim) : (Z + list epoll_event) * sim :=
  match sm_ready k with
  | [] => (inr [], k)
  | rs :: rest => (inr (ztake n (omap (report (list_of k ep)) rs)), {| k with sm_ready := rest |})
  end.

Definition deliver (fd : Z) (d : bytes) (k : sim) : sim :=
  {| k with sm_sent := <[fd := default [] (sm_sent k !! fd) ++ d]> (sm_sent k) |}.

Definition write (fd : Z) (d : bytes) (k : sim) : (Z + Z) * sim :=
  match sm_room k with
  | [] => (inr (zlen d), deliver fd d k)
  | r :: rest =>
      let k' := {| k with sm_room := rest |} in
      match r with
      | inl e => (inl e, k')
      | inr n => let n' := Z.max 0 (Z.min n (zlen d)) in (inr n', deliver fd (ztake n' d) k')
      end
  end.

(** Writing an eventfd adds to its counter; reading it resets the counter. *)
Definition write_any (fd : Z) (d : bytes) (k : sim) : (Z + Z) * sim :=
  match sm_count k !! fd with
  | Some c => (inr (zlen d), deliver fd d {| k with sm_count := <[fd := Z.max 0 c + 1]> (sm_count k) |})
  | None => write fd d k
  end.

Definition readv (fd n : Z) (k : sim) : (Z + bytes) * sim :=
  match sm_input k !! fd with
  | Some (inl e :: rest) => (inl e, {| k with sm_input := <[fd := rest]> (sm_input k) |})
  | Some (inr d :: rest) =>
      (inr (ztake n d),
       {| k with sm_input := <[fd := if zlen d <=? n then rest else inr (zdrop n d) :: rest]>
                               (sm_input k) |})
  | _ => (inl EAGAIN, k)
  end.

Definition read_any (fd n : Z) (k : sim) : (Z + bytes) * sim :=
  match sm_count k !! fd with
  | Some c =>
      if c =? 0 then (inl EAGAIN, k)
      else (inr (ztake n (repeat (char_of c) 8)), {| k with sm_count := <[fd := 0]> (sm_count k) |})
  | None => readv fd n k
  end.

Definition close (fd : Z) (k : sim) : (Z + unit) * sim :=
  (inr tt, {| k with sm_open := sm_open k ∖ {[fd]}; sm_epoll := delete fd <$> sm_epoll k |}).

Definition shutdown_wr (fd : Z) (k : sim) : (Z + unit) * sim :=
  (inr tt, {| k with sm_fin := {[fd]} ∪ sm_fin k |}).

Definition accept (fd : Z) (k : sim) : (Z + (Z * sockaddr)) * sim :=
  match sm_pending k with
  | [] => (inl EAGAIN, k)
  | inl e :: rest => (inl e, {| k with sm_pending := rest |})
  | inr a :: rest =>
      let '(c, k') := new_fd {| k with sm_pending := rest |} in
      (inr (c, a), {| k' with sm_peers := <[c := a]> (sm_peers k') |})
  end.

Definition connect (fd : Z) (a : sockaddr) (k : sim) : (Z + unit) * sim :=
  let k' := {| k with sm_peers := <[fd := a]> (sm_peers k) |} in
  match sm_connects k with
  | [] => (inl EINPROGRESS, k')
  | r :: rest => (r, {| k' with sm_connects := rest |})
  end.

#[global] Instance kernel : Kernel sim := {
  sys_epoll_create1 := epoll_create1;
  sys_epoll_ctl := epoll_ctl;
  sys_epoll_wait := epoll_wait;
  sys_eventfd := eventfd;
  sys_read := read_any;
  sys_readv := readv;
  sys_write := write_any;
  sys_close := close;
  sys_shutdown_wr := shutdown_wr;
  sys_setsockopt _ _ _ k := (inr tt, k);
  sys_socket _ k := open_fd k;
  sys_bind fd a k := (inr tt, {| k with sm_names := <[fd := a]> (sm_names k) |});
  sys_listen _ k := (inr tt, k);
  sys_accept := accept;
  sys_connect := connect;
  sys_so_error fd k := (inr (default 0 (sm_error k !! fd)), k);
  sys_getsockname fd k := (inr (default [] (sm_names k !! fd)), k);
  sys_getpeername fd k := (inr (default [] (sm_peers k !! fd)), k);
  sys_open_null k := open_fd k;
  sys_clone k := let n := sm_next k in (inr (1000 + n), {| k with sm_next := n + 1 |});
}.

#[global] Instance observe : Observe sim := {
  interest := list_of;
  pollable k fd := fd ∈ sm_open k;
  sent k fd := default [] (sm_sent k !! fd);
  fin k fd := bool_decide (fd ∈ sm_fin k);
}.

Lemma set_list_post ep m k : ctl_post k (set_list ep m k) ep m.
Proof.
  unfold ctl_post, list_of; cbn. unfold list_of; cbn. rewrite lookup_insert_eq.
  split; [done|]. split; [|done]. intros ep' ?. by rewrite lookup_insert_ne.
Qed.

Lemma write_lift fd d k r k' : write fd d k = (r, k') →
  epoll_frame k k' ∧ (∀ fd', fin k' fd' = fin k fd') ∧
  (∀ fd', fd' ≠ fd → sent k' fd' = sent k fd') ∧
  match r with
  | inr n => 0 ≤ n ≤ zlen d ∧ sent k' fd = sent k fd ++ ztake n d
  | inl e => sent k' fd = sent k fd
  end.
Proof.
  unfold write. pose proof (zlen_nonneg d). intros.
  assert (ztake (zlen d) d = d) as Hall by (apply (zslice_all d)).
  repeat case_match; simplify_eq/=; (split; [done|]); (split; [done|]); split;
    try done; try (intros fd' ?; by rewrite lookup_insert_ne);
    rewrite lookup_insert_eq; cbn; (split; [lia|]); by rewrite ?Hall.
Qed.

Lemma write_any_lift fd d k r k' : write_any fd d k = (r, k') →
  epoll_frame k k' ∧ (∀ fd', fin k' fd' = fin k fd') ∧
  (∀ fd', fd' ≠ fd → sent k' fd' = sent k fd') ∧
  match r with
  | inr n => 0 ≤ n ≤ zlen d ∧ sent k' fd = sent k fd ++ ztake n d
  | inl e => sent k' fd = sent k fd
  end.
Proof.
  unfold write_any. destruct (sm_count k !! fd); [|apply write_lift].
  intros ?. simplify_eq/=. pose proof (zlen_nonneg d).
  split; [done|]. split; [done|]. split; [intros fd' ?; by rewrite lookup_insert_ne|].
  split; [lia|]. rewrite lookup_insert_eq. cbn. f_equal. symmetry. apply (zslice_all d).
Qed.

Lemma readv_lift fd n k r k' : readv fd n k = (r, k') →
  quiet k k' ∧ ∀ d, r = inr d → 0 ≤ n → zlen d ≤ n.
Proof.
  unfold readv. intros. repeat case_match; simplify_eq/=;
    (split; [done|]); intros d' ?; simplify_eq/=;
    intros; unfold zlen, ztake; rewrite length_take; lia.
Qed.

Lemma read_any_lift fd n k r k' : read_any fd n k = (r, k') →
  quiet k k' ∧ ∀ d, r = inr d → 0 ≤ n → zlen d ≤ n.
Proof.
  unfold read_any. destruct (sm_count k !! fd) as [c|]; [|apply readv_lift].
  destruct (c =? 0); intros ?; simplify_eq; (split; [done|]); intros d' ?; simplify_eq.
  intros. unfold zlen, ztake. rewrite length_take. lia.
Qed.

#[global] Instance laws : KernelLaws sim.
Proof.
  split.
  - intros k r k' Hc. cbn in Hc. unfold epoll_create1, new_fd in Hc. simplify_eq.
    cbn. split; [set_solver|]. split; [done|]. unfold list_of; cbn. split.
    + by rewrite lookup_insert_eq.
    + intros ep' ?. by rewrite lookup_insert_ne.
  - intros k r k' Hc. cbn in Hc. unfold eventfd, new_fd in Hc. simplify_eq.
    split; [split; [split; [done|]|done]|]; cbn; [set_solver|]. intros fd ?. simplify_eq. set_solver.
  - intros k ep fd ev Ho Hi. cbn in *. unfold epoll_ctl. cbn.
    rewrite bool_decide_true by done. rewrite Hi. cbn.
    eexists. split; [done|]. apply set_list_post.
  - intros k ep fd ev Hi. cbn in *. unfold epoll_ctl. cbn.
    rewrite bool_decide_true by done. cbn. eexists. split; [done|]. apply set_list_post.
  - intros k ep fd ev Hi. cbn in *. unfold epoll_ctl. cbn.
    rewrite bool_decide_true by done. cbn. eexists. split; [done|]. apply set_list_post.
  - intros k ep n t r k' Hw. cbn in Hw. unfold epoll_wait in Hw.
    destruct (sm_ready k) as [|rs rest]; simplify_eq; (split; [done|]).
    + split; [rewrite zlen_nil; lia|constructor].
    + split; [unfold zlen, ztake; rewrite length_take; lia|].
      apply Forall_take, Forall_forall. intros ev ([fd re] & _ & Hr)%list_elem_of_omap.
      unfold report in Hr. apply bind_Some in Hr as ([mask p] & Hl & Hr). cbn in Hl, Hr.
      destruct (_ =? 0) eqn:?; [done|]. simplify_eq. exists fd, mask. split; [done|].
      cbn. apply Z.bits_inj'. intros i ?. rewrite !Z.land_spec, Z.lnot_spec, Z.bits_0 by lia.
      destruct (Z.testbit _ i); [|done]. by rewrite andb_comm; destruct (Z.testbit _ _).
  - intros *. apply write_any_lift.
  - intros *. apply readv_lift.
  - intros *. apply read_any_lift.
  - intros k fd r k' Hw. cbn in Hw. unfold shutdown_wr in Hw. simplify_eq/=.
    split; [done|]. split; [done|]. split.
    + intros fd' ?. apply bool_decide_ext. set_solver.
    + apply bool_decide_true. set_solver.
  - done.
  - done.
Qed.

Lemma unused_fd_not_open k : unused_fd k ∉ sm_open k.
Proof.
  unfold unused_fd. rewrite <-elem_of_elements. generalize (sm_next k). intros n.
  assert (∀ l, Forall (λ x, x < foldr (λ x m, Z.max (x + 1) m) n l) l) as Hl.
  { induction l as [|x l IH]; constructor; cbn; [lia|].
    eapply Forall_impl; [exact IH|]. cbn. intros; lia. }
  intros Hin. pose proof (proj1 (Forall_forall _ _) (Hl _) _ Hin). cbn in *. lia.
Qed.

#[global] Instance socket_laws : SocketLaws sim.
Proof.
  split.
  - intros k fam fd k' Hs. cbn in Hs. unfold open_fd, new_fd in Hs. simplify_eq. cbn.
    split_and!; [split; [done|]; cbn; set_solver|set_solver|apply unused_fd_not_open].
  - intros k fd a. cbn. unfold connect. by destruct (sm_connects k).
  - done.
  - done.
  - intros k fd. cbn. split; [|split; set_solver]. intros ep. unfold list_of. cbn.
    rewrite lookup_fmap. destruct (sm_epoll k !! ep); cbn; [done|by rewrite delete_empty].
Qed.

#[global] Program Instance eventfd_laws : EventfdLaws sim := {
  is_eventfd k fd := is_Some (sm_count k !! fd);
  evcount k fd := default 0 (sm_count k !! fd);
}.
Next Obligation.
  intros k fd d r k' [c Hc] _ Hw. cbn in Hw. unfold write_any in Hw. rewrite Hc in Hw.
  simplify_eq/=. rewrite lookup_insert_eq. cbn. split; [eauto|lia].
Qed.
Next Obligation.
  intros k fd n r k' [c Hc] Hw. cbn in Hw. unfold read_any in Hw. rewrite Hc in Hw.
  destruct (c =? 0); simplify_eq/=; [by eexists|]. rewrite lookup_insert_eq. eauto.
Qed.
Next Obligation.
  intros k fd ep n t r k' Hc Hw. cbn in Hw. unfold epoll_wait in Hw.
  destruct (sm_ready k); by simplify_eq/=.
Qed.
End Sim.
