(* ===== verification/Channel.v ===== *)
(** * Channel: a descriptor's interest and callbacks
    (network/include/network/Channel.h, network/src/Channel.cc)

    The constructor, the accessors and the setters.  The operations that go
    through the event loop ([update], [remove], [enableReading], ...) are in
    EventLoop.v, after the loop's registry. *)

From S2P Require Import Prelude.
From S2P Require Import Buffer.
From S2P Require Import NetTypes.

Module Channel.
Definition NoneEvent : Z := 0.
Definition ReadEvent : Z := EPOLLIN.
Definition WriteEvent : Z := EPOLLOUT.

Section Channel.
Context {K : Type}.

Definition Channel_ctor (loop : ptr) (fd : Z) : M (World K) ptr :=
  let* c := new_ptr in
  set_channel c (mkChannel loop fd 0 0 (-1) false false None None None None) ;;;
  ret c.

Definition setReadCallback (c : ptr) (cb : EventCallback) : M (World K) unit :=
  upd_channel c (λ ch, {| ch with readCallback_ := Some cb |}).
Definition setWriteCallback (c : ptr) (cb : EventCallback) : M (World K) unit :=
  upd_channel c (λ ch, {| ch with writeCallback_ := Some cb |}).
Definition setCloseCallback (c : ptr) (cb : EventCallback) : M (World K) unit :=
  upd_channel c (λ ch, {| ch with ch_closeCallback_ := Some cb |}).
Definition setErrorCallback (c : ptr) (cb : EventCallback) : M (World K) unit :=
  upd_channel c (λ ch, {| ch with errorCallback_ := Some cb |}).

Definition isNoneEvent (ch : Channel) : bool := events_ ch =? NoneEvent.
Definition isWriting (ch : Channel) : bool := negb (Z.land (events_ ch) WriteEvent =? 0).
Definition isReading (ch : Channel) : bool := negb (Z.land (events_ ch) ReadEvent =? 0).

(** [int revt] receives an [uint32_t]. *)
Definition set_revents (c : ptr) (revt : Z) : M (World K) unit :=
  upd_channel c (λ ch, {| ch with revents_ := swrap 32 revt |}).
Definition set_index (c : ptr) (idx : Z) : M (World K) unit :=
  upd_channel c (λ ch, {| ch with index_ := idx |}).
End Channel.

(** The tests look at bits 2 and 0, and each change at one of them. *)
Lemma isWriting_bit ch : isWriting ch = Z.testbit (events_ ch) 2.
Proof. apply (land_bit _ 2). lia. Qed.
Lemma isReading_bit ch : isReading ch = Z.testbit (events_ ch) 0.
Proof. apply (land_bit _ 0). lia. Qed.

Lemma bit_set e m i : 0 ≤ i → Z.testbit (Z.lor e m) i = Z.testbit e i || Z.testbit m i.
Proof. intros. apply Z.lor_spec. Qed.
Lemma bit_clear e m i : 0 ≤ i →
  Z.testbit (Z.land e (Z.lnot m)) i = Z.testbit e i && negb (Z.testbit m i).
Proof. intros. by rewrite Z.land_spec, Z.lnot_spec. Qed.
End Channel.
