(* ===== verification/Poller.v ===== *)
(** * Poller: the epoll interest list of a loop
    (network/include/network/Poller.h, network/src/Poller.cc)

    [channels_] maps descriptors to channels; each channel's [index_] says
    whether it is new to the poller, in the epoll set, or known but out of the
    set.  [inv] ties the three together: what epoll watches is exactly
    [registered], the channels whose index is [kAdded], with their events. *)

From S2P Require Import Prelude.
From S2P Require Import Buffer.
From S2P Require Import NetTypes.
From S2P Require Import Kernel.
From S2P Require Import Channel.


Module Poller.
Definition kNew : Z := -1.
Definition kAdded : Z := 1.
Definition kDeleted : Z := 2.
Definition kInitEventListSize : Z := 16.

Section Poller.
Context `{Kernel K}.

Definition get_poller (l : ptr) : M (World K) Poller :=
  let* x := get_loop l in ret (poller_ x).
Definition set_poller (l : ptr) (p : Poller) : M (World K) unit :=
  upd_loop l (λ x, {| x with poller_ := p |}).

Definition Poller_ctor (loop : ptr) : M (World K) Poller :=
  let* r := syscall sys_epoll_create1 in
  match r with
  | inl _ => crash LogFatal
  | inr fd => ret (mkPoller loop fd kInitEventListSize ∅)
  end.

Definition Poller_dtor (l : ptr) : M (World K) unit :=
  let* p := get_poller l in
  let* _ := syscall (sys_close (epollfd_ p)) in ret tt.

Definition operationToString (op : Z) : M (World K) bytes :=
  if op =? EPOLL_CTL_ADD then ret (str "ADD")
  else if op =? EPOLL_CTL_DEL then ret (str "DEL")
  else if op =? EPOLL_CTL_MOD then ret (str "MOD")
  else crash AssertFailed.

Definition update (l : ptr) (operation : Z) (c : ptr) : M (World K) unit :=
  let* p := get_poller l in
  let* ch := get_channel c in
  let event := mkEvent (wrap 32 (events_ ch)) c in
  let* r := syscall (sys_epoll_ctl (epollfd_ p) operation (ch_fd_ ch) event) in
  match r with
  | inr tt => ret tt
  | inl _ =>
      if operation =? EPOLL_CTL_DEL then let* _ := operationToString operation in ret tt
      else let* _ := operationToString operation in crash LogFatal
  end.

Definition updateChannel (l : ptr) (c : ptr) : M (World K) unit :=
  let* p := get_poller l in
  assertInLoopThread (ownerLoop_ p) ;;;
  let* ch := get_channel c in
  let index := index_ ch in
  let fd := ch_fd_ ch in
  if (index =? kNew) || (index =? kDeleted) then
    (if index =? kNew then
       assert_ (bool_decide (channels_ p !! fd = None)) ;;;
       set_poller l {| p with channels_ := <[fd := c]> (channels_ p) |}
     else
       assert_ (bool_decide (is_Some (channels_ p !! fd))) ;;;
       assert_ (bool_decide (channels_ p !! fd = Some c))) ;;;
    Channel.set_index c kAdded ;;;
    update l EPOLL_CTL_ADD c
  else
    assert_ (bool_decide (is_Some (channels_ p !! fd))) ;;;
    assert_ (bool_decide (channels_ p !! fd = Some c)) ;;;
    assert_ (index =? kAdded) ;;;
    if Channel.isNoneEvent ch then
      update l EPOLL_CTL_DEL c ;;;
      Channel.set_index c kDeleted
    else
      update l EPOLL_CTL_MOD c.

Definition removeChannel (l : ptr) (c : ptr) : M (World K) unit :=
  let* p := get_poller l in
  assertInLoopThread (ownerLoop_ p) ;;;
  let* ch := get_channel c in
  let fd := ch_fd_ ch in
  assert_ (bool_decide (is_Some (channels_ p !! fd))) ;;;
  assert_ (bool_decide (channels_ p !! fd = Some c)) ;;;
  assert_ (Channel.isNoneEvent ch) ;;;
  let index := index_ ch in
  assert_ ((index =? kAdded) || (index =? kDeleted)) ;;;
  let n := if bool_decide (is_Some (channels_ p !! fd)) then 1 else 0 in
  set_poller l {| p with channels_ := delete fd (channels_ p) |} ;;;
  assert_ (n =? 1) ;;;
  when (index =? kAdded) (update l EPOLL_CTL_DEL c) ;;;
  Channel.set_index c kNew.

Definition hasChannel (l : ptr) (c : ptr) : M (World K) bool :=
  let* p := get_poller l in
  assertInLoopThread (ownerLoop_ p) ;;;
  let* ch := get_channel c in
  ret (bool_decide (channels_ p !! ch_fd_ ch = Some c)).

(** [activeChannels] is the list the channels are pushed onto. *)
Fixpoint fill (p : Poller) (evs : list epoll_event) (activeChannels : list ptr)
    : M (World K) (list ptr) :=
  match evs with
  | [] => ret activeChannels
  | ev :: rest =>
      let c := ev_ptr ev in
      let* ch := get_channel c in
      assert_ (bool_decide (is_Some (channels_ p !! ch_fd_ ch))) ;;;
      assert_ (bool_decide (channels_ p !! ch_fd_ ch = Some c)) ;;;
      Channel.set_revents c (ev_events ev) ;;;
      fill p rest (activeChannels ++ [c])
  end.

Definition fillActiveChannels (p : Poller) (evs : list epoll_event)
    (activeChannels : list ptr) : M (World K) (list ptr) :=
  assert_ (zlen evs <=? po_events_ p) ;;;
  fill p evs activeChannels.

Definition poll (l : ptr) (timeoutMs : Z) (activeChannels : list ptr)
    : M (World K) (list ptr) :=
  let* p := get_poller l in
  let* r := syscall (sys_epoll_wait (epollfd_ p) (swrap 32 (po_events_ p)) timeoutMs) in
  match r with
  | inr evs =>
      if 0 <? zlen evs then
        let* active := fillActiveChannels p evs activeChannels in
        when (zlen evs =? po_events_ p)
          (set_poller l {| p with po_events_ := po_events_ p * 2 |}) ;;;
        ret active
      else ret activeChannels
  | inl _ => ret activeChannels
  end.
End Poller.

(** ** Invariant *)

(** What epoll should watch for the channels in [m]. *)
Definition watch (chs : gmap ptr Channel) (c : ptr) : option epoll_event :=
  ch ← chs !! c;
  if index_ ch =? kAdded then Some (mkEvent (wrap 32 (events_ ch)) c) else None.
Definition registered (chs : gmap ptr Channel) (m : gmap Z ptr) : gmap Z epoll_event :=
  omap (watch chs) m.

(** [index_] agrees with [channels_]. *)
Definition indexed (p : Poller) (c : ptr) (ch : Channel) : Prop :=
  if decide (channels_ p !! ch_fd_ ch = Some c)
  then index_ ch = kAdded ∨ index_ ch = kDeleted
  else index_ ch = kNew.

Section Inv.
Context `{Kernel K, Observe K}.

Record inv (l : ptr) (lp : EventLoop) (w : World K) : Prop := {
  inv_loop : w_loops w !! l = Some lp;
  inv_owner : ownerLoop_ (poller_ lp) = l;
  inv_chan : ∀ fd c, channels_ (poller_ lp) !! fd = Some c →
    ∃ ch, w_channels w !! c = Some ch ∧ ch_fd_ ch = fd ∧ ch_loop_ ch = l;
  inv_index : ∀ c ch, w_channels w !! c = Some ch → ch_loop_ ch = l →
    indexed (poller_ lp) c ch;
  inv_interest : interest (w_kernel w) (epollfd_ (poller_ lp))
    = registered (w_channels w) (channels_ (poller_ lp));
}.

(** The channel's [index_] after [updateChannel]. *)
Definition next_index (ch : Channel) : Z :=
  if (index_ ch =? kAdded) && Channel.isNoneEvent ch then kDeleted else kAdded.

(** [ch'] is [ch] up to fields the poller does not own. *)
Definition same_reg (ch ch' : Channel) : Prop :=
  ch_fd_ ch' = ch_fd_ ch ∧ ch_loop_ ch' = ch_loop_ ch ∧ index_ ch' = index_ ch.

(** The kernel's part of a registry operation. *)
Definition ctl_frame (ep : Z) (k k' : K) : Prop :=
  (∀ ep', ep' ≠ ep → interest k' ep' = interest k ep')
  ∧ (∀ fd, pollable k fd → pollable k' fd) ∧ stream_frame k k'.

Definition with_channels (lp : EventLoop) (m : gmap Z ptr) : EventLoop :=
  let p := poller_ lp in {| lp with poller_ := {| p with channels_ := m |} |}.

(** The world after a registry operation on channel [c] of loop [l]. *)
Definition registry_post (w : World K) (k' : K) (l : ptr) (lp' : EventLoop) (c : ptr)
    (ch' : Channel) : World K :=
  {| w with w_kernel := k'; w_channels := <[c := ch']> (w_channels w);
            w_loops := <[l := lp']> (w_loops w) |}.
End Inv.

Lemma index_distinct : kNew ≠ kAdded ∧ kNew ≠ kDeleted ∧ kAdded ≠ kDeleted.
Proof. by vm_compute. Qed.

Lemma indexed_cases p c ch : indexed p c ch →
  (index_ ch = kNew ∧ channels_ p !! ch_fd_ ch ≠ Some c)
  ∨ ((index_ ch = kAdded ∨ index_ ch = kDeleted) ∧ channels_ p !! ch_fd_ ch = Some c).
Proof. unfold indexed. destruct (decide _); auto. Qed.

Lemma watch_insert_ne chs c c' ch : c' ≠ c → watch (<[c := ch]> chs) c' = watch chs c'.
Proof. intros. unfold watch. by rewrite lookup_insert_ne. Qed.

Lemma watch_insert chs c ch :
  watch (<[c := ch]> chs) c
  = if index_ ch =? kAdded then Some (mkEvent (wrap 32 (events_ ch)) c) else None.
Proof. unfold watch. by rewrite lookup_insert_eq. Qed.

Definition event_of (c : ptr) (ch : Channel) : option epoll_event :=
  if index_ ch =? kAdded then Some (mkEvent (wrap 32 (events_ ch)) c) else None.

(** Changing one channel and its entry changes one registration. *)
Lemma registered_alter chs m c ch fd (o : option ptr) :
  (∀ fd', m !! fd' = Some c → fd' = fd) → o = Some c ∨ (o = None ∧ event_of c ch = None) →
  registered (<[c := ch]> chs) (partial_alter (λ _, o) fd m)
  = partial_alter (λ _, event_of c ch) fd (registered chs m).
Proof.
  intros Hu Ho. apply map_eq. intros fd'. unfold registered. rewrite lookup_omap.
  destruct (decide (fd' = fd)) as [->|Hne].
  - rewrite !lookup_partial_alter_eq. destruct Ho as [->|[-> ->]]; [|done].
    cbn. apply watch_insert.
  - rewrite !lookup_partial_alter_ne, lookup_omap by done.
    destruct (m !! fd') as [c'|] eqn:Hm; [|done]. cbn. apply watch_insert_ne.
    intros ->. apply Hne. by apply Hu.
Qed.

Section InvLemmas.
Context `{Kernel K, Observe K}.
Implicit Types w : World K.

Lemma inv_unique l lp w c ch fd : inv l lp w → w_channels w !! c = Some ch →
  channels_ (poller_ lp) !! fd = Some c → fd = ch_fd_ ch.
Proof. intros Hi Hc Hm. destruct (inv_chan _ _ _ Hi _ _ Hm) as (? & ? & ? & ?). congruence. Qed.

(** The invariant after one channel, its entry and the kernel's registration of
    its descriptor changed together. *)
Lemma inv_alter l lp w c ch ch' k' (o : option ptr) :
  inv l lp w → w_channels w !! c = Some ch → ch_loop_ ch = l →
  ch_fd_ ch' = ch_fd_ ch → ch_loop_ ch' = l →
  (channels_ (poller_ lp) !! ch_fd_ ch = None ∨ channels_ (poller_ lp) !! ch_fd_ ch = Some c) →
  (o = Some c ∧ (index_ ch' = kAdded ∨ index_ ch' = kDeleted) ∨ o = None ∧ index_ ch' = kNew) →
  interest k' (epollfd_ (poller_ lp))
  = partial_alter (λ _, event_of c ch') (ch_fd_ ch) (interest (w_kernel w) (epollfd_ (poller_ lp))) →
  let lp' := with_channels lp (partial_alter (λ _, o) (ch_fd_ ch) (channels_ (poller_ lp))) in
  inv l lp' (registry_post w k' l lp' c ch').
Proof.
  intros Hi Hc Hl Hfd Hl' Hold Ho Hk lp'. destruct index_distinct as (N1 & N2 & N3).
  split; cbn.
  - apply lookup_insert_eq.
  - apply Hi.
  - intros fd c1 Hm. destruct (decide (fd = ch_fd_ ch)) as [->|Hne].
    + rewrite lookup_partial_alter_eq in Hm. destruct Ho as [[-> _]|[-> _]]; [|done].
      simplify_eq. rewrite lookup_insert_eq. eauto.
    + rewrite lookup_partial_alter_ne in Hm by done.
      destruct (inv_chan _ _ _ Hi _ _ Hm) as (ch1 & ? & ? & ?).
      rewrite lookup_insert_ne by congruence. eauto.
  - intros c1 ch1 H1 Hl1. unfold indexed; cbn.
    destruct (decide (c1 = c)) as [->|Hne].
    + rewrite lookup_insert_eq in H1. simplify_eq. rewrite Hfd, lookup_partial_alter_eq.
      destruct Ho as [[-> ?]|[-> ?]]; [by rewrite decide_True|by rewrite decide_False].
    + rewrite lookup_insert_ne in H1 by done.
      pose proof (inv_index _ _ _ Hi _ _ H1 Hl1) as Hx. unfold indexed in Hx.
      destruct (decide (ch_fd_ ch1 = ch_fd_ ch)) as [E|?].
      * rewrite E, lookup_partial_alter_eq. rewrite E in Hx.
        rewrite decide_False in Hx by (destruct Hold; congruence).
        rewrite decide_False; [done|]. destruct Ho as [[-> ?]|[-> ?]]; congruence.
      * by rewrite lookup_partial_alter_ne.
  - rewrite Hk, (inv_interest _ _ _ Hi). symmetry. apply registered_alter.
    + intros fd' Hm. by eapply inv_unique.
    + destruct Ho as [[-> ?]|[-> E]]; [by left|right]. split; [done|].
      unfold event_of. rewrite E. by destruct (Z.eqb_spec kNew kAdded).
Qed.

(** A successful [update] registers exactly the event built from the channel. *)
Definition ctl_map (op : Z) (fd : Z) (ev : epoll_event) (m : gmap Z epoll_event) :=
  if op =? EPOLL_CTL_DEL then delete fd m else <[fd := ev]> m.

Definition ctl_allowed (op : Z) (k : K) (ep fd : Z) : Prop :=
  op = EPOLL_CTL_ADD ∧ pollable k fd ∧ interest k ep !! fd = None
  ∨ (op = EPOLL_CTL_MOD ∨ op = EPOLL_CTL_DEL) ∧ is_Some (interest k ep !! fd).

Lemma ctl_succeeds `{!KernelLaws K} op k ep fd ev : ctl_allowed op k ep fd →
  ∃ k', sys_epoll_ctl ep op fd ev k = (inr tt, k')
        ∧ ctl_post k k' ep (ctl_map op fd ev (interest k ep)).
Proof.
  intros [(-> & ? & ?)|[[->| ->] ?]].
  - by apply ctl_add.
  - by apply ctl_mod.
  - by apply ctl_del.
Qed.

Lemma wp_update `{!KernelLaws K} l op c w lp ch E :
  w_loops w !! l = Some lp → w_channels w !! c = Some ch →
  let ep := epollfd_ (poller_ lp) in
  ctl_allowed op (w_kernel w) ep (ch_fd_ ch) →
  wpe (update l op c) (λ _ w', ∃ k', w' = {| w with w_kernel := k' |} ∧
      ctl_post (w_kernel w) k' ep
        (ctl_map op (ch_fd_ ch) (mkEvent (wrap 32 (events_ ch)) c) (interest (w_kernel w) ep)))
    E w.
Proof.
  intros Hl Hc ep Ha. unfold update, get_poller. wp_run_cells.
  destruct (ctl_succeeds op _ ep _ (mkEvent (wrap 32 (events_ ch)) c) Ha) as (k' & Hk & Hp).
  subst ep. rewrite Hk. cbn. wp_simp. eauto.
Qed.

(** What [updateChannel] leaves. *)
Definition updated (l : ptr) (lp : EventLoop) (w : World K) (c : ptr) (ch : Channel)
    (w' : World K) : Prop :=
  ∃ k', ctl_frame (epollfd_ (poller_ lp)) (w_kernel w) k' ∧
  let ch' := {| ch with index_ := next_index ch |} in
  let lp' := with_channels lp (<[ch_fd_ ch := c]> (channels_ (poller_ lp))) in
  w' = registry_post w k' l lp' c ch' ∧ inv l lp' w'.

Lemma ctl_post_frame k k' ep m : ctl_post k k' ep m → ctl_frame ep k k'.
Proof. intros (_ & ? & ? & ?). by split. Qed.

Lemma with_channels_eta lp : with_channels lp (channels_ (poller_ lp)) = lp.
Proof. by destruct lp as [??????[]?????]. Qed.

Lemma index_eta ch i : index_ ch = i → {| ch with index_ := i |} = ch.
Proof. intros <-. by destruct ch. Qed.

Lemma next_index_cases ch : next_index ch = kAdded ∨ next_index ch = kDeleted.
Proof. unfold next_index. destruct (_ && _); auto. Qed.

Lemma updated_intro l lp w c ch0 ch k' m :
  inv l lp w → w_channels w !! c = Some ch0 → ch_loop_ ch0 = l → same_reg ch0 ch →
  (index_ ch0 = kNew → channels_ (poller_ lp) !! ch_fd_ ch0 = None) →
  let ch' := {| ch with index_ := next_index ch |} in
  let ep := epollfd_ (poller_ lp) in
  ctl_post (w_kernel w) k' ep m →
  m = partial_alter (λ _, event_of c ch') (ch_fd_ ch) (interest (w_kernel w) ep) →
  updated l lp w c ch
    (registry_post w k' l (with_channels lp (<[ch_fd_ ch := c]> (channels_ (poller_ lp)))) c ch').
Proof.
  intros Hi Hc Hl (Hfd & Hlp & Hix) Hnew ch' ep Hp ->. exists k'.
  split; [by eapply ctl_post_frame|]. split; [done|]. rewrite Hfd.
  apply (inv_alter l lp w c ch0 ch' k' (Some c)); try done.
  - cbn. by rewrite Hlp.
  - destruct (indexed_cases _ _ _ (inv_index _ _ _ Hi _ _ Hc Hl)) as [[? ?]|[? ?]]; auto.
  - left. split; [done|]. apply next_index_cases.
  - subst ep. destruct Hp as (-> & _). by rewrite Hfd.
Qed.

(** [updateChannel] on a channel of the loop whose fields outside the poller's
    changed since the invariant last held. *)
Lemma wp_updateChannel `{!KernelLaws K} l c w lp ch0 ch E :
  inv l lp w → w_channels w !! c = Some ch0 → ch_loop_ ch0 = l → same_reg ch0 ch →
  pollable (w_kernel w) (ch_fd_ ch0) →
  (index_ ch0 = kNew → channels_ (poller_ lp) !! ch_fd_ ch0 = None) →
  wpe (updateChannel l c) (λ _ w', updated l lp w c ch w') E
    {| w with w_channels := <[c := ch]> (w_channels w) |}.
Proof.
  intros Hi Hc Hl Hs Hpoll Hnew. pose proof (inv_loop _ _ _ Hi) as Hloop.
  pose proof (inv_interest _ _ _ Hi) as Hint.
  pose proof (λ k' m, updated_intro l lp w c ch0 ch k' m Hi Hc Hl Hs Hnew) as Hup.
  pose proof (indexed_cases _ _ _ (inv_index _ _ _ Hi _ _ Hc Hl)) as Hcase.
  destruct Hs as (Hfd & Hlp & Hix). rewrite <-Hfd in Hpoll, Hnew, Hcase.
  rewrite <-Hix in Hcase, Hnew.
  assert (channels_ (poller_ lp) !! ch_fd_ ch = Some c →
    interest (w_kernel w) (epollfd_ (poller_ lp)) !! ch_fd_ ch
    = if index_ ch =? kAdded then Some (mkEvent (wrap 32 (events_ ch0)) c) else None) as Hreg.
  { intros Hm. rewrite Hint. unfold registered. rewrite lookup_omap, Hm. cbn.
    unfold watch. rewrite Hc. cbn. by rewrite Hix. }
  unfold updateChannel, get_poller, set_poller, Channel.set_index.
  wp_run_cells. wp_assert by (rewrite (inv_owner _ _ _ Hi); eauto).
  unfold next_index, event_of in Hup.
  destruct Hcase as [[Hk Hno]|[[Hk|Hk] Hin]]; rewrite Hk in *; cbn in Hup |- *.
  - rewrite Hnew by done. wp_run_cells. wp_assert by done.
    eapply wpe_mono; [eapply wp_update; [solve_cell|solve_cell|]| |done].
    + cbn. left. split_and!; [done|done|]. rewrite Hint. unfold registered.
      by rewrite lookup_omap, Hnew.
    + cbn. intros [] w' (k' & -> & Hp). eapply Hup in Hp; [|done].
      rewrite insert_insert_eq. exact Hp.
  - rewrite Hin, !bool_decide_true by (done || eauto). wp_run_cells. do 3 wp_assert by done.
    destruct (Channel.isNoneEvent ch) eqn:Hnone; cbn in Hup; wp_run_cells.
    + eapply wpe_mono; [eapply wp_update; [solve_cell|solve_cell|]| |done].
      { cbn. right. split; [auto|]. by rewrite Hreg. }
      cbn. intros [] w' (k' & -> & Hp). wp_run_cells. eapply Hup in Hp; [|done].
      rewrite insert_insert_eq. 
      unfold registry_post in Hp. rewrite (insert_id (channels_ _)), with_channels_eta, (insert_id (w_loops w)) in Hp by done.
      exact Hp.
    + eapply wpe_mono; [eapply wp_update; [solve_cell|solve_cell|]| |done].
      { cbn. right. split; [auto|]. by rewrite Hreg. }
      cbn. intros [] w' (k' & -> & Hp). eapply Hup in Hp; [|done].
      unfold registry_post in Hp. rewrite (insert_id (channels_ _)), with_channels_eta, (insert_id (w_loops w)) in Hp by done.
       rewrite index_eta in Hp by done. exact Hp.
  - rewrite Hin, !bool_decide_true by (done || eauto). wp_run_cells. do 2 wp_assert by done.
    eapply wpe_mono; [eapply wp_update; [solve_cell|solve_cell|]| |done].
    + cbn. left. split_and!; [done|done|]. by rewrite Hreg.
    + cbn. intros [] w' (k' & -> & Hp). eapply Hup in Hp; [|done].
      unfold registry_post in Hp. rewrite (insert_id (channels_ _)), with_channels_eta, (insert_id (w_loops w)) in Hp by done.
      rewrite insert_insert_eq. exact Hp.
Qed.

(** What [removeChannel] leaves. *)
Definition removed (l : ptr) (lp : EventLoop) (w : World K) (c : ptr) (ch : Channel)
    (w' : World K) : Prop :=
  ∃ k', ctl_frame (epollfd_ (poller_ lp)) (w_kernel w) k' ∧
  let ch' := {| ch with index_ := kNew |} in
  let lp' := with_channels lp (delete (ch_fd_ ch) (channels_ (poller_ lp))) in
  w' = registry_post w k' l lp' c ch' ∧ inv l lp' w'.

Lemma removed_intro l lp w c ch0 ch k' :
  inv l lp w → w_channels w !! c = Some ch0 → ch_loop_ ch0 = l → same_reg ch0 ch →
  channels_ (poller_ lp) !! ch_fd_ ch = Some c →
  let ep := epollfd_ (poller_ lp) in
  ctl_frame ep (w_kernel w) k' →
  interest k' ep = delete (ch_fd_ ch) (interest (w_kernel w) ep) →
  removed l lp w c ch
    (registry_post w k' l (with_channels lp (delete (ch_fd_ ch) (channels_ (poller_ lp)))) c
       {| ch with index_ := kNew |}).
Proof.
  intros Hi Hc Hl (Hfd & Hlp & Hix) Hin ep Hp Hm. exists k'. split; [done|].
  split; [done|].
  pose proof (inv_alter l lp w c ch0 {| ch with index_ := kNew |} k' None) as Ha.
  rewrite <-Hfd in Ha. apply Ha; auto. cbn. by rewrite Hlp.
Qed.

Lemma registration l lp w c ch : inv l lp w → w_channels w !! c = Some ch →
  channels_ (poller_ lp) !! ch_fd_ ch = Some c →
  interest (w_kernel w) (epollfd_ (poller_ lp)) !! ch_fd_ ch = event_of c ch.
Proof.
  intros Hi Hc Hm. rewrite (inv_interest _ _ _ Hi). unfold registered.
  rewrite lookup_omap, Hm. cbn. unfold watch. by rewrite Hc.
Qed.

Lemma wp_removeChannel `{!KernelLaws K} l c w lp ch0 ch E :
  inv l lp w → w_channels w !! c = Some ch0 → ch_loop_ ch0 = l → same_reg ch0 ch →
  index_ ch0 ≠ kNew → events_ ch = 0 →
  wpe (removeChannel l c) (λ _ w', removed l lp w c ch w') E
    {| w with w_channels := <[c := ch]> (w_channels w) |}.
Proof.
  intros Hi Hc Hl Hs Hreg Hev. pose proof (inv_loop _ _ _ Hi) as Hloop.
  destruct (indexed_cases _ _ _ (inv_index _ _ _ Hi _ _ Hc Hl)) as [[? _]|[Hk Hin]]; [done|].
  pose proof (registration _ _ _ _ _ Hi Hc Hin) as Hr.
  pose proof Hs as (Hfd & Hlp & Hix). rewrite <-Hfd in Hr, Hin. unfold event_of in Hr.
  pose proof (λ k', removed_intro l lp w c ch0 ch k' Hi Hc Hl Hs Hin) as Hrm.
  rewrite <-Hix in Hk, Hr.
  unfold removeChannel, get_poller, set_poller, Channel.set_index, Channel.isNoneEvent.
  wp_run_cells. wp_assert by (rewrite (inv_owner _ _ _ Hi); eauto).
  wp_assert by (rewrite Hin, bool_decide_true by eauto; done).
  wp_assert by (rewrite Hin, bool_decide_true; done).
  wp_assert by (rewrite Hev; done). wp_assert by (destruct Hk as [-> | ->]; done).
  wp_assert by (rewrite Hin, bool_decide_true by eauto; done).
  destruct Hk as [Hk|Hk]; rewrite Hk in *; cbn in Hr |- *.
  - eapply wpe_mono; [eapply wp_update; [solve_cell|solve_cell|]| |done].
    + cbn. right. rewrite Hr. eauto.
    + cbn. intros [] w' (k' & -> & Hp). wp_run_cells. rewrite insert_insert_eq.
      apply Hrm; [by eapply ctl_post_frame|]. apply Hp.
  - wp_run_cells. rewrite insert_insert_eq. apply Hrm; [done|].
    by rewrite delete_id.
Qed.

Lemma wp_hasChannel l lp w c ch (Q : bool → World K → Prop) E :
  inv l lp w → w_channels w !! c = Some ch → ch_loop_ ch = l →
  Q (negb (index_ ch =? kNew)) w → wpe (hasChannel l c) Q E w.
Proof.
  intros Hi Hc Hl. pose proof (inv_loop _ _ _ Hi) as Hloop.
  assert (bool_decide (channels_ (poller_ lp) !! ch_fd_ ch = Some c) = negb (index_ ch =? kNew))
    as Hb.
  { destruct (indexed_cases _ _ _ (inv_index _ _ _ Hi _ _ Hc Hl)) as [[-> ?]|[Hk ?]].
    - by rewrite bool_decide_false.
    - rewrite bool_decide_true by done. by destruct Hk as [-> | ->]. }
  intros HQ. unfold hasChannel, get_poller. wp_run_cells.
  wp_assert by (rewrite (inv_owner _ _ _ Hi); eauto). by rewrite Hb.
Qed.

(** ** Changes the invariant does not see *)

Definition chan_frame (a b : option Channel) : Prop :=
  match a, b with
  | Some a, Some b => same_reg a b ∧ events_ b = events_ a
  | Some a, None => index_ a = kNew
  | None, Some b => index_ b = kNew
  | None, None => True
  end.

Definition same_poller (lp lp' : EventLoop) : Prop :=
  ownerLoop_ (poller_ lp') = ownerLoop_ (poller_ lp)
  ∧ epollfd_ (poller_ lp') = epollfd_ (poller_ lp)
  ∧ channels_ (poller_ lp') = channels_ (poller_ lp).

Lemma inv_frame l lp lp' w w' :
  inv l lp w → w_loops w' !! l = Some lp' → same_poller lp lp' →
  (∀ c, chan_frame (w_channels w !! c) (w_channels w' !! c)) →
  (∀ ep, interest (w_kernel w') ep = interest (w_kernel w) ep) →
  inv l lp' w'.
Proof.
  intros Hi Hl (Ho & He & Hm) Hf Hk. destruct index_distinct as (N1 & N2 & _).
  assert (∀ fd c, channels_ (poller_ lp) !! fd = Some c →
    ∃ ch ch', w_channels w !! c = Some ch ∧ w_channels w' !! c = Some ch'
      ∧ ch_fd_ ch = fd ∧ ch_loop_ ch = l ∧ same_reg ch ch' ∧ events_ ch' = events_ ch) as Hch.
  { intros fd c Hc. destruct (inv_chan _ _ _ Hi _ _ Hc) as (ch & Hw & Hfd & Hlo).
    specialize (Hf c). rewrite Hw in Hf. destruct (w_channels w' !! c) as [ch'|] eqn:Hw'.
    - destruct Hf. eauto 10.
    - destruct (indexed_cases _ _ _ (inv_index _ _ _ Hi _ _ Hw Hlo)) as [[_ Hn]|[[Hx|Hx] _]].
      + congruence.
      + cbn in Hf. congruence.
      + cbn in Hf. congruence. }
  split; rewrite ?Ho, ?He, ?Hm.
  - done.
  - apply Hi.
  - intros fd c Hc. destruct (Hch _ _ Hc) as (ch & ch' & _ & ? & ? & ? & (? & ? & _) & _).
    exists ch'. split_and!; congruence.
  - intros c ch' Hc Hlo. specialize (Hf c). rewrite Hc in Hf. unfold indexed. rewrite Hm.
    destruct (w_channels w !! c) as [ch|] eqn:Hw.
    + destruct Hf as [(Efd & El & Eix) _]. rewrite Efd, Eix.
      apply (inv_index _ _ _ Hi _ _ Hw). congruence.
    + rewrite decide_False; [done|]. intros Hin.
      destruct (Hch _ _ Hin) as (? & ? & ? & _). congruence.
  - rewrite Hk, (inv_interest _ _ _ Hi). apply map_eq. intros fd. unfold registered.
    rewrite !lookup_omap. destruct (channels_ (poller_ lp) !! fd) as [c|] eqn:Hc; [|done].
    destruct (Hch _ _ Hc) as (ch & ch' & Hw & Hw' & _ & _ & (_ & _ & Eix) & Eev).
    cbn. unfold watch. rewrite Hw, Hw'. cbn. by rewrite Eix, Eev.
Qed.

Lemma chan_frame_refl o : chan_frame o o.
Proof. by destruct o. Qed.

Lemma chan_frame_insert (chs : gmap ptr Channel) c ch ch' c' : chs !! c = Some ch → same_reg ch ch' →
  events_ ch' = events_ ch → chan_frame (chs !! c') (<[c := ch']> chs !! c').
Proof.
  intros Hc Hs He. destruct (decide (c' = c)) as [->|].
  - by rewrite Hc, lookup_insert_eq.
  - rewrite lookup_insert_ne by done. apply chan_frame_refl.
Qed.

(** ** poll *)

(** The channels after [revents_] is set from each event in turn. *)
Definition with_revents (chs : gmap ptr Channel) (ev : epoll_event) : gmap ptr Channel :=
  alter (λ ch, {| ch with revents_ := swrap 32 (ev_events ev) |}) (ev_ptr ev) chs.
Definition set_all_revents (evs : list epoll_event) (chs : gmap ptr Channel) :=
  foldl with_revents chs evs.

Lemma set_revents_alter c e w ch E (Q : unit → World K → Prop) :
  w_channels w !! c = Some ch →
  Q tt {| w with w_channels := with_revents (w_channels w) (mkEvent e c) |} →
  wpe (Channel.set_revents c e) Q E w.
Proof.
  intros Hc HQ. unfold Channel.set_revents. wp_run_cells.
  replace (<[c := _]> (w_channels w)) with (with_revents (w_channels w) (mkEvent e c)); [done|].
  unfold with_revents. apply map_eq. intros c'. cbn. destruct (decide (c' = c)) as [->|].
  - by rewrite lookup_alter_eq, Hc, lookup_insert_eq.
  - by rewrite lookup_alter_ne, lookup_insert_ne.
Qed.

Lemma set_all_revents_lookup evs : ∀ chs c,
  match chs !! c with
  | Some ch => ∃ r, set_all_revents evs chs !! c = Some {| ch with revents_ := r |}
  | None => set_all_revents evs chs !! c = None
  end.
Proof.
  induction evs as [|ev evs IH]; intros chs c.
  { cbn. destruct (chs !! c) as [[]|]; eauto. }
  change (set_all_revents (ev :: evs) chs) with (set_all_revents evs (with_revents chs ev)).
  specialize (IH (with_revents chs ev) c). unfold with_revents at 1 in IH.
  destruct (decide (ev_ptr ev = c)) as [<-|].
  - rewrite lookup_alter_eq in IH. destruct (chs !! ev_ptr ev); cbn in IH; [|done].
    destruct IH as [r ->]. eauto.
  - by rewrite lookup_alter_ne in IH.
Qed.

Lemma with_revents_frame chs ev c :
  chan_frame (chs !! c) (with_revents chs ev !! c).
Proof.
  unfold with_revents. destruct (decide (ev_ptr ev = c)) as [->|].
  - rewrite lookup_alter_eq. by destruct (chs !! c).
  - rewrite lookup_alter_ne by done. apply chan_frame_refl.
Qed.

Lemma wp_fill l lp evs E : ∀ acts w,
  inv l lp w →
  Forall (λ ev, ∃ fd, channels_ (poller_ lp) !! fd = Some (ev_ptr ev)) evs →
  wpe (fill (poller_ lp) evs acts) (λ r w', r = acts ++ map ev_ptr evs ∧ inv l lp w' ∧
    w' = {| w with w_channels := set_all_revents evs (w_channels w) |}) E w.
Proof.
  induction evs as [|ev evs IH]; intros acts w Hi Hf.
  { cbn. rewrite app_nil_r. split_and!; [done|done|by destruct w]. }
  apply Forall_cons in Hf as [[fd Hfd] Hf].
  destruct (inv_chan _ _ _ Hi _ _ Hfd) as (ch & Hch & <- & Hl).
  cbn [fill]. wp_run_cells. rewrite Hfd, !bool_decide_true by eauto.
  do 2 wp_assert by done.
  eapply set_revents_alter; [done|].
  assert (inv l lp {| w with w_channels := with_revents (w_channels w) ev |}) as Hi1.
  { eapply inv_frame; [exact Hi|apply Hi|done| |done]. intros c. apply with_revents_frame. }
  eapply wpe_mono; [apply (IH (acts ++ [ev_ptr ev]) _ Hi1 Hf)| |done].
  cbn. intros r w' (-> & ? & ->). rewrite <-app_assoc. split_and!; done.
Qed.

(** The loop after a poll that returned [n] events. *)
Definition grown (lp : EventLoop) (n : Z) : EventLoop :=
  let p := poller_ lp in
  if (0 <? n) && (n =? po_events_ p)
  then {| lp with poller_ := {| p with po_events_ := po_events_ p * 2 |} |} else lp.

Definition poll_result (l : ptr) (timeout : Z) (lp : EventLoop) (k : K) :=
  sys_epoll_wait (epollfd_ (poller_ lp)) (swrap 32 (po_events_ (poller_ lp))) timeout k.
Definition polled (r : Z + list epoll_event) : list epoll_event :=
  match r with inr evs => evs | inl _ => [] end.

(** What the kernel reports about the loop's channels. *)
Definition reported (l : ptr) (lp : EventLoop) (w : World K) (ev : epoll_event) : Prop :=
  ∃ ch, w_channels w !! ev_ptr ev = Some ch ∧ ch_loop_ ch = l ∧
    channels_ (poller_ lp) !! ch_fd_ ch = Some (ev_ptr ev) ∧ index_ ch = kAdded ∧
    Z.land (ev_events ev)
      (Z.lnot (Z.lor (wrap 32 (events_ ch)) (Z.lor EPOLLERR EPOLLHUP))) = 0.

Lemma poll_reported `{!KernelLaws K} l lp timeout w r k' :
  inv l lp w → poll_result l timeout lp (w_kernel w) = (r, k') →
  Forall (reported l lp w) (polled r).
Proof.
  intros Hi Hr. unfold poll_result in Hr. pose proof (wait_events _ _ _ _ _ _ Hr) as [_ Hev].
  destruct r as [|evs]; [constructor|]. destruct Hev as [_ Hev].
  eapply Forall_impl; [exact Hev|]. intros ev (fd & mask & Hint & Hmask).
  rewrite (inv_interest _ _ _ Hi) in Hint. unfold registered in Hint.
  rewrite lookup_omap in Hint. apply bind_Some in Hint as (c & Hc & Hw).
  destruct (inv_chan _ _ _ Hi _ _ Hc) as (ch & Hch & Hfd & Hlo).
  unfold watch in Hw. rewrite Hch in Hw. cbn in Hw.
  destruct (Z.eqb_spec (index_ ch) kAdded); [|done]. simplify_eq. unfold reported. cbn. eauto 10.
Qed.

Definition poll_world (l : ptr) (lp : EventLoop) (evs : list epoll_event) (k' : K)
    (w : World K) : World K :=
  {| w with w_kernel := k'; w_channels := set_all_revents evs (w_channels w);
            w_loops := <[l := grown lp (zlen evs)]> (w_loops w) |}.

Lemma inv_grown l lp evs k' w : inv l lp w →
  (∀ ep, interest k' ep = interest (w_kernel w) ep) →
  inv l (grown lp (zlen evs)) (poll_world l lp evs k' w).
Proof.
  intros Hi Hk. eapply inv_frame; [exact Hi|apply lookup_insert_eq| | |exact Hk].
  - unfold grown, same_poller. by destruct (_ && _).
  - intros c. cbn. pose proof (set_all_revents_lookup evs (w_channels w) c) as Hs.
    destruct (w_channels w !! c); [by destruct Hs as [r ->]|by rewrite Hs].
Qed.

Lemma wp_poll `{!KernelLaws K} l lp timeout acts w r k' E :
  inv l lp w → 0 < po_events_ (poller_ lp) < 2 ^ 31 →
  poll_result l timeout lp (w_kernel w) = (r, k') →
  wpe (poll l timeout acts) (λ active w', active = acts ++ map ev_ptr (polled r) ∧
    w' = poll_world l lp (polled r) k' w) E w.
Proof.
  intros Hi Hpo Hr. pose proof (inv_loop _ _ _ Hi) as Hl.
  pose proof (poll_reported _ _ _ _ _ _ Hi Hr) as Hrep.
  unfold poll_result in Hr. pose proof (wait_events _ _ _ _ _ _ Hr) as [[[Hk _] _] Hev].
  assert (∀ l2, l2 = lp → {| w with w_kernel := k' |} = {| w with w_kernel := k'; w_loops := <[l := l2]> (w_loops w) |}) as Hid.
  { intros ? ->. by rewrite insert_id. }
  unfold poll, get_poller, set_poller, poll_world, grown. wp_run_cells. rewrite Hr. cbn [fst snd].
  destruct r as [e|evs]; wp_run_cells.
  { cbn. rewrite app_nil_r. split; [done|]. by apply Hid. }
  cbn [polled] in *. pose proof (zlen_nonneg evs). destruct Hev as [Hlen _].
  rewrite swrap_small in Hlen by lia.
  destruct (Z.ltb_spec 0 (zlen evs)); wp_run_cells; cbn.
  - unfold fillActiveChannels. wp_run_cells. wp_assert by (apply Z.leb_le; lia).
    eapply wpe_mono; [eapply wp_fill| |done].
    + eapply inv_frame; [exact Hi|done|done| |exact Hk]. intros c; apply chan_frame_refl.
    + eapply Forall_impl; [exact Hrep|]. intros ev (ch & _ & _ & ? & _). eauto.
    + cbn. intros active w' (-> & _ & ->). wp_run_cells.
      destruct (zlen evs =? _); wp_run_cells; [done|]. split; [done|]. by rewrite insert_id.
  - assert (evs = []) as ->. { destruct evs; [done|]. rewrite zlen_cons in *. pose proof (zlen_nonneg evs). lia. }
    cbn. rewrite app_nil_r. split; [done|]. by apply Hid.
Qed.
End InvLemmas.
End Poller.
