(* ===== verification/SocketsOps.v ===== *)
(** * Socket addresses, socket calls and the Socket class
    (network/src/SocketsOps.cc, network/src/InetAddress.cc, network/src/Socket.cc)

    A socket address is the 28-byte image of the [sockaddr_in6] that the union
    inside [InetAddress] occupies: family in host order at offset 0, port in
    network order at 2, the IPv4 address at 4, the IPv6 address at 8.
    [inet_ntop], [inet_pton] and [gethostbyname_r] are the class [Inet]. *)

From S2P Require Import Prelude.
From S2P Require Import Endian.
From S2P Require Import CStdlib.
From S2P Require Import Buffer.
From S2P Require Import NetTypes.

Definition AF_INET : Z := 2.
Definition AF_INET6 : Z := 10.
Definition INET_ADDRSTRLEN : Z := 16.
Definition INET6_ADDRSTRLEN : Z := 46.
Definition sizeof_sockaddr_in6 : Z := 28.

(** The presentation functions of the C library; [inet_pton] is [None] when the
    text is not an address of the family, [gethostbyname] when it fails. *)
Class Inet := {
  inet_ntop : Z → bytes → bytes;
  inet_pton : Z → bytes → option bytes;
  gethostbyname : bytes → option bytes;
}.

Definition zeros (n : nat) : bytes := repeat (char_of 0) n.

(** ** Fields of the 28-byte image (x86-64 host) *)
Module Sockaddr.
Definition family (a : sockaddr) : Z := le_value (zslice 0 2 a).
Definition port_bytes (a : sockaddr) : bytes := zslice 2 2 a.
Definition sin_addr (a : sockaddr) : bytes := zslice 4 4 a.
Definition sin6_addr (a : sockaddr) : bytes := zslice 8 16 a.
Definition set_family (f : Z) (a : sockaddr) : sockaddr := zblit 0 (le_bytes 2 f) a.
(** Storing the value of [hostToNetwork16] in a [uint16_t] field. *)
Definition set_port (p : Z) (a : sockaddr) : sockaddr := zblit 2 (le_bytes 2 p) a.
Definition set_sin_addr (x : bytes) (a : sockaddr) : sockaddr := zblit 4 x a.
Definition set_sin6_addr (x : bytes) (a : sockaddr) : sockaddr := zblit 8 x a.
Definition set_scope_id (s : Z) (a : sockaddr) : sockaddr := zblit 24 (le_bytes 4 s) a.
(** The port field as the integer the host reads. *)
Definition sin_port (a : sockaddr) : Z := le_value (port_bytes a).
End Sockaddr.

(** ** namespace sockets *)
Module sockets.
Section sockets.
Context `{Kernel K}.

Definition createNonblockingOrDie (fam : Z) : M (World K) Z :=
  let* r := syscall (sys_socket fam) in
  match r with inr fd => ret fd | inl _ => crash LogFatal end.

Definition bindOrDie (sockfd : Z) (a : sockaddr) : M (World K) unit :=
  let* r := syscall (sys_bind sockfd a) in
  match r with inr _ => ret tt | inl _ => crash LogFatal end.

Definition listenOrDie (sockfd : Z) : M (World K) unit :=
  let* r := syscall (sys_listen sockfd) in
  match r with inr _ => ret tt | inl _ => crash LogFatal end.

(** The errors of accept(2) after which the server goes on. *)
Definition accept_expected (e : Z) : bool :=
  (e =? EAGAIN) || (e =? ECONNABORTED) || (e =? EINTR) || (e =? EPROTO) || (e =? EPERM)
  || (e =? EMFILE).
Definition accept (sockfd : Z) : M (World K) (Z + (Z * sockaddr)) :=
  let* r := syscall (sys_accept sockfd) in
  match r with
  | inr x => ret (inr x)
  | inl e => if accept_expected e then ret (inl e) else crash LogFatal
  end.

Definition connect (sockfd : Z) (a : sockaddr) : M (World K) (Z + unit) :=
  syscall (sys_connect sockfd a).
Definition read (sockfd : Z) (count : Z) : M (World K) (Z + bytes) :=
  syscall (sys_read sockfd count).
Definition write (sockfd : Z) (buf : bytes) : M (World K) (Z + Z) :=
  syscall (sys_write sockfd buf).
Definition close (sockfd : Z) : M (World K) unit :=
  let* _ := syscall (sys_close sockfd) in ret tt.

Definition getSocketError (sockfd : Z) : M (World K) Z :=
  let* r := syscall (sys_so_error sockfd) in
  match r with inl errno => ret errno | inr optval => ret optval end.

(** The zeroed structure stays when the call fails. *)
Definition getLocalAddr (sockfd : Z) : M (World K) sockaddr :=
  let* r := syscall (sys_getsockname sockfd) in
  match r with inr a => ret a | inl _ => ret (zeros 28) end.
Definition getPeerAddr (sockfd : Z) : M (World K) sockaddr :=
  let* r := syscall (sys_getpeername sockfd) in
  match r with inr a => ret a | inl _ => ret (zeros 28) end.

Definition same_endpoint (localaddr peeraddr : sockaddr) : bool :=
  if Sockaddr.family localaddr =? AF_INET then
    (Sockaddr.sin_port localaddr =? Sockaddr.sin_port peeraddr)
    && bool_decide (Sockaddr.sin_addr localaddr = Sockaddr.sin_addr peeraddr)
  else if Sockaddr.family localaddr =? AF_INET6 then
    (Sockaddr.sin_port localaddr =? Sockaddr.sin_port peeraddr)
    && bool_decide (Sockaddr.sin6_addr localaddr = Sockaddr.sin6_addr peeraddr)
  else false.

Definition isSelfConnect (sockfd : Z) : M (World K) bool :=
  let* localaddr := getLocalAddr sockfd in
  let* peeraddr := getPeerAddr sockfd in
  ret (same_endpoint localaddr peeraddr).

Lemma wp_getLocalAddr fd (Q : sockaddr → World K → Prop) E w :
  (∀ a, Q a {| w with w_kernel := (sys_getsockname fd (w_kernel w)).2 |}) →
  wpe (getLocalAddr fd) Q E w.
Proof.
  intros HQ. unfold getLocalAddr. wp_run_cells. destruct (sys_getsockname _ _) as [[e|a] k']; cbn in *;
    wp_run_cells; apply HQ.
Qed.
Lemma wp_getPeerAddr fd (Q : sockaddr → World K → Prop) E w :
  (∀ a, Q a {| w with w_kernel := (sys_getpeername fd (w_kernel w)).2 |}) →
  wpe (getPeerAddr fd) Q E w.
Proof.
  intros HQ. unfold getPeerAddr. wp_run_cells. destruct (sys_getpeername _ _) as [[e|a] k']; cbn in *;
    wp_run_cells; apply HQ.
Qed.
End sockets.

Section Text.
Context `{Inet} `{HostOrder}.
Context {S : Type}.

(** [buf] is the caller's zeroed array: a family that is neither leaves it
    empty.  [size] is the room in [buf]. *)
Definition toIp (size : Z) (a : sockaddr) : M S bytes :=
  if Sockaddr.family a =? AF_INET then
    assert_ (INET_ADDRSTRLEN <=? size) ;;;
    ret (inet_ntop AF_INET (Sockaddr.sin_addr a))
  else if Sockaddr.family a =? AF_INET6 then
    assert_ (INET6_ADDRSTRLEN <=? size) ;;;
    ret (inet_ntop AF_INET6 (Sockaddr.sin6_addr a))
  else ret [].

(** [snprintf] into the room left: at most [size - end - 1] characters. *)
Definition toIpPort (size : Z) (a : sockaddr) : M S bytes :=
  if Sockaddr.family a =? AF_INET6 then
    let* ip := toIp (size - 1) a in
    let buf := str "[" ++ ip in
    let end_ := zlen buf in
    let port := networkToHost16 (Sockaddr.sin_port a) in
    assert_ (end_ <? size) ;;;
    ret (buf ++ ztake (size - end_ - 1) (str "]:" ++ to_string port))
  else
    let* buf := toIp size a in
    let end_ := zlen buf in
    let port := networkToHost16 (Sockaddr.sin_port a) in
    assert_ (end_ <? size) ;;;
    ret (buf ++ ztake (size - end_ - 1) (str ":" ++ to_string port)).

(** [fromIpPort], for [sockaddr_in]; an unparsable address is only logged. *)
Definition fromIpPort4 (ip : bytes) (port : Z) (a : sockaddr) : sockaddr :=
  let a := Sockaddr.set_port (hostToNetwork16 port) (Sockaddr.set_family AF_INET a) in
  match inet_pton AF_INET ip with
  | Some x => Sockaddr.set_sin_addr x a
  | None => a
  end.
Definition fromIpPort6 (ip : bytes) (port : Z) (a : sockaddr) : sockaddr :=
  let a := Sockaddr.set_port (hostToNetwork16 port) (Sockaddr.set_family AF_INET6 a) in
  match inet_pton AF_INET6 ip with
  | Some x => Sockaddr.set_sin6_addr x a
  | None => a
  end.
End Text.
End sockets.

(** ** class InetAddress *)
Module InetAddress.
Section InetAddress.
Context `{Inet} `{HostOrder}.

Definition kInaddrAny : Z := 0.
Definition kInaddrLoopback : Z := 0x7f000001.
Definition in6addr_any : bytes := zeros 16.
Definition in6addr_loopback : bytes := zeros 15 ++ [char_of 1].

(** [raw] is the memory the object is built in: the IPv4 branch clears only
    the 16 bytes of the [sockaddr_in]. *)
Definition InetAddress_port (raw : sockaddr) (portArg : Z) (loopbackOnly ipv6 : bool) : sockaddr :=
  if ipv6 then
    let a := zblit 0 (zeros 28) raw in
    let a := Sockaddr.set_family AF_INET6 a in
    let ip := if loopbackOnly then in6addr_loopback else in6addr_any in
    let a := Sockaddr.set_sin6_addr ip a in
    Sockaddr.set_port (hostToNetwork16 portArg) a
  else
    let a := zblit 0 (zeros 16) raw in
    let a := Sockaddr.set_family AF_INET a in
    let ip := if loopbackOnly then kInaddrLoopback else kInaddrAny in
    let a := Sockaddr.set_sin_addr (le_bytes 4 (hostToNetwork32 ip)) a in
    Sockaddr.set_port (hostToNetwork16 portArg) a.

(** [strchr] on [c_str()] stops at the first NUL. *)
Definition c_str (s : bytes) : bytes :=
  match list_find (λ c, c = char_of 0) s with
  | Some (i, _) => take i s
  | None => s
  end.

Definition InetAddress_ip (raw : sockaddr) (ip : bytes) (portArg : Z) (ipv6 : bool) : sockaddr :=
  if ipv6 || bool_decide (":"%char ∈ c_str ip)
  then sockets.fromIpPort6 (c_str ip) portArg (zblit 0 (zeros 28) raw)
  else sockets.fromIpPort4 (c_str ip) portArg (zblit 0 (zeros 16) raw).

Definition family (a : sockaddr) : Z := Sockaddr.family a.
Definition portNetEndian (a : sockaddr) : Z := Sockaddr.sin_port a.
Definition port (a : sockaddr) : Z := networkToHost16 (portNetEndian a).

Definition toIpPort {S} (a : sockaddr) : M S bytes := sockets.toIpPort 64 a.
Definition toIp {S} (a : sockaddr) : M S bytes := sockets.toIp 64 a.

Definition ipv4NetEndian {S} (a : sockaddr) : M S Z :=
  assert_ (family a =? AF_INET) ;;; ret (le_value (Sockaddr.sin_addr a)).

(** Only the address changes. *)
Definition resolve (hostname : bytes) (out : sockaddr) : bool * sockaddr :=
  match gethostbyname (c_str hostname) with
  | Some x => (true, Sockaddr.set_sin_addr x out)
  | None => (false, out)
  end.

Definition setScopeId (scope_id : Z) (a : sockaddr) : sockaddr :=
  if family a =? AF_INET6 then Sockaddr.set_scope_id scope_id a else a.
End InetAddress.
End InetAddress.

(** ** class Socket

    The object is its descriptor. *)
Module Socket.
Section Socket.
Context `{Kernel K}.

Definition TCP_NODELAY : Z := 1.
Definition SO_REUSEADDR : Z := 2.
Definition SO_KEEPALIVE : Z := 9.
Definition SO_REUSEPORT : Z := 15.

Definition Socket_dtor (sockfd_ : Z) : M (World K) unit := sockets.close sockfd_.

Definition bindAddress (sockfd_ : Z) (addr : sockaddr) : M (World K) unit :=
  let* r := syscall (sys_bind sockfd_ addr) in
  match r with inr _ => ret tt | inl _ => crash LogFatal end.

Definition listen (sockfd_ : Z) : M (World K) unit :=
  let* r := syscall (sys_listen sockfd_) in
  match r with inr _ => ret tt | inl _ => crash LogFatal end.

(** The descriptor or the error, and [*peeraddr] when there is a descriptor. *)
Definition accept (sockfd_ : Z) : M (World K) (Z + (Z * sockaddr)) :=
  syscall (sys_accept sockfd_).

Definition shutdownWrite (sockfd_ : Z) : M (World K) unit :=
  let* _ := syscall (sys_shutdown_wr sockfd_) in ret tt.

Definition setTcpNoDelay (sockfd_ : Z) (on : bool) : M (World K) unit :=
  let* _ := syscall (sys_setsockopt sockfd_ TCP_NODELAY on) in ret tt.
Definition setReuseAddr (sockfd_ : Z) (on : bool) : M (World K) unit :=
  let* _ := syscall (sys_setsockopt sockfd_ SO_REUSEADDR on) in ret tt.
Definition setReusePort (sockfd_ : Z) (on : bool) : M (World K) unit :=
  let* _ := syscall (sys_setsockopt sockfd_ SO_REUSEPORT on) in ret tt.
Definition setKeepAlive (sockfd_ : Z) (on : bool) : M (World K) unit :=
  let* _ := syscall (sys_setsockopt sockfd_ SO_KEEPALIVE on) in ret tt.
End Socket.
End Socket.
