(* ===== verification/EventLoop.v ===== *)
(** * EventLoop and the channel operations that go through it
    (network/src/EventLoop.cc, network/src/Channel.cc)

    The loop's registry forwards to its poller; [ChannelOps] changes a
    channel's interest and dispatches its callbacks; [EventLoop] is the
    reactor: poll, dispatch, pending functors, wake-ups.  The code of callbacks
    and functors is a parameter of the operations that call them. *)

From S2P Require Import Prelude.
From S2P Require Import Buffer.
From S2P Require Import NetTypes.
From S2P Require Import Kernel.
From S2P Require Import Channel.
From S2P Require Import Poller.
From S2P Require Import SocketsOps.

(** ** EventLoop::updateChannel, removeChannel, hasChannel *)
Module LoopRegistry.
Section LoopRegistry.
Context `{Kernel K}.

Definition updateChannel (l : ptr) (c : ptr) : M (World K) unit :=
  let* ch := get_channel c in
  assert_ (ch_loop_ ch =? l) ;;;
  assertInLoopThread l ;;;
  Poller.updateChannel l c.

Definition removeChannel (l : ptr) (c : ptr) : M (World K) unit :=
  let* ch := get_channel c in
  assert_ (ch_loop_ ch =? l) ;;;
  assertInLoopThread l ;;;
  let* x := get_loop l in
  when (eventHandling_ x)
    (assert_ (bool_decide (currentActiveChannel_ x = Some c)
              || negb (bool_decide (c ∈ activeChannels_ x)))) ;;;
  Poller.removeChannel l c.

Definition hasChannel (l : ptr) (c : ptr) : M (World K) bool :=
  let* ch := get_channel c in
  assert_ (ch_loop_ ch =? l) ;;;
  assertInLoopThread l ;;;
  Poller.hasChannel l c.
End LoopRegistry.
End LoopRegistry.

(** ** Channel: interest changes, removal, dispatch *)
Module ChannelOps.
Section ChannelOps.
Context `{Kernel K}.

Definition update (c : ptr) : M (World K) unit :=
  upd_channel c (λ ch, {| ch with addedToLoop_ := true |}) ;;;
  let* ch := get_channel c in
  LoopRegistry.updateChannel (ch_loop_ ch) c.

Definition enableReading (c : ptr) : M (World K) unit :=
  upd_channel c (λ ch, {| ch with events_ := Z.lor (events_ ch) Channel.ReadEvent |}) ;;;
  update c.
Definition disableReading (c : ptr) : M (World K) unit :=
  upd_channel c (λ ch, {| ch with events_ := Z.land (events_ ch) (Z.lnot Channel.ReadEvent) |}) ;;;
  update c.
Definition enableWriting (c : ptr) : M (World K) unit :=
  upd_channel c (λ ch, {| ch with events_ := Z.lor (events_ ch) Channel.WriteEvent |}) ;;;
  update c.
Definition disableWriting (c : ptr) : M (World K) unit :=
  upd_channel c (λ ch, {| ch with events_ := Z.land (events_ ch) (Z.lnot Channel.WriteEvent) |}) ;;;
  update c.
Definition disableAll (c : ptr) : M (World K) unit :=
  upd_channel c (λ ch, {| ch with events_ := Channel.NoneEvent |}) ;;;
  update c.

Definition remove (c : ptr) : M (World K) unit :=
  let* ch := get_channel c in
  assert_ (Channel.isNoneEvent ch) ;;;
  upd_channel c (λ ch, {| ch with addedToLoop_ := false |}) ;;;
  LoopRegistry.removeChannel (ch_loop_ ch) c.

(** The destructor, then the cell is freed. *)
Definition Channel_dtor (c : ptr) : M (World K) unit :=
  let* ch := get_channel c in
  assert_ (negb (event_handling_ ch)) ;;;
  assert_ (negb (addedToLoop_ ch)) ;;;
  let* here := isInLoopThread (ch_loop_ ch) in
  when here
    (let* h := LoopRegistry.hasChannel (ch_loop_ ch) c in assert_ (negb h)) ;;;
  del_channel c.

Definition POLLIN : Z := EPOLLIN.
Definition POLLPRI : Z := EPOLLPRI.
Definition POLLOUT : Z := EPOLLOUT.
Definition POLLERR : Z := EPOLLERR.
Definition POLLHUP : Z := EPOLLHUP.
Definition POLLNVAL : Z := EPOLLNVAL.
Definition POLLRDHUP : Z := EPOLLRDHUP.

Definition has (revents mask : Z) : bool := negb (Z.land revents mask =? 0).

(** [run] is the code of the callbacks. *)
Definition call (run : EventCallback → M (World K) unit) (cb : option EventCallback)
    : M (World K) unit :=
  match cb with Some f => run f | None => ret tt end.

Definition handleEvent (run : EventCallback → M (World K) unit) (c : ptr) : M (World K) unit :=
  upd_channel c (λ ch, {| ch with event_handling_ := true |}) ;;;
  let* ch := get_channel c in
  when (has (revents_ ch) POLLHUP && negb (has (revents_ ch) POLLIN))
    (call run (ch_closeCallback_ ch)) ;;;
  let* ch := get_channel c in
  when (has (revents_ ch) (Z.lor POLLIN (Z.lor POLLPRI POLLRDHUP)))
    (call run (readCallback_ ch)) ;;;
  let* ch := get_channel c in
  when (has (revents_ ch) POLLOUT)
    (call run (writeCallback_ ch)) ;;;
  let* ch := get_channel c in
  when (has (revents_ ch) (Z.lor POLLERR POLLNVAL))
    (call run (errorCallback_ ch)) ;;;
  upd_channel c (λ ch, {| ch with event_handling_ := false |}).
End ChannelOps.
End ChannelOps.

(** ** Channel operations refine a table of (status, mask)

    The abstract state of a loop maps each of its channels to what epoll does
    with it and its event mask. *)
Module Interest.
Inductive status := New | Watched | Idle.
#[export] Instance status_eq_dec : EqDecision status.
Proof. solve_decision. Defined.

Inductive op := EnableReading | DisableReading | EnableWriting | DisableWriting
              | DisableAll | Remove.
#[export] Instance op_eq_dec : EqDecision op.
Proof. solve_decision. Defined.

Definition new_mask (o : op) (m : Z) : Z :=
  match o with
  | EnableReading => Z.lor m EPOLLIN
  | DisableReading => Z.land m (Z.lnot EPOLLIN)
  | EnableWriting => Z.lor m EPOLLOUT
  | DisableWriting => Z.land m (Z.lnot EPOLLOUT)
  | DisableAll => 0
  | Remove => m
  end.

(** A watched channel left without events is dropped from the set; any other
    change puts the channel in it, even with no events. *)
Definition step (o : op) (s : status * Z) : option (status * Z) :=
  match o with
  | Remove => if bool_decide (s.1 = New) || negb (s.2 =? 0) then None else Some (New, s.2)
  | _ => let m := new_mask o s.2 in
         Some (if bool_decide (s.1 = Watched) && (m =? 0) then Idle else Watched, m)
  end.

Abbreviation table := (gmap ptr (status * Z)).
Fixpoint run (ops : list (ptr * op)) (t : table) : option table :=
  match ops with
  | [] => Some t
  | (c, o) :: rest => s ← t !! c; s' ← step o s; run rest (<[c := s']> t)
  end.

Definition status_of (ch : Channel) : status :=
  if index_ ch =? Poller.kAdded then Watched
  else if index_ ch =? Poller.kDeleted then Idle else New.
Definition row (l : ptr) (ch : Channel) : option (status * Z) :=
  if ch_loop_ ch =? l then Some (status_of ch, events_ ch) else None.
Definition abs {K} (l : ptr) (w : World K) : table := omap (row l) (w_channels w).

Section Refinement.
Context `{Kernel K, Observe K, !KernelLaws K}.
Implicit Types w : World K.

Definition exec (o : op) (c : ptr) : M (World K) unit :=
  match o with
  | EnableReading => ChannelOps.enableReading c
  | DisableReading => ChannelOps.disableReading c
  | EnableWriting => ChannelOps.enableWriting c
  | DisableWriting => ChannelOps.disableWriting c
  | DisableAll => ChannelOps.disableAll c
  | Remove => ChannelOps.remove c
  end.
Definition exec_all (ops : list (ptr * op)) : M (World K) unit :=
  forM ops (λ '(c, o), exec o c).

(** [removeChannel]'s assertion while events are handled. *)
Definition may_remove (lp : EventLoop) (c : ptr) : Prop :=
  eventHandling_ lp = true → currentActiveChannel_ lp = Some c ∨ c ∉ activeChannels_ lp.

Lemma same_reg_refl ch e b : Poller.same_reg ch {| ch with events_ := e; addedToLoop_ := b |}.
Proof. done. Qed.

(** Every interest change is one [updateChannel] on the changed cell. *)
Lemma wp_change (f : Z → Z) l lp c ch w E :
  Poller.inv l lp w → w_channels w !! c = Some ch → ch_loop_ ch = l →
  pollable (w_kernel w) (ch_fd_ ch) →
  (index_ ch = Poller.kNew → channels_ (poller_ lp) !! ch_fd_ ch = None) →
  wpe (upd_channel c (λ ch, {| ch with events_ := f (events_ ch) |}) ;;; ChannelOps.update c)
    (λ _ w', Poller.updated l lp w c
       {| ch with events_ := f (events_ ch); addedToLoop_ := true |} w') E w.
Proof.
  intros Hi Hc Hl Hp Hn. pose proof (Poller.inv_loop _ _ _ Hi).
  unfold ChannelOps.update, LoopRegistry.updateChannel. wp_run_cells.
  rewrite !insert_insert_eq. cbn. rewrite Hl. wp_run_cells. wp_assert by apply Z.eqb_refl.
  eapply wpe_mono; [eapply (Poller.wp_updateChannel l c w lp ch)| |]; try done.
Qed.

Lemma wp_remove l lp c ch w E :
  Poller.inv l lp w → w_channels w !! c = Some ch → ch_loop_ ch = l →
  index_ ch ≠ Poller.kNew → events_ ch = 0 → may_remove lp c →
  wpe (ChannelOps.remove c)
    (λ _ w', Poller.removed l lp w c {| ch with addedToLoop_ := false |} w') E w.
Proof.
  intros Hi Hc <- Hn He Hm. pose proof (Poller.inv_loop _ _ _ Hi).
  unfold ChannelOps.remove, LoopRegistry.removeChannel, Channel.isNoneEvent. wp_run_cells.
  wp_assert by (apply Z.eqb_eq; done). cbn. wp_assert by apply Z.eqb_refl.
  assert (wpe (Poller.removeChannel (ch_loop_ ch) c)
    (λ _ w', Poller.removed (ch_loop_ ch) lp w c {| ch with addedToLoop_ := false |} w') E
    {| w with w_channels := <[c := {| ch with addedToLoop_ := false |}]> (w_channels w) |}) as Hr.
  { by eapply (Poller.wp_removeChannel _ c w lp ch). }
  destruct (eventHandling_ lp) eqn:Heh; [|exact Hr].
  wp_run_cells. split; [|exact Hr]. destruct (Hm Heh).
  - by rewrite bool_decide_true.
  - rewrite (bool_decide_false (c ∈ _)) by done. by rewrite orb_true_r.
Qed.
(** The loop is well formed, and its channels have distinct descriptors that
    epoll accepts. *)
Record ready (l : ptr) (lp : EventLoop) (w : World K) : Prop := {
  ready_inv : Poller.inv l lp w;
  ready_pollable : ∀ c ch, w_channels w !! c = Some ch → ch_loop_ ch = l →
    pollable (w_kernel w) (ch_fd_ ch);
  ready_distinct : ∀ c c' ch ch', w_channels w !! c = Some ch → ch_loop_ ch = l →
    w_channels w !! c' = Some ch' → ch_loop_ ch' = l → ch_fd_ ch = ch_fd_ ch' → c = c';
}.

Lemma ready_free l lp w c ch : ready l lp w → w_channels w !! c = Some ch →
  ch_loop_ ch = l → index_ ch = Poller.kNew → channels_ (poller_ lp) !! ch_fd_ ch = None.
Proof.
  intros [Hi _ Hd] Hc Hl Hn. destruct (channels_ _ !! _) as [c'|] eqn:Hm; [|done].
  destruct (Poller.inv_chan _ _ _ Hi _ _ Hm) as (ch' & Hc' & Hfd & Hl').
  assert (c = c') as <- by eauto.
  destruct (Poller.indexed_cases _ _ _ (Poller.inv_index _ _ _ Hi _ _ Hc Hl)) as [[_ ?]|[[?|?] _]];
    [done|by rewrite Hn in *..].
Qed.

(** A registry operation on [c] keeps the other parts of [ready]. *)
Lemma ready_post l lp lp' w c ch ch' k' :
  ready l lp w → w_channels w !! c = Some ch → ch_loop_ ch = l →
  ch_fd_ ch' = ch_fd_ ch → ch_loop_ ch' = ch_loop_ ch →
  (∀ fd, pollable (w_kernel w) fd → pollable k' fd) →
  let w' := Poller.registry_post w k' l lp' c ch' in
  Poller.inv l lp' w' →
  ready l lp' w' ∧ abs l w' = <[c := (status_of ch', events_ ch')]> (abs l w).
Proof.
  intros [Hi Hp Hd] Hc Hl Hfd Hl' Hk w' Hi'. split; [split; [done|..]|]; cbn.
  - intros c1 ch1 [[<- <-]|[? Hc1]]%lookup_insert_Some Hl1; [rewrite Hfd|]; eauto.
  - intros c1 c2 ch1 ch2 [[<- <-]|[? Hc1]]%lookup_insert_Some Hl1
      [[<- <-]|[? Hc2]]%lookup_insert_Some Hl2 Heq; try done.
    + rewrite Hfd in Heq. by apply (Hd c c2 ch ch2).
    + rewrite Hfd in Heq. by apply (Hd c1 c ch1 ch).
    + by apply (Hd c1 c2 ch1 ch2).
  - unfold abs. cbn. rewrite omap_insert. unfold row at 1. rewrite Hl', Hl, Z.eqb_refl. done.
Qed.

Lemma status_cases l lp w c ch : ready l lp w → w_channels w !! c = Some ch → ch_loop_ ch = l →
  match status_of ch with
  | New => index_ ch = Poller.kNew
  | Watched => index_ ch = Poller.kAdded
  | Idle => index_ ch = Poller.kDeleted
  end.
Proof.
  intros [Hi _ _] Hc Hl. unfold status_of.
  destruct (Z.eqb_spec (index_ ch) Poller.kAdded); [done|].
  destruct (Z.eqb_spec (index_ ch) Poller.kDeleted); [done|].
  destruct (Poller.indexed_cases _ _ _ (Poller.inv_index _ _ _ Hi _ _ Hc Hl)) as [[? _]|[[?|?] _]];
    done.
Qed.

(** The loop after an operation: only its poller's map may differ. *)
Definition registry_only (lp lp' : EventLoop) : Prop :=
  ∃ m, lp' = Poller.with_channels lp m.

Lemma wp_change_step (f : Z → Z) l lp c ch w E :
  ready l lp w → w_channels w !! c = Some ch → ch_loop_ ch = l →
  wpe (upd_channel c (λ ch, {| ch with events_ := f (events_ ch) |}) ;;; ChannelOps.update c)
    (λ _ w', ∃ lp', registry_only lp lp' ∧ ready l lp' w' ∧
       abs l w' = <[c := (if bool_decide (status_of ch = Watched) && (f (events_ ch) =? 0)
                          then Idle else Watched, f (events_ ch))]> (abs l w)) E w.
Proof.
  intros Hr Hc Hl. eapply wpe_mono; [eapply wp_change| |done]; [apply Hr|done|done|..].
  - by eapply ready_pollable.
  - by eapply ready_free.
  - intros [] w' (k' & (_ & Hk & _) & -> & Hi'). eexists. split; [by eexists|].
    eapply ready_post in Hi' as [Hr' ->]; [|done..]. split; [done|]. do 2 f_equal.
    pose proof (status_cases _ _ _ _ _ Hr Hc Hl) as Hs. destruct Poller.index_distinct as (? & ? & ?).
    cbn. unfold status_of at 1, Poller.next_index, Channel.isNoneEvent, Channel.NoneEvent. cbn.
    destruct (status_of ch); rewrite Hs; cbn; [done| |done]. by destruct (f (events_ ch) =? 0).
Qed.

Lemma wp_remove_step l lp c ch w E :
  ready l lp w → w_channels w !! c = Some ch → ch_loop_ ch = l →
  status_of ch ≠ New → events_ ch = 0 → may_remove lp c →
  wpe (ChannelOps.remove c)
    (λ _ w', ∃ lp', registry_only lp lp' ∧ ready l lp' w' ∧
       abs l w' = <[c := (New, events_ ch)]> (abs l w)) E w.
Proof.
  intros Hr Hc Hl Hs He Hm. eapply wpe_mono; [eapply wp_remove| |done]; try done; [apply Hr|..].
  - intros Hn. apply Hs. unfold status_of. rewrite Hn. by vm_compute.
  - intros [] w' (k' & (_ & Hk & _) & -> & Hi'). eexists. split; [by eexists|].
    eapply ready_post in Hi' as [Hr' ->]; [|done..]. split; [done|]. by do 2 f_equal.
Qed.

Lemma wp_exec o c l lp w s s' E :
  ready l lp w → (o = Remove → may_remove lp c) →
  abs l w !! c = Some s → step o s = Some s' →
  wpe (exec o c) (λ _ w', ∃ lp', registry_only lp lp' ∧ ready l lp' w' ∧
       abs l w' = <[c := s']> (abs l w)) E w.
Proof.
  intros Hr Hm Hs Hstep. unfold abs in Hs. rewrite lookup_omap in Hs.
  apply bind_Some in Hs as (ch & Hc & Hrow). unfold row in Hrow.
  destruct (Z.eqb_spec (ch_loop_ ch) l) as [Hl|]; [|done]. simplify_eq.
  destruct o; cbn in Hstep; simplify_eq.
  - exact (wp_change_step (new_mask EnableReading) _ lp c ch w E Hr Hc eq_refl).
  - exact (wp_change_step (new_mask DisableReading) _ lp c ch w E Hr Hc eq_refl).
  - exact (wp_change_step (new_mask EnableWriting) _ lp c ch w E Hr Hc eq_refl).
  - exact (wp_change_step (new_mask DisableWriting) _ lp c ch w E Hr Hc eq_refl).
  - exact (wp_change_step (new_mask DisableAll) _ lp c ch w E Hr Hc eq_refl).
  - destruct (bool_decide _) eqn:Hn; [done|]. destruct (Z.eqb_spec (events_ ch) 0); [|done].
    cbn in Hstep. simplify_eq. apply bool_decide_eq_false in Hn.
    apply wp_remove_step; auto.
Qed.
(** Changes that neither the poller nor the descriptors see. *)
Lemma ready_frame l lp lp' w w' :
  ready l lp w → w_loops w' !! l = Some lp' → Poller.same_poller lp lp' →
  (∀ c, Poller.chan_frame (w_channels w !! c) (w_channels w' !! c)) →
  (∀ c ch', w_channels w' !! c = Some ch' → ch_loop_ ch' = l → is_Some (w_channels w !! c)) →
  epoll_frame (w_kernel w) (w_kernel w') →
  ready l lp' w'.
Proof.
  intros [Hi Hp Hd] Hl Hs Hf Hnew [Hk Hpoll].
  assert (∀ c ch', w_channels w' !! c = Some ch' → ch_loop_ ch' = l →
    ∃ ch, w_channels w !! c = Some ch ∧ ch_loop_ ch = l ∧ ch_fd_ ch' = ch_fd_ ch) as Hback.
  { intros c ch' Hc' Hl'. destruct (Hnew _ _ Hc' Hl') as [ch Hc]. exists ch.
    specialize (Hf c). rewrite Hc, Hc' in Hf. destruct Hf as [(? & ? & _) _].
    split_and!; congruence. }
  split.
  - by eapply Poller.inv_frame.
  - intros c ch' Hc Hl'. destruct (Hback _ _ Hc Hl') as (ch & ? & ? & ->). eauto.
  - intros c1 c2 ch1 ch2 Hc1 Hl1 Hc2 Hl2 Heq.
    destruct (Hback _ _ Hc1 Hl1) as (? & ? & ? & E1).
    destruct (Hback _ _ Hc2 Hl2) as (? & ? & ? & E2). rewrite E1, E2 in Heq. by eapply Hd.
Qed.

(** ... in particular a change of the loop's other fields. *)
Lemma ready_loop l lp lp' w : ready l lp w → Poller.same_poller lp lp' →
  ready l lp' {| w with w_loops := <[l := lp']> (w_loops w) |}.
Proof.
  intros Hr Hs. eapply ready_frame; [exact Hr|apply lookup_insert_eq|done|..]; cbn.
  - intros c. apply Poller.chan_frame_refl.
  - intros c ch' ->. eauto.
  - done.
Qed.

Lemma watched_iff l lp w fd ev : ready l lp w →
  interest (w_kernel w) (epollfd_ (poller_ lp)) !! fd = Some ev ↔
  ∃ c ch m, w_channels w !! c = Some ch ∧ ch_loop_ ch = l ∧ ch_fd_ ch = fd ∧
    abs l w !! c = Some (Watched, m) ∧ ev = mkEvent (wrap 32 m) c.
Proof.
  intros Hr. pose proof (ready_inv _ _ _ Hr) as Hi. rewrite (Poller.inv_interest _ _ _ Hi).
  unfold Poller.registered, abs. rewrite lookup_omap. split.
  - intros (c & Hm & Hw)%bind_Some. destruct (Poller.inv_chan _ _ _ Hi _ _ Hm) as (ch & Hc & Hfd & Hl).
    unfold Poller.watch in Hw. rewrite Hc in Hw. cbn in Hw.
    destruct (Z.eqb_spec (index_ ch) Poller.kAdded) as [Hx|]; [|done]. simplify_eq.
    exists c, ch, (events_ ch). rewrite lookup_omap, Hc. split_and!; try done. cbn.
    unfold row. rewrite Z.eqb_refl. unfold status_of. by rewrite Hx.
  - intros (c & ch & m & Hc & Hl & Hfd & Ht & ->). rewrite lookup_omap, Hc in Ht. cbn in Ht.
    unfold row in Ht. rewrite (proj2 (Z.eqb_eq _ _) Hl) in Ht. simplify_eq.
    pose proof (status_cases _ _ _ _ _ Hr Hc eq_refl) as Hx. rewrite H1 in Hx.
    destruct (Poller.indexed_cases _ _ _ (Poller.inv_index _ _ _ Hi _ _ Hc eq_refl)) as [[? _]|[_ Hin]].
    { by rewrite Hx in *. }
    rewrite Hin. cbn. unfold Poller.watch. rewrite Hc. cbn. by rewrite Hx.
Qed.

(** C23: the interest list kept by the poller and epoll refines the table of
    (status, mask).  From a well-formed loop, any sequence of channel
    operations the table allows runs without a failed assertion or fatal
    error, the channels' status and masks become the table's, and epoll then
    watches exactly the table's [Watched] channels, each with its mask. *)
Theorem interest_refines_table l lp w ops t :
  ready l lp w → run ops (abs l w) = Some t →
  (∀ c, (c, Remove) ∈ ops → may_remove lp c) →
  wp (exec_all ops) (λ _ w', abs l w' = t ∧ ∃ lp', ready l lp' w' ∧
    ∀ fd ev, interest (w_kernel w') (epollfd_ (poller_ lp')) !! fd = Some ev ↔
      ∃ c ch m, w_channels w' !! c = Some ch ∧ ch_loop_ ch = l ∧ ch_fd_ ch = fd ∧
        t !! c = Some (Watched, m) ∧ ev = mkEvent (wrap 32 m) c) w.
Proof.
  revert lp w. induction ops as [|[c o] ops IH]; intros lp w Hr Hrun Hm.
  - cbn in Hrun. simplify_eq. unfold exec_all. cbn. wp_simp. split; [done|].
    exists lp. split; [done|]. intros fd ev. by apply watched_iff.
  - cbn in Hrun. apply bind_Some in Hrun as (s & Hs & Hrun).
    apply bind_Some in Hrun as (s' & Hs' & Hrun). unfold exec_all. cbn. wp_simp.
    eapply wpe_mono; [eapply (wp_exec o c l lp w s s' (λ _ _, False)); try done| |done].
    + intros ->. apply Hm. left.
    + intros [] w' (lp' & [m ->] & Hr' & Habs). eapply IH; [exact Hr'|by rewrite Habs|].
      intros c' Hc'. apply (Hm c'). by right.
Qed.

End Refinement.
End Interest.

(** ** EventLoop *)
Module EventLoop.
Definition kPollTimeMs : Z := 10000.

Section EventLoop.
Context `{Kernel K}.

(** [abort()] when there is no descriptor. *)
Definition createEventfd : M (World K) Z :=
  let* r := syscall sys_eventfd in
  match r with inr fd => ret fd | inl _ => crash Terminated end.

Definition getEventLoopOfCurrentThread : M (World K) (option ptr) :=
  gets (λ w, w_tls w !! w_tid w).

(** [threadId_] is indeterminate until the last statement; 0 stands for it. *)
Definition EventLoop_ctor : M (World K) ptr :=
  let* l := new_ptr in
  let* p := Poller.Poller_ctor l in
  let* fd := createEventfd in
  let* c := Channel.Channel_ctor l fd in
  set_loop l (mkEventLoop false false false false 0 0 p fd c [] None []) ;;;
  let* t := getEventLoopOfCurrentThread in
  match t with
  | Some _ => crash LogFatal
  | None => modify (λ w, {| w with w_tls := <[w_tid w := l]> (w_tls w) |})
  end ;;;
  Channel.setReadCallback c (EventLoop_handleRead l) ;;;
  ChannelOps.enableReading c ;;;
  let* tid := gets w_tid in
  upd_loop l (λ x, {| x with threadId_ := tid |}) ;;;
  ret l.

(** The destructor and those of the members, last first. *)
Definition EventLoop_dtor (l : ptr) : M (World K) unit :=
  let* x := get_loop l in
  ChannelOps.disableAll (wakeupChannel_ x) ;;;
  ChannelOps.remove (wakeupChannel_ x) ;;;
  let* _ := syscall (sys_close (wakeupFd_ x)) in
  modify (λ w, {| w with w_tls := delete (w_tid w) (w_tls w) |}) ;;;
  ChannelOps.Channel_dtor (wakeupChannel_ x) ;;;
  Poller.Poller_dtor l ;;;
  del_loop l.

(** The 8 bytes of [uint64_t one = 1]. *)
Definition one_bytes : bytes := char_of 1 :: zeros 7.

(** A short or failed transfer is only logged. *)
Definition wakeup (l : ptr) : M (World K) unit :=
  let* x := get_loop l in
  let* _ := sockets.write (wakeupFd_ x) one_bytes in ret tt.
Definition handleRead (l : ptr) : M (World K) unit :=
  let* x := get_loop l in
  let* _ := sockets.read (wakeupFd_ x) 8 in ret tt.

Definition quit (l : ptr) : M (World K) unit :=
  upd_loop l (λ x, {| x with quit_ := true |}) ;;;
  let* here := isInLoopThread l in
  when (negb here) (wakeup l).

(** The section under [mutex_], and what follows it. *)
Definition queue_push (l : ptr) (cb : Functor) : M (World K) unit :=
  upd_loop l (λ x, {| x with pendingFunctors_ := pendingFunctors_ x ++ [cb] |}).
Definition queue_notify (l : ptr) : M (World K) unit :=
  let* here := isInLoopThread l in
  let* x := get_loop l in
  when (negb here || callingPendingFunctors_ x) (wakeup l).
Definition queueInLoop (l : ptr) (cb : Functor) : M (World K) unit :=
  queue_push l cb ;;; queue_notify l.

(** [cb] names the closure, [now] is its code. *)
Definition runInLoop (l : ptr) (cb : Functor) (now : M (World K) unit) : M (World K) unit :=
  let* here := isInLoopThread l in
  if here then now else queueInLoop l cb.

Definition queueSize (l : ptr) : M (World K) Z :=
  let* x := get_loop l in ret (zlen (pendingFunctors_ x)).

Definition begin_pending (l : ptr) : M (World K) (list Functor) :=
  upd_loop l (λ x, {| x with callingPendingFunctors_ := true |}) ;;;
  let* x := get_loop l in
  set_loop l {| x with pendingFunctors_ := [] |} ;;;
  ret (pendingFunctors_ x).
Definition end_pending (l : ptr) : M (World K) unit :=
  upd_loop l (λ x, {| x with callingPendingFunctors_ := false |}).
Definition doPendingFunctors (run : Functor → M (World K) unit) (l : ptr) : M (World K) unit :=
  let* functors := begin_pending l in
  forM functors run ;;;
  end_pending l.

Section Loop.
Context (run_event : EventCallback → M (World K) unit) (run : Functor → M (World K) unit).

Definition dispatch (l : ptr) (c : ptr) : M (World K) unit :=
  upd_loop l (λ x, {| x with currentActiveChannel_ := Some c |}) ;;;
  ChannelOps.handleEvent run_event c.

(** One turn of the while loop. *)
Definition iterate (l : ptr) : M (World K) unit :=
  upd_loop l (λ x, {| x with activeChannels_ := [] |}) ;;;
  let* active := Poller.poll l kPollTimeMs [] in
  upd_loop l (λ x, {| x with activeChannels_ := active |}) ;;;
  upd_loop l (λ x, let i := iteration_ x in {| x with iteration_ := i + 1 |}) ;;;
  upd_loop l (λ x, {| x with eventHandling_ := true |}) ;;;
  forM active (dispatch l) ;;;
  upd_loop l (λ x, {| x with currentActiveChannel_ := None |}) ;;;
  upd_loop l (λ x, {| x with eventHandling_ := false |}) ;;;
  doPendingFunctors run l.

(** [while (!quit_)], at most [fuel] turns; [true] when it was left. *)
Fixpoint loop_while (fuel : nat) (l : ptr) : M (World K) bool :=
  let* x := get_loop l in
  if quit_ x then ret true
  else match fuel with
       | O => ret false
       | S fuel' => iterate l ;;; loop_while fuel' l
       end.

Definition loop (fuel : nat) (l : ptr) : M (World K) bool :=
  let* x := get_loop l in
  assert_ (negb (looping_ x)) ;;;
  assertInLoopThread l ;;;
  upd_loop l (λ x, {| x with looping_ := true |}) ;;;
  upd_loop l (λ x, {| x with quit_ := false |}) ;;;
  let* finished := loop_while fuel l in
  when finished (upd_loop l (λ x, {| x with looping_ := false |})) ;;;
  ret finished.
End Loop.
End EventLoop.

(** ** Construction *)
Section Ctor.
Context `{Kernel K, Observe K, !KernelLaws K}.
Implicit Types w : World K.

(** The loop before its wakeup channel is enabled. *)
Definition bare_loop (l : ptr) (ep fd : Z) (c : ptr) : EventLoop :=
  mkEventLoop false false false false 0 0
    (mkPoller l ep Poller.kInitEventListSize ∅) fd c [] None [].

Definition bare_channel (l : ptr) (fd : Z) : Channel :=
  mkChannel l fd 0 0 (-1) false false (Some (EventLoop_handleRead l)) None None None.

Definition bare_world w (k : K) (ep fd : Z) : World K :=
  let l := w_next w in let c := l + 1 in
  {| w with w_kernel := k; w_next := c + 1;
            w_channels := <[c := bare_channel l fd]> (w_channels w);
            w_loops := <[l := bare_loop l ep fd c]> (w_loops w);
            w_tls := <[w_tid w := l]> (w_tls w) |}.

Lemma bare_ready w k ep fd : fresh w → interest k ep = ∅ → pollable k fd →
  Interest.ready (w_next w) (bare_loop (w_next w) ep fd (w_next w + 1)) (bare_world w k ep fd).
Proof.
  intros Hf Hk Hp. set (l := w_next w) in *.
  assert (∀ c ch, w_channels (bare_world w k ep fd) !! c = Some ch → ch_loop_ ch = l →
    c = l + 1 ∧ ch = bare_channel l fd) as Hc.
  { cbn. intros c ch [[<- <-]|[_ Hc]]%lookup_insert_Some Hl; [done|].
    pose proof (fresh_owner _ Hf _ _ Hc). subst l. lia. }
  split; [split|..]; cbn.
  - apply lookup_insert_eq.
  - done.
  - done.
  - intros c ch Hch Hl. destruct (Hc _ _ Hch Hl) as [-> ->]. done.
  - rewrite Hk. unfold Poller.registered. by rewrite omap_empty.
  - intros c ch Hch Hl. by destruct (Hc _ _ Hch Hl) as [-> ->].
  - intros c c' ch ch' Hch Hl Hch' Hl' _.
    destruct (Hc _ _ Hch Hl) as [-> _]. by destruct (Hc _ _ Hch' Hl') as [-> _].
Qed.

End Ctor.

(** The executable kernel with an epoll instance 3 and an eventfd 4. *)
Definition sim_kernel : Sim.sim := (Sim.eventfd (Sim.epoll_create1 Sim.empty).2).2.


(** A loop at 1 whose wakeup channel, at 2, is not yet registered. *)
Definition sim_world : World Sim.sim := bare_world (start_world Sim.empty) sim_kernel 3 4.
Definition sim_loop : EventLoop := bare_loop 1 3 4 2.

Lemma sim_ready : Interest.ready 1 sim_loop sim_world.
Proof.
  apply (bare_ready (start_world Sim.empty) sim_kernel 3 4); [apply fresh_start|done|].
  cbn. set_solver.
Qed.

Definition sim_ops : list (ptr * Interest.op) :=
  [(2, Interest.EnableReading); (2, Interest.EnableWriting); (2, Interest.DisableAll);
   (2, Interest.Remove); (2, Interest.DisableReading)].

Lemma interest_refines_table_witness :
  wp (Interest.exec_all sim_ops)
    (λ _ w', Interest.abs 1 w' = {[2 := (Interest.Watched, 0)]}) sim_world.
Proof.
  eapply wp_mono.
  - apply (Interest.interest_refines_table 1 sim_loop sim_world sim_ops
      {[2 := (Interest.Watched, 0)]} sim_ready); [vm_compute; reflexivity|].
    intros c _ He. discriminate He.
  - intros [] w' [Ht _]. exact Ht.
Defined.
End EventLoop.

(** ** Dispatch order *)
Module Dispatch.
Section Dispatch.
Context `{Kernel K}.
Implicit Types w : World K.

Definition opt_list {A} (o : option A) : list A := match o with Some a => [a] | None => [] end.
Definition guard_cb (b : bool) (cb : option EventCallback) : list EventCallback :=
  if b then opt_list cb else [].

(** The callbacks [handleEvent] calls: close on a hang-up with nothing to read,
    then read, write and error. *)
Definition selected (ch : Channel) : list EventCallback :=
  let has := ChannelOps.has (revents_ ch) in
  guard_cb (has EPOLLHUP && negb (has EPOLLIN)) (ch_closeCallback_ ch)
  ++ guard_cb (has (Z.lor EPOLLIN (Z.lor EPOLLPRI EPOLLRDHUP))) (readCallback_ ch)
  ++ guard_cb (has EPOLLOUT) (writeCallback_ ch)
  ++ guard_cb (has (Z.lor EPOLLERR EPOLLNVAL)) (errorCallback_ ch).

(** The fields dispatch looks at. *)
Definition same_dispatch (a b : Channel) : Prop :=
  revents_ b = revents_ a ∧ ch_closeCallback_ b = ch_closeCallback_ a
  ∧ readCallback_ b = readCallback_ a ∧ writeCallback_ b = writeCallback_ a
  ∧ errorCallback_ b = errorCallback_ a.

(** No callback frees the channel or changes those fields. *)
Definition keeps (run : EventCallback → M (World K) unit) (c : ptr) : Prop :=
  ∀ cb w ch w', w_channels w !! c = Some ch → run cb w = Ret tt w' →
    ∃ ch', w_channels w' !! c = Some ch' ∧ same_dispatch ch ch'.

Lemma same_dispatch_trans a b c : same_dispatch a b → same_dispatch b c → same_dispatch a c.
Proof. unfold same_dispatch. intuition congruence. Qed.

(** One guarded call, with the channel read again before it. *)
Lemma guarded_call run c b (sel : Channel → option EventCallback) ch0 (k k' : M (World K) unit)
    (g : Channel → bool) w ch :
  keeps run c → w_channels w !! c = Some ch → same_dispatch ch0 ch →
  (∀ x, same_dispatch ch0 x → g x = b ∧ sel x = sel ch0) →
  (∀ w' ch', w_channels w' !! c = Some ch' → same_dispatch ch0 ch' → k w' = k' w') →
  (let* x := get_channel c in when (g x) (ChannelOps.call run (sel x)) ;;; k) w
  = (forM (guard_cb b (sel ch0)) run ;;; k') w.
Proof.
  intros Hrun Hc Hs Hg Hk. destruct (Hg ch Hs) as [Hb Hsel].
  unfold bind at 1, get_channel, bind, get, deref. rewrite Hc. rewrite Hb, Hsel.
  unfold when, guard_cb, ChannelOps.call, opt_list. destruct b.
  - destruct (sel ch0) as [cb|]; cbn; [|by eapply Hk].
    unfold bind, ret. destruct (run cb w) as [[] w'| |] eqn:Hr; [|done|done].
    destruct (Hrun _ _ _ _ Hc Hr) as (ch' & Hc' & Hs').
    eapply Hk; [exact Hc'|]. by eapply same_dispatch_trans.
  - cbn. by eapply Hk.
Qed.

(** Between raising and clearing [event_handling_], [handleEvent] calls exactly
    the callbacks the returned events select, in the order close, read, write,
    error, as long as no callback replaces the channel's callbacks or events. *)
Theorem handle_event_selects run c w ch :
  keeps run c → w_channels w !! c = Some ch →
  ChannelOps.handleEvent run c w
  = (upd_channel c (λ ch, {| ch with event_handling_ := true |}) ;;;
     forM (selected ch) run ;;;
     upd_channel c (λ ch, {| ch with event_handling_ := false |})) w.
Proof.
  intros Hrun Hc. unfold ChannelOps.handleEvent.
  apply bind_ext. intros [] w1 Hu.
  assert (∃ ch1, w_channels w1 !! c = Some ch1 ∧ same_dispatch ch ch1) as (ch1 & Hc1 & Hs1).
  { unfold upd_channel, get_channel, set_channel, bind, get, deref, modify in Hu.
    rewrite Hc in Hu. simplify_eq. eexists. split; [apply lookup_insert_eq|done]. }
  unfold selected. rewrite !forM_app.
  eapply guarded_call; [done|exact Hc1|exact Hs1| |].
  { intros x (-> & -> & _). done. }
  intros w2 ch2 Hc2 Hs2. rewrite !forM_app.
  eapply guarded_call; [done|exact Hc2|exact Hs2| |].
  { intros x (-> & _ & -> & _). done. }
  intros w3 ch3 Hc3 Hs3. rewrite !forM_app.
  eapply guarded_call; [done|exact Hc3|exact Hs3| |].
  { intros x (-> & _ & _ & -> & _). done. }
  intros w4 ch4 Hc4 Hs4.
  eapply guarded_call; [done|exact Hc4|exact Hs4| |done].
  intros x (-> & _ & _ & _ & ->). done.
Qed.
End Dispatch.

Lemma handle_event_selects_witness :
  let run := λ cb : EventCallback, ret (S := World Sim.sim) tt in
  let ch := mkChannel 1 4 0 (Z.lor EPOLLHUP EPOLLERR) 1 false true
              (Some (EventLoop_handleRead 1)) None (Some (TcpConnection_handleClose 7))
              (Some (TcpConnection_handleError 7)) in
  let w0 := start_world Sim.empty in
  let w := {| w0 with w_channels := {[2 := ch]} |} in
  selected ch = [TcpConnection_handleClose 7; TcpConnection_handleError 7]
  ∧ ChannelOps.handleEvent run 2 w
    = (upd_channel 2 (λ ch, {| ch with event_handling_ := true |}) ;;;
       forM [TcpConnection_handleClose 7; TcpConnection_handleError 7] run ;;;
       upd_channel 2 (λ ch, {| ch with event_handling_ := false |})) w.
Proof.
  intros run ch w0 w. split; [vm_compute; reflexivity|].
  apply (handle_event_selects run 2 w ch).
  - intros cb w1 ch1 w2 Hc Hr. injection Hr as <-. exists ch1. repeat split; exact Hc.
  - reflexivity.
Defined.
End Dispatch.

(** ** Wakeups are not lost

    The loop's thread and other threads interleave at the granularity of the
    code's locked section: an enqueue from another thread is two steps, the push
    under [mutex_] and the notification after it. *)
Module Wakeup.
Inductive phase :=
| Polling                          (* about to wait in epoll, or waiting *)
| Handling                         (* calling event callbacks *)
| Calling (rest : list Functor).   (* calling the functors swapped out *)

Section Wakeup.
Context `{Kernel K, !EventfdLaws K}.
Implicit Types w : World K.

(** [w_tid] names the thread that runs; [notifying] the threads between their
    push and their notification. *)
Record conf := mkConf { at_ : phase; world : World K; notifying : list Z }.

Definition by_thread (t : Z) (w : World K) : World K := {| w with w_tid := t |}.

(** What callbacks and functors may do besides queueing. *)
Definition harmless (l : ptr) (w w' : World K) : Prop :=
  ∀ x, w_loops w !! l = Some x → ∃ x', w_loops w' !! l = Some x'
    ∧ pendingFunctors_ x' = pendingFunctors_ x
    ∧ callingPendingFunctors_ x' = callingPendingFunctors_ x
    ∧ wakeupFd_ x' = wakeupFd_ x ∧ threadId_ x' = threadId_ x
    ∧ (is_eventfd (w_kernel w) (wakeupFd_ x) → is_eventfd (w_kernel w') (wakeupFd_ x)
         ∧ evcount (w_kernel w) (wakeupFd_ x) ≤ evcount (w_kernel w') (wakeupFd_ x)).

Inductive step (l : ptr) (tid : Z) : conf → conf → Prop :=
| step_push t cb ph w w' ns :
    t ≠ tid → EventLoop.queue_push l cb (by_thread t w) = Ret tt w' →
    step l tid (mkConf ph w ns) (mkConf ph w' (t :: ns))
| step_notify t ph w w' ns1 ns2 :
    t ≠ tid → EventLoop.queue_notify l (by_thread t w) = Ret tt w' →
    step l tid (mkConf ph w (ns1 ++ t :: ns2)) (mkConf ph w' (ns1 ++ ns2))
| step_poll timeout active w w' ns :
    Poller.poll l timeout [] (by_thread tid w) = Ret active w' →
    step l tid (mkConf Polling w ns) (mkConf Handling w' ns)
| step_handle_read w w' ns :
    EventLoop.handleRead l (by_thread tid w) = Ret tt w' →
    step l tid (mkConf Handling w ns) (mkConf Handling w' ns)
| step_queue cb ph w w' ns :
    ph ≠ Polling → EventLoop.queueInLoop l cb (by_thread tid w) = Ret tt w' →
    step l tid (mkConf ph w ns) (mkConf ph w' ns)
| step_harmless ph w w' ns :
    harmless l w w' → step l tid (mkConf ph w ns) (mkConf ph w' ns)
| step_begin fs w w' ns :
    EventLoop.begin_pending l (by_thread tid w) = Ret fs w' →
    step l tid (mkConf Handling w ns) (mkConf (Calling fs) w' ns)
| step_call f fs w ns :
    step l tid (mkConf (Calling (f :: fs)) w ns) (mkConf (Calling fs) w ns)
| step_end w w' ns :
    EventLoop.end_pending l (by_thread tid w) = Ret tt w' →
    step l tid (mkConf (Calling []) w ns) (mkConf Polling w' ns).

(** While a functor is pending and the loop will wait before it swaps the
    queue again, the wakeup descriptor is readable or a notification is due. *)
Definition inv (l : ptr) (tid fd : Z) (c : conf) : Prop :=
  ∃ x, w_loops (world c) !! l = Some x ∧ threadId_ x = tid ∧ wakeupFd_ x = fd
    ∧ is_eventfd (w_kernel (world c)) (wakeupFd_ x)
    ∧ (callingPendingFunctors_ x = true ↔ ∃ fs, at_ c = Calling fs)
    ∧ (at_ c ≠ Handling → pendingFunctors_ x ≠ [] →
       0 < evcount (w_kernel (world c)) (wakeupFd_ x) ∨ notifying c ≠ []).

Lemma zlen_one : zlen EventLoop.one_bytes = 8.
Proof. by vm_compute. Qed.

Lemma wp_wakeup l w x E : w_loops w !! l = Some x → is_eventfd (w_kernel w) (wakeupFd_ x) →
  wpe (EventLoop.wakeup l) (λ _ w', ∃ k', w' = {| w with w_kernel := k' |} ∧
    is_eventfd k' (wakeupFd_ x) ∧ 0 < evcount k' (wakeupFd_ x)) E w.
Proof.
  intros Hl He. unfold EventLoop.wakeup, sockets.write. wp_run_cells.
  destruct (sys_write (wakeupFd_ x) EventLoop.one_bytes (w_kernel w)) as [r k'] eqn:Hw.
  exists k'. split; [done|]. by eapply eventfd_write; [|apply zlen_one|].
Qed.

Lemma wp_notify l w x E : w_loops w !! l = Some x → is_eventfd (w_kernel w) (wakeupFd_ x) →
  wpe (EventLoop.queue_notify l) (λ _ w', ∃ k', w' = {| w with w_kernel := k' |} ∧
    is_eventfd k' (wakeupFd_ x) ∧
    (if negb (threadId_ x =? w_tid w) || callingPendingFunctors_ x
     then 0 < evcount k' (wakeupFd_ x) else k' = w_kernel w)) E w.
Proof.
  intros Hl He. unfold EventLoop.queue_notify. wp_run_cells.
  destruct (negb _ || _).
  - eapply wpe_mono; [by apply wp_wakeup| |done]. cbn. intros [] w' (k' & -> & ? & ?). eauto.
  - exists (w_kernel w). split_and!; [by destruct w|done|done].
Qed.

(** Polling leaves the queue, the flags and the wakeup counter. *)
Lemma fill_frame p evs : ∀ acts w r w', Poller.fill p evs acts w = Ret r w' →
  w_loops w' = w_loops w ∧ w_kernel w' = w_kernel w.
Proof.
  induction evs as [|ev evs IH]; intros acts w r w' Hf.
  { cbn in Hf. unfold ret in Hf. by simplify_eq. }
  cbn in Hf. unfold bind, get_channel, bind, get, deref, assert_ in Hf.
  destruct (w_channels w !! ev_ptr ev) as [ch|] eqn:Hc; [|done].
  destruct (bool_decide (is_Some _)); [|done]. destruct (bool_decide _); [|done].
  unfold Channel.set_revents, upd_channel, get_channel, set_channel, bind, get, deref, modify in Hf.
  rewrite Hc in Hf. apply IH in Hf as [-> ->]. done.
Qed.

Lemma poll_frame l timeout active w w' x :
  w_loops w !! l = Some x → is_eventfd (w_kernel w) (wakeupFd_ x) →
  Poller.poll l timeout [] w = Ret active w' →
  ∃ p, w_loops w' !! l = Some {| x with poller_ := p |}
    ∧ is_eventfd (w_kernel w') (wakeupFd_ x)
    ∧ evcount (w_kernel w') (wakeupFd_ x) = evcount (w_kernel w) (wakeupFd_ x).
Proof.
  intros Hl He Hp. unfold Poller.poll, Poller.get_poller, get_loop, syscall, bind, get, deref, ret in Hp.
  rewrite Hl in Hp. destruct (sys_epoll_wait _ _ _ _) as [r k'] eqn:Hw.
  destruct (eventfd_wait _ _ _ _ _ _ _ He Hw) as [He' Hcount].
  assert (∃ p, x = {| x with poller_ := p |}) as [p0 Hx].
  { exists (poller_ x). by destruct x. }
  destruct r as [e|evs]; [simplify_eq; exists p0; rewrite <-Hx; done|].
  destruct (0 <? zlen evs); [|simplify_eq; exists p0; rewrite <-Hx; done].
  unfold Poller.fillActiveChannels, assert_, bind in Hp. destruct (zlen evs <=? _); [|done].
  destruct (Poller.fill _ _ _ _) as [r2 w2| |] eqn:Hf; [|done|done].
  apply fill_frame in Hf as [Hl2 Hk2]. cbn in Hl2, Hk2. unfold when in Hp.
  destruct (_ =? _).
  - unfold Poller.set_poller, upd_loop, get_loop, set_loop, bind, get, deref, modify, ret in Hp.
    rewrite Hl2, Hl in Hp. subst k'. simplify_eq. cbn. rewrite lookup_insert_eq. eauto.
  - unfold ret in Hp. subst k'. simplify_eq. rewrite Hl2. exists p0. by rewrite <-Hx.
Qed.

Lemma upd_loop_ret l f w w' x : w_loops w !! l = Some x → upd_loop l f w = Ret tt w' →
  w' = {| w with w_loops := <[l := f x]> (w_loops w) |}.
Proof.
  intros Hl Hu. unfold upd_loop, get_loop, set_loop, bind, get, deref, modify in Hu.
  rewrite Hl in Hu. by simplify_eq.
Qed.

Lemma not_calling ph : ph ≠ Handling → (∃ fs, ph = Calling fs) ∨ ph = Polling.
Proof. destruct ph; [by right|done|eauto]. Qed.

Lemma step_inv l tid fd c c' : step l tid c c' → inv l tid fd c → inv l tid fd c'.
Proof.
  intros Hs (x & Hl & Ht & <- & He & Hc & Hp).
  destruct Hs as [t cb ph w w' ns Hne Hr|t ph w w' ns1 ns2 Hne Hr|timeout active w w' ns Hr
    |w w' ns Hr|cb ph w w' ns Hph Hr|ph w w' ns Hh|fs w w' ns Hr|f fs w ns|w w' ns Hr];
    unfold inv in *; cbn [at_ world notifying] in *.
  - eapply upd_loop_ret in Hr; [|exact Hl]. subst w'. eexists.
    split; [apply lookup_insert_eq|]. cbn. split_and!; auto.
  - pose proof (wp_notify l (by_thread t w) x (λ _ _, False) Hl He) as Hw.
    destruct (wpe_Ret _ _ _ _ _ _ Hw Hr) as (k' & -> & He' & Hk). exists x. cbn.
    split_and!; try done. intros Hn Hpend.
    cbn in Hk. rewrite (proj2 (Z.eqb_neq (threadId_ x) t)) in Hk by congruence. by left.
  - eapply poll_frame in Hr as (p & Hl' & He' & Hcount); [|exact Hl|exact He].
    eexists. split; [exact Hl'|]. cbn. split_and!; try done. rewrite Hc. split; intros [? ?]; done.
  - unfold EventLoop.handleRead, get_loop, sockets.read, syscall, bind, get, deref, ret in Hr.
    cbn in Hr. rewrite Hl in Hr. destruct (sys_read _ _ _) as [r k'] eqn:Hread.
    simplify_eq. exists x. cbn. split_and!; try done. by eapply eventfd_read.
  - unfold EventLoop.queueInLoop, bind in Hr.
    destruct (EventLoop.queue_push _ _ _) as [[] w1| |] eqn:Hpush; [|done|done].
    eapply upd_loop_ret in Hpush; [|exact Hl]. subst w1.
    set (x1 := {| x with pendingFunctors_ := _ |}) in Hr.
    match type of Hr with _ ?w1 = _ =>
      pose proof (wp_notify l w1 x1 (λ _ _, False) (lookup_insert_eq _ _ _) He) as Hw end.
    destruct (wpe_Ret _ _ _ _ _ _ Hw Hr) as (k' & -> & He' & Hk). exists x1. cbn.
    split_and!; try done; [by rewrite lookup_insert_eq|]. intros Hn _.
    destruct (not_calling _ Hn) as [Hcall|]; [|done].
    apply Hc in Hcall. cbn in Hk. rewrite Hcall, orb_true_r in Hk. by left.
  - destruct (Hh x Hl) as (x' & Hl' & Ep & Ec & Ew & Et & Hk). destruct (Hk He) as [He' Hle].
    exists x'. rewrite Ep, Ec, Ew, Et. split_and!; try done. intros Hn Hpend.
    destruct (Hp Hn Hpend); [left; lia|by right].
  - unfold EventLoop.begin_pending, bind, get_loop, set_loop, upd_loop, get_loop, bind, get, deref,
      set_loop, modify, ret in Hr. cbn in Hr. rewrite Hl in Hr. cbn in Hr.
    rewrite lookup_insert_eq in Hr. simplify_eq. eexists.
    split; [apply lookup_insert_eq|]. cbn. split_and!; try done. split; eauto.
  - exists x. split_and!; try done; [|auto]. rewrite Hc. split; intros; eauto.
  - eapply upd_loop_ret in Hr; [|exact Hl]. subst w'. eexists.
    split; [apply lookup_insert_eq|]. cbn. split_and!; try done.
    + split; [done|]. intros [? ?]. done.
    + intros _. by apply Hp.
Qed.

(** C24: whatever the interleaving of the loop's turns with enqueues from other
    threads, when the loop is about to wait with a functor pending and no
    other thread is inside [queueInLoop], the wakeup descriptor is readable,
    so the wait returns and the functor is swapped out. *)
Theorem no_lost_wakeup l tid w x c :
  w_loops w !! l = Some x → threadId_ x = tid → is_eventfd (w_kernel w) (wakeupFd_ x) →
  callingPendingFunctors_ x = false → pendingFunctors_ x = [] →
  rtc (step l tid) (mkConf Polling w []) c →
  at_ c = Polling → notifying c = [] →
  ∃ x', w_loops (world c) !! l = Some x' ∧ wakeupFd_ x' = wakeupFd_ x ∧
    (pendingFunctors_ x' ≠ [] → 0 < evcount (w_kernel (world c)) (wakeupFd_ x')).
Proof.
  intros Hl Ht He Hc Hpend Hsteps Hat Hns.
  assert (inv l tid (wakeupFd_ x) (mkConf Polling w [])) as Hi.
  { exists x. cbn. rewrite Hc, Hpend. split_and!; try done. split; [done|]. by intros [? ?]. }
  assert (inv l tid (wakeupFd_ x) c) as (x' & Hl' & _ & Hfd & _ & _ & Hp').
  { clear Hat Hns. induction Hsteps; eauto using step_inv. }
  exists x'. split; [done|]. split; [done|]. intros Hne.
  destruct (Hp' ltac:(by rewrite Hat) Hne) as [?|?]; [done|]. by rewrite Hns in *.
Qed.
End Wakeup.

Definition ret_world {S} (d : S) (o : outcome S unit) : S := match o with Ret _ s => s | _ => d end.

(** Thread 9 enqueues on a loop that is waiting. *)
Definition sim_pushed : World Sim.sim :=
  ret_world EventLoop.sim_world
    (EventLoop.queue_push 1 (F_user 7) (by_thread 9 EventLoop.sim_world)).
Definition sim_notified : World Sim.sim :=
  ret_world sim_pushed (EventLoop.queue_notify 1 (by_thread 9 sim_pushed)).

Lemma no_lost_wakeup_witness :
  ∃ x, w_loops sim_notified !! 1 = Some x ∧ pendingFunctors_ x = [F_user 7]
    ∧ 0 < evcount (w_kernel sim_notified) 4.
Proof.
  destruct (no_lost_wakeup 1 0 EventLoop.sim_world EventLoop.sim_loop
    (mkConf Polling sim_notified [])) as (x & Hx & Hfd & Hcount);
    [reflexivity|reflexivity|eexists; reflexivity|reflexivity|reflexivity| |reflexivity
    |reflexivity|].
  - eapply rtc_l; [apply (step_push 1 0 9 (F_user 7) _ _ sim_pushed); [done|reflexivity]|].
    eapply rtc_l; [|apply rtc_refl].
    apply (step_notify 1 0 9 _ sim_pushed sim_notified [] []); [done|reflexivity].
  - cbn in Hx, Hcount. vm_compute in Hx. injection Hx as <-. eexists.
    split; [reflexivity|]. split; [reflexivity|]. apply Hcount. discriminate.
Defined.
End Wakeup.
