(* ===== verification/LoopFrame.v ===== *)
(** * Loops and what other objects do to them

    [loop_ok]: the loop is well formed and the descriptors its poller knows are
    open.  The lemmas say which changes of the world keep it. *)

From S2P Require Import Prelude.
From S2P Require Import NetTypes.
From S2P Require Import Kernel.
From S2P Require Import Poller.
From S2P Require Import SocketsOps.
From S2P Require Import EventLoop.

Module LoopFrame.
(** ** A well-formed loop whose registered descriptors are open *)
Section Lemmas.
Context `{Kernel K, Observe K, !KernelLaws K, !SocketLaws K}.
Implicit Types w : World K.

Record loop_ok (l : ptr) (lp : EventLoop) w : Prop := {
  lo_inv : Poller.inv l lp w;
  lo_open : ∀ fd c, channels_ (poller_ lp) !! fd = Some c → pollable (w_kernel w) fd;
}.

Lemma loop_ok_frame l lp lp' w w' : loop_ok l lp w →
  w_loops w' !! l = Some lp' → Poller.same_poller lp lp' →
  (∀ c, Poller.chan_frame (w_channels w !! c) (w_channels w' !! c)) →
  epoll_frame (w_kernel w) (w_kernel w') → loop_ok l lp' w'.
Proof.
  intros [Hi Ho] Hl Hs Hf [Hk Hp]. pose proof Hs as (_ & _ & Em). split.
  - by eapply Poller.inv_frame.
  - rewrite Em. intros fd c Hc. apply Hp. eauto.
Qed.

Lemma loop_ok_kernel l lp w k' : loop_ok l lp w → epoll_frame (w_kernel w) k' →
  loop_ok l lp {| w with w_kernel := k' |}.
Proof.
  intros Hlo Hk. eapply loop_ok_frame; [exact Hlo|apply Hlo|done| |exact Hk].
  intros. apply Poller.chan_frame_refl.
Qed.

(** Closing a descriptor that no channel of the loop is registered for. *)
Lemma loop_ok_close l lp w fd : loop_ok l lp w → channels_ (poller_ lp) !! fd = None →
  loop_ok l lp {| w with w_kernel := (sys_close fd (w_kernel w)).2 |}.
Proof.
  intros [[Hl Ho Hc Hx Hi] Hopen] Hn. destruct (close_frame (w_kernel w) fd) as (Hint & Hp & _).
  split; [split|]; cbn; try done.
  - rewrite Hint, Hi. apply delete_id. unfold Poller.registered. by rewrite lookup_omap, Hn.
  - intros fd' c Hm. apply Hp; [|by eauto]. intros ->. congruence.
Qed.

(** A new channel, not yet registered. *)
Lemma loop_ok_channel l lp w c ch : loop_ok l lp w → w_channels w !! c = None →
  index_ ch = Poller.kNew → loop_ok l lp {| w with w_channels := <[c := ch]> (w_channels w) |}.
Proof.
  intros Hlo Hn Hx. eapply loop_ok_frame; [exact Hlo|apply Hlo|done| |done]. intros c'. cbn.
  destruct (decide (c' = c)) as [->|].
  - by rewrite Hn, lookup_insert_eq.
  - rewrite lookup_insert_ne by done. apply Poller.chan_frame_refl.
Qed.

(** Writes to the cells of other objects. *)
Lemma loop_ok_cells l lp w w' : loop_ok l lp w → w_loops w' = w_loops w →
  w_channels w' = w_channels w → w_kernel w' = w_kernel w → loop_ok l lp w'.
Proof.
  intros Hlo El Ec Ek. eapply loop_ok_frame; [exact Hlo|rewrite El; apply Hlo|done| |by rewrite Ek].
  intros c. rewrite Ec. apply Poller.chan_frame_refl.
Qed.

(** ** Wakeups and queueing *)
Lemma wp_queue l lp w f E : loop_ok l lp w →
  wpe (EventLoop.queueInLoop l f) (λ _ w', ∃ k',
    let lp' := {| lp with pendingFunctors_ := pendingFunctors_ lp ++ [f] |} in
    w' = {| w with w_kernel := k'; w_loops := <[l := lp']> (w_loops w) |} ∧
    epoll_frame (w_kernel w) k' ∧ loop_ok l lp' w') E w.
Proof.
  intros Hlo. pose proof (Poller.inv_loop _ _ _ (lo_inv _ _ _ Hlo)) as Hl.
  unfold EventLoop.queueInLoop, EventLoop.queue_push, EventLoop.queue_notify, EventLoop.wakeup,
    sockets.write. wp_run_cells. cbn.
  assert (∀ k', epoll_frame (w_kernel w) k' →
    let lp' := {| lp with pendingFunctors_ := pendingFunctors_ lp ++ [f] |} in
    loop_ok l lp' {| w with w_kernel := k'; w_loops := <[l := lp']> (w_loops w) |}) as Hok.
  { intros k' Hk lp'. eapply loop_ok_frame; [exact Hlo|apply lookup_insert_eq|done| |exact Hk].
    intros. apply Poller.chan_frame_refl. }
  destruct (negb _ || _); wp_run_cells.
  - destruct (sys_write _ _ _) as [r k'] eqn:Hw. cbn [fst snd].
    destruct (write_sends _ _ _ _ _ Hw) as (Hk & _). exists k'. split; [done|]. auto.
  - exists (w_kernel w). split; [by destruct w|]. split; [done|]. by apply (Hok (w_kernel w)).
Qed.
End Lemmas.
End LoopFrame.
