(* ===== verification/TcpConnection.v ===== *)
(** * TcpConnection (network/src/TcpConnection.cc)

    One connected socket: its state machine, its input and output buffers, and
    the callbacks it reports to.  The code of the callbacks is the class
    [Callbacks]; the default callbacks of the library are defined here. *)

From S2P Require Import Prelude.
From S2P Require Import Buffer.
From S2P Require Import NetTypes.
From S2P Require Import Frame.
From S2P Require Import Kernel.
From S2P Require Import Channel.
From S2P Require Import Poller.
From S2P Require Import SocketsOps.
From S2P Require Import EventLoop.

(** What user callbacks and close callbacks do with a connection. *)
Class Callbacks (K : Type) := {
  user_connection : Z → ptr → M (World K) unit;
  user_message : Z → ptr → M (World K) unit;
  user_write_complete : Z → ptr → M (World K) unit;
  on_close : CloseCallback → ptr → M (World K) unit;
}.

Module TcpConnection.
Section Ops.
Context `{Kernel K}.

(** An operation of a member buffer. *)
Definition in_input {A} (c : ptr) (m : M Buffer.Buffer A) : M (World K) A :=
  let* x := get_conn c in
  zoom (λ _, inputBuffer_ x)
    (λ b w, {| w with w_conns := <[c := {| x with inputBuffer_ := b |}]> (w_conns w) |}) m.
Definition in_output {A} (c : ptr) (m : M Buffer.Buffer A) : M (World K) A :=
  let* x := get_conn c in
  zoom (λ _, outputBuffer_ x)
    (λ b w, {| w with w_conns := <[c := {| x with outputBuffer_ := b |}]> (w_conns w) |}) m.

Definition setState (c : ptr) (s : StateE) : M (World K) unit :=
  upd_conn c (λ x, {| x with state_ := s |}).
Definition set_reading (c : ptr) (b : bool) : M (World K) unit :=
  upd_conn c (λ x, {| x with reading_ := b |}).

Definition connected (x : TcpConnection) : bool := bool_decide (state_ x = kConnected).
Definition disconnected (x : TcpConnection) : bool := bool_decide (state_ x = kDisconnected).
Definition isReading (x : TcpConnection) : bool := reading_ x.

Definition setConnectionCallback (c : ptr) (cb : option UserCallback) : M (World K) unit :=
  upd_conn c (λ x, {| x with connectionCallback_ := cb |}).
Definition setMessageCallback (c : ptr) (cb : option UserCallback) : M (World K) unit :=
  upd_conn c (λ x, {| x with messageCallback_ := cb |}).
Definition setWriteCompleteCallback (c : ptr) (cb : option UserCallback) : M (World K) unit :=
  upd_conn c (λ x, {| x with writeCompleteCallback_ := cb |}).
Definition setCloseCallback (c : ptr) (cb : CloseCallback) : M (World K) unit :=
  upd_conn c (λ x, {| x with closeCallback_ := Some cb |}).

(** Only logs the two addresses. *)
Definition defaultConnectionCallback (c : ptr) : M (World K) unit :=
  let* _ := get_conn c in ret tt.
Definition defaultMessageCallback (c : ptr) : M (World K) unit :=
  in_input c Buffer.retrieveAll.

Definition TcpConnection_ctor (loop : ptr) (nameArg : bytes) (sockfd : Z)
    (localAddr peerAddr : sockaddr) : M (World K) ptr :=
  let* c := new_ptr in
  let* ch := Channel.Channel_ctor loop sockfd in
  let* inb := Buffer.Buffer_ctor Buffer.kInitialSize in
  let* outb := Buffer.Buffer_ctor Buffer.kInitialSize in
  set_conn c (mkTcpConnection loop nameArg kConnecting true sockfd ch localAddr peerAddr
                None None None None inb outb) ;;;
  Channel.setReadCallback ch (TcpConnection_handleRead c) ;;;
  Channel.setWriteCallback ch (TcpConnection_handleWrite c) ;;;
  Channel.setCloseCallback ch (TcpConnection_handleClose c) ;;;
  Channel.setErrorCallback ch (TcpConnection_handleError c) ;;;
  Socket.setKeepAlive sockfd true ;;;
  ret c.

(** The body, then the channel's and the socket's destructors. *)
Definition TcpConnection_dtor (c : ptr) : M (World K) unit :=
  let* x := get_conn c in
  assert_ (disconnected x) ;;;
  ChannelOps.Channel_dtor (channel_ x) ;;;
  Socket.Socket_dtor (socket_ x) ;;;
  modify (λ w, {| w with w_conns := delete c (w_conns w) |}).

(** The direct write: bytes written, bytes remaining, fault. *)
Definition send_direct (c : ptr) (data : bytes) : M (World K) (Z * Z * bool) :=
  let* x := get_conn c in
  let* ch := get_channel (channel_ x) in
  if negb (Channel.isWriting ch) && (Buffer.readableBytes (outputBuffer_ x) =? 0) then
    let* r := sockets.write (ch_fd_ ch) data in
    match r with
    | inr nwrote =>
        let remaining := u64 (zlen data - nwrote) in
        (if remaining =? 0 then
           match writeCompleteCallback_ x with
           | Some cb => EventLoop.queueInLoop (loop_ x) (F_writeComplete cb c)
           | None => ret tt
           end
         else ret tt) ;;;
        ret (nwrote, remaining, false)
    | inl errno =>
        ret (0, zlen data,
             negb (errno =? EWOULDBLOCK) && ((errno =? EPIPE) || (errno =? ECONNRESET)))
    end
  else ret (0, zlen data, false).

Definition sendInLoop (c : ptr) (data : bytes) : M (World K) unit :=
  let* x := get_conn c in
  assertInLoopThread (loop_ x) ;;;
  if disconnected x then ret tt
  else
    let* r := send_direct c data in
    let '(nwrote, remaining, faultError) := r in
    if negb faultError && (0 <? remaining) then
      in_output c (Buffer.append (ztake remaining (zdrop nwrote data))) ;;;
      let* ch := get_channel (channel_ x) in
      when (negb (Channel.isWriting ch)) (ChannelOps.enableWriting (channel_ x))
    else ret tt.

(** The caller's buffer is consumed when the connection is up. *)
Definition send (c : ptr) (buf : Buffer.Buffer) : M (World K) Buffer.Buffer :=
  let* x := get_conn c in
  if connected x then
    let* here := isInLoopThread (loop_ x) in
    if here then
      let* data := zoom (λ _, buf) (λ _ w, w)
                     (Buffer.load (Buffer.peek buf) (Buffer.readableBytes buf)) in
      sendInLoop c data ;;;
      zoom (λ _, buf) (λ _ w, w) (Buffer.retrieveAll ;;; get)
    else
      let* r := zoom (λ _, buf) (λ _ w, w)
                  (let* s := Buffer.retrieveAllAsString in let* b := get in ret (s, b)) in
      EventLoop.runInLoop (loop_ x) (F_sendInLoop c (fst r)) (sendInLoop c (fst r)) ;;;
      ret (snd r)
  else ret buf.

Definition shutdownInLoop (c : ptr) : M (World K) unit :=
  let* x := get_conn c in
  assertInLoopThread (loop_ x) ;;;
  let* ch := get_channel (channel_ x) in
  when (negb (Channel.isWriting ch)) (Socket.shutdownWrite (socket_ x)).

Definition shutdown (c : ptr) : M (World K) unit :=
  let* x := get_conn c in
  if connected x then
    setState c kDisconnecting ;;;
    EventLoop.runInLoop (loop_ x) (F_shutdownInLoop c) (shutdownInLoop c)
  else ret tt.

Definition closing (x : TcpConnection) : bool :=
  bool_decide (state_ x = kConnected) || bool_decide (state_ x = kDisconnecting).

Definition forceClose (c : ptr) : M (World K) unit :=
  let* x := get_conn c in
  if closing x then
    setState c kDisconnecting ;;;
    EventLoop.queueInLoop (loop_ x) (F_forceCloseInLoop c)
  else ret tt.

(** The delayed part is commented out in the source. *)
Definition forceCloseWithDelay (c : ptr) : M (World K) unit :=
  let* x := get_conn c in
  if closing x then setState c kDisconnecting else ret tt.

Definition stateToString (x : TcpConnection) : bytes :=
  match state_ x with
  | kDisconnected => str "kDisconnected"
  | kConnecting => str "kConnecting"
  | kConnected => str "kConnected"
  | kDisconnecting => str "kDisconnecting"
  end.

Definition setTcpNoDelay (c : ptr) (on : bool) : M (World K) unit :=
  let* x := get_conn c in Socket.setTcpNoDelay (socket_ x) on.

Definition startReadInLoop (c : ptr) : M (World K) unit :=
  let* x := get_conn c in
  assertInLoopThread (loop_ x) ;;;
  let* ch := get_channel (channel_ x) in
  if negb (reading_ x) || negb (Channel.isReading ch) then
    ChannelOps.enableReading (channel_ x) ;;;
    set_reading c true
  else ret tt.
Definition startRead (c : ptr) : M (World K) unit :=
  let* x := get_conn c in
  EventLoop.runInLoop (loop_ x) (F_startReadInLoop c) (startReadInLoop c).

Definition stopReadInLoop (c : ptr) : M (World K) unit :=
  let* x := get_conn c in
  assertInLoopThread (loop_ x) ;;;
  let* ch := get_channel (channel_ x) in
  if reading_ x || Channel.isReading ch then
    ChannelOps.disableReading (channel_ x) ;;;
    set_reading c false
  else ret tt.
Definition stopRead (c : ptr) : M (World K) unit :=
  let* x := get_conn c in
  EventLoop.runInLoop (loop_ x) (F_stopReadInLoop c) (stopReadInLoop c).

Definition handleError (c : ptr) : M (World K) unit :=
  let* x := get_conn c in
  let* ch := get_channel (channel_ x) in
  let* _ := sockets.getSocketError (ch_fd_ ch) in ret tt.

Definition handleWrite (c : ptr) : M (World K) unit :=
  let* x := get_conn c in
  assertInLoopThread (loop_ x) ;;;
  let* ch := get_channel (channel_ x) in
  if Channel.isWriting ch then
    let out := outputBuffer_ x in
    let* data := in_output c (Buffer.load (Buffer.peek out) (Buffer.readableBytes out)) in
    let* r := sockets.write (ch_fd_ ch) data in
    match r with
    | inr n =>
        if 0 <? n then
          in_output c (Buffer.retrieve n) ;;;
          let* x := get_conn c in
          if Buffer.readableBytes (outputBuffer_ x) =? 0 then
            ChannelOps.disableWriting (channel_ x) ;;;
            match writeCompleteCallback_ x with
            | Some cb => EventLoop.queueInLoop (loop_ x) (F_writeComplete cb c)
            | None => ret tt
            end ;;;
            let* x := get_conn c in
            if bool_decide (state_ x = kDisconnecting) then shutdownInLoop c else ret tt
          else ret tt
        else ret tt
    | inl _ => ret tt
    end
  else ret tt.
End Ops.

Section Reporting.
Context `{Kernel K, Callbacks K}.

(** Calling an empty [std::function] throws. *)
Definition connectionCallback (c : ptr) : M (World K) unit :=
  let* x := get_conn c in
  match connectionCallback_ x with
  | Some DefaultCallback => defaultConnectionCallback c
  | Some (User n) => user_connection n c
  | None => throw bad_function_call
  end.
Definition messageCallback (c : ptr) : M (World K) unit :=
  let* x := get_conn c in
  match messageCallback_ x with
  | Some DefaultCallback => defaultMessageCallback c
  | Some (User n) => user_message n c
  | None => throw bad_function_call
  end.
Definition closeCallback (c : ptr) : M (World K) unit :=
  let* x := get_conn c in
  match closeCallback_ x with
  | Some cb => on_close cb c
  | None => throw bad_function_call
  end.
(** The queued write-complete closure. *)
Definition writeComplete (cb : UserCallback) (c : ptr) : M (World K) unit :=
  match cb with
  | DefaultCallback => ret tt
  | User n => user_write_complete n c
  end.

Definition handleClose (c : ptr) : M (World K) unit :=
  let* x := get_conn c in
  assertInLoopThread (loop_ x) ;;;
  assert_ (closing x) ;;;
  setState c kDisconnected ;;;
  ChannelOps.disableAll (channel_ x) ;;;
  connectionCallback c ;;;
  closeCallback c.

Definition forceCloseInLoop (c : ptr) : M (World K) unit :=
  let* x := get_conn c in
  assertInLoopThread (loop_ x) ;;;
  if closing x then handleClose c else ret tt.

Definition connectEstablished (c : ptr) : M (World K) unit :=
  let* x := get_conn c in
  assertInLoopThread (loop_ x) ;;;
  assert_ (bool_decide (state_ x = kConnecting)) ;;;
  setState c kConnected ;;;
  ChannelOps.enableReading (channel_ x) ;;;
  connectionCallback c.

Definition connectDestroyed (c : ptr) : M (World K) unit :=
  let* x := get_conn c in
  assertInLoopThread (loop_ x) ;;;
  (if connected x then
     setState c kDisconnected ;;;
     ChannelOps.disableAll (channel_ x) ;;;
     connectionCallback c
   else ret tt) ;;;
  ChannelOps.remove (channel_ x).

Definition handleRead (c : ptr) : M (World K) unit :=
  let* x := get_conn c in
  assertInLoopThread (loop_ x) ;;;
  let* ch := get_channel (channel_ x) in
  let* r := syscall (sys_readv (ch_fd_ ch) (Buffer.readFd_room (inputBuffer_ x))) in
  let* n := in_input c (Buffer.readFd (λ _, r)) in
  if 0 <? fst n then messageCallback c
  else if fst n =? 0 then handleClose c
  else handleError c.
End Reporting.

(** ** A connection in place

    [conn_at c x ch lp w]: the cells of connection [c], its channel and its
    loop, the loop well formed and the world run by the loop's thread. *)
Section Lemmas.
Context `{Kernel K, Observe K, !KernelLaws K}.
Implicit Types w : World K.

Record conn_at (c : ptr) (x : TcpConnection) (ch : Channel) (lp : EventLoop) w : Prop := {
  at_conn : w_conns w !! c = Some x;
  at_channel : w_channels w !! channel_ x = Some ch;
  at_ready : Interest.ready (loop_ x) lp w;
  at_fd : ch_fd_ ch = socket_ x;
  at_owner : ch_loop_ ch = loop_ x;
  at_wake : wakeupFd_ lp ≠ socket_ x;
  at_thread : threadId_ lp = w_tid w;
}.

(** The members that never change. *)
Definition same_ids (x x' : TcpConnection) : Prop :=
  loop_ x' = loop_ x ∧ channel_ x' = channel_ x ∧ socket_ x' = socket_ x.

(** What was sent on the connection's descriptor, and whether its write side is
    shut down, are as before. *)
Definition untouched (fd : Z) (k k' : K) : Prop :=
  sent k' fd = sent k fd ∧ fin k' fd = fin k fd.

Lemma at_loop c x ch lp w : conn_at c x ch lp w → w_loops w !! loop_ x = Some lp.
Proof. intros Ha. apply Ha. Qed.

Lemma conn_at_set c x ch lp w x' : conn_at c x ch lp w → same_ids x x' →
  conn_at c x' ch lp {| w with w_conns := <[c := x']> (w_conns w) |}.
Proof.
  intros Ha (El & Ec & Es). destruct Ha. split; rewrite ?El, ?Ec, ?Es; try done.
  - apply lookup_insert_eq.
  - eapply Interest.ready_frame; [exact at_ready0|apply at_ready0|done|..]; cbn; [|by eauto|done].
    intros. apply Poller.chan_frame_refl.
Qed.

Lemma conn_at_cells c x ch lp w w' : conn_at c x ch lp w →
  w_conns w' = w_conns w → w_channels w' = w_channels w → w_loops w' = w_loops w →
  w_tid w' = w_tid w → w_kernel w' = w_kernel w → conn_at c x ch lp w'.
Proof.
  intros [Hc Hch Hr Hfd Ho Hw Ht] Eco Ec El Et Ek.
  split; rewrite ?Eco, ?Ec, ?Et; try done.
  eapply Interest.ready_frame; [exact Hr|rewrite El; apply Hr|done|..]; rewrite ?Ec, ?Ek; [|by eauto|done].
  intros. apply Poller.chan_frame_refl.
Qed.

Lemma conn_at_kernel c x ch lp w k' : conn_at c x ch lp w → epoll_frame (w_kernel w) k' →
  conn_at c x ch lp {| w with w_kernel := k' |}.
Proof.
  intros Ha Hk. destruct Ha. split; try done.
  eapply Interest.ready_frame; [exact at_ready0|apply at_ready0|done|..]; cbn; [|by eauto|done].
  intros. apply Poller.chan_frame_refl.
Qed.

Lemma conn_at_loop c x ch lp lp' w : conn_at c x ch lp w → Poller.same_poller lp lp' →
  wakeupFd_ lp' = wakeupFd_ lp → threadId_ lp' = threadId_ lp →
  conn_at c x ch lp' {| w with w_loops := <[loop_ x := lp']> (w_loops w) |}.
Proof.
  intros Ha Hs Hw Ht. destruct Ha. split; cbn; rewrite ?Hw, ?Ht; try done.
  by eapply Interest.ready_loop.
Qed.

(** Changing the interest of the connection's channel. *)
Lemma wp_conn_change (f : Z → Z) c x ch lp w E : conn_at c x ch lp w →
  wpe (upd_channel (channel_ x) (λ ch, {| ch with events_ := f (events_ ch) |}) ;;;
       ChannelOps.update (channel_ x))
    (λ _ w', ∃ ch' lp', conn_at c x ch' lp' w' ∧ events_ ch' = f (events_ ch) ∧
       Interest.registry_only lp lp' ∧ Interest.status_of ch' ≠ Interest.New ∧
       untouched (socket_ x) (w_kernel w) (w_kernel w') ∧
       event_handling_ ch' = event_handling_ ch) E w.
Proof.
  intros [Hc Hch Hr Hfd Ho Hw Ht].
  eapply wpe_mono; [eapply (Interest.wp_change f (loop_ x) lp _ ch _ E)| |done]; try done.
  - apply Hr.
  - by eapply Interest.ready_pollable.
  - by eapply Interest.ready_free.
  - intros [] w' (k' & (_ & Hk & Hs & Hf) & -> & Hi').
    eapply Interest.ready_post in Hi' as [Hr' _]; [|exact Hr|exact Hch|done..].
    eexists _, _. split_and!.
    + split; cbn; [exact Hc|apply lookup_insert_eq|exact Hr'|done|done|done|done].
    + done.
    + by eexists.
    + cbn. unfold Interest.status_of. cbn.
      by destruct (Poller.next_index_cases {| ch with events_ := f (events_ ch); addedToLoop_ := true |})
        as [-> | ->]; vm_compute.
    + done.
    + done.
Qed.

(** Queueing work on the connection's loop, from any thread. *)
Lemma wp_queue_from tid c x ch lp w f E : conn_at c x ch lp {| w with w_tid := tid |} →
  wpe (EventLoop.queueInLoop (loop_ x) f)
    (λ _ w', ∃ lp', conn_at c x ch lp' {| w' with w_tid := tid |} ∧ w_tid w' = w_tid w ∧
       pendingFunctors_ lp' = pendingFunctors_ lp ++ [f] ∧ untouched (socket_ x) (w_kernel w) (w_kernel w')) E w.
Proof.
  intros Ha. pose proof (at_loop _ _ _ _ _ Ha) as Hl. pose proof (at_wake _ _ _ _ _ Ha) as Hw. cbn in Hl.
  unfold EventLoop.queueInLoop, EventLoop.queue_push, EventLoop.queue_notify, EventLoop.wakeup,
    sockets.write. wp_run_cells. cbn.
  assert (conn_at c x ch {| lp with pendingFunctors_ := pendingFunctors_ lp ++ [f] |}
    {| w with w_tid := tid; w_loops := <[loop_ x := {| lp with pendingFunctors_ := pendingFunctors_ lp ++ [f] |}]>
                (w_loops w) |}) as Ha'
    by (eapply conn_at_loop in Ha; [exact Ha|done..]).
  destruct (negb _ || _); wp_run_cells; [|by eexists].
  destruct (sys_write _ _ _) as [r k'] eqn:Hwr. cbn [fst snd].
  destruct (write_sends _ _ _ _ _ Hwr) as (Hk & Hf & Hs & _). eexists.
  split; [by eapply conn_at_kernel in Ha'; [exact Ha'|]|]. split_and!; [done..|]. by split; [apply Hs|apply Hf].
Qed.

Lemma wp_conn_queue c x ch lp w f E : conn_at c x ch lp w →
  wpe (EventLoop.queueInLoop (loop_ x) f)
    (λ _ w', ∃ lp', conn_at c x ch lp' w' ∧ pendingFunctors_ lp' = pendingFunctors_ lp ++ [f] ∧
       untouched (socket_ x) (w_kernel w) (w_kernel w')) E w.
Proof.
  intros Ha. eapply wpe_mono; [apply (wp_queue_from (w_tid w) c x ch lp); by destruct w| |done].
  intros [] w' (lp' & Ha' & Et & Hq & Hu). exists lp'. rewrite <-Et in Ha'. split_and!; [by destruct w'|done|apply Hu..].
Qed.

(** ** The output stream *)

Record stream_at (c : ptr) (x : TcpConnection) (ch : Channel) (lp : EventLoop) w : Prop := {
  st_at : conn_at c x ch lp w;
  st_buf : Buffer.inv (outputBuffer_ x);
  st_up : closing x = true;
  st_writing : Channel.isWriting ch = true ↔ Buffer.contents (outputBuffer_ x) ≠ [];
  st_fin : fin (w_kernel w) (socket_ x) = true →
    Buffer.contents (outputBuffer_ x) = [] ∧ state_ x = kDisconnecting;
}.

(** The bytes accepted so far: already written, then buffered. *)
Definition stream (x : TcpConnection) w : bytes :=
  sent (w_kernel w) (socket_ x) ++ Buffer.contents (outputBuffer_ x).

Lemma wp_in_output {A} c x ch lp w (m : M Buffer.Buffer A) (Q : A → Buffer.Buffer → Prop) E :
  conn_at c x ch lp w → wp m Q (outputBuffer_ x) →
  wpe (in_output c m) (λ a w', ∃ b, Q a b ∧ w' =
    {| w with w_conns := <[c := {| x with outputBuffer_ := b |}]> (w_conns w) |}) E w.
Proof.
  intros Ha Hm. pose proof (at_conn _ _ _ _ _ Ha). unfold in_output. wp_run_cells.
  rewrite wpe_zoom. eapply wp_mono; [exact Hm|]. cbn. eauto.
Qed.

(** Reading the readable bytes out of the output buffer. *)
Lemma wp_peek_output c x ch lp w E : conn_at c x ch lp w → Buffer.inv (outputBuffer_ x) →
  wpe (in_output c (Buffer.load (Buffer.peek (outputBuffer_ x))
                      (Buffer.readableBytes (outputBuffer_ x))))
    (λ d w', d = Buffer.contents (outputBuffer_ x) ∧ w' = w) E w.
Proof.
  intros Ha Hb. pose proof Hb as [? ? ? ? ?].
  eapply wpe_mono; [eapply (wp_in_output _ _ _ _ _ _
    (λ d b, d = Buffer.contents (outputBuffer_ x) ∧ b = outputBuffer_ x)); [exact Ha|]| |done].
  - unfold Buffer.peek. rewrite Buffer.readable_eq by done.
    apply Buffer.wpe_load; [lia|lia|lia|]. by split.
  - cbn. intros d w' (b & [-> ->] & ->). split; [done|].
    destruct w; cbn. f_equal. apply insert_id.
    etransitivity; [apply (at_conn _ _ _ _ _ Ha)|]. by destruct x.
Qed.

Lemma readable_empty b : Buffer.inv b →
  (Buffer.readableBytes b =? 0) = bool_decide (Buffer.contents b = []).
Proof.
  intros Hb. rewrite Buffer.readable_contents by done.
  destruct (Buffer.contents b) as [|a l]; [done|]. rewrite zlen_cons.
  pose proof (zlen_nonneg l). rewrite bool_decide_false by done. apply Z.eqb_neq. lia.
Qed.

Lemma not_writing_empty c x ch lp w : stream_at c x ch lp w →
  Channel.isWriting ch = negb (Buffer.readableBytes (outputBuffer_ x) =? 0).
Proof.
  intros [_ Hb _ Hw _]. rewrite readable_empty by done.
  apply eq_true_iff_eq. by rewrite Hw, negb_true_iff, bool_decide_eq_false.
Qed.

(** A write refused with one of the errors that drop the message. *)
Definition refused (fd : Z) (d : bytes) w : Prop :=
  ∃ e k', sys_write fd d (w_kernel w) = (inl e, k') ∧ (e = EPIPE ∨ e = ECONNRESET).

(** What the direct write leaves to do. *)
Lemma wp_send_direct c x ch lp w d E :
  stream_at c x ch lp w → zlen d < 2 ^ 64 →
  wpe (send_direct c d) (λ r w', ∃ lp', conn_at c x ch lp' w' ∧
      fin (w_kernel w') (socket_ x) = fin (w_kernel w) (socket_ x) ∧
      let '(nwrote, remaining, faultError) := r in
      0 ≤ nwrote ≤ zlen d ∧ remaining = zlen d - nwrote ∧
      sent (w_kernel w') (socket_ x) = sent (w_kernel w) (socket_ x) ++ ztake nwrote d ∧
      (nwrote ≠ 0 ∨ faultError = true → Buffer.contents (outputBuffer_ x) = []) ∧
      (faultError = true → nwrote = 0 ∧ refused (socket_ x) d w)) E w.
Proof.
  intros Hs Hd. pose proof (zlen_nonneg d). pose proof (st_at _ _ _ _ _ Hs) as Ha.
  pose proof Ha as [Hc Hch Hr Hfd Ho Hw Ht].
  pose proof (not_writing_empty _ _ _ _ _ Hs) as Hwe.
  unfold send_direct. wp_run_cells. rewrite Hwe, negb_involutive.
  destruct (Buffer.readableBytes (outputBuffer_ x) =? 0) eqn:He; cbn [andb]; wp_run_cells.
  2: { exists lp. split_and!; try (done || lia || by rewrite app_nil_r). }
  assert (Buffer.contents (outputBuffer_ x) = []) as Hempty.
  { rewrite readable_empty in He by apply Hs. by apply bool_decide_eq_true in He. }
  unfold sockets.write. wp_run_cells. rewrite Hfd.
  destruct (sys_write _ _ _) as [r k'] eqn:Hwr. cbn [fst snd].
  destruct (write_sends _ _ _ _ _ Hwr) as (Hk & Hf & _ & Hres).
  pose proof (conn_at_kernel _ _ _ _ _ _ Ha Hk) as Ha'.
  destruct r as [e|n]; wp_run_cells.
  - exists lp. split; [exact Ha'|]. cbn. split; [apply Hf|]. split_and!; try (done || lia || by rewrite app_nil_r).
    intros Hfault. split; [done|]. exists e, k'. split; [done|].
    apply andb_prop in Hfault as [_ [Hf1|Hf1]%orb_prop]; apply Z.eqb_eq in Hf1; auto.
  - destruct Hres as [Hn Hsent]. rewrite u64_small by lia.
    assert (∀ w' lp', conn_at c x ch lp' w' →
      untouched (socket_ x) k' (w_kernel w') →
      ∃ lp', conn_at c x ch lp' w' ∧
      fin (w_kernel w') (socket_ x) = fin (w_kernel w) (socket_ x) ∧
      0 ≤ n ≤ zlen d ∧ zlen d - n = zlen d - n ∧
      sent (w_kernel w') (socket_ x) = sent (w_kernel w) (socket_ x) ++ ztake n d ∧
      (n ≠ 0 ∨ false = true → Buffer.contents (outputBuffer_ x) = []) ∧
      (false = true → n = 0 ∧ refused (socket_ x) d w)) as Hdone.
    { intros w' lp' Hat [Es Ef]. exists lp'. rewrite Es, Ef. split_and!; (done || lia || apply Hf). }
    destruct (zlen d - n =? 0); wp_run_cells; [|by eapply Hdone].
    destruct (writeCompleteCallback_ x); wp_run_cells; [|by eapply Hdone].
    eapply wpe_mono; [eapply wp_conn_queue; exact Ha'| |done].
    intros [] w' (lp' & Hat & _ & Hu). wp_run_cells. by eapply Hdone.
Qed.

(** The stream after an operation that accepts [d]: extended by [d], or as it
    was when the write was refused. *)
Definition extended (x : TcpConnection) w (d : bytes) (x' : TcpConnection) w' : Prop :=
  stream x' w' = stream x w ++ d ∨ (stream x' w' = stream x w ∧ refused (socket_ x) d w).

Lemma stream_append (s d : bytes) n : 0 ≤ n ≤ zlen d →
  (s ++ ztake n d) ++ zdrop n d = s ++ d.
Proof. intros. by rewrite <-app_assoc, Buffer.ztake_zdrop_app. Qed.

(** What is left of a message goes to the output buffer. *)
Lemma wp_append_output c x ch lp w (d : bytes) E :
  conn_at c x ch lp w → Buffer.inv (outputBuffer_ x) →
  Buffer.size (outputBuffer_ x) + zlen d ≤ Buffer.max_size →
  wpe (in_output c (Buffer.append d)) (λ _ w', ∃ b, let x' := {| x with outputBuffer_ := b |} in
    conn_at c x' ch lp w' ∧ Buffer.inv b ∧ Buffer.contents b = Buffer.contents (outputBuffer_ x) ++ d ∧
    Buffer.size b ≤ Buffer.size (outputBuffer_ x) + zlen d ∧ w_kernel w' = w_kernel w) E w.
Proof.
  intros Ha Hb Hmax.
  eapply wpe_mono; [eapply (wp_in_output _ _ _ _ _ _ (λ _ b, Buffer.inv b ∧
    Buffer.contents b = Buffer.contents (outputBuffer_ x) ++ d ∧
    Buffer.size b ≤ Buffer.size (outputBuffer_ x) + zlen d)); [exact Ha|]| |done].
  { eapply wp_mono; [by apply Buffer.wp_append_sized|]. cbn. by intros _ b (? & ? & ?). }
  cbn. intros [] w' (b & (? & ? & ?) & ->). exists b. split_and!; try done.
  by apply (conn_at_set _ _ _ _ _ {| x with outputBuffer_ := b |} Ha).
Qed.

(** With bytes in the output buffer the channel watches for writability. *)
Lemma wp_want_write c x ch lp w E :
  conn_at c x ch lp w → Buffer.inv (outputBuffer_ x) → closing x = true →
  Buffer.contents (outputBuffer_ x) ≠ [] → fin (w_kernel w) (socket_ x) = false →
  wpe (let* ch := get_channel (channel_ x) in
       when (negb (Channel.isWriting ch)) (ChannelOps.enableWriting (channel_ x)))
    (λ _ w', ∃ ch' lp', stream_at c x ch' lp' w' ∧ untouched (socket_ x) (w_kernel w) (w_kernel w')) E w.
Proof.
  intros Ha Hb Hup Hne Hf. pose proof (at_channel _ _ _ _ _ Ha) as Hch.
  wp_run_cells. destruct (Channel.isWriting ch) eqn:Hwr; cbn [negb]; wp_run_cells.
  - exists ch, lp. split; [|done]. split; try done. by rewrite Hf.
  - eapply wpe_mono; [eapply (wp_conn_change (λ m, Z.lor m Channel.WriteEvent) c x); exact Ha| |done].
    intros [] w' (ch' & lp' & Ha' & Hev & _ & _ & Hu & _). exists ch', lp'. split; [|done]. split; try done.
    + rewrite Channel.isWriting_bit, Hev, Channel.bit_set by lia. split; [done|]. intros _. by rewrite orb_true_r.
    + destruct Hu as [_ ->]. by rewrite Hf.
Qed.

Lemma wp_sendInLoop c x ch lp w (d : bytes) E :
  stream_at c x ch lp w → fin (w_kernel w) (socket_ x) = false →
  Buffer.size (outputBuffer_ x) + zlen d ≤ Buffer.max_size →
  wpe (sendInLoop c d) (λ _ w', ∃ x' ch' lp', stream_at c x' ch' lp' w' ∧
      same_ids x x' ∧ state_ x' = state_ x ∧ fin (w_kernel w') (socket_ x) = false ∧
      Buffer.size (outputBuffer_ x') ≤ Buffer.size (outputBuffer_ x) + zlen d ∧
      extended x w d x' w') E w.
Proof.
  intros Hs Hfin Hmax. pose proof (st_at _ _ _ _ _ Hs) as Ha. pose proof (st_buf _ _ _ _ _ Hs) as Hb.
  pose proof (at_conn _ _ _ _ _ Ha) as Hc. pose proof (at_loop _ _ _ _ _ Ha) as Hl.
  pose proof (zlen_nonneg d). pose proof (Buffer.size_lt64 _ Hb). unfold Buffer.max_size in *.
  unfold sendInLoop. wp_run_cells.
  replace (disconnected x) with false.
  2: { pose proof (st_up _ _ _ _ _ Hs) as Hup. unfold closing, disconnected in *. by destruct (state_ x). }
  wp_run_cells. eapply wpe_mono; [eapply wp_send_direct; [exact Hs|lia]| |done].
  intros [[nwrote remaining] faultError] w1 (lp1 & Ha1 & Hf1 & Hn & -> & Hsent & Hempty & Hfault).
  rewrite Hfin in Hf1. cbn [andb].
  destruct (negb faultError && (0 <? zlen d - nwrote)) eqn:Hgo; wp_run_cells.
  - apply andb_prop in Hgo as [_ Hrem]. apply Z.ltb_lt in Hrem.
    assert (ztake (zlen d - nwrote) (zdrop nwrote d) = zdrop nwrote d) as ->.
    { rewrite <-(zlen_zdrop nwrote d) by lia. apply (zslice_all (zdrop nwrote d)). }
    assert (zlen (zdrop nwrote d) = zlen d - nwrote) as Hlen by (rewrite zlen_zdrop; lia).
    eapply wpe_mono; [eapply (wp_append_output _ _ _ _ _ (zdrop nwrote d));
      [exact Ha1|done|rewrite Hlen; unfold Buffer.max_size; lia]| |done].
    cbv zeta. intros [] w2 (b & Ha2 & Hib & Hcb & Hsb & Hk).
    set (x2 := {| x with outputBuffer_ := b |}) in *.
    assert (Buffer.contents b ≠ []) as Hne.
    { intros E0. apply (f_equal zlen) in Hcb. rewrite E0, zlen_app, Hlen, zlen_nil in Hcb.
      pose proof (zlen_nonneg (Buffer.contents (outputBuffer_ x))). lia. }
    eapply wpe_mono; [apply (wp_want_write c x2 ch lp1 w2 E Ha2); try done; [apply Hs|by rewrite Hk]| |done].
    intros [] w3 (ch3 & lp3 & Hs3 & [Hu1 Hu2]). exists x2, ch3, lp3. rewrite Hk in Hu1, Hu2. cbn in Hu1, Hu2.
    split_and!; try done; [by rewrite Hu2|cbn; lia|]. left. unfold stream. cbn. rewrite Hu1, Hsent, Hcb.
    destruct (decide (nwrote = 0)) as [->|Hnz]; [by rewrite app_nil_r, app_assoc|].
    rewrite Hempty by auto. cbn. rewrite app_nil_r. by apply stream_append.
  - exists x, ch, lp1. split_and!; try done; [|lia|].
    + split; [done|done|apply Hs|apply Hs|]. by rewrite Hf1.
    + destruct faultError.
      * destruct (Hfault eq_refl) as [-> ?]. right. split; [|done]. unfold stream. by rewrite Hsent, app_nil_r.
      * apply Z.ltb_ge in Hgo. assert (nwrote = zlen d) as -> by lia. left. unfold stream. rewrite Hsent.
        destruct (decide (zlen d = 0)) as [E0|E0]; [destruct d; [by rewrite !app_nil_r|]; rewrite zlen_cons in E0; pose proof (zlen_nonneg d); lia|].
        rewrite Hempty by auto. rewrite !app_nil_r. f_equal. apply (zslice_all d).
Qed.

Lemma wp_shutdownInLoop c x ch lp w E :
  stream_at c x ch lp w → state_ x = kDisconnecting →
  wpe (shutdownInLoop c) (λ _ w', stream_at c x ch lp w' ∧ stream x w' = stream x w) E w.
Proof.
  intros Hs Hst. pose proof (st_at _ _ _ _ _ Hs) as Ha. pose proof Ha as [Hc Hch Hr Hfd Ho Hw Ht].
  pose proof (at_loop _ _ _ _ _ Ha) as Hl.
  unfold shutdownInLoop. wp_run_cells.
  destruct (Channel.isWriting ch) eqn:Hwr; cbn [negb]; [done|].
  unfold Socket.shutdownWrite. wp_run_cells.
  destruct (sys_shutdown_wr _ _) as [r k'] eqn:Hsh. cbn [fst snd].
  destruct (shutdown_fin _ _ _ _ Hsh) as (Hk & Hsent & _ & _).
  pose proof (conn_at_kernel _ _ _ _ _ _ Ha Hk) as Ha'. split.
  - split; [done|apply Hs|apply Hs|apply Hs|]. intros _. split; [|done].
    destruct (decide (Buffer.contents (outputBuffer_ x) = [])) as [|E0]; [done|].
    apply (st_writing _ _ _ _ _ Hs) in E0. congruence.
  - unfold stream. cbn. by rewrite Hsent.
Qed.

Lemma stream_at_kernel c x ch lp w k' : stream_at c x ch lp w →
  epoll_frame (w_kernel w) k' → fin k' (socket_ x) = fin (w_kernel w) (socket_ x) →
  stream_at c x ch lp {| w with w_kernel := k' |}.
Proof.
  intros [Ha Hb Hu Hw Hf] Hk Hfin. split; try done; [by apply conn_at_kernel|].
  cbn. by rewrite Hfin.
Qed.

(** [handleWrite] once the output buffer is [b]. *)
Definition drained c x ch lp (b : Buffer.Buffer) w : Prop :=
  conn_at c x ch lp w ∧ outputBuffer_ x = b ∧ Buffer.inv b ∧ closing x = true ∧
  Channel.isWriting ch = true ∧ fin (w_kernel w) (socket_ x) = false.

Lemma wp_after_write c x ch lp b w E : drained c x ch lp b w →
  wpe (if Buffer.readableBytes (outputBuffer_ x) =? 0 then
         ChannelOps.disableWriting (channel_ x) ;;;
         match writeCompleteCallback_ x with
         | Some cb => EventLoop.queueInLoop (loop_ x) (F_writeComplete cb c)
         | None => ret tt
         end ;;;
         let* x := get_conn c in
         if bool_decide (state_ x = kDisconnecting) then shutdownInLoop c else ret tt
       else ret tt)
    (λ _ w', ∃ ch' lp', stream_at c x ch' lp' w' ∧ stream x w' = stream x w) E w.
Proof.
  intros (Ha & <- & Hb & Hup & Hwr & Hfin). rewrite readable_empty by done.
  destruct (decide (Buffer.contents (outputBuffer_ x) = [])) as [He|He].
  2: { rewrite bool_decide_false by done. wp_run_cells. exists ch, lp. split; [|done].
       split; try done. rewrite Hfin. done. }
  rewrite bool_decide_true by done. wp_run_cells.
  eapply wpe_mono; [eapply (wp_conn_change (λ m, Z.land m (Z.lnot Channel.WriteEvent)) c x);
    exact Ha| |done].
  intros [] w1 (ch1 & lp1 & Ha1 & Hev & _ & _ & [Hs1 Hf1] & _).
  assert (∀ w' lp', conn_at c x ch1 lp' w' → untouched (socket_ x) (w_kernel w1) (w_kernel w') →
    stream_at c x ch1 lp' w' ∧ stream x w' = stream x w) as Hdone.
  { intros w' lp' Ha' [Hs' Hf']. split.
    - split; try done.
      + rewrite Channel.isWriting_bit, Hev, Channel.bit_clear by lia.
        change (Z.testbit Channel.WriteEvent 2) with true. by rewrite andb_false_r.
      + rewrite Hf', Hf1, Hfin. done.
    - unfold stream. by rewrite Hs', Hs1. }
  assert (∀ w' lp', conn_at c x ch1 lp' w' → untouched (socket_ x) (w_kernel w1) (w_kernel w') →
    wpe (let* x := get_conn c in
         if bool_decide (state_ x = kDisconnecting) then shutdownInLoop c else ret tt)
      (λ _ w', ∃ ch' lp', stream_at c x ch' lp' w' ∧ stream x w' = stream x w) E w') as Hshut.
  { intros w' lp' Ha' Hu. pose proof (at_conn _ _ _ _ _ Ha') as Hc'. wp_run_cells.
    destruct (Hdone _ _ Ha' Hu) as [Hst Hsame].
    destruct (decide (state_ x = kDisconnecting)) as [Hd|Hd].
    - rewrite bool_decide_true by done.
      eapply wpe_mono; [by eapply wp_shutdownInLoop| |done].
      intros [] w2 [Hst2 E2]. exists ch1, lp'. split; [done|]. by rewrite E2.
    - rewrite bool_decide_false by done. wp_run_cells. by exists ch1, lp'. }
  wp_run_cells. destruct (writeCompleteCallback_ x) as [cb|].
  - eapply wpe_mono; [eapply wp_conn_queue; exact Ha1| |done].
    intros [] w2 (lp2 & Ha2 & _ & Hu2). by eapply Hshut.
  - apply wpe_ret. by eapply Hshut.
Qed.

Lemma wp_handleWrite c x ch lp w E : stream_at c x ch lp w →
  wpe (handleWrite c) (λ _ w', ∃ x' ch' lp', stream_at c x' ch' lp' w' ∧ same_ids x x' ∧
      state_ x' = state_ x ∧ stream x' w' = stream x w ∧
      Buffer.size (outputBuffer_ x') = Buffer.size (outputBuffer_ x)) E w.
Proof.
  intros Hs. pose proof (st_at _ _ _ _ _ Hs) as Ha. pose proof (st_buf _ _ _ _ _ Hs) as Hb.
  pose proof Ha as [Hc Hch Hr Hfd Ho Hw Ht]. pose proof (at_loop _ _ _ _ _ Ha) as Hl.
  unfold handleWrite. wp_run_cells.
  destruct (Channel.isWriting ch) eqn:Hwr; wp_run_cells; [|by exists x, ch, lp].
  eapply wpe_mono; [eapply wp_peek_output; done| |done]. intros data ? [-> ->].
  unfold sockets.write. wp_run_cells. rewrite Hfd.
  destruct (sys_write _ _ _) as [r k'] eqn:Hwrite. cbn [fst snd].
  destruct (write_sends _ _ _ _ _ Hwrite) as (Hk & Hf & _ & Hres).
  pose proof (stream_at_kernel _ _ _ _ _ _ Hs Hk (Hf _)) as Hs'.
  destruct r as [e|n]; wp_run_cells.
  { exists x, ch, lp. split_and!; try done. unfold stream. cbn. by rewrite Hres. }
  destruct Hres as [Hn Hsent]. destruct (Z.ltb_spec 0 n); wp_run_cells.
  2: { exists x, ch, lp. split_and!; try done. unfold stream. cbn.
       rewrite Hsent. assert (n = 0) as -> by lia. by rewrite app_nil_r. }
  eapply wpe_mono; [eapply wp_in_output; [apply Hs'|by apply Buffer.wp_retrieve]| |done].
  cbn. intros [] w2 (b & (Hib & Hcb & Hsb) & ->).
  set (x2 := {| x with outputBuffer_ := b |}).
  pose proof (conn_at_set _ _ _ _ _ x2 (st_at _ _ _ _ _ Hs') ltac:(done)) as Ha2. cbn in Ha2.
  wp_run_cells. refine (proj1 (wpe_if _ _ _ _ _ _) _).
  eapply wpe_mono; [eapply (wp_after_write c x2 ch lp b)| |done].
  - split_and!; try done; [apply Hs|]. cbn. rewrite Hf.
    destruct (fin (w_kernel w) (socket_ x)) eqn:Hfin; [|done].
    destruct (st_fin _ _ _ _ _ Hs Hfin) as [E0 _].
    by apply (st_writing _ _ _ _ _ Hs) in Hwr.
  - intros [] w3 (ch3 & lp3 & Hs3 & E3). exists x2, ch3, lp3. split_and!; try done.
    rewrite E3. unfold stream. cbn. rewrite Hsent, Hcb. by apply stream_append.
Qed.

(** Replacing members that are not part of the stream. *)
Lemma stream_at_set c x ch lp w x' : stream_at c x ch lp w → same_ids x x' →
  outputBuffer_ x' = outputBuffer_ x → closing x' = true →
  (state_ x = kDisconnecting → state_ x' = kDisconnecting) →
  let w' := {| w with w_conns := <[c := x']> (w_conns w) |} in
  stream_at c x' ch lp w' ∧ stream x' w' = stream x w.
Proof.
  intros [Ha Hb Hu Hw Hf] Hids Eb Hc Hst w'. pose proof Hids as (El & Ec & Es).
  split; [|unfold stream; cbn; by rewrite Es, Eb].
  split; rewrite ?Eb, ?Es; try done; [by eapply conn_at_set|].
  intros Hfin. destruct (Hf Hfin) as [? ?]. auto.
Qed.

(** A change of interest that leaves bit 2 alone. *)
Lemma wp_stream_change (f : Z → Z) c x ch lp w E : stream_at c x ch lp w →
  (∀ e, Z.testbit (f e) 2 = Z.testbit e 2) →
  wpe (upd_channel (channel_ x) (λ ch, {| ch with events_ := f (events_ ch) |}) ;;;
       ChannelOps.update (channel_ x))
    (λ _ w', ∃ ch' lp', stream_at c x ch' lp' w' ∧ events_ ch' = f (events_ ch) ∧
       stream x w' = stream x w) E w.
Proof.
  intros [Ha Hb Hu Hw Hf] Hbit. eapply wpe_mono; [eapply wp_conn_change; exact Ha| |done].
  intros [] w' (ch' & lp' & Ha' & Hev & _ & _ & [Hs' Hf'] & _). exists ch', lp'. split_and!; try done.
  - split; try done.
    + by rewrite Channel.isWriting_bit, Hev, Hbit, <-Channel.isWriting_bit.
    + by rewrite Hf'.
  - unfold stream. by rewrite Hs'.
Qed.

Lemma wp_startReadInLoop c x ch lp w E : stream_at c x ch lp w →
  wpe (startReadInLoop c) (λ _ w', ∃ x' ch' lp', stream_at c x' ch' lp' w' ∧ same_ids x x' ∧
    state_ x' = state_ x ∧ outputBuffer_ x' = outputBuffer_ x ∧ stream x' w' = stream x w ∧
    reading_ x' = true ∧ Channel.isReading ch' = true) E w.
Proof.
  intros Hs. pose proof (st_at _ _ _ _ _ Hs) as Ha. pose proof Ha as [Hc Hch Hr Hfd Ho Hw Ht].
  pose proof (at_loop _ _ _ _ _ Ha) as Hl. unfold startReadInLoop, set_reading. wp_run_cells.
  destruct (negb (reading_ x) || negb (Channel.isReading ch)) eqn:Hn; wp_run_cells.
  - eapply wpe_mono; [eapply (wp_stream_change (λ m, Z.lor m Channel.ReadEvent) c x)| |done].
    + exact Hs.
    + intros e. rewrite Channel.bit_set by lia. by rewrite orb_false_r.
    + intros [] w1 (ch1 & lp1 & Hs1 & Hev & E1).
      pose proof (at_conn _ _ _ _ _ (st_at _ _ _ _ _ Hs1)) as Hc1. wp_run_cells.
      destruct (stream_at_set _ _ _ _ _ {| x with reading_ := true |} Hs1) as [Hs2 E2]; try done.
      { apply Hs. }
      eexists _, ch1, lp1. split_and!; [exact Hs2|try done..].
      by rewrite Channel.isReading_bit, Hev, Channel.bit_set, orb_true_r by lia.
  - apply orb_false_iff in Hn as [H1%negb_false_iff H2%negb_false_iff].
    exists x, ch, lp. by split_and!.
Qed.

Lemma wp_stopReadInLoop c x ch lp w E : stream_at c x ch lp w →
  wpe (stopReadInLoop c) (λ _ w', ∃ x' ch' lp', stream_at c x' ch' lp' w' ∧ same_ids x x' ∧
    state_ x' = state_ x ∧ outputBuffer_ x' = outputBuffer_ x ∧ stream x' w' = stream x w ∧
    reading_ x' = false ∧ Channel.isReading ch' = false) E w.
Proof.
  intros Hs. pose proof (st_at _ _ _ _ _ Hs) as Ha. pose proof Ha as [Hc Hch Hr Hfd Ho Hw Ht].
  pose proof (at_loop _ _ _ _ _ Ha) as Hl. unfold stopReadInLoop, set_reading. wp_run_cells.
  destruct (reading_ x || Channel.isReading ch) eqn:Hn; wp_run_cells.
  - eapply wpe_mono; [eapply (wp_stream_change (λ m, Z.land m (Z.lnot Channel.ReadEvent)) c x)| |done].
    + exact Hs.
    + intros e. rewrite Channel.bit_clear by lia. by rewrite andb_true_r.
    + intros [] w1 (ch1 & lp1 & Hs1 & Hev & E1).
      pose proof (at_conn _ _ _ _ _ (st_at _ _ _ _ _ Hs1)) as Hc1. wp_run_cells.
      destruct (stream_at_set _ _ _ _ _ {| x with reading_ := false |} Hs1) as [Hs2 E2]; try done.
      { apply Hs. }
      eexists _, ch1, lp1. split_and!; [exact Hs2|try done..].
      by rewrite Channel.isReading_bit, Hev, Channel.bit_clear, andb_false_r by lia.
  - apply orb_false_iff in Hn as [H1 H2]. exists x, ch, lp. by split_and!.
Qed.

Lemma at_here c x ch lp w : conn_at c x ch lp w → (threadId_ lp =? w_tid w) = true.
Proof. intros Ha. apply Z.eqb_eq, Ha. Qed.

Lemma wp_shutdown c x ch lp w E : stream_at c x ch lp w →
  wpe (shutdown c) (λ _ w', ∃ x' ch' lp', stream_at c x' ch' lp' w' ∧ same_ids x x' ∧
    state_ x' = kDisconnecting ∧ outputBuffer_ x' = outputBuffer_ x ∧
    stream x' w' = stream x w ∧ (connected x = true → ch' = ch)) E w.
Proof.
  intros Hs. pose proof (st_at _ _ _ _ _ Hs) as Ha. pose proof Ha as [Hc Hch Hr Hfd Ho Hw Ht].
  pose proof (at_loop _ _ _ _ _ Ha) as Hl. pose proof (at_here _ _ _ _ _ Ha) as Hhere.
  unfold shutdown, setState, EventLoop.runInLoop. wp_run_cells.
  destruct (connected x) eqn:Hcon; wp_run_cells.
  - rewrite Hhere. destruct (stream_at_set _ _ _ _ _ {| x with state_ := kDisconnecting |} Hs)
      as [Hs2 E2]; try done.
    eapply wpe_mono; [eapply wp_shutdownInLoop; [exact Hs2|done]| |done].
    intros [] w2 [Hs3 E3]. eexists _, _, _. by split_and!; [exact Hs3|..].
  - exists x, ch, lp. split_and!; try done. pose proof (st_up _ _ _ _ _ Hs) as Hup.
    unfold closing, connected in *. by destruct (state_ x).
Qed.

Lemma wp_send c x ch lp w buf E :
  stream_at c x ch lp w → Buffer.inv buf →
  Buffer.size (outputBuffer_ x) + zlen (Buffer.contents buf) ≤ Buffer.max_size →
  let d := Buffer.contents buf in
  wpe (send c buf) (λ buf' w', ∃ x' ch' lp', stream_at c x' ch' lp' w' ∧ same_ids x x' ∧
      state_ x' = state_ x ∧
      Buffer.size (outputBuffer_ x') ≤ Buffer.size (outputBuffer_ x) + zlen d ∧
      if connected x then extended x w d x' w' ∧ Buffer.inv buf' ∧ Buffer.contents buf' = []
      else stream x' w' = stream x w ∧ buf' = buf) E w.
Proof.
  intros Hs Hb Hmax d. pose proof (st_at _ _ _ _ _ Hs) as Ha. pose proof Ha as [Hc Hch Hr Hfd Ho Hw Ht].
  pose proof (at_loop _ _ _ _ _ Ha) as Hl. pose proof (at_here _ _ _ _ _ Ha) as Hhere.
  pose proof (zlen_nonneg d) as Hd. unfold send. wp_run_cells.
  destruct (connected x) eqn:Hcon; wp_run_cells.
  2: { exists x, ch, lp. split_and!; try done. subst d. lia. }
  rewrite Hhere. wp_run_cells. rewrite wpe_zoom. pose proof Hb as [? ? ? ? ?].
  unfold Buffer.peek. rewrite Buffer.readable_eq by done.
  apply Buffer.wpe_load; [lia|lia|lia|].
  change (zslice (Buffer.readerIndex_ buf) _ _) with d. wp_run_cells.
  eapply wpe_mono; [eapply wp_sendInLoop; [exact Hs| |exact Hmax]| |done].
  - destruct (fin (w_kernel w) (socket_ x)) eqn:Hfin; [|done].
    destruct (st_fin _ _ _ _ _ Hs Hfin) as [_ Hst]. unfold connected in Hcon.
    rewrite Hst in Hcon. by apply bool_decide_eq_true in Hcon.
  - intros [] w1 (x1 & ch1 & lp1 & Hs1 & Hids & Hst1 & _ & Hsz & Hext).
    rewrite wpe_zoom. wp_simp. eapply wp_mono; [by apply Buffer.wp_retrieveAll|].
    cbn. intros _ b' (Hib & Hcb & _). wp_simp. exists x1, ch1, lp1. by split_and!.
Qed.

(** From another thread the message is queued on the loop. *)
Lemma wp_send_from tid c x ch lp w buf E :
  conn_at c x ch lp {| w with w_tid := tid |} → connected x = true → tid ≠ w_tid w → Buffer.inv buf →
  wpe (send c buf) (λ _ w', ∃ lp', conn_at c x ch lp' {| w' with w_tid := tid |} ∧ w_tid w' = w_tid w ∧
      pendingFunctors_ lp' = pendingFunctors_ lp ++ [F_sendInLoop c (Buffer.contents buf)] ∧
      untouched (socket_ x) (w_kernel w) (w_kernel w')) E w.
Proof.
  intros Ha Hup Htid Hb. pose proof (at_conn _ _ _ _ _ Ha) as Hc. pose proof (at_loop _ _ _ _ _ Ha) as Hl.
  pose proof (at_thread _ _ _ _ _ Ha) as Ht. cbn in Hc, Hl, Ht. unfold send, isInLoopThread, EventLoop.runInLoop.
  wp_run_cells. rewrite Hup. wp_run_cells. rewrite Ht, (proj2 (Z.eqb_neq _ _)) by done. wp_run_cells.
  rewrite wpe_zoom. wp_simp. eapply wp_mono; [by apply Buffer.wp_retrieveAllAsString|].
  intros d b (-> & _). wp_simp. unfold EventLoop.runInLoop, isInLoopThread. wp_run_cells.
  rewrite Ht, (proj2 (Z.eqb_neq _ _)) by done. wp_run_cells.
  eapply wpe_mono; [by apply (wp_queue_from tid c x ch lp w _ (λ e s, E e s))| |done]. intros [] w' Hw'. refine (proj2 (wpe_ret _ _ _ _) _). exact Hw'.
Qed.

(** ** Runs of a connection in its loop's thread *)

Inductive sop := Send (buf : Buffer.Buffer) | Writable | Shutdown | StartRead | StopRead.

Definition exec_sop (c : ptr) (o : sop) : M (World K) unit :=
  match o with
  | Send buf => let* _ := send c buf in ret tt
  | Writable => handleWrite c
  | Shutdown => shutdown c
  | StartRead => startRead c
  | StopRead => stopRead c
  end.

(** The messages sent while the connection is up. *)
Fixpoint accepted (up : bool) (ops : list sop) : list bytes :=
  match ops with
  | [] => []
  | Send buf :: r => (if up then [Buffer.contents buf] else []) ++ accepted up r
  | Shutdown :: r => accepted false r
  | _ :: r => accepted up r
  end.

Definition sop_ok (o : sop) : Prop := if o is Send buf then Buffer.inv buf else True.
Definition sop_size (o : sop) : Z := if o is Send buf then zlen (Buffer.contents buf) else 0.
Definition total (ops : list sop) : Z := foldr (λ o n, sop_size o + n) 0 ops.

Lemma total_nonneg ops : 0 ≤ total ops.
Proof.
  induction ops as [|o ops IH]; [done|]. cbn. destruct o; cbn; try done.
  pose proof (zlen_nonneg (Buffer.contents buf)). unfold total in IH. lia.
Qed.

Definition never_refused : Prop :=
  ∀ fd d (k : K) e k', sys_write fd d k = (inl e, k') → e ≠ EPIPE ∧ e ≠ ECONNRESET.

(** The connection after a step that may have accepted [ds]. *)
Definition step_post c x w (o : sop) (w' : World K) : Prop :=
  ∃ x' ch' lp' ds, stream_at c x' ch' lp' w' ∧ same_ids x x' ∧
    stream x' w' = stream x w ++ concat ds ∧
    sublist ds (accepted (connected x) [o]) ∧
    (never_refused → ds = accepted (connected x) [o]) ∧
    Buffer.size (outputBuffer_ x') ≤ Buffer.size (outputBuffer_ x) + sop_size o ∧
    state_ x' = (if o is Shutdown then kDisconnecting else state_ x).

Lemma step_post_quiet c x w o w' x' ch' lp' :
  stream_at c x' ch' lp' w' → same_ids x x' → stream x' w' = stream x w →
  accepted (connected x) [o] = [] →
  Buffer.size (outputBuffer_ x') ≤ Buffer.size (outputBuffer_ x) + sop_size o →
  state_ x' = (if o is Shutdown then kDisconnecting else state_ x) →
  step_post c x w o w'.
Proof.
  intros ? ? E Ea ? ?. exists x', ch', lp', []. rewrite Ea. cbn. rewrite app_nil_r. by split_and!.
Qed.

Lemma wp_sop c x ch lp w o : stream_at c x ch lp w → sop_ok o →
  Buffer.size (outputBuffer_ x) + sop_size o ≤ Buffer.max_size →
  wp (exec_sop c o) (λ _ w', step_post c x w o w') w.
Proof.
  intros Hs Hok Hmax. pose proof (st_at _ _ _ _ _ Hs) as Ha. pose proof (at_conn _ _ _ _ _ Ha) as Hc.
  pose proof (at_loop _ _ _ _ _ Ha) as Hl. pose proof (at_here _ _ _ _ _ Ha) as Hhere.
  destruct o as [buf| | | |]; cbn [exec_sop sop_ok sop_size] in *.
  - wp_run_cells. eapply wpe_mono; [by eapply (wp_send c x ch lp w buf (λ _ _, False))| |done].
    intros buf' w' (x' & ch' & lp' & Hs' & Hids & Hst & Hsz & Hres). wp_run_cells.
    destruct (connected x) eqn:Hcon.
    + destruct Hres as [[E|[E Href]] _].
      * exists x', ch', lp', [Buffer.contents buf]. rewrite Hcon. cbn. rewrite app_nil_r.
        by split_and!.
      * exists x', ch', lp', []. rewrite Hcon. cbn. rewrite app_nil_r. split_and!; try done.
        -- apply sublist_nil_l.
        -- intros Hnr. destruct Href as (e & k' & Hw & He). destruct (Hnr _ _ _ _ _ Hw) as [? ?].
           by destruct He.
    + destruct Hres as [E _]. eapply step_post_quiet; try done. by rewrite Hcon.
  - eapply wpe_mono; [by eapply (wp_handleWrite c x ch lp w (λ _ _, False))| |done].
    intros [] w' (x' & ch' & lp' & Hs' & Hids & Hst & E & Hsz).
    eapply step_post_quiet; try done. cbn. lia.
  - eapply wpe_mono; [by eapply (wp_shutdown c x ch lp w (λ _ _, False))| |done].
    intros [] w' (x' & ch' & lp' & Hs' & Hids & Hst & Eb & E & _).
    eapply step_post_quiet; try done. rewrite Eb. cbn. lia.
  - unfold startRead, EventLoop.runInLoop. wp_run_cells. rewrite Hhere.
    eapply wpe_mono; [by eapply (wp_startReadInLoop c x ch lp w (λ _ _, False))| |done].
    intros [] w' (x' & ch' & lp' & Hs' & Hids & Hst & Eb & E & _).
    eapply step_post_quiet; try done. rewrite Eb. cbn. lia.
  - unfold stopRead, EventLoop.runInLoop. wp_run_cells. rewrite Hhere.
    eapply wpe_mono; [by eapply (wp_stopReadInLoop c x ch lp w (λ _ _, False))| |done].
    intros [] w' (x' & ch' & lp' & Hs' & Hids & Hst & Eb & E & _).
    eapply step_post_quiet; try done. rewrite Eb. cbn. lia.
Qed.

Lemma accepted_cons up o ops :
  accepted up (o :: ops) = accepted up [o] ++ accepted (if o is Shutdown then false else up) ops.
Proof. destruct o; cbn; try done. destruct up; done. Qed.

Lemma connected_after c x ch lp w x' o : stream_at c x ch lp w →
  state_ x' = (if o is Shutdown then kDisconnecting else state_ x) →
  connected x' = (if o is Shutdown then false else connected x).
Proof. intros _ Hst. unfold connected. rewrite Hst. by destruct o. Qed.

(** C26: a connection handed any sequence of sends, writability events, read
    starts and stops and shutdowns in its loop's thread neither fails an
    assertion nor loses, repeats or reorders bytes: what was written plus what
    is buffered is the previous stream followed by whole messages in order, a
    message missing only when its write was refused (EPIPE, ECONNRESET) or it
    came after the shutdown; and once the write side is shut down, everything
    accepted has been written. *)
Theorem stream_in_order c x ch lp w ops :
  stream_at c x ch lp w → Forall sop_ok ops →
  Buffer.size (outputBuffer_ x) + total ops ≤ Buffer.max_size →
  wp (forM ops (exec_sop c)) (λ _ w', ∃ x' ch' lp' ds, stream_at c x' ch' lp' w' ∧
      stream x' w' = stream x w ++ concat ds ∧
      sublist ds (accepted (connected x) ops) ∧
      (never_refused → ds = accepted (connected x) ops) ∧
      (fin (w_kernel w') (socket_ x) = true →
       sent (w_kernel w') (socket_ x) = stream x w ++ concat ds)) w.
Proof.
  intros Hs Hok Hmax.
  enough (wp (forM ops (exec_sop c)) (λ _ w', ∃ x' ch' lp' ds, stream_at c x' ch' lp' w' ∧
      same_ids x x' ∧ stream x' w' = stream x w ++ concat ds ∧
      sublist ds (accepted (connected x) ops) ∧
      (never_refused → ds = accepted (connected x) ops)) w) as Hrun.
  { eapply wp_mono; [exact Hrun|]. intros [] w' (x' & ch' & lp' & ds & Hs' & Hids & E & ? & ?).
    exists x', ch', lp', ds. split_and!; try done. intros Hfin. rewrite <-E.
    destruct Hids as (_ & _ & Es). rewrite <-Es in *.
    destruct (st_fin _ _ _ _ _ Hs' Hfin) as [E0 _]. unfold stream. by rewrite E0, app_nil_r. }
  revert x ch lp w Hs Hmax. induction Hok as [|o ops Ho Hok IH]; intros x ch lp w Hs Hmax.
  - cbn. wp_run_cells. exists x, ch, lp, []. cbn. by rewrite app_nil_r.
  - cbn [forM]. wp_run_cells. pose proof (total_nonneg ops). cbn [total foldr] in Hmax.
    change (foldr _ 0 ops) with (total ops) in Hmax.
    eapply wpe_mono; [eapply (wp_sop c x ch lp w); [exact Hs|done|lia]| |done].
    intros [] w1 (x1 & ch1 & lp1 & ds1 & Hs1 & Hids1 & E1 & Hsub1 & Hall1 & Hsz1 & Hst1).
    eapply wp_mono; [eapply IH; [exact Hs1|lia]|].
    intros [] w2 (x2 & ch2 & lp2 & ds2 & Hs2 & Hids2 & E2 & Hsub2 & Hall2).
    rewrite (connected_after _ _ _ _ _ _ _ Hs Hst1) in Hsub2, Hall2.
    assert (same_ids x x2) by (unfold same_ids in *; intuition congruence).
    exists x2, ch2, lp2, (ds1 ++ ds2). rewrite accepted_cons. split_and!; try done.
    + by rewrite E2, E1, concat_app, app_assoc.
    + by apply sublist_app.
    + intros Hnr. by rewrite Hall1, Hall2.
Qed.

(** ** Reading *)

(** The world when data reached the input buffer, now [b]. *)
Definition with_input c x (k : K) (b : Buffer.Buffer) w : World K :=
  {| w with w_kernel := k; w_conns := <[c := {| x with inputBuffer_ := b |}]> (w_conns w) |}.

(** C28: on a readable socket [handleRead] makes one read into the free space of
    the input buffer: data is appended to what was unread and handed to the
    message callback, an end of file closes the connection, an error is
    looked up and otherwise ignored. *)
Theorem handle_read_cases `{!Callbacks K} c x ch lp w r k' :
  conn_at c x ch lp w → Buffer.inv (inputBuffer_ x) →
  Buffer.size (inputBuffer_ x) + Buffer.extrabuf_size ≤ Buffer.max_size →
  sys_readv (socket_ x) (Buffer.readFd_room (inputBuffer_ x)) (w_kernel w) = (r, k') →
  match r with
  | inr d => ∃ b, Buffer.inv b ∧ Buffer.contents b = Buffer.contents (inputBuffer_ x) ++ d ∧
      handleRead c w = (if d is [] then handleClose c else messageCallback c) (with_input c x k' b w)
  | inl _ => handleRead c w = handleError c (with_input c x k' (inputBuffer_ x) w)
  end.
Proof.
  intros Ha Hb Hmax Hread. pose proof Ha as [Hc Hch Hr Hfd Ho Hw Ht].
  pose proof (at_loop _ _ _ _ _ Ha) as Hl.
  assert (∀ n e b, Buffer.readFd (λ _, r) (inputBuffer_ x) = Ret (n, e) b →
    handleRead c w = (if 0 <? n then messageCallback c
                      else if n =? 0 then handleClose c else handleError c)
                     (with_input c x k' b w)) as Hrun.
  { intros n e b Hf. unfold handleRead, in_input, get_conn, get_channel, syscall, bind, get, deref.
    rewrite Hc, (assertInLoopThread_ok _ _ _ Hl), Hch, Hfd, Hread. cbn. rewrite Hc.
    unfold zoom. by rewrite Hf. }
  destruct (readv_room _ _ _ _ _ Hread) as [_ Hroom].
  pose proof (Buffer.readFd_room_pos _ Hb) as [Hpos _].
  destruct r as [e|d].
  - destruct (proj1 (wp_run _ _ _) (Buffer.wp_readFd_error (λ _, inl e) e (inputBuffer_ x) eq_refl))
      as ([n o] & b & Hf & [= -> ->] & ->).
    apply (Hrun _ _ _ Hf).
  - specialize (Hroom d eq_refl ltac:(lia)).
    destruct (proj1 (wp_run _ _ _) (Buffer.wp_readFd_data (λ _, inr d) d (inputBuffer_ x) Hb eq_refl
      Hroom Hmax)) as ([n o] & b & Hf & [= -> ->] & Hib & Hcb).
    exists b. rewrite (Hrun _ _ _ Hf). split_and!; [done|done|]. destruct d as [|a d]; [done|].
    pose proof (zlen_nonneg d). rewrite zlen_cons, (proj2 (Z.ltb_lt 0 _)) by lia. done.
Qed.

(** ** Life cycle *)

(** A callback that, on a connection that is down, leaves it, its channel and
    its close callback in place (it may send, queue work, drop contexts...). *)
Definition cb_frame x lp x' (lp' : EventLoop) : Prop :=
  same_ids x x' ∧ state_ x' = state_ x ∧ connectionCallback_ x' = connectionCallback_ x ∧
  closeCallback_ x' = closeCallback_ x ∧ eventHandling_ lp' = eventHandling_ lp.
Definition keeps (m : M (World K) unit) (c : ptr) : Prop :=
  ∀ x ch lp w, conn_at c x ch lp w → state_ x = kDisconnected →
  wp m (λ _ w', ∃ x' lp', conn_at c x' ch lp' w' ∧ cb_frame x lp x' lp') w.

Section Life.
Context `{!Callbacks K}.
Context (c : ptr).
Context (Hconn : ∀ n, keeps (user_connection n c) c) (Hclose : ∀ cb, keeps (on_close cb c) c).

Lemma cb_frame_trans x1 x2 x3 lp1 lp2 lp3 :
  cb_frame x1 lp1 x2 lp2 → cb_frame x2 lp2 x3 lp3 → cb_frame x1 lp1 x3 lp3.
Proof. unfold cb_frame, same_ids. intuition congruence. Qed.

Lemma wp_connectionCallback x ch lp w : conn_at c x ch lp w → state_ x = kDisconnected →
  is_Some (connectionCallback_ x) →
  wp (connectionCallback c) (λ _ w', ∃ x' lp', conn_at c x' ch lp' w' ∧ cb_frame x lp x' lp') w.
Proof.
  intros Ha Hst [cb Hcb]. pose proof (at_conn _ _ _ _ _ Ha). unfold connectionCallback. wp_run_cells.
  rewrite Hcb. destruct cb as [|n].
  - unfold defaultConnectionCallback. wp_run_cells. by exists x, lp.
  - by eapply Hconn.
Qed.

Lemma wp_closeCallback x ch lp w : conn_at c x ch lp w → state_ x = kDisconnected →
  is_Some (closeCallback_ x) →
  wp (closeCallback c) (λ _ w', ∃ x' lp', conn_at c x' ch lp' w' ∧ cb_frame x lp x' lp') w.
Proof.
  intros Ha Hst [cb Hcb]. pose proof (at_conn _ _ _ _ _ Ha). unfold closeCallback. wp_run_cells.
  rewrite Hcb. by eapply Hclose.
Qed.

(** Down: disconnected, watching nothing, still known to the poller. *)
Definition down x ch : Prop :=
  state_ x = kDisconnected ∧ events_ ch = 0 ∧ Interest.status_of ch ≠ Interest.New.

(** Closing, once the state is set: interest, then connection callback. *)
Lemma wp_go_down x ch lp w : conn_at c x ch lp w → is_Some (connectionCallback_ x) →
  state_ x = kDisconnected →
  wp (ChannelOps.disableAll (channel_ x))
    (λ _ w1, wp (connectionCallback c)
       (λ _ w', ∃ x' ch' lp', conn_at c x' ch' lp' w' ∧ down x' ch' ∧ cb_frame x lp x' lp' ∧
         event_handling_ ch' = event_handling_ ch) w1) w.
Proof.
  intros Ha Hcb Hst.
  eapply wpe_mono; [eapply (wp_conn_change (λ _, 0) c _ ch lp _ (λ _ _, False) Ha)| |done].
  intros [] w2 (ch2 & lp2 & Ha2 & Hev & [m ->] & Hnew & _ & Heh).
  eapply wpe_mono; [eapply (wp_connectionCallback _ _ _ _ Ha2 Hst Hcb)| |done].
  intros [] w3 (x3 & lp3 & Ha3 & Hf). exists x3, ch2, lp3. split; [done|]. split; [|by split].
  split; [|by split]. destruct Hf as (_ & -> & _). done.
Qed.

Lemma wp_handleClose x ch lp w : conn_at c x ch lp w → closing x = true →
  is_Some (connectionCallback_ x) → is_Some (closeCallback_ x) →
  wp (handleClose c) (λ _ w', ∃ x' ch' lp', conn_at c x' ch' lp' w' ∧ down x' ch' ∧
       cb_frame {| x with state_ := kDisconnected |} lp x' lp' ∧
       event_handling_ ch' = event_handling_ ch) w.
Proof.
  intros Ha Hup Hcb Hccb. pose proof (at_conn _ _ _ _ _ Ha). pose proof (at_loop _ _ _ _ _ Ha).
  pose proof (conn_at_set _ _ _ _ _ {| x with state_ := kDisconnected |} Ha ltac:(done)) as Ha1.
  unfold handleClose, setState. wp_run_cells. wp_assert by done.
  eapply wpe_mono; [exact (wp_go_down _ _ _ _ Ha1 Hcb eq_refl)| |done]. intros [] w1 Hrest.
  wp_run_cells. eapply wpe_mono; [exact Hrest| |done].
  intros [] w2 (x2 & ch2 & lp2 & Ha2 & Hd2 & Hf2 & Heh2).
  eapply wpe_mono; [eapply (wp_closeCallback _ _ _ _ Ha2)| |done].
  { apply Hd2. }
  { destruct Hf2 as (_ & _ & _ & -> & _). done. }
  intros [] w3 (x3 & lp3 & Ha3 & Hf3). exists x3, ch2, lp3. split; [done|].
  split; [|split; [by eapply cb_frame_trans|done]].
  destruct Hd2 as (Hst & ? & ?). destruct Hf3 as (_ & Est & _). split; [by rewrite Est|done].
Qed.

(** Gone: disconnected and unknown to the poller. *)
Definition gone x ch : Prop :=
  state_ x = kDisconnected ∧ events_ ch = 0 ∧ index_ ch = Poller.kNew ∧ addedToLoop_ ch = false.

Lemma wp_remove_down x ch lp w : conn_at c x ch lp w → down x ch →
  Interest.may_remove lp (channel_ x) →
  wp (ChannelOps.remove (channel_ x)) (λ _ w', ∃ ch' lp', conn_at c x ch' lp' w' ∧ gone x ch' ∧
       event_handling_ ch' = event_handling_ ch) w.
Proof.
  intros [Hc Hch Hr Hfd Ho Hw Ht] (Hst & Hev & Hnew) Hm.
  eapply wpe_mono; [eapply (Interest.wp_remove (loop_ x) lp _ ch _ (λ _ _, False))| |done]; try done.
  - apply Hr.
  - intros Hn. apply Hnew. unfold Interest.status_of. by rewrite Hn.
  - intros [] w' (k' & (_ & Hk & Hs & Hf) & -> & Hi').
    eapply Interest.ready_post in Hi' as [Hr' _]; [|exact Hr|exact Hch|done..].
    eexists _, _. split.
    { split; cbn; [exact Hc|apply lookup_insert_eq|exact Hr'|done|done|done|done]. }
    by split_and!.
Qed.

Lemma wp_connectDestroyed x ch lp w : conn_at c x ch lp w → eventHandling_ lp = false →
  down x ch ∨ (state_ x = kConnected ∧ is_Some (connectionCallback_ x)) →
  wp (connectDestroyed c) (λ _ w', ∃ x' ch' lp', conn_at c x' ch' lp' w' ∧ gone x' ch' ∧
       same_ids x x' ∧ event_handling_ ch' = event_handling_ ch) w.
Proof.
  intros Ha Heh Hcase. pose proof (at_conn _ _ _ _ _ Ha). pose proof (at_loop _ _ _ _ _ Ha).
  assert (∀ lp', eventHandling_ lp' = false → Interest.may_remove lp' (channel_ x)) as Hmay.
  { intros lp' E1 E2. congruence. }
  unfold connectDestroyed, connected. wp_run_cells. destruct Hcase as [Hd|[Hst Hcb]].
  - rewrite bool_decide_false by (destruct Hd; congruence). wp_run_cells.
    eapply wpe_mono; [eapply (wp_remove_down _ _ _ _ Ha Hd); by apply Hmay| |done].
    intros [] w' (ch' & lp' & ? & ? & ?). by exists x, ch', lp'.
  - rewrite bool_decide_true by done. unfold setState. wp_run_cells.
    pose proof (conn_at_set _ _ _ _ _ {| x with state_ := kDisconnected |} Ha ltac:(done)) as Ha0.
    eapply wpe_mono; [exact (wp_go_down _ _ _ _ Ha0 Hcb eq_refl)| |done]. intros [] w0 Hrest.
    eapply wpe_mono; [exact Hrest| |done].
    intros [] w1 (x1 & ch1 & lp1 & Ha1 & Hd1 & ((El & Ec & Es) & _ & _ & _ & Heh1) & Heh2).
    cbn in Heh1, El, Ec, Es. rewrite <-Ec.
    eapply wpe_mono; [eapply (wp_remove_down _ _ _ _ Ha1 Hd1)| |done].
    { rewrite Ec. apply Hmay. congruence. }
    intros [] w' (ch' & lp' & ? & ? & Heh3). rewrite Heh2 in Heh3. exists x1, ch', lp'. by split_and!.
Qed.
End Life.

(** The destructor of a connection that is gone frees its cells. *)
Lemma wp_dtor c x ch lp w : conn_at c x ch lp w → gone x ch → event_handling_ ch = false →
  wp (TcpConnection_dtor c) (λ _ w', w_conns w' !! c = None ∧
      w_channels w' !! channel_ x = None ∧ w_loops w' = w_loops w ∧
      ∃ k', w_kernel w' = (sys_close (socket_ x) k').2 ∧
        interest k' (epollfd_ (poller_ lp)) !! socket_ x = None ∧
        (∀ ep, interest k' ep = interest (w_kernel w) ep)) w.
Proof.
  intros Ha (Hst & Hev & Hix & Had) Heh. pose proof Ha as [Hc Hch Hr Hfd Ho Hw Ht].
  pose proof (at_loop _ _ _ _ _ Ha) as Hl. pose proof (at_here _ _ _ _ _ Ha) as Hhere.
  unfold TcpConnection_dtor, disconnected, ChannelOps.Channel_dtor, LoopRegistry.hasChannel.
  wp_run_cells. wp_assert by (rewrite bool_decide_true; done).
  wp_assert by (rewrite Heh; done). wp_assert by (rewrite Had; done).
  rewrite Ho. wp_run_cells. rewrite Hhere. wp_run_cells. wp_assert by (apply Z.eqb_eq; done).
  eapply Poller.wp_hasChannel; [apply Hr|exact Hch|done|]. rewrite Hix. wp_run_cells.
  wp_assert by done. unfold del_channel, Socket.Socket_dtor, sockets.close. wp_run_cells.
  cbn. split; [apply lookup_delete_eq|]. split; [apply lookup_delete_eq|]. split; [done|].
  exists (w_kernel w). split_and!; [done| |done].
  destruct (interest _ _ !! _) as [ev|] eqn:Hint; [|done].
  pose proof (proj1 (Interest.watched_iff _ _ _ _ _ Hr) Hint) as (c' & ch' & m & Hc' & Hl' & Hfd' & Habs & _).
  assert (c' = channel_ x) as ->.
  { eapply (Interest.ready_distinct _ _ _ Hr); try done. congruence. }
  simplify_eq. unfold Interest.abs in Habs. rewrite lookup_omap, Hch in Habs. cbn in Habs.
  unfold Interest.row, Interest.status_of in Habs. rewrite Ho, Z.eqb_refl, Hix in Habs. done.
Qed.

(** C27: closing is orderly.  On a connection that is up, once [handleClose] has run
    (peer closed, or force close) [connectDestroyed] and the destructor run
    without a failed assertion, whatever the callbacks did within their
    contract, and leave no connection, no channel and no epoll registration of
    its descriptor when the descriptor is closed. *)
Theorem close_destroy_clean `{!Callbacks K} c x ch lp w :
  (∀ n, keeps (user_connection n c) c) → (∀ cb, keeps (on_close cb c) c) →
  conn_at c x ch lp w → closing x = true → event_handling_ ch = false →
  eventHandling_ lp = false → is_Some (connectionCallback_ x) → is_Some (closeCallback_ x) →
  wp (handleClose c ;;; connectDestroyed c ;;; TcpConnection_dtor c)
    (λ _ w', w_conns w' !! c = None ∧ w_channels w' !! channel_ x = None ∧
       ∃ k' lp', w_kernel w' = (sys_close (socket_ x) k').2 ∧
         w_loops w' !! loop_ x = Some lp' ∧
         interest k' (epollfd_ (poller_ lp')) !! socket_ x = None) w.
Proof.
  intros Hconn Hclose Ha Hup Heh Hleh Hcb Hccb. wp_run_cells.
  eapply wp_mono; [by eapply (wp_handleClose c Hconn Hclose x ch lp w)|].
  intros [] w1 (x1 & ch1 & lp1 & Ha1 & Hd1 & ((El & Ec & Es) & Hst1 & Ecb & Eccb & Elh) & Eeh).
  cbn in *. wp_run_cells.
  eapply wp_mono; [eapply (wp_connectDestroyed c Hconn x1 ch1 lp1); [done|congruence|by left]|].
  intros [] w2 (x2 & ch2 & lp2 & Ha2 & Hg2 & (El2 & Ec2 & Es2) & Eeh2).
  eapply wp_mono; [eapply (wp_dtor _ _ _ _ _ Ha2 Hg2); congruence|].
  intros [] w3 (? & ? & El3 & k' & ? & Hint & ?).
  rewrite <-El, <-Ec, <-Es, <-El2, <-Ec2, <-Es2. split_and!; try done.
  exists k', lp2. split_and!; try done. rewrite El3. by eapply at_loop.
Qed.

(** The channel of a connection that is read is not empty, and [remove] stops. *)
Lemma connectDestroyed_aborts `{!Callbacks K} c x ch lp w :
  conn_at c x ch lp w → state_ x ≠ kConnected → events_ ch ≠ 0 →
  connectDestroyed c w = Crash AssertFailed.
Proof.
  intros Ha Hst Hev. pose proof Ha as [Hc Hch Hr Hfd Ho Hw Ht].
  unfold connectDestroyed, connected, ChannelOps.remove, get_conn, get_channel, bind, get, deref.
  rewrite Hc, (assertInLoopThread_ok _ _ _ (at_loop _ _ _ _ _ Ha)), bool_decide_false by done.
  unfold ret. rewrite Hch. unfold Channel.isNoneEvent, assert_.
  by rewrite (proj2 (Z.eqb_neq _ Channel.NoneEvent) Hev).
Qed.

Lemma reading_events ch : Channel.isReading ch = true → events_ ch ≠ 0.
Proof. rewrite Channel.isReading_bit. by intros Hb E; rewrite E in Hb. Qed.

(** C29: a connection that was shut down but is still read cannot be torn down:
    [connectDestroyed] (as the server's destructor calls it) skips
    [disableAll], because the state is no longer [kConnected], and the
    channel's removal fails its assertion. *)
Theorem destroy_after_shutdown_aborts `{!Callbacks K} c x ch lp w :
  stream_at c x ch lp w → connected x = true → Channel.isReading ch = true →
  (shutdown c ;;; connectDestroyed c) w = Crash AssertFailed.
Proof.
  intros Hs Hcon Hrd. unfold bind.
  destruct (proj1 (wp_run _ _ _) (wp_shutdown _ _ _ _ _ (λ _ _, False) Hs)) as
    ([] & w1 & Hrun & x1 & ch1 & lp1 & Hs1 & Hids & Hst & _ & _ & Hch). rewrite Hrun.
  eapply connectDestroyed_aborts; [apply Hs1|congruence|].
  rewrite Hch by done. by apply reading_events.
Qed.

(** [startRead] does not look at the state: called between the close of a
    connection and [connectDestroyed], it registers the channel for reading
    again, and [connectDestroyed] then fails the assertion of its removal. *)
Theorem start_read_after_close_aborts `{!Callbacks K} c x ch lp w :
  conn_at c x ch lp w → down x ch →
  (startRead c ;;; connectDestroyed c) w = Crash AssertFailed.
Proof.
  intros Ha (Hst & Hev & _). pose proof (at_conn _ _ _ _ _ Ha) as Hc.
  pose proof (at_channel _ _ _ _ _ Ha) as Hch.
  pose proof (at_loop _ _ _ _ _ Ha) as Hl. pose proof (at_here _ _ _ _ _ Ha) as Hhere.
  assert (wp (startRead c) (λ _ w', ∃ x' ch' lp', conn_at c x' ch' lp' w' ∧
    state_ x' = kDisconnected ∧ Channel.isReading ch' = true) w) as Hstart.
  { unfold startRead, EventLoop.runInLoop, startReadInLoop, set_reading. wp_run_cells.
    rewrite Hhere. wp_run_cells. rewrite Channel.isReading_bit, Hev, orb_true_r. wp_run_cells.
    eapply wpe_mono; [eapply (wp_conn_change (λ m, Z.lor m Channel.ReadEvent) c x ch lp _
      (λ _ _, False) Ha)| |done].
    intros [] w1 (ch1 & lp1 & Ha1 & Hev1 & _). pose proof (at_conn _ _ _ _ _ Ha1).
    wp_run_cells. eexists {| x with reading_ := true |}, ch1, lp1.
    split; [by eapply conn_at_set|]. split; [done|].
    by rewrite Channel.isReading_bit, Hev1, Channel.bit_set, orb_true_r by lia. }
  apply wp_run in Hstart as ([] & w1 & Hrun & x1 & ch1 & lp1 & Ha1 & Hst1 & Hrd).
  unfold bind. rewrite Hrun.
  eapply connectDestroyed_aborts; [exact Ha1|congruence|by apply reading_events].
Qed.

(** ** A new connection *)

Definition default_buffer : Buffer.Buffer :=
  Buffer.mkBuffer (replicate (Z.to_nat (Buffer.kCheapPrepend + Buffer.kInitialSize)) "000"%char)
    Buffer.kCheapPrepend Buffer.kCheapPrepend.

Lemma wpe_buffer_ctor {S} Q E (w : S) : Q default_buffer w → wpe (Buffer.Buffer_ctor Buffer.kInitialSize) Q E w.
Proof.
  intros HQ. unfold wpe. replace (Buffer.Buffer_ctor Buffer.kInitialSize w)
    with (Ret default_buffer w); [done|]. by vm_compute.
Qed.

Lemma default_buffer_ok : Buffer.inv default_buffer ∧ Buffer.contents default_buffer = [].
Proof. split; [split|]; by vm_compute. Qed.

(** The connection the server's handler for a new descriptor puts in its loop. *)
Definition fresh_conn (l : ptr) (name : bytes) (fd : Z) (ch : ptr) (la pa : sockaddr) : TcpConnection :=
  mkTcpConnection l name kConnecting true fd ch la pa None None None None
    default_buffer default_buffer.
Definition conn_channel (l : ptr) (fd : Z) (c : ptr) : Channel :=
  mkChannel l fd 0 0 (-1) false false (Some (TcpConnection_handleRead c))
    (Some (TcpConnection_handleWrite c)) (Some (TcpConnection_handleClose c))
    (Some (TcpConnection_handleError c)).

(** The descriptor belongs to no channel of the loop yet. *)
Record attachable (l : ptr) (lp : EventLoop) (fd : Z) w : Prop := {
  att_fresh : fresh w;
  att_ready : Interest.ready l lp w;
  att_poll : pollable (w_kernel w) fd;
  att_free : ∀ p ch, w_channels w !! p = Some ch → ch_loop_ ch = l → ch_fd_ ch ≠ fd;
  att_wake : wakeupFd_ lp ≠ fd;
  att_thread : threadId_ lp = w_tid w;
}.

Lemma ready_add_channel l lp p ch w : Interest.ready l lp w →
  w_channels w !! p = None → ch_loop_ ch = l → index_ ch = Poller.kNew →
  pollable (w_kernel w) (ch_fd_ ch) →
  (∀ q ch', w_channels w !! q = Some ch' → ch_loop_ ch' = l → ch_fd_ ch' ≠ ch_fd_ ch) →
  Interest.ready l lp {| w with w_channels := <[p := ch]> (w_channels w) |}.
Proof.
  intros [Hi Hp Hd] Hn Hl Hix Hpoll Hfree. split; cbn.
  - eapply Poller.inv_frame; [exact Hi|apply Hi|done| |done]. intros q. cbn.
    destruct (decide (q = p)) as [->|].
    + by rewrite Hn, lookup_insert_eq.
    + rewrite lookup_insert_ne by done. apply Poller.chan_frame_refl.
  - intros q ch' [[<- <-]|[_ Hq]]%lookup_insert_Some Hl'; [done|eauto].
  - intros q1 q2 ch1 ch2 [[<- <-]|[_ Hq1]]%lookup_insert_Some Hl1
      [[<- <-]|[_ Hq2]]%lookup_insert_Some Hl2 E; try done.
    + by destruct (Hfree _ _ Hq2 Hl2).
    + by destruct (Hfree _ _ Hq1 Hl1).
    + eauto.
Qed.

Lemma attachable_frame l lp fd w w' : attachable l lp fd w →
  w_channels w' = w_channels w → w_loops w' = w_loops w → w_conns w' = w_conns w →
  w_next w' = w_next w → w_tid w' = w_tid w → epoll_frame (w_kernel w) (w_kernel w') →
  attachable l lp fd w'.
Proof.
  intros [[Hf1 Hf2 Hf3 Hf4] Hr Hp Hfree Hwk Ht] Ec El Eco En Et Hk.
  split; [split| | | |done|]; rewrite ?Ec, ?El, ?Eco, ?En, ?Et; try done.
  - eapply Interest.ready_frame; [exact Hr|rewrite El; apply Hr|done|..]; [| |exact Hk].
    + intros c. rewrite Ec. apply Poller.chan_frame_refl.
    + intros c ch'. rewrite Ec. by eauto.
  - by apply Hk.
Qed.

Lemma wp_ctor l lp name fd la pa w E : attachable l lp fd w →
  wpe (TcpConnection_ctor l name fd la pa)
    (λ c w', c = w_next w ∧
       conn_at c (fresh_conn l name fd (c + 1) la pa) (conn_channel l fd c) lp w' ∧
       untouched fd (w_kernel w) (w_kernel w') ∧
       w_conns w' = <[c := fresh_conn l name fd (c + 1) la pa]> (w_conns w)) E w.
Proof.
  intros [Hf Hr Hp Hfree Hwk Ht]. unfold TcpConnection_ctor, Channel.Channel_ctor,
    Channel.setReadCallback, Channel.setWriteCallback, Channel.setCloseCallback,
    Channel.setErrorCallback, Socket.setKeepAlive.
  wp_run_cells. apply wpe_buffer_ctor. wp_run_cells. apply wpe_buffer_ctor. wp_run_cells.
  rewrite !insert_insert_eq. cbn. split; [done|].
  pose proof (setsockopt_quiet (w_kernel w) fd Socket.SO_KEEPALIVE true) as [Hke [Hs Hfi]].
  split; [|by split; [split|]].
  assert (w_channels w !! (w_next w + 1) = None) as Hn by (apply Hf; lia).
  pose proof (ready_add_channel l lp (w_next w + 1) (conn_channel l fd (w_next w)) w Hr Hn eq_refl
    eq_refl Hp Hfree) as Hr'.
  split; cbn; try done; [apply lookup_insert_eq|apply lookup_insert_eq|].
  eapply Interest.ready_frame; [exact Hr'|apply Hr|done|..]; cbn; [|by eauto|exact Hke].
  intros q. apply Poller.chan_frame_refl.
Qed.

(** Establishing a connection that reports to the default callback. *)
Lemma wp_connectEstablished `{!Callbacks K} c x ch lp w : conn_at c x ch lp w →
  state_ x = kConnecting → connectionCallback_ x = Some DefaultCallback → events_ ch = 0 →
  Buffer.inv (outputBuffer_ x) → Buffer.contents (outputBuffer_ x) = [] →
  fin (w_kernel w) (socket_ x) = false →
  wp (connectEstablished c) (λ _ w', ∃ ch' lp',
    stream_at c {| x with state_ := kConnected |} ch' lp' w' ∧ Channel.isReading ch' = true ∧
    untouched (socket_ x) (w_kernel w) (w_kernel w') ∧
    event_handling_ ch' = event_handling_ ch ∧ Interest.registry_only lp lp' ∧
    others w' = others {| w with w_conns := <[c := {| x with state_ := kConnected |}]> (w_conns w) |}) w.
Proof.
  intros Ha Hst Hcb Hev Hbi Hbc Hfin. pose proof (at_conn _ _ _ _ _ Ha) as Hc.
  pose proof (at_loop _ _ _ _ _ Ha) as Hl. set (x1 := {| x with state_ := kConnected |}).
  assert (conn_at c x1 ch lp {| w with w_conns := <[c := x1]> (w_conns w) |}) as Ha1
    by by apply (conn_at_set _ _ _ _ _ x1 Ha).
  unfold connectEstablished, setState. wp_run_cells. wp_assert by by apply bool_decide_true.
  change (channel_ x) with (channel_ x1). apply (wpe_preserves others); [apply _|].
  eapply wpe_mono; [apply (wp_conn_change (λ m, Z.lor m Channel.ReadEvent) c x1 ch lp _
    (λ _ _, False) Ha1)| |done].
  intros [] w2 (ch2 & lp2 & Ha2 & Hev2 & Hreg & _ & [Hs2 Hf2] & Heh) Hoth.
  pose proof (at_conn _ _ _ _ _ Ha2) as Hc2. unfold connectionCallback, defaultConnectionCallback.
  wp_run_cells. cbn [connectionCallback_ x1]. rewrite Hcb. wp_run_cells. exists ch2, lp2. split.
  { split; [exact Ha2|done|done| |].
    - rewrite Channel.isWriting_bit, Hev2, Hev. cbn. by rewrite Hbc.
    - cbn. cbn in Hf2. rewrite Hf2, Hfin. done. }
  split_and!; try done. rewrite Channel.isReading_bit, Hev2, Hev. done.
Qed.

(** A connection made and established with the library's default callback. *)
Definition open_conn `{!Callbacks K} (l : ptr) (name : bytes) (fd : Z) (la pa : sockaddr)
    (close : CloseCallback) : M (World K) ptr :=
  let* c := TcpConnection_ctor l name fd la pa in
  upd_conn c (λ x, {| x with connectionCallback_ := Some DefaultCallback;
                             closeCallback_ := Some close |}) ;;;
  connectEstablished c ;;;
  ret c.

Lemma wp_open_conn `{!Callbacks K} l lp name fd la pa close w :
  attachable l lp fd w → fin (w_kernel w) fd = false →
  wp (open_conn l name fd la pa close) (λ c w', c = w_next w ∧ ∃ x ch lp',
      stream_at c x ch lp' w' ∧ connected x = true ∧ Channel.isReading ch = true ∧
      stream x w' = sent (w_kernel w) fd ∧ socket_ x = fd ∧ outputBuffer_ x = default_buffer ∧
      inputBuffer_ x = default_buffer ∧ connectionCallback_ x = Some DefaultCallback ∧
      closeCallback_ x = Some close ∧ event_handling_ ch = false ∧
      eventHandling_ lp' = eventHandling_ lp) w.
Proof.
  intros Hatt Hfin. unfold open_conn. wp_run_cells.
  eapply wpe_mono; [eapply (wp_ctor l lp name fd la pa w (λ _ _, False) Hatt)| |done].
  intros c w1 (-> & Ha & [Hs1 Hf1] & _). set (c := w_next w) in *.
  pose proof (at_conn _ _ _ _ _ Ha) as Hc. wp_run_cells.
  set (x0 := fresh_conn l name fd (c + 1) la pa).
  set (x1 := {| x0 with connectionCallback_ := Some DefaultCallback; closeCallback_ := Some close |}).
  assert (conn_at c x1 (conn_channel l fd c) lp {| w1 with w_conns := <[c := x1]> (w_conns w1) |}) as Ha1
    by by apply (conn_at_set _ _ _ _ _ x1 Ha).
  destruct default_buffer_ok as [Hbi Hbc].
  eapply wpe_mono; [apply (wp_connectEstablished c x1 _ lp _ Ha1)| |done]; try done.
  { cbn. by rewrite Hf1. }
  intros [] w2 (ch2 & lp2 & Hst2 & Hrd & [Hs2 Hf2] & Heh & [m ->] & _). wp_run_cells. split; [done|].
  eexists {| x1 with state_ := kConnected |}, ch2, _. split; [exact Hst2|].
  split_and!; try done. unfold stream. cbn in Hs2 |- *. rewrite Hs2, Hs1, Hbc. by rewrite app_nil_r.
Qed.
End Lemmas.

(** ** A connection in the executable kernel *)
Section Sim.

(** Callbacks that do nothing. *)
#[local] Instance quiet_callbacks : Callbacks Sim.sim := {
  user_connection _ _ := ret tt;
  user_message _ _ := ret tt;
  user_write_complete _ _ := ret tt;
  on_close _ _ := ret tt;
}.

Lemma quiet_keeps c : keeps (K := Sim.sim) (ret tt) c.
Proof.
  intros x ch lp w Ha _. refine (proj2 (wpe_ret tt _ _ _) _). exists x, lp. split; [exact Ha|]. by repeat split.
Qed.

(** The loop of EventLoop.v with descriptor 5 open, writes that take three
    bytes and then nothing, and input on 5. *)
Definition sim_kernel5 : Sim.sim :=
  let k := (Sim.open_fd EventLoop.sim_kernel).2 in
  {| k with Sim.sm_room := [inr 3; inl EAGAIN];
            Sim.sm_input := {[5 := [inr (str "ping"); inr []]]} |}.
Definition sim_start : World Sim.sim := let w := start_world Sim.empty in {| w with w_tid := 0 |}.
Definition sim_net : World Sim.sim := EventLoop.bare_world sim_start sim_kernel5 3 4.

Lemma sim_attachable : attachable 1 EventLoop.sim_loop 5 sim_net.
Proof.
  split; try done.
  - split; cbn; intros p; try done.
    + intros Hp. by rewrite lookup_insert_ne by lia.
    + intros ch [[_ <-]|[_ Hc]]%lookup_insert_Some; done.
    + intros Hp. by rewrite lookup_insert_ne by lia.
  - apply (EventLoop.bare_ready sim_start sim_kernel5 3 4); [by split|done|cbn; set_solver].
  - cbn. intros p ch [[_ <-]|[_ Hc]]%lookup_insert_Some; done.
Qed.

(** An established connection on descriptor 5. *)
Lemma sim_conn : ∃ x ch lp w,
  stream_at 3 x ch lp w ∧ connected x = true ∧ Channel.isReading ch = true ∧ stream x w = [] ∧
  outputBuffer_ x = default_buffer ∧ inputBuffer_ x = default_buffer ∧
  is_Some (connectionCallback_ x) ∧ is_Some (closeCallback_ x) ∧ event_handling_ ch = false ∧
  eventHandling_ lp = false.
Proof.
  destruct (proj1 (wp_run _ _ _) (wp_open_conn 1 _ (str "c") 5 [] [] (TcpServer_removeConnection 9) _
    sim_attachable eq_refl)) as (c & w & _ & -> & x & ch & lp & Hs & Hcon & Hrd & Hst & _ & Ho & Hi & Hcb & Hcl
    & Heh & Hlh).
  exists x, ch, lp, w. rewrite Hcb, Hcl, Hst, Hlh. by split_and!.
Qed.

Definition hello : Buffer.Buffer :=
  let b := default_buffer in
  {| b with Buffer.buffer_ := zblit 8 (str "hello") (Buffer.buffer_ b); Buffer.writerIndex_ := 13 |}.

Lemma stream_in_order_witness :
  ∃ x ch lp w, stream_at (K := Sim.sim) 3 x ch lp w ∧
  wp (forM [Send hello; Writable; Shutdown; Send hello; Writable] (exec_sop 3)) (λ _ w',
     ∃ x' ds, stream x' w' = concat ds ∧ sublist ds [str "hello"]) w.
Proof.
  destruct sim_conn as (x & ch & lp & w & Hs & Hcon & _ & Hst & Ho & _).
  exists x, ch, lp, w. split; [exact Hs|].
  eapply wp_mono.
  - apply (stream_in_order 3 x ch lp w [Send hello; Writable; Shutdown; Send hello; Writable] Hs).
    + repeat constructor; vm_compute; congruence.
    + rewrite Ho. vm_compute. congruence.
  - intros [] w' (x' & ch' & lp' & ds & _ & E & Hsub & _). rewrite Hst in E. rewrite Hcon in Hsub.
    exists x', ds. split; [exact E|]. exact Hsub.
Defined.

Lemma handle_read_cases_witness :
  ∃ x ch lp (w : World Sim.sim), conn_at 3 x ch lp w ∧ ∃ r k',
    sys_readv (socket_ x) (Buffer.readFd_room (inputBuffer_ x)) (w_kernel w) = (r, k') ∧
    match r with
    | inr d => ∃ b, Buffer.contents b = d ∧
        handleRead 3 w = (if d is [] then handleClose 3 else messageCallback 3)
                           (with_input 3 x k' b w)
    | inl _ => handleRead 3 w = handleError 3 (with_input 3 x k' (inputBuffer_ x) w)
    end.
Proof.
  destruct sim_conn as (x & ch & lp & w & Hs & _ & _ & _ & _ & Hi & _).
  assert (Hb : Buffer.inv (inputBuffer_ x)) by (rewrite Hi; apply default_buffer_ok).
  assert (Hsz : Buffer.size (inputBuffer_ x) + Buffer.extrabuf_size ≤ Buffer.max_size)
    by (rewrite Hi; vm_compute; congruence).
  destruct (sys_readv (socket_ x) (Buffer.readFd_room (inputBuffer_ x)) (w_kernel w)) as [r k'] eqn:Hr.
  exists x, ch, lp, w. split; [apply Hs|]. exists r, k'. split; [exact Hr|].
  pose proof (handle_read_cases 3 x ch lp w r k' (st_at _ _ _ _ _ Hs) Hb Hsz Hr) as Hcases.
  destruct r as [e|d]; [exact Hcases|]. destruct Hcases as (b & _ & Hc & E). exists b.
  rewrite Hi in Hc. split; [exact Hc|exact E].
Defined.

Lemma close_destroy_clean_witness :
  ∃ x (w : World Sim.sim), wp (handleClose 3 ;;; connectDestroyed 3 ;;; TcpConnection_dtor 3)
    (λ _ w', w_conns w' !! 3 = None ∧ w_channels w' !! channel_ x = None) w.
Proof.
  destruct sim_conn as (x & ch & lp & w & Hs & Hcon & _ & _ & _ & _ & Hcb & Hcl & Heh & Hlh).
  exists x, w. eapply wp_mono.
  - apply (close_destroy_clean (Callbacks0 := quiet_callbacks) 3 x ch lp w (λ _, quiet_keeps 3) (λ _, quiet_keeps 3)
      (st_at _ _ _ _ _ Hs) (st_up _ _ _ _ _ Hs) Heh Hlh Hcb Hcl).
  - intros [] w' (H1 & H2 & _). split; [exact H1|exact H2].
Defined.

Lemma destroy_after_shutdown_aborts_witness :
  ∃ w : World Sim.sim, (shutdown 3 ;;; connectDestroyed 3) w = Crash AssertFailed.
Proof.
  destruct sim_conn as (x & ch & lp & w & Hs & Hcon & Hrd & _). exists w.
  exact (destroy_after_shutdown_aborts 3 x ch lp w Hs Hcon Hrd).
Defined.

(** A connection that [handleClose] has just closed. *)
Lemma sim_closed : ∃ x ch lp w, conn_at (K := Sim.sim) 3 x ch lp w ∧ down x ch.
Proof.
  destruct sim_conn as (x & ch & lp & w & Hs & Hcon & _ & _ & _ & _ & Hcb & Hcl & _).
  destruct (proj1 (wp_run _ _ _) (wp_handleClose (Callbacks0 := quiet_callbacks) 3 (λ _, quiet_keeps 3) (λ _, quiet_keeps 3) x ch lp w
    (st_at _ _ _ _ _ Hs) (st_up _ _ _ _ _ Hs) Hcb Hcl)) as (_ & w' & _ & x' & ch' & lp' & Ha & Hd & _).
  by exists x', ch', lp', w'.
Qed.

Lemma start_read_after_close_aborts_witness :
  ∃ w : World Sim.sim, (startRead 3 ;;; connectDestroyed 3) w = Crash AssertFailed.
Proof.
  destruct sim_closed as (x & ch & lp & w & Ha & Hd). exists w.
  exact (start_read_after_close_aborts 3 x ch lp w Ha Hd).
Defined.
End Sim.
End TcpConnection.
