(* ===== verification/EventLoopThreadPool.v ===== *)
(** * Loop threads and their pool
    (network/src/EventLoopThread.cc, network/src/EventLoopThreadPool.cc)

    [startLoop] waits until the new thread has published its loop, so the
    thread's prologue runs to its end before [startLoop] returns: it is run
    here as the new thread ([as_thread]).  The string passed as a thread's name
    is built from an uninitialised array and is not used; it is left out. *)

From S2P Require Import Prelude.
From S2P Require Import NetTypes.
From S2P Require Import Kernel.
From S2P Require Import EventLoop.

(** Code that runs on thread [tid]; an exception leaving it ends the program. *)
Definition as_thread {K A} (tid : Z) (m : M (World K) A) : M (World K) A := λ w,
  match m {| w with w_tid := tid |} with
  | Ret a w' => Ret a {| w' with w_tid := w_tid w |}
  | Throw _ _ => Crash Terminated
  | Crash f => Crash f
  end.

(** A [ThreadInitCallback]; empty when [None]. *)
Definition Init (K : Type) : Type := option (ptr → M (World K) unit).

Module EventLoopThread.
Section EventLoopThread.
Context `{Kernel K}.

Definition call_init (cb : Init K) (l : ptr) : M (World K) unit :=
  match cb with Some f => f l | None => ret tt end.

Definition EventLoopThread_ctor : M (World K) ptr :=
  let* t := new_ptr in
  set_thread t (mkThread None false None) ;;;
  ret t.

(** [threadFunc] up to [loop.loop()]. *)
Definition threadFunc_begin (cb : Init K) (t : ptr) : M (World K) unit :=
  let* loop := EventLoop.EventLoop_ctor in
  call_init cb loop ;;;
  upd_thread t (λ x, {| x with th_loop_ := Some loop |}).

(** [threadFunc] after [loop.loop()]: the loop is a local of the function. *)
Definition threadFunc_end (t loop : ptr) : M (World K) unit :=
  upd_thread t (λ x, {| x with th_loop_ := None |}) ;;;
  EventLoop.EventLoop_dtor loop.

(** [std::thread]'s constructor throws when there is no thread. *)
Definition startLoop (cb : Init K) (t : ptr) : M (World K) ptr :=
  let* r := syscall sys_clone in
  match r with
  | inl _ => throw system_error
  | inr tid =>
      upd_thread t (λ x, {| x with thread_ := Some tid |}) ;;;
      as_thread tid (threadFunc_begin cb t) ;;;
      let* x := get_thread t in deref (th_loop_ x)
  end.

(** What the destructing thread does before it joins. *)
Definition EventLoopThread_dtor (t : ptr) : M (World K) unit :=
  upd_thread t (λ x, {| x with exiting_ := true |}) ;;;
  let* x := get_thread t in
  match th_loop_ x with
  | Some l => EventLoop.quit l
  | None => ret tt
  end.
End EventLoopThread.
End EventLoopThread.

Module EventLoopThreadPool.
Section EventLoopThreadPool.
Context `{Kernel K}.

Definition EventLoopThreadPool_ctor (baseLoop : ptr) (nameArg : bytes) : M (World K) ptr :=
  let* p := new_ptr in
  set_pool p (mkPool baseLoop nameArg false 0 0 [] []) ;;;
  ret p.

Definition setThreadNum (p : ptr) (numThreads : Z) : M (World K) unit :=
  upd_pool p (λ x, {| x with numThreads_ := numThreads |}).

(** One turn of the for loop. *)
Definition start_one (cb : Init K) (p : ptr) : M (World K) unit :=
  let* t := EventLoopThread.EventLoopThread_ctor in
  upd_pool p (λ x, {| x with threads_ := threads_ x ++ [t] |}) ;;;
  let* l := EventLoopThread.startLoop cb t in
  upd_pool p (λ x, {| x with loops_ := loops_ x ++ [l] |}).

Definition start (cb : Init K) (p : ptr) : M (World K) unit :=
  let* x := get_pool p in
  assert_ (negb (started_ x)) ;;;
  assertInLoopThread (baseLoop_ x) ;;;
  upd_pool p (λ x, {| x with started_ := true |}) ;;;
  forM (seq 0 (Z.to_nat (numThreads_ x))) (λ _, start_one cb p) ;;;
  when (numThreads_ x =? 0) (EventLoopThread.call_init cb (baseLoop_ x)).

Definition getNextLoop (p : ptr) : M (World K) ptr :=
  let* x := get_pool p in
  assertInLoopThread (baseLoop_ x) ;;;
  assert_ (started_ x) ;;;
  match loops_ x with
  | [] => ret (baseLoop_ x)
  | _ :: _ =>
      let* loop := deref (znth (loops_ x) (next_ x)) in
      upd_pool p (λ x, let n := next_ x + 1 in
        {| x with next_ := if zlen (loops_ x) <=? u64 n then 0 else n |}) ;;;
      ret loop
  end.

Definition getLoopForHash (p : ptr) (hashCode : Z) : M (World K) ptr :=
  let* x := get_pool p in
  assertInLoopThread (baseLoop_ x) ;;;
  match loops_ x with
  | [] => ret (baseLoop_ x)
  | _ :: _ => deref (znth (loops_ x) (hashCode mod zlen (loops_ x)))
  end.

Definition getAllLoops (p : ptr) : M (World K) (list ptr) :=
  let* x := get_pool p in
  assertInLoopThread (baseLoop_ x) ;;;
  assert_ (started_ x) ;;;
  ret (match loops_ x with [] => [baseLoop_ x] | ls => ls end).
End EventLoopThreadPool.

(** ** Round robin *)
Section RoundRobin.
Context {K : Type}.
Implicit Types w : World K.

(** [n] successive calls. *)
Fixpoint next_loops (n : nat) (p : ptr) : M (World K) (list ptr) :=
  match n with
  | O => ret []
  | S n' => let* l := getNextLoop p in let* ls := next_loops n' p in ret (l :: ls)
  end.

(** The loops in the order they are handed out, starting from the next. *)
Definition order (x : EventLoopThreadPool) : list ptr :=
  match loops_ x with
  | [] => [baseLoop_ x]
  | ls => zdrop (next_ x) ls ++ ztake (next_ x) ls
  end.

Record running (p : ptr) (x : EventLoopThreadPool) w : Prop := {
  run_pool : w_pools w !! p = Some x;
  run_base : is_Some (w_loops w !! baseLoop_ x);
  run_started : started_ x = true;
  run_next : 0 ≤ next_ x ∧ (loops_ x = [] ∨ next_ x < zlen (loops_ x));
  run_size : zlen (loops_ x) < 2 ^ 31;
}.

Lemma order_all x : 0 ≤ next_ x →
  order x ≡ₚ match loops_ x with [] => [baseLoop_ x] | ls => ls end.
Proof.
  intros Hn. unfold order. destruct (loops_ x) as [|l ls]; [done|].
  unfold zdrop, ztake. by rewrite (Permutation_app_comm (drop _ _)), take_drop.
Qed.

(** One call takes the head of the order and puts it last. *)
Lemma wp_getNextLoop p x w E : running p x w →
  wpe (getNextLoop p) (λ l w', ∃ x' rest, order x = l :: rest ∧ order x' = rest ++ [l] ∧
    running p x' w' ∧ loops_ x' = loops_ x ∧ baseLoop_ x' = baseLoop_ x ∧
    w_loops w' = w_loops w) E w.
Proof.
  intros [Hp [lp Hb] Hs [Hn Hlen] Hsz]. unfold getNextLoop. wp_run_cells. wp_assert by done.
  unfold order at 1. destruct (loops_ x) as [|l0 ls0] eqn:Hl.
  - wp_run_cells. exists x, []. unfold order. rewrite Hl. split_and!; try done.
    split; rewrite ?Hl; eauto.
  - destruct Hlen as [|Hlen]; [done|]. rewrite <-Hl in *. clear Hl.
    set (ls := loops_ x) in *. set (n := next_ x) in *.
    assert (0 ≤ n < zlen ls) as Hin by lia. pose proof (zlen_nonneg ls).
    destruct (lookup_lt_is_Some_2 ls (Z.to_nat n)) as [l Hnth]; [unfold zlen in *; lia|].
    wp_run_cells. exists l. split.
    { unfold znth. by rewrite (proj2 (Z.ltb_ge _ _)) by lia. }
    wp_run_cells. rewrite u64_small by lia. fold ls n.
    exists {| x with next_ := if zlen ls <=? n + 1 then 0 else n + 1 |}, (zdrop (n + 1) ls ++ ztake n ls).
    unfold order. cbn. fold ls n.
    assert (zdrop n ls = l :: zdrop (n + 1) ls) as Hd.
    { unfold zdrop. rewrite (drop_S _ _ _ Hnth). do 2 f_equal. lia. }
    assert (ztake (n + 1) ls = ztake n ls ++ [l]) as Ht.
    { unfold ztake. rewrite <-(take_S_r _ _ _ Hnth). f_equal. lia. }
    split_and!; try done.
    + by rewrite Hd.
    + assert (ls ≠ []) as Hne by (intros E0; assert (zlen ls = 0) by (by rewrite E0); lia).
      clearbody ls n. replace (match ls with [] => [baseLoop_ x] | _ => _ end) with
        (zdrop (if zlen ls <=? n + 1 then 0 else n + 1) ls ++ ztake (if zlen ls <=? n + 1 then 0 else n + 1) ls)
        by (by destruct ls).
      destruct (Z.leb_spec (zlen ls) (n + 1)).
      * assert (zdrop (n + 1) ls = []) as -> by (unfold zdrop, zlen in *; apply drop_ge; lia).
        change (zdrop 0 ls ++ ztake 0 ls) with (ls ++ []). rewrite app_nil_r. cbn [app]. rewrite <-Ht.
        unfold ztake, zlen in *. symmetry. apply take_ge. lia.
      * by rewrite Ht, app_assoc.
    + split; cbn; fold ls n; try done; [apply lookup_insert_eq|].
      destruct (Z.leb_spec (zlen ls) (n + 1)); split; try lia; right; lia.
Qed.

(** The first [n] elements of [o] repeated for ever. *)
Fixpoint cycle (n : nat) (o : list ptr) : list ptr :=
  match n, o with
  | S n', l :: rest => l :: cycle n' (rest ++ [l])
  | _, _ => []
  end.

Lemma length_cycle n : ∀ o, o ≠ [] → length (cycle n o) = n.
Proof.
  induction n as [|n IH]; intros o Ho; [done|]. destruct o as [|l rest]; [done|].
  cbn. rewrite IH; [done|]. by destruct rest.
Qed.

Lemma cycle_lookup n : ∀ o i, o ≠ [] → (i < n)%nat → cycle n o !! i = o !! (i mod length o)%nat.
Proof.
  induction n as [|n IH]; intros o i Ho Hi; [lia|]. destruct o as [|l rest]; [done|].
  destruct i as [|i]; [by rewrite Nat.Div0.mod_0_l|].
  change (cycle (S n) (l :: rest) !! S i) with (cycle n (rest ++ [l]) !! i).
  rewrite IH by (try lia; by destruct rest). rewrite length_app, Nat.add_1_r. cbn [length].
  set (m := S (length rest)). pose proof (Nat.mod_upper_bound i m ltac:(done)).
  destruct (decide (i mod m = length rest)%nat) as [E|E].
  - rewrite E, list_lookup_middle by done.
    replace (S i mod m)%nat with 0%nat; [done|].
    rewrite <-Nat.add_1_r, <-Nat.Div0.add_mod_idemp_l, E, Nat.add_1_r. symmetry.
    apply Nat.Div0.mod_same.
  - rewrite lookup_app_l by lia.
    replace (S i mod m)%nat with (S (i mod m)); [done|].
    rewrite <-(Nat.add_1_r i), <-Nat.Div0.add_mod_idemp_l, Nat.add_1_r. symmetry.
    apply Nat.mod_small. lia.
Qed.

Lemma wp_next_loops p n : ∀ x w E, running p x w →
  wpe (next_loops n p) (λ r w', r = cycle n (order x) ∧ w_loops w' = w_loops w ∧
    ∃ x', running p x' w' ∧ loops_ x' = loops_ x) E w.
Proof.
  induction n as [|n IH]; intros x w E Hr; cbn [next_loops]; wp_run_cells.
  - split_and!; [done|done|]. by exists x.
  - eapply wpe_mono; [by apply wp_getNextLoop| |done]. cbn beta.
    intros l w' (x' & rest & -> & Ho & Hr' & Hl & _ & Hw). wp_run_cells.
    eapply wpe_mono; [by apply IH| |done]. cbn beta. intros r w2 (-> & Hw2 & x2 & Hr2 & Hl2).
    wp_run_cells. rewrite Ho. split_and!; [done|congruence|]. exists x2. split; [exact Hr2|congruence].
Qed.

(** C30: [getNextLoop] hands out the loops in round robin.  In a started pool
    [n] successive calls return the loops of the order in turn, for ever, and
    as many calls as there are loops return each of them once; without threads
    every call returns the base loop. *)
Theorem getNextLoop_round_robin p x w n :
  running p x w →
  wp (next_loops n p) (λ r w',
    (∀ i, (i < n)%nat → r !! i = order x !! (i mod length (order x))%nat)
    ∧ (n = length (order x) → r ≡ₚ match loops_ x with [] => [baseLoop_ x] | ls => ls end)
    ∧ ∃ x', running p x' w' ∧ loops_ x' = loops_ x) w.
Proof.
  intros Hr. pose proof (order_all x (proj1 (run_next _ _ _ Hr))) as Ho.
  assert (order x ≠ []) as Hne.
  { intros E. rewrite E in Ho. apply Permutation_nil in Ho.
    destruct (loops_ x); discriminate Ho. }
  eapply wpe_mono; [apply (wp_next_loops p n x w (λ _ _, False) Hr)| |done].
  cbn beta. intros r w' (-> & _ & Hx). split_and!; [|intros ->|exact Hx].
  - intros i Hi. by apply cycle_lookup.
  - rewrite <-Ho. replace (cycle _ (order x)) with (order x); [done|].
    symmetry. apply list_eq. intros i. destruct (decide (i < length (order x))%nat) as [Hi|Hi].
    + rewrite cycle_lookup by done. by rewrite Nat.mod_small.
    + rewrite !lookup_ge_None_2; [done|lia|]. rewrite length_cycle by done. lia.
Qed.
End RoundRobin.

(** A base loop at 1 and a pool at 3 whose three threads are started. *)
Definition sim_pool : outcome (World Sim.sim) ptr :=
  (let* p := EventLoopThreadPool_ctor 1 [] in
   setThreadNum p 3 ;;; start None p ;;; ret p) EventLoop.sim_world.
Definition sim_started : World Sim.sim :=
  match sim_pool with Ret _ w => w | _ => EventLoop.sim_world end.

Lemma getNextLoop_round_robin_witness :
  wp (next_loops 4 3) (λ r _, r !! 3%nat = r !! 0%nat ∧ r !! 0%nat ≠ r !! 1%nat) sim_started.
Proof.
  assert (∃ x, w_pools sim_started !! 3 = Some x ∧ order x = [5; 8; 11] ∧ running 3 x sim_started)
    as (x & _ & Ho & Hr).
  { eexists. split; [vm_compute; reflexivity|]. split; [reflexivity|].
    split; [vm_compute; reflexivity|eexists; vm_compute; reflexivity|reflexivity| |reflexivity].
    split; [discriminate|right; reflexivity]. }
  eapply wp_mono; [apply (getNextLoop_round_robin 3 x sim_started 4 Hr)|].
  intros r w' (Hi & _). rewrite Ho in Hi.
  rewrite (Hi 3%nat), (Hi 0%nat), (Hi 1%nat) by lia. split; [reflexivity|discriminate].
Defined.
End EventLoopThreadPool.
