(* ===== verification/Acceptor.v ===== *)
(** * Acceptor (network/src/Acceptor.cc)

    The listening socket, its channel, and the spare descriptor that lets the
    loop go on when the process has no descriptor left.  [on_connection] is the
    code bound as [newConnectionCallback_].  [errno] is read after the error
    line was logged; the log call is taken to leave it. *)

From S2P Require Import Prelude.
From S2P Require Import NetTypes.
From S2P Require Import Kernel.
From S2P Require Import Channel.
From S2P Require Import SocketsOps.
From S2P Require Import EventLoop.

Module Acceptor.
Section Ops.
Context `{Kernel K}.

(** A descriptor, or -1. *)
Definition fd_or_minus1 (r : Z + Z) : Z := match r with inr fd => fd | inl _ => -1 end.

Definition open_null : M (World K) Z :=
  let* r := syscall sys_open_null in ret (fd_or_minus1 r).

Definition Acceptor_ctor (loop : ptr) (listenAddr : sockaddr) (reuseport : bool)
    : M (World K) ptr :=
  let* a := new_ptr in
  let* fd := sockets.createNonblockingOrDie (Sockaddr.family listenAddr) in
  let* ch := Channel.Channel_ctor loop fd in
  let* idle := open_null in
  set_acceptor a (mkAcceptor loop fd ch None false idle) ;;;
  assert_ (0 <=? idle) ;;;
  Socket.setReuseAddr fd true ;;;
  Socket.setReusePort fd reuseport ;;;
  Socket.bindAddress fd listenAddr ;;;
  Channel.setReadCallback ch (Acceptor_handleRead a) ;;;
  ret a.

Definition setNewConnectionCallback (a : ptr) (server : ptr) : M (World K) unit :=
  upd_acceptor a (λ x, {| x with ac_newConnectionCallback_ := Some server |}).

(** The body, then the destructors of the channel and the socket. *)
Definition Acceptor_dtor (a : ptr) : M (World K) unit :=
  let* x := get_acceptor a in
  ChannelOps.disableAll (acceptChannel_ x) ;;;
  ChannelOps.remove (acceptChannel_ x) ;;;
  let* _ := syscall (sys_close (idleFd_ x)) in
  ChannelOps.Channel_dtor (acceptChannel_ x) ;;;
  Socket.Socket_dtor (acceptSocket_ x) ;;;
  modify (λ w, {| w with w_acceptors := delete a (w_acceptors w) |}).

Definition listening (x : Acceptor) : bool := listening_ x.

Definition listen (a : ptr) : M (World K) unit :=
  let* x := get_acceptor a in
  assertInLoopThread (ac_loop_ x) ;;;
  upd_acceptor a (λ x, {| x with listening_ := true |}) ;;;
  Socket.listen (acceptSocket_ x) ;;;
  ChannelOps.enableReading (acceptChannel_ x).

Definition set_idle (a : ptr) (fd : Z) : M (World K) unit :=
  upd_acceptor a (λ x, {| x with idleFd_ := fd |}).
(** [idleFd_ = ::accept(fd, NULL, NULL)]. *)
Definition raw_accept (fd : Z) : M (World K) Z :=
  let* r := syscall (sys_accept fd) in
  ret (match r with inr (c, _) => c | inl _ => -1 end).

(** Drop one pending connection through the spare descriptor. *)
Definition drop_pending (a : ptr) : M (World K) unit :=
  let* x := get_acceptor a in
  let* _ := syscall (sys_close (idleFd_ x)) in
  let* c := raw_accept (acceptSocket_ x) in
  set_idle a c ;;;
  let* _ := syscall (sys_close c) in
  let* n := open_null in
  set_idle a n.

Definition handleRead (on_connection : ptr → Z → sockaddr → M (World K) unit) (a : ptr)
    : M (World K) unit :=
  let* x := get_acceptor a in
  assertInLoopThread (ac_loop_ x) ;;;
  let* r := Socket.accept (acceptSocket_ x) in
  match r with
  | inr (connfd, peerAddr) =>
      match ac_newConnectionCallback_ x with
      | Some server => on_connection server connfd peerAddr
      | None => sockets.close connfd
      end
  | inl errno => when (errno =? EMFILE) (drop_pending a)
  end.
End Ops.

(** ** Out of descriptors

    accept(2) and open(2) with a table of at most [fd_limit] descriptors: a
    call with no room fails with [EMFILE] and leaves the pending queue. *)
Class FdTable (K : Type) `{Kernel K} := {
  open_fds : K → gset Z;
  fd_limit : nat;
  backlog : K → Z → list sockaddr;
  close_open k fd r k' : fd ∈ open_fds k → sys_close fd k = (r, k') →
    open_fds k' = open_fds k ∖ {[fd]} ∧ (∀ l, l ≠ fd → backlog k' l = backlog k l);
  accept_next k l a rest r k' : backlog k l = a :: rest → sys_accept l k = (r, k') →
    if decide (size (open_fds k) < fd_limit)%nat
    then ∃ fd, r = inr (fd, a) ∧ (fd ∉ open_fds k) ∧ open_fds k' = {[fd]} ∪ open_fds k
               ∧ backlog k' l = rest
    else r = inl EMFILE ∧ k' = k;
  open_next k r k' : sys_open_null k = (r, k') → (size (open_fds k) < fd_limit)%nat →
    ∃ fd, r = inr fd ∧ (fd ∉ open_fds k) ∧ open_fds k' = {[fd]} ∪ open_fds k
          ∧ (∀ l, backlog k' l = backlog k l);
}.

Section Full.
Context `{Kernel K, !FdTable K}.
Implicit Types w : World K.

Definition used (k : K) : nat := size (open_fds k).

Lemma used_add k k' fd : fd ∉ open_fds k → open_fds k' = {[fd]} ∪ open_fds k →
  used k' = S (used k).
Proof. unfold used. intros Hn ->. by rewrite size_union, size_singleton by set_solver. Qed.

Lemma used_close k k' fd : fd ∈ open_fds k → open_fds k' = open_fds k ∖ {[fd]} →
  S (used k') = used k.
Proof.
  intros Hi E. symmetry. apply used_add with (fd := fd); rewrite E; [set_solver|].
  apply union_difference_L. set_solver.
Qed.

(** Close the spare, accept and close the pending one, take a spare again. *)
Lemma wp_drop_pending a x addr rest w E :
  w_acceptors w !! a = Some x → idleFd_ x ∈ open_fds (w_kernel w) →
  acceptSocket_ x ∈ open_fds (w_kernel w) → acceptSocket_ x ≠ idleFd_ x →
  used (w_kernel w) = fd_limit →
  backlog (w_kernel w) (acceptSocket_ x) = addr :: rest →
  wpe (drop_pending a) (λ _ w', ∃ k' fd,
    w' = {| w with w_kernel := k';
                   w_acceptors := <[a := {| x with idleFd_ := fd |}]> (w_acceptors w) |}
    ∧ fd ∈ open_fds k' ∧ used k' = fd_limit ∧ backlog k' (acceptSocket_ x) = rest) E w.
Proof.
  intros Ha Hi Hin Hne Hfull Hb. unfold drop_pending, raw_accept, open_null, set_idle. wp_run_cells.
  destruct (sys_close (idleFd_ x) _) as [r1 k1] eqn:E1. cbn [fst snd]. wp_run_cells.
  destruct (close_open _ _ _ _ Hi E1) as [Ho1 Hb1]. pose proof (used_close _ _ _ Hi Ho1) as Hu1.
  rewrite <-(Hb1 _ Hne) in Hb. unfold used in Hu1, Hfull.
  destruct (sys_accept (acceptSocket_ x) k1) as [r2 k2] eqn:E2. cbn [fst snd].
  pose proof (accept_next _ _ _ _ _ _ Hb E2) as Hacc.
  rewrite decide_True in Hacc by lia. destruct Hacc as (c & -> & Hc & Ho2 & Hb2).
  pose proof (used_add _ _ _ Hc Ho2) as Hu2. unfold used in Hu2. wp_run_cells.
  destruct (sys_close c k2) as [r3 k3] eqn:E3. cbn [fst snd].
  assert (c ∈ open_fds k2) as Hc2 by set_solver.
  destruct (close_open _ _ _ _ Hc2 E3) as [Ho3 Hb3]. pose proof (used_close _ _ _ Hc2 Ho3) as Hu3.
  unfold used in Hu3. wp_run_cells.
  destruct (sys_open_null k3) as [r4 k4] eqn:E4. cbn [fst snd].
  destruct (open_next _ _ _ E4) as (n & -> & Hn & Ho4 & Hb4); [lia|].
  pose proof (used_add _ _ _ Hn Ho4) as Hu4. unfold used in Hu4 |- *. wp_run_cells.
  exists k4, n. rewrite insert_insert_eq. split_and!; [done|set_solver|lia|].
  rewrite Hb4, Hb3; [done|]. intros <-. set_solver.
Qed.

(** C31: a readable listening socket never stalls the loop: each [handleRead]
    takes one connection off the pending queue.  With a descriptor free it is
    handed, with its peer's address, to the new-connection callback; with the
    table full it is closed through the spare descriptor, and the acceptor
    holds a spare again, so the next call can do the same. *)
Theorem handleRead_drains on_connection a x addr rest w :
  w_acceptors w !! a = Some x → is_Some (w_loops w !! ac_loop_ x) →
  {[acceptSocket_ x; idleFd_ x]} ⊆ open_fds (w_kernel w) → acceptSocket_ x ≠ idleFd_ x →
  (used (w_kernel w) ≤ fd_limit)%nat →
  backlog (w_kernel w) (acceptSocket_ x) = addr :: rest →
  if decide (used (w_kernel w) = fd_limit) then
    wp (handleRead on_connection a) (λ _ w', ∃ k' fd,
      w' = {| w with w_kernel := k';
                     w_acceptors := <[a := {| x with idleFd_ := fd |}]> (w_acceptors w) |}
      ∧ fd ∈ open_fds k' ∧ used k' = fd_limit ∧ backlog k' (acceptSocket_ x) = rest) w
  else ∃ fd k', (fd ∉ open_fds (w_kernel w)) ∧ fd ∈ open_fds k'
      ∧ backlog k' (acceptSocket_ x) = rest
      ∧ handleRead on_connection a w
        = match ac_newConnectionCallback_ x with
          | Some server => on_connection server fd addr
          | None => sockets.close fd
          end {| w with w_kernel := k' |}.
Proof.
  intros Ha [lp Hl] Hin Hne Hle Hb.
  destruct (sys_accept (acceptSocket_ x) (w_kernel w)) as [r k'] eqn:E.
  pose proof (accept_next _ _ _ _ _ _ Hb E) as Hacc. unfold used in *.
  destruct (decide (size _ = fd_limit)) as [Hf|Hf].
  - rewrite decide_False in Hacc by lia. destruct Hacc as [-> ->].
    unfold handleRead, Socket.accept. wp_run_cells. rewrite E. cbn [fst snd].
    destruct w. cbn in *. apply wp_drop_pending with (addr := addr); cbn; [done|set_solver..| |done].
    exact Hf.
  - rewrite decide_True in Hacc by lia. destruct Hacc as (fd & -> & Hn & Ho & Hb').
    exists fd, k'. split_and!; [done|set_solver|done|].
    unfold handleRead, get_acceptor, bind, get, deref. rewrite Ha.
    rewrite (assertInLoopThread_ok _ _ _ Hl). unfold Socket.accept, syscall. by rewrite E.
Qed.
End Full.

(** ** A small table of descriptors, to run the acceptor on *)
Record fdsim := mkFdsim { fs_open : gset Z; fs_backlog : list sockaddr }.
Definition fdsim_limit : nat := 3.

Definition fdsim_take (k : fdsim) : option (Z * fdsim) :=
  if decide (size (fs_open k) < fdsim_limit)%nat
  then let fd := base.fresh (fs_open k) in
       Some (fd, {| k with fs_open := {[fd]} ∪ fs_open k |})
  else None.
Definition fdsim_accept (k : fdsim) : (Z + (Z * sockaddr)) * fdsim :=
  match fs_backlog k with
  | [] => (inl EAGAIN, k)
  | a :: rest =>
      match fdsim_take k with
      | Some (fd, k') => (inr (fd, a), {| k' with fs_backlog := rest |})
      | None => (inl EMFILE, k)
      end
  end.

#[export] Instance fdsim_kernel : Kernel fdsim := {
  sys_epoll_create1 k := (inl EMFILE, k);
  sys_epoll_ctl _ _ _ _ k := (inr tt, k);
  sys_epoll_wait _ _ _ k := (inr [], k);
  sys_eventfd k := (inl EMFILE, k);
  sys_read _ _ k := (inl EAGAIN, k);
  sys_readv _ _ k := (inl EAGAIN, k);
  sys_write _ _ k := (inl EAGAIN, k);
  sys_close fd k := (inr tt, {| k with fs_open := fs_open k ∖ {[fd]} |});
  sys_shutdown_wr _ k := (inr tt, k);
  sys_setsockopt _ _ _ k := (inr tt, k);
  sys_socket _ k := (inl EMFILE, k);
  sys_bind _ _ k := (inr tt, k);
  sys_listen _ k := (inr tt, k);
  sys_accept _ k := fdsim_accept k;
  sys_connect _ _ k := (inr tt, k);
  sys_so_error _ k := (inr 0, k);
  sys_getsockname _ k := (inr [], k);
  sys_getpeername _ k := (inr [], k);
  sys_open_null k := match fdsim_take k with Some (fd, k') => (inr fd, k') | None => (inl EMFILE, k) end;
  sys_clone k := (inl EAGAIN, k);
}.

#[export] Program Instance fdsim_table : FdTable fdsim := {
  open_fds := fs_open;
  fd_limit := fdsim_limit;
  backlog k _ := fs_backlog k;
}.
Next Obligation. intros k fd r k' _ [= <- <-]. done. Qed.
Next Obligation.
  intros k l a rest r k' Hb Ha. cbn in Ha. unfold fdsim_accept, fdsim_take in Ha.
  rewrite Hb in Ha. case_decide; simplify_eq; [|done].
  eexists. split; [done|]. cbn. split; [apply is_fresh|done].
Qed.
Next Obligation.
  intros k r k' Hs Hlt. cbn in Hs. unfold fdsim_take in Hs. rewrite decide_True in Hs by done.
  simplify_eq. eexists. split; [done|]. cbn. split; [apply is_fresh|done].
Qed.

(** Three descriptors in use, one of them the spare; two connections wait. *)
Definition full_world : World fdsim :=
  let w := start_world (mkFdsim {[3; 4; 5]} [str "a"; str "b"]) in
  {| w with w_acceptors := {[7 := mkAcceptor 1 4 8 (Some 9) true 5]};
            w_loops := {[1 := EventLoop.bare_loop 1 3 0 2]} |}.

Lemma handleRead_drains_witness :
  wp (handleRead (λ _ _ _, ret tt) 7) (λ _ w', fs_backlog (w_kernel w') = [str "b"]) full_world.
Proof.
  assert (used (w_kernel full_world) = fd_limit) as Hf by (vm_compute; reflexivity).
  assert ({[4; 5]} ⊆ open_fds (w_kernel full_world)) as Hin by (cbn; set_solver).
  pose proof (handleRead_drains (λ _ _ _, ret tt) 7 (mkAcceptor 1 4 8 (Some 9) true 5)
    (str "a") [str "b"] full_world eq_refl (ex_intro _ _ eq_refl) Hin ltac:(discriminate)
    ltac:(rewrite Hf; reflexivity) eq_refl) as Hd.
  rewrite decide_True in Hd by exact Hf.
  eapply wp_mono; [exact Hd|]. intros [] w' (k' & fd & -> & _ & _ & Hb). exact Hb.
Defined.
End Acceptor.
