(* ===== verification/Connector.v ===== *)
(** * Connector (network/src/Connector.cc)

    Opens one outgoing connection: a non-blocking connect, a channel that waits
    for the descriptor to become writable, and the hand-over of the descriptor
    to the callback.  [on_connect] is the code bound as
    [newConnectionCallback_]; the closures hold the bare [this]. *)

From S2P Require Import Prelude.
From S2P Require Import NetTypes.
From S2P Require Import Kernel.
From S2P Require Import Channel.
From S2P Require Import Poller.
From S2P Require Import SocketsOps.
From S2P Require Import EventLoop.
From S2P Require Import LoopFrame.

Module Connector.
Definition kMaxRetryDelayMs : Z := 30 * 1000.
Definition kInitRetryDelayMs : Z := 500.

Section Ops.
Context `{Kernel K}.

Definition Connector_ctor (loop : ptr) (serverAddr : sockaddr) : M (World K) ptr :=
  let* co := new_ptr in
  set_connector co (mkConnector loop serverAddr false CsDisconnected None None kInitRetryDelayMs) ;;;
  ret co.

Definition Connector_dtor (co : ptr) : M (World K) unit :=
  let* x := get_connector co in
  assert_ (bool_decide (co_channel_ x = None)) ;;;
  modify (λ w, {| w with w_connectors := delete co (w_connectors w) |}).

Definition setNewConnectionCallback (co client : ptr) : M (World K) unit :=
  upd_connector co (λ x, {| x with co_newConnectionCallback_ := Some client |}).

Definition setState (co : ptr) (s : ConnectorState) : M (World K) unit :=
  upd_connector co (λ x, {| x with co_state_ := s |}).

(** Whatever [connect_] says, only a line is logged: the timer that would run
    [startInLoop] again is commented out. *)
Definition retry (co : ptr) (sockfd : Z) : M (World K) unit :=
  sockets.close sockfd ;;;
  setState co CsDisconnected.

Definition connecting (co : ptr) (sockfd : Z) : M (World K) unit :=
  setState co CsConnecting ;;;
  let* x := get_connector co in
  assert_ (bool_decide (co_channel_ x = None)) ;;;
  let* c := Channel.Channel_ctor (co_loop_ x) sockfd in
  upd_connector co (λ x, {| x with co_channel_ := Some c |}) ;;;
  Channel.setWriteCallback c (Connector_handleWrite co) ;;;
  Channel.setErrorCallback c (Connector_handleError co) ;;;
  ChannelOps.enableWriting c.

(** The errors after which the attempt goes on, and those that are retried;
    any other closes the socket. *)
Definition in_progress (e : Z) : bool :=
  (e =? 0) || (e =? EINPROGRESS) || (e =? EINTR) || (e =? EISCONN).
Definition retried (e : Z) : bool :=
  (e =? EAGAIN) || (e =? EADDRINUSE) || (e =? EADDRNOTAVAIL) || (e =? ECONNREFUSED)
  || (e =? ENETUNREACH).

Definition saved_errno (r : Z + unit) : Z := match r with inr _ => 0 | inl e => e end.

Definition connect (co : ptr) : M (World K) unit :=
  let* x := get_connector co in
  let* sockfd := sockets.createNonblockingOrDie (InetAddress.family (serverAddr_ x)) in
  let* r := sockets.connect sockfd (serverAddr_ x) in
  let savedErrno := saved_errno r in
  if in_progress savedErrno then connecting co sockfd
  else if retried savedErrno then retry co sockfd
  else sockets.close sockfd.

Definition startInLoop (co : ptr) : M (World K) unit :=
  let* x := get_connector co in
  assertInLoopThread (co_loop_ x) ;;;
  assert_ (bool_decide (co_state_ x = CsDisconnected)) ;;;
  if connect_ x then connect co else ret tt.

Definition start (co : ptr) : M (World K) unit :=
  upd_connector co (λ x, {| x with connect_ := true |}) ;;;
  let* x := get_connector co in
  EventLoop.runInLoop (co_loop_ x) (F_startInLoop co) (startInLoop co).

Definition restart (co : ptr) : M (World K) unit :=
  let* x := get_connector co in
  assertInLoopThread (co_loop_ x) ;;;
  setState co CsDisconnected ;;;
  upd_connector co (λ x, {| x with retryDelayMs_ := kInitRetryDelayMs |}) ;;;
  upd_connector co (λ x, {| x with connect_ := true |}) ;;;
  startInLoop co.

(** The channel is only released by [resetChannel], later. *)
Definition removeAndResetChannel (co : ptr) : M (World K) Z :=
  let* x := get_connector co in
  let* c := deref (co_channel_ x) in
  ChannelOps.disableAll c ;;;
  ChannelOps.remove c ;;;
  let* ch := get_channel c in
  EventLoop.queueInLoop (co_loop_ x) (F_resetChannel co) ;;;
  ret (ch_fd_ ch).

Definition resetChannel (co : ptr) : M (World K) unit :=
  let* x := get_connector co in
  match co_channel_ x with
  | Some c =>
      upd_connector co (λ x, {| x with co_channel_ := None |}) ;;;
      ChannelOps.Channel_dtor c
  | None => ret tt
  end.

Definition stopInLoop (co : ptr) : M (World K) unit :=
  let* x := get_connector co in
  assertInLoopThread (co_loop_ x) ;;;
  if bool_decide (co_state_ x = CsConnecting) then
    setState co CsDisconnected ;;;
    let* sockfd := removeAndResetChannel co in
    retry co sockfd
  else ret tt.

Definition stop (co : ptr) : M (World K) unit :=
  upd_connector co (λ x, {| x with connect_ := false |}) ;;;
  let* x := get_connector co in
  EventLoop.queueInLoop (co_loop_ x) (F_stopInLoop co).

Definition newConnection (on_connect : ptr → Z → M (World K) unit) (co : ptr) (sockfd : Z)
    : M (World K) unit :=
  let* x := get_connector co in
  match co_newConnectionCallback_ x with
  | Some client => on_connect client sockfd
  | None => throw bad_function_call
  end.

Definition handleWrite (on_connect : ptr → Z → M (World K) unit) (co : ptr)
    : M (World K) unit :=
  let* x := get_connector co in
  if bool_decide (co_state_ x = CsConnecting) then
    let* sockfd := removeAndResetChannel co in
    let* err := sockets.getSocketError sockfd in
    if negb (err =? 0) then retry co sockfd
    else
      let* self := sockets.isSelfConnect sockfd in
      if self : bool then retry co sockfd
      else
        setState co CsConnected ;;;
        let* x := get_connector co in
        if connect_ x then newConnection on_connect co sockfd
        else sockets.close sockfd
  else assert_ (bool_decide (co_state_ x = CsDisconnected)).

Definition handleError (co : ptr) : M (World K) unit :=
  let* x := get_connector co in
  if bool_decide (co_state_ x = CsConnecting) then
    let* sockfd := removeAndResetChannel co in
    let* _ := sockets.getSocketError sockfd in
    retry co sockfd
  else ret tt.
End Ops.

Section Lemmas.
Context `{Kernel K, Observe K, !KernelLaws K, !SocketLaws K}.
Implicit Types w : World K.
Import LoopFrame.

(** ** An attempt in progress *)
Record waiting (co : ptr) (x : Connector) (c : ptr) (ch : Channel) (lp : EventLoop) w : Prop := {
  wt_cell : w_connectors w !! co = Some x;
  wt_loop : loop_ok (co_loop_ x) lp w;
  wt_state : co_state_ x = CsConnecting;
  wt_ptr : co_channel_ x = Some c;
  wt_chan : w_channels w !! c = Some ch;
  wt_owner : ch_loop_ ch = co_loop_ x;
  wt_events : events_ ch = EPOLLOUT;
  wt_index : index_ ch = Poller.kAdded;
  wt_open : pollable (w_kernel w) (ch_fd_ ch);
  wt_write : writeCallback_ ch = Some (Connector_handleWrite co);
  wt_error : errorCallback_ ch = Some (Connector_handleError co);
}.

(** While it waits, epoll reports writability of the descriptor to the channel. *)
Lemma waiting_interest co x c ch lp w : waiting co x c ch lp w →
  interest (w_kernel w) (epollfd_ (poller_ lp)) !! ch_fd_ ch = Some (mkEvent EPOLLOUT c).
Proof.
  intros Hw. pose proof (lo_inv _ _ _ (wt_loop _ _ _ _ _ _ Hw)) as Hi.
  pose proof (Poller.inv_index _ _ _ Hi _ _ (wt_chan _ _ _ _ _ _ Hw) (wt_owner _ _ _ _ _ _ Hw)) as Hx.
  destruct (Poller.indexed_cases _ _ _ Hx) as [[Hn _]|[_ Hin]].
  { by rewrite (wt_index _ _ _ _ _ _ Hw) in Hn. }
  rewrite (Poller.registration _ _ _ _ _ Hi (wt_chan _ _ _ _ _ _ Hw) Hin).
  unfold Poller.event_of. by rewrite (wt_index _ _ _ _ _ _ Hw), (wt_events _ _ _ _ _ _ Hw).
Qed.

(** The connector after an attempt that did not reach the callback. *)
Definition given_up (x : Connector) : Connector := {| x with co_state_ := CsDisconnected |}.

Lemma wp_retry co x fd w E : w_connectors w !! co = Some x →
  wpe (retry co fd) (λ _ w', w' = {| w with w_kernel := (sys_close fd (w_kernel w)).2;
    w_connectors := <[co := given_up x]> (w_connectors w) |}) E w.
Proof. intros Hc. unfold retry, sockets.close, setState. by wp_run_cells. Qed.

Lemma wp_connecting co x lp fd w E :
  w_connectors w !! co = Some x → loop_ok (co_loop_ x) lp w → co_channel_ x = None →
  w_channels w !! w_next w = None → pollable (w_kernel w) fd →
  channels_ (poller_ lp) !! fd = None →
  wpe (connecting co fd) (λ _ w', ∃ ch lp',
    let c := w_next w in
    let x' := {| x with co_state_ := CsConnecting; co_channel_ := Some c |} in
    waiting co x' c ch lp' w' ∧ ch_fd_ ch = fd ∧ Interest.registry_only lp lp' ∧
    event_handling_ ch = false) E w.
Proof.
  intros Hc Hlo Hn Hfree Hp Hm. set (l := co_loop_ x) in *. set (c := w_next w) in *.
  pose proof (Poller.inv_loop _ _ _ (lo_inv _ _ _ Hlo)) as Hl.
  unfold connecting, setState, Channel.Channel_ctor, Channel.setWriteCallback,
    Channel.setErrorCallback. wp_run_cells. wp_assert by (by apply bool_decide_true).
  rewrite !insert_insert_eq. cbn.
  set (ch0 := mkChannel l fd 0 0 (-1) false false None (Some (Connector_handleWrite co)) None
    (Some (Connector_handleError co))).
  set (x' := {| x with co_state_ := CsConnecting; co_channel_ := Some c |}).
  match goal with |- wpe _ _ _ ?w1 => set (w1' := w1) end.
  assert (loop_ok l lp w1') as Hlo1.
  { pose proof (loop_ok_channel l lp w c ch0 Hlo Hfree eq_refl) as Hlo1.
    eapply loop_ok_cells; [exact Hlo1|done..]. }
  assert (w_channels w1' !! c = Some ch0) as Hc1 by apply lookup_insert_eq.
  eapply wpe_mono; [apply (Interest.wp_change (λ m, Z.lor m Channel.WriteEvent) l lp c ch0 w1' E
    (lo_inv _ _ _ Hlo1) Hc1 eq_refl Hp (λ _, Hm))| |done].
  intros [] w2 (k' & (_ & Hpoll & _) & -> & Hi').
  set (ch1 := {| ch0 with events_ := EPOLLOUT; addedToLoop_ := true |}).
  exists {| ch1 with index_ := Poller.kAdded |}. eexists. cbv zeta. split_and!.
  - split; cbn; try done; [apply lookup_insert_eq| |apply lookup_insert_eq|].
    + split; [exact Hi'|]. cbn. intros fd' c' [[<- <-]|[_ Hm']]%lookup_insert_Some; [by apply Hpoll|].
      apply Hpoll. by apply (lo_open _ _ _ Hlo fd' c').
    + by apply Hpoll.
  - done.
  - by eexists.
  - done.
Qed.

(** One channel waits on [fd]. *)
Definition attempt_waits co x lp fd w w' : Prop := ∃ ch lp',
  let x' := {| x with co_state_ := CsConnecting; co_channel_ := Some (w_next w) |} in
  waiting co x' (w_next w) ch lp' w' ∧ ch_fd_ ch = fd ∧ Interest.registry_only lp lp' ∧
  interest (w_kernel w') (epollfd_ (poller_ lp')) !! fd = Some (mkEvent EPOLLOUT (w_next w)).
(** [fd] is closed and all cells are as before. *)
Definition attempt_fails co x lp fd k w w' : Prop :=
  loop_ok (co_loop_ x) lp w' ∧ w_connectors w' !! co = Some x ∧
  w_kernel w' = (sys_close fd k).2 ∧ ¬ pollable (w_kernel w') fd ∧
  w_channels w' = w_channels w ∧ w_loops w' = w_loops w.

Lemma attempt_fails_intro co x lp fd k w cs : loop_ok (co_loop_ x) lp {| w with w_kernel := k |} →
  channels_ (poller_ lp) !! fd = None → cs !! co = Some x →
  attempt_fails co x lp fd k w {| w with w_kernel := (sys_close fd k).2; w_connectors := cs |}.
Proof.
  intros Hlo Hm Hc. split_and!; try done.
  - eapply loop_ok_cells; [by eapply loop_ok_close|done..].
  - by apply close_frame.
Qed.

(** C32: the outcome of [startInLoop] at rest.  When connect(2) succeeds, is in
    progress or was interrupted, exactly one channel is created, on the new
    descriptor, and epoll watches it for writability only; with any other error
    the descriptor is closed again, nothing else changes, and nothing is
    scheduled: no retry follows. *)
Theorem startInLoop_outcome co x lp w fd k1 :
  w_connectors w !! co = Some x → loop_ok (co_loop_ x) lp w → co_state_ x = CsDisconnected →
  co_channel_ x = None → connect_ x = true → w_channels w !! w_next w = None →
  sys_socket (InetAddress.family (serverAddr_ x)) (w_kernel w) = (inr fd, k1) →
  let '(r, k2) := sys_connect fd (serverAddr_ x) k1 in
  wp (startInLoop co) (λ _ w',
    if in_progress (saved_errno r) then attempt_waits co x lp fd w w'
    else attempt_fails co x lp fd k2 w w') w.
Proof.
  intros Hc Hlo Hst Hch Hcon Hfree Hs. pose proof (Poller.inv_loop _ _ _ (lo_inv _ _ _ Hlo)) as Hl.
  destruct (sys_connect fd (serverAddr_ x) k1) as [r k2] eqn:Hr.
  destruct (socket_new _ _ _ _ Hs) as (Hk1 & Hp1 & Hnew).
  pose proof (connect_frame k1 fd (serverAddr_ x)) as Hk2. rewrite Hr in Hk2. cbn in Hk2.
  assert (channels_ (poller_ lp) !! fd = None) as Hm.
  { destruct (channels_ _ !! fd) as [c|] eqn:Hm; [|done]. destruct Hnew.
    by apply (lo_open _ _ _ Hlo fd c). }
  set (w2 := {| w with w_kernel := k2 |}).
  assert (loop_ok (co_loop_ x) lp w2) as Hlo2.
  { apply loop_ok_kernel; [done|by transitivity k1]. }
  unfold startInLoop, connect, sockets.createNonblockingOrDie, sockets.connect. wp_run_cells.
  wp_assert by (by apply bool_decide_true). rewrite Hcon. wp_run_cells. rewrite Hs. cbn [fst snd].
  wp_run_cells. rewrite Hr. cbn [fst snd]. cbv zeta. destruct (in_progress _).
  - eapply wpe_mono; [apply (wp_connecting co x lp fd w2 (λ _ _, False) Hc Hlo2 Hch Hfree (proj2 Hk2 _ Hp1) Hm)| |done].
    intros [] w' (ch & lp' & Hw & Hfd & Hreg & _). exists ch, lp'. split_and!; [exact Hw|done|done|].
    rewrite <-Hfd. by eapply waiting_interest.
  - destruct (retried _).
    + eapply wpe_mono; [by apply (wp_retry co x fd w2 (λ _ _, False))| |done].
      intros [] w' ->. apply (attempt_fails_intro co x lp fd k2 w); [done|done|].
      rewrite lookup_insert_eq.
      unfold given_up. rewrite <-Hst. by destruct x.
    + unfold sockets.close. wp_run_cells.
      by apply (attempt_fails_intro co x lp fd k2 w (w_connectors w)).
Qed.

(** ** The end of an attempt *)

(** The channel is out of the loop, and waits to be freed. *)
Record detached (co : ptr) (x : Connector) (c : ptr) (ch : Channel) (lp : EventLoop) w : Prop := {
  dt_cell : w_connectors w !! co = Some x;
  dt_loop : loop_ok (co_loop_ x) lp w;
  dt_ptr : co_channel_ x = Some c;
  dt_chan : w_channels w !! c = Some ch;
  dt_owner : ch_loop_ ch = co_loop_ x;
  dt_index : index_ ch = Poller.kNew;
  dt_added : addedToLoop_ ch = false;
  dt_free : channels_ (poller_ lp) !! ch_fd_ ch = None;
}.
(** ... and its descriptor is still open. *)
Record released (co : ptr) (x : Connector) (c : ptr) (ch : Channel) (lp : EventLoop) w : Prop := {
  rl_detached :> detached co x c ch lp w;
  rl_open : pollable (w_kernel w) (ch_fd_ ch);
}.

Lemma detached_unwatched co x c ch lp w : detached co x c ch lp w →
  interest (w_kernel w) (epollfd_ (poller_ lp)) !! ch_fd_ ch = None.
Proof.
  intros Hd. rewrite (Poller.inv_interest _ _ _ (lo_inv _ _ _ (dt_loop _ _ _ _ _ _ Hd))).
  unfold Poller.registered. by rewrite lookup_omap, (dt_free _ _ _ _ _ _ Hd).
Qed.

(** [lp'] is [lp] with [resetChannel] queued, up to the poller's map. *)
Definition reset_queued (co : ptr) (lp lp' : EventLoop) : Prop :=
  pendingFunctors_ lp' = pendingFunctors_ lp ++ [F_resetChannel co]
  ∧ eventHandling_ lp' = eventHandling_ lp ∧ threadId_ lp' = threadId_ lp.

Lemma wp_removeAndReset co x c ch lp w (E : exn → World K → Prop) s :
  waiting co x c ch lp w → Interest.may_remove lp c →
  let x' := {| x with co_state_ := s |} in
  wpe (removeAndResetChannel co) (λ fd w', fd = ch_fd_ ch ∧ ∃ ch' lp',
      released co x' c ch' lp' w' ∧ ch_fd_ ch' = fd ∧ reset_queued co lp lp' ∧
      event_handling_ ch' = event_handling_ ch) E
    {| w with w_connectors := <[co := x']> (w_connectors w) |}.
Proof.
  intros [Hc Hlo Hst Hptr Hch Hown Hev Hix Hp Hwcb Hecb] Hmay x'.
  set (l := co_loop_ x) in *. set (w0 := {| w with w_connectors := _ |}).
  assert (loop_ok l lp w0) as Hlo0 by (eapply loop_ok_cells; [exact Hlo|done..]).
  unfold removeAndResetChannel. wp_run_cells. exists c. split; [done|]. wp_run_cells.
  eapply wpe_mono; [apply (Interest.wp_change (λ _, 0) l lp c ch w0 E (lo_inv _ _ _ Hlo0) Hch Hown Hp)| |done].
  { rewrite Hix. done. }
  intros [] w1 (k1 & (_ & Hp1 & _) & -> & Hi1). cbn [ch_fd_ index_ events_] in Hi1 |- *.
  set (ch1 := {| ch with events_ := 0; addedToLoop_ := true |}) in *.
  match goal with |- wpe _ _ _ (Poller.registry_post _ _ _ ?lp1 _ ?ch2) =>
    set (lp1' := lp1) in *; set (ch2' := ch2) in * end.
  set (w1 := Poller.registry_post _ _ _ _ _ _) in *.
  assert (index_ ch2' ≠ Poller.kNew) as Hn.
  { destruct Poller.index_distinct as (? & ? & _). destruct (Poller.next_index_cases ch1) as [Eq|Eq];
      cbn; rewrite Eq; congruence. }
  wp_run_cells. eapply wpe_mono; [apply (Interest.wp_remove l lp1' c ch2' w1 E Hi1 (lookup_insert_eq _ _ _) Hown Hn eq_refl Hmay)| |done].
  intros [] w2 (k2 & (_ & Hp2 & _) & -> & Hi2). cbn [ch_fd_] in Hi2 |- *. wp_run_cells.
  match type of Hi2 with Poller.inv _ ?lp2 ?w2 => set (lp2' := lp2) in *; set (w2' := w2) in * end.
  assert (loop_ok l lp2' w2') as Hlo2.
  { split; [exact Hi2|]. cbn. intros fd' c' [_ [[<- <-]|[_ Hm]]%lookup_insert_Some]%lookup_delete_Some;
      apply Hp2, Hp1; [exact Hp|by apply (lo_open _ _ _ Hlo fd' c')]. }
  eapply wpe_mono; [apply (wp_queue l lp2' w2' (F_resetChannel co) E Hlo2)| |done].
  intros [] w3 (k3 & -> & [Hk3 Hp3] & Hlo3). wp_run_cells. split; [done|].
  match type of Hlo3 with loop_ok _ ?lp3 ?w3 => set (lp3' := lp3) in *; set (w3' := w3) in * end.
  exists {| ch with events_ := 0; index_ := Poller.kNew; addedToLoop_ := false |}, lp3'.
  split; [|by repeat split].
  split; [split|]; first [done | apply lookup_insert_eq | apply lookup_delete_eq | by apply Hp3, Hp2, Hp1].
Qed.

(** The verdict of a writable descriptor: its error, and whether the socket is
    connected to itself; and the system after the look-ups. *)
Definition verdict (fd : Z) (k : K) : bool * K :=
  let '(r, k1) := sys_so_error fd k in
  let err := match r with inl e => e | inr e => e end in
  if negb (err =? 0) then (true, k1)
  else
    let '(l, k2) := sys_getsockname fd k1 in
    let '(p, k3) := sys_getpeername fd k2 in
    let name r := match r with inr a => a | inl _ => zeros 28 end in
    (sockets.same_endpoint (name l) (name p), k3).

Lemma verdict_frame fd k : epoll_frame k (verdict fd k).2.
Proof.
  unfold verdict. pose proof (so_error_quiet k fd) as [Hk1 _].
  destruct (sys_so_error fd k) as [r k1]. cbn in Hk1. destruct (negb _); [done|].
  pose proof (getsockname_frame k1 fd) as [Hk2 _]. destruct (sys_getsockname fd k1) as [a k2].
  pose proof (getpeername_frame k2 fd) as [Hk3 _]. destruct (sys_getpeername fd k2) as [b k3].
  cbn in *. by do 2 (etransitivity; [eassumption|]).
Qed.

Lemma verdict_run {A} fd (m n : M (World K) A) w :
  (let* err := sockets.getSocketError fd in
   if negb (err =? 0) then m
   else let* self := sockets.isSelfConnect fd in if self : bool then m else n) w
  = let '(refused, k') := verdict fd (w_kernel w) in
    (if refused then m else n) {| w with w_kernel := k' |}.
Proof.
  unfold verdict, sockets.getSocketError, sockets.isSelfConnect, sockets.getLocalAddr,
    sockets.getPeerAddr, syscall, bind, ret. cbn.
  destruct (sys_so_error fd (w_kernel w)) as [[e|e] k1]; cbn; (destruct (e =? 0); [|done]); cbn;
    destruct (sys_getsockname fd k1) as [[la|la] k2]; cbn;
    destruct (sys_getpeername fd k2) as [[pa|pa] k3]; cbn; by destruct (sockets.same_endpoint _ _).
Qed.

Lemma retry_run co x fd w : w_connectors w !! co = Some x →
  retry co fd w = Ret tt {| w with w_kernel := (sys_close fd (w_kernel w)).2;
                                   w_connectors := <[co := given_up x]> (w_connectors w) |}.
Proof.
  intros Hc. destruct (proj1 (wp_run _ _ _) (wp_retry co x fd w (λ _ _, False) Hc)) as ([] & w' & Hr & ->).
  exact Hr.
Qed.

(** C33: when the waiting descriptor becomes writable (or fails), the channel
    leaves the loop, [resetChannel] is queued and nothing else, and then the
    descriptor has exactly one fate: refused by its error or by a
    self-connect, it is closed and the connector is at rest, without a retry
    even if [connect_] still asks for the connection; otherwise the connector
    is connected, and the descriptor is handed to the callback if [connect_]
    still holds, closed if not. *)
Theorem handleWrite_outcome on_connect co x c ch lp w client :
  waiting co x c ch lp w → Interest.may_remove lp c →
  co_newConnectionCallback_ x = Some client →
  ∃ w1 ch1 lp1, released co x c ch1 lp1 w1 ∧ reset_queued co lp lp1 ∧
    let fd := ch_fd_ ch in let '(refused, k') := verdict fd (w_kernel w1) in
    let at_ k s := {| w1 with w_kernel := k;
      w_connectors := <[co := {| x with co_state_ := s |}]> (w_connectors w1) |} in
    handleWrite on_connect co w
    = if refused then Ret tt (at_ (sys_close fd k').2 CsDisconnected)
      else if connect_ x then on_connect client fd (at_ k' CsConnected)
      else Ret tt (at_ (sys_close fd k').2 CsConnected).
Proof.
  intros Hw Hmay Hcb. pose proof (wt_cell _ _ _ _ _ _ Hw) as Hc.
  pose proof (wp_removeAndReset co x c ch lp w (λ _ _, False) CsConnecting Hw Hmay) as Hrr.
  cbv zeta in Hrr. assert ({| x with co_state_ := CsConnecting |} = x) as Ex.
  { rewrite <-(wt_state _ _ _ _ _ _ Hw). by destruct x. }
  rewrite Ex, insert_id in Hrr by done.
  replace {| w with w_connectors := w_connectors w |} with w in Hrr by (by destruct w).
  destruct (proj1 (wp_run _ _ _) Hrr) as (fd & w1 & Hrun & -> & ch1 & lp1 & Hrel & Hfd & Hq & _).
  exists w1, ch1, lp1. split; [done|]. split; [done|]. pose proof (dt_cell _ _ _ _ _ _ Hrel) as Hc1.
  cbv zeta. assert (handleWrite on_connect co w = (let* err := sockets.getSocketError (ch_fd_ ch) in
    if negb (err =? 0) then retry co (ch_fd_ ch)
    else let* self := sockets.isSelfConnect (ch_fd_ ch) in
         if self : bool then retry co (ch_fd_ ch)
         else setState co CsConnected ;;;
              let* x := get_connector co in
              if connect_ x then newConnection on_connect co (ch_fd_ ch)
              else sockets.close (ch_fd_ ch)) w1) as Hw2.
  { unfold handleWrite, get_connector, bind, get, deref. rewrite Hc.
    rewrite bool_decide_true by apply Hw. by rewrite Hrun. }
  rewrite Hw2, verdict_run. destruct (verdict _ _) as [refused k']. cbn. destruct refused.
  - by rewrite (retry_run co x).
  - unfold setState, upd_connector, newConnection, get_connector, set_connector, sockets.close, syscall,
      bind, get, deref, modify, ret. cbn. rewrite Hc1. cbn. rewrite lookup_insert_eq. cbn.
    destruct (connect_ x).
    + cbn. rewrite lookup_insert_eq. cbn. by rewrite Hcb.
    + cbn. by destruct (sys_close _ k').
Qed.

(** Running the queued [resetChannel] frees the channel. *)
Lemma wp_resetChannel co x c ch lp w E : detached co x c ch lp w → event_handling_ ch = false →
  wpe (resetChannel co) (λ _ w', w_connectors w' !! co = Some {| x with co_channel_ := None |} ∧
    w_channels w' = delete c (w_channels w) ∧ loop_ok (co_loop_ x) lp w' ∧
    w_loops w' = w_loops w ∧ w_kernel w' = w_kernel w) E w.
Proof.
  intros [Hc Hlo Hp Hch Hown Hix Hadd _] Heh.
  pose proof (Poller.inv_loop _ _ _ (lo_inv _ _ _ Hlo)) as Hl.
  unfold resetChannel. wp_run_cells. rewrite Hp. wp_run_cells.
  unfold ChannelOps.Channel_dtor, LoopRegistry.hasChannel, del_channel. wp_run_cells.
  wp_assert by (by rewrite Heh). wp_assert by (by rewrite Hadd). rewrite Hown.
  set (w1 := {| w with w_connectors := _ |}).
  assert (loop_ok (co_loop_ x) lp w1) as Hlo1 by (eapply loop_ok_cells; [exact Hlo|done..]).
  assert (loop_ok (co_loop_ x) lp {| w1 with w_channels := delete c (w_channels w1) |}) as Hlo2.
  { eapply loop_ok_frame; [exact Hlo1|exact Hl|done| |done]. intros c'. cbn.
    destruct (decide (c' = c)) as [->|].
    - by rewrite Hch, lookup_delete_eq.
    - rewrite lookup_delete_ne by done. apply Poller.chan_frame_refl. }
  wp_run_cells. destruct (_ =? _); wp_run_cells.
  - rewrite Hown. wp_assert by apply Z.eqb_refl.
    eapply (Poller.wp_hasChannel (co_loop_ x) lp w1 c ch); [apply Hlo1|exact Hch|exact Hown|].
    rewrite Hix. cbn. wp_run_cells. split_and!; try done. apply lookup_insert_eq.
  - cbn. split_and!; try done. apply lookup_insert_eq.
Qed.

Lemma wp_stopInLoop co x c ch lp w E : waiting co x c ch lp w → Interest.may_remove lp c →
  wpe (stopInLoop co) (λ _ w', ∃ ch' lp', detached co (given_up x) c ch' lp' w' ∧
    ch_fd_ ch' = ch_fd_ ch ∧ event_handling_ ch' = event_handling_ ch ∧
    reset_queued co lp lp' ∧ ¬ pollable (w_kernel w') (ch_fd_ ch)) E w.
Proof.
  intros Hw Hmay. pose proof (wt_cell _ _ _ _ _ _ Hw) as Hc.
  pose proof (Poller.inv_loop _ _ _ (lo_inv _ _ _ (wt_loop _ _ _ _ _ _ Hw))) as Hl.
  unfold stopInLoop, setState. wp_run_cells. rewrite bool_decide_true by apply Hw. wp_run_cells.
  eapply wpe_mono; [apply (wp_removeAndReset co x c ch lp w E CsDisconnected Hw Hmay)| |done].
  intros fd w1 (-> & ch1 & lp1 & Hrel & Hfd & Hq & Heh). cbn beta.
  eapply wpe_mono; [by eapply wp_retry, Hrel| |done].
  intros [] w2 ->. exists ch1, lp1. destruct Hrel as [[Hc1 Hlo1 Hp1 Hch1 Ho1 Hi1 Ha1 Hf1] Hop1].
  split_and!; try done; [|by apply close_frame].
  split; try done; [apply lookup_insert_eq|]. rewrite <-Hfd.
  eapply loop_ok_cells; [by eapply loop_ok_close|done..].
Qed.

(** C34: stopping an attempt in progress and then running the queued
    [resetChannel] leaves the connector at rest: descriptor closed, channel
    freed, no registration left in the loop. *)
Theorem stop_releases co x c ch lp w :
  waiting co x c ch lp w → Interest.may_remove lp c → event_handling_ ch = false →
  wp (stopInLoop co ;;; resetChannel co) (λ _ w', ∃ lp',
    w_connectors w' !! co
    = Some {| x with co_state_ := CsDisconnected; co_channel_ := None |} ∧
    w_channels w' !! c = None ∧ loop_ok (co_loop_ x) lp' w' ∧ reset_queued co lp lp' ∧
    ¬ pollable (w_kernel w') (ch_fd_ ch) ∧
    interest (w_kernel w') (epollfd_ (poller_ lp')) !! ch_fd_ ch = None) w.
Proof.
  intros Hw Hmay Heh. apply wpe_bind.
  eapply wpe_mono; [apply (wp_stopInLoop co x c ch lp w (λ _ _, False) Hw Hmay)| |done].
  intros [] w1 (ch1 & lp1 & Hd & Hfd & Heh1 & Hq & Hn). cbn beta. rewrite Heh in Heh1.
  eapply wpe_mono; [by apply (wp_resetChannel _ _ _ _ _ _ (λ _ _, False) Hd)| |done].
  intros [] w2 (Hc2 & Hch2 & Hlo2 & Hl2 & Hk2). exists lp1. split_and!; try done.
  - by rewrite Hch2, lookup_delete_eq.
  - by rewrite Hk2.
  - rewrite Hk2, <-Hfd. by eapply detached_unwatched.
Qed.

(** [start] is not idempotent.  Called again, in the loop's thread, while an
    attempt is in progress or after a connection was made, it fails the
    assertion of [startInLoop]; and [stop] followed by [start] before the loop
    has run [resetChannel] fails the assertion of [connecting] as soon as
    connect(2) does not fail at once. *)
Theorem start_again_aborts co x lp w :
  w_connectors w !! co = Some x → w_loops w !! co_loop_ x = Some lp → threadId_ lp = w_tid w →
  (co_state_ x ≠ CsDisconnected → start co w = Crash AssertFailed) ∧
  (∀ c fd k1, co_state_ x = CsDisconnected → co_channel_ x = Some c →
    sys_socket (InetAddress.family (serverAddr_ x)) (w_kernel w) = (inr fd, k1) →
    in_progress (saved_errno (sys_connect fd (serverAddr_ x) k1).1) = true →
    start co w = Crash AssertFailed).
Proof.
  intros Hc Hl Ht.
  assert (start co w = startInLoop co
    {| w with w_connectors := <[co := {| x with connect_ := true |}]> (w_connectors w) |}) as ->.
  { unfold start, upd_connector, get_connector, set_connector, EventLoop.runInLoop, isInLoopThread,
      get_loop, bind, get, gets, deref, modify, ret. rewrite Hc. cbn. rewrite lookup_insert_eq. cbn.
    rewrite Hl, Ht, Z.eqb_refl. done. }
  set (w1 := {| w with w_connectors := _ |}).
  assert (w_connectors w1 !! co = Some {| x with connect_ := true |}) as Hc1 by apply lookup_insert_eq.
  assert (w_loops w1 !! co_loop_ x = Some lp) as Hl1 by done.
  split.
  - intros Hst. unfold startInLoop, get_connector, bind, get, deref. rewrite Hc1. cbn [co_loop_ co_state_].
    rewrite (assertInLoopThread_ok _ _ _ Hl1). unfold assert_. by rewrite bool_decide_false.
  - intros c fd k1 Hst Hch Hs Hp. unfold startInLoop, get_connector, bind at 1, bind at 1, get, deref.
    rewrite Hc1. cbn [co_loop_ co_state_ connect_]. unfold bind at 1.
    rewrite (assertInLoopThread_ok _ _ _ Hl1). unfold bind at 1, assert_. rewrite bool_decide_true by done.
    unfold connect, get_connector, bind at 1, bind at 1, get, deref. rewrite Hc1.
    cbn [serverAddr_]. unfold sockets.createNonblockingOrDie, syscall, bind, ret. cbn. rewrite Hs. cbn.
    unfold sockets.connect, syscall. cbn. destruct (sys_connect _ _ k1) as [r k2]. cbn in Hp |- *.
    rewrite Hp. unfold connecting, setState, upd_connector, get_connector, set_connector, bind, get, deref,
      modify. cbn. rewrite lookup_insert_eq. cbn. rewrite lookup_insert_eq. cbn. unfold assert_.
    by rewrite bool_decide_false by (rewrite Hch; done).
Qed.
End Lemmas.

(** ** A connector in the executable kernel *)
Section Sim.
Import LoopFrame.
Definition sim_connector : Connector := mkConnector 1 (zeros 28) true CsDisconnected None (Some 20) 500.
Definition sim_rest : World Sim.sim :=
  let w := EventLoop.sim_world in {| w with w_connectors := {[9 := sim_connector]} |}.
(** With the socket 5 open. *)
Definition sim_socket : World Sim.sim :=
  {| sim_rest with w_kernel := (Sim.open_fd EventLoop.sim_kernel).2 |}.

Lemma sim_loop_ok : loop_ok 1 EventLoop.sim_loop sim_rest.
Proof.
  assert (loop_ok 1 EventLoop.sim_loop EventLoop.sim_world) as Hlo.
  { split; [apply EventLoop.sim_ready|done]. }
  eapply loop_ok_cells; [exact Hlo|done..].
Qed.

Lemma sim_waiting : ∃ x c ch lp w, waiting (K := Sim.sim) 9 x c ch lp w ∧
  co_newConnectionCallback_ x = Some 20 ∧ eventHandling_ lp = false ∧ event_handling_ ch = false.
Proof.
  assert (loop_ok 1 EventLoop.sim_loop sim_socket) as Hlo.
  { apply (loop_ok_kernel _ _ _ (Sim.open_fd EventLoop.sim_kernel).2 sim_loop_ok).
    split; [done|]. intros fd. cbn. set_solver. }
  destruct (proj1 (wp_run _ _ _) (wp_connecting 9 sim_connector EventLoop.sim_loop 5 sim_socket (λ _ _, False)
    eq_refl Hlo eq_refl eq_refl ltac:(cbn; set_solver) eq_refl))
    as ([] & w & _ & ch & lp & Hw & _ & [m Hm] & Heh).
  eexists _, _, ch, lp, w. split; [exact Hw|]. split; [done|]. split; [by rewrite Hm|done].
Qed.

Lemma may_remove_idle lp c : eventHandling_ lp = false → Interest.may_remove lp c.
Proof. intros E. unfold Interest.may_remove. by rewrite E. Qed.

Lemma startInLoop_outcome_witness :
  ∃ w', startInLoop 9 sim_rest = Ret tt w' ∧
    attempt_waits 9 sim_connector EventLoop.sim_loop 5 sim_rest w'.
Proof.
  assert (sys_socket (InetAddress.family (zeros 28)) EventLoop.sim_kernel
          = (inr 5, (Sim.open_fd EventLoop.sim_kernel).2)) as Hs by (vm_compute; reflexivity).
  pose proof (startInLoop_outcome (K := Sim.sim) 9 sim_connector EventLoop.sim_loop sim_rest 5
    (Sim.open_fd EventLoop.sim_kernel).2 eq_refl sim_loop_ok eq_refl eq_refl eq_refl eq_refl
    Hs) as Hw.
  destruct (proj1 (wp_run _ _ _) Hw) as ([] & w' & Hrun & Hw'). exists w'. split; [exact Hrun|exact Hw'].
Defined.

Lemma handleWrite_outcome_witness :
  ∃ (w w' : World Sim.sim), handleWrite (λ _ _, ret tt) 9 w = Ret tt w'.
Proof.
  destruct sim_waiting as (x & c & ch & lp & w & Hw & Hcb & Hev & _).
  destruct (handleWrite_outcome (λ _ _, ret tt) 9 x c ch lp w 20 Hw (may_remove_idle _ _ Hev) Hcb)
    as (w1 & ch1 & lp1 & _ & _ & Hrun).
  exists w. cbv zeta in Hrun. destruct (verdict _ _) as [[] k']; rewrite Hrun; [by eexists|].
  destruct (connect_ x); by eexists.
Defined.

Lemma stop_releases_witness :
  ∃ (w w' : World Sim.sim) c, (stopInLoop 9 ;;; resetChannel 9) w = Ret tt w' ∧ w_channels w' !! c = None
    ∧ is_Some (w_channels w !! c).
Proof.
  destruct sim_waiting as (x & c & ch & lp & w & Hw & _ & Hev & Heh).
  destruct (proj1 (wp_run _ _ _) (stop_releases 9 x c ch lp w Hw (may_remove_idle _ _ Hev) Heh))
    as ([] & w' & Hrun & lp' & _ & Hc & _).
  exists w, w', c. split; [exact Hrun|]. split; [exact Hc|]. eexists. apply (wt_chan _ _ _ _ _ _ Hw).
Defined.

Lemma start_again_aborts_witness :
  let x := {| sim_connector with co_state_ := CsConnected |} in
  start 9 {| sim_rest with w_connectors := {[9 := x]}; w_tid := 0 |} = Crash AssertFailed.
Proof.
  intros x. refine (proj1 (start_again_aborts 9 x EventLoop.sim_loop _ _ _ _) _);
    [reflexivity|reflexivity|reflexivity|discriminate].
Defined.
End Sim.
End Connector.
