(* ===== verification/TcpInfo.v ===== *)
(** * The statistics of a connection
    (getTcpInfo, getTcpInfoString of Socket.cc and TcpConnection.cc) *)

From S2P Require Import Prelude.
From S2P Require Import CStdlib.
From S2P Require Import NetTypes.
From S2P Require Import Kernel.

Module TcpInfo.
(** The members of [struct tcp_info] the program reads; they are unsigned. *)
Record tcp_info := mkTcpInfo {
  tcpi_retransmits : Z;
  tcpi_rto : Z;
  tcpi_ato : Z;
  tcpi_snd_mss : Z;
  tcpi_rcv_mss : Z;
  tcpi_lost : Z;
  tcpi_retrans : Z;
  tcpi_rtt : Z;
  tcpi_rttvar : Z;
  tcpi_snd_ssthresh : Z;
  tcpi_snd_cwnd : Z;
  tcpi_total_retrans : Z;
}.
Definition members (i : tcp_info) : list Z :=
  [tcpi_retransmits i; tcpi_rto i; tcpi_ato i; tcpi_snd_mss i; tcpi_rcv_mss i; tcpi_lost i; tcpi_retrans i;
   tcpi_rtt i; tcpi_rttvar i; tcpi_snd_ssthresh i; tcpi_snd_cwnd i; tcpi_total_retrans i].

(** [getsockopt(fd, SOL_TCP, TCP_INFO)], and the range of what it fills in. *)
Class TcpInfoCalls (K : Type) := {
  sys_tcp_info : Z → K → option tcp_info * K;
  tcp_info_range fd k i k' : sys_tcp_info fd k = (Some i, k') → Forall (λ v, 0 ≤ v < 2 ^ 32) (members i);
}.

Definition zero_info : tcp_info := mkTcpInfo 0 0 0 0 0 0 0 0 0 0 0 0.

(** [printf] of unsigned members, each behind its label. *)
Definition labels : list bytes :=
  [str "unrecovered="; str " rto="; str " ato="; str " snd_mss="; str " rcv_mss="; str " lost="; str " retrans=";
   str " rtt="; str " rttvar="; str " sshthresh="; str " cwnd="; str " total_retrans="].
Definition info_text (i : tcp_info) : bytes :=
  concat (zip_with (λ label v, label ++ to_string v) labels (members i)).

Section Ops.
Context `{TcpInfoCalls K}.

(** [Socket::getTcpInfo]: whether it worked, and [*tcpi]. *)
Definition getTcpInfo (sockfd_ : Z) : M (World K) (bool * tcp_info) :=
  let* r := syscall (sys_tcp_info sockfd_) in
  ret (match r with Some i => (true, i) | None => (false, zero_info) end).

(** [Socket::getTcpInfoString]: whether it worked, and the text in [buf]. *)
Definition getTcpInfoString (sockfd_ : Z) (buf : bytes) (len : Z) : M (World K) (bool * bytes) :=
  let* '(ok, tcpi) := getTcpInfo sockfd_ in
  ret (ok, if ok : bool then snprintf len (info_text tcpi) else buf).

(** The same of a TcpConnection; [buf] starts as the empty text. *)
Definition conn_getTcpInfo (c : ptr) : M (World K) (bool * tcp_info) :=
  let* x := get_conn c in getTcpInfo (socket_ x).
Definition conn_getTcpInfoString (c : ptr) : M (World K) bytes :=
  let* x := get_conn c in
  let* '(_, buf) := getTcpInfoString (socket_ x) [] 1024 in
  ret buf.

(** ** The text fits its buffer *)
Lemma zlen_unsigned v : 0 ≤ v < 2 ^ 32 → zlen (to_string v) ≤ 10.
Proof.
  intros Hv. unfold to_string, dec_nonneg, zlen. rewrite (proj2 (Z.ltb_ge _ _)) by lia.
  pose proof (length_dec_digits (dec_fuel v) v [] 9). change (10 ^ Z.of_nat 10) with 10000000000 in *.
  cbn [length] in *. lia.
Qed.

Lemma zlen_concat_zip (ls : list bytes) (vs : list Z) n : Forall (λ v, zlen (to_string v) ≤ n) vs → 0 ≤ n →
  zlen (concat (zip_with (λ label v, label ++ to_string v) ls vs)) ≤ zlen (concat ls) + n * Z.of_nat (length vs).
Proof.
  intros Hvs Hn. revert ls. induction Hvs as [|v vs Hv _ IH]; intros [|l ls]; cbn [zip_with concat length]; rewrite ?zlen_app, ?zlen_nil.
  - lia.
  - pose proof (zlen_nonneg l). pose proof (zlen_nonneg (concat ls)). lia.
  - lia.
  - specialize (IH ls). lia.
Qed.

Lemma info_text_short i : Forall (λ v, 0 ≤ v < 2 ^ 32) (members i) → zlen (info_text i) ≤ 220.
Proof.
  intros Hi. etransitivity; [apply (zlen_concat_zip labels (members i) 10); [|done]|].
  - eapply Forall_impl; [exact Hi|apply zlen_unsigned].
  - change (zlen (concat labels)) with 100. change (length (members i)) with 12%nat. lia.
Qed.

(** What a connection reports: the whole text when the kernel gives the
    statistics, whatever their values, and the empty text otherwise. *)
Theorem getTcpInfoString_whole c x w : w_conns w !! c = Some x →
  wp (conn_getTcpInfoString c) (λ s w',
    let '(r, k) := sys_tcp_info (socket_ x) (w_kernel w) in
    s = match r with Some i => info_text i | None => [] end ∧ w' = {| w with w_kernel := k |}) w.
Proof.
  intros Hc. unfold conn_getTcpInfoString, getTcpInfoString, getTcpInfo. wp_run_cells.
  destruct (sys_tcp_info (socket_ x) (w_kernel w)) as [[i|] k] eqn:E; cbn [fst snd]; wp_run_cells; [|done].
  split; [|done]. unfold snprintf, ztake. apply take_ge.
  pose proof (info_text_short i (tcp_info_range _ _ _ _ E)) as Hl. unfold zlen in Hl. lia.
Qed.
End Ops.
End TcpInfo.
