(* ===== verification/TcpServer.v ===== *)
(** * TcpServer (network/src/TcpServer.cc)

    Owns the acceptor, the pool and the map of live connections.  A
    [shared_ptr] is the address of its object: reference counts are not kept,
    and the death of a connection is the separate operation
    [TcpConnection_dtor].  The atomic [started_] is written and never read; it
    is left out. *)

From stdpp Require Import sorting.
From S2P Require Import Prelude.
From S2P Require Import CStdlib.
From S2P Require Import Endian.
From S2P Require Import NetTypes.
From S2P Require Import Frame.
From S2P Require Import Kernel.
From S2P Require Import Channel.
From S2P Require Import Poller.
From S2P Require Import SocketsOps.
From S2P Require Import EventLoop.
From S2P Require Import LoopFrame.
From S2P Require Import TcpConnection.
From S2P Require Import EventLoopThreadPool.
From S2P Require Import Acceptor.

Inductive Option := kNoReusePort | kReusePort.
#[global] Instance Option_eq_dec : EqDecision Option.
Proof. solve_decision. Defined.

Module TcpServer.

(** The order of [std::string], which [std::map] iterates in. *)
Fixpoint string_leb (a b : bytes) : bool :=
  match a, b with
  | [], _ => true
  | _ :: _, [] => false
  | c :: a', d :: b' => (uchar c <? uchar d) || ((uchar c =? uchar d) && string_leb a' b')
  end.
Definition string_le (a b : bytes * ptr) : Prop := string_leb a.1 b.1 = true.
#[local] Instance string_le_dec : RelDecision string_le.
Proof. intros a b. unfold Decision, string_le. destruct (string_leb a.1 b.1); [by left|by right]. Defined.
Definition items (m : gmap bytes ptr) : list (bytes * ptr) := merge_sort string_le (map_to_list m).

Section Ops.
Context `{Kernel K, Callbacks K, Inet, HostOrder}.

Definition TcpServer_ctor (loop : ptr) (listenAddr : sockaddr) (nameArg : bytes) (option : Option)
    : M (World K) ptr :=
  let* s := new_ptr in
  let* ipPort := InetAddress.toIpPort listenAddr in
  let* acceptor := Acceptor.Acceptor_ctor loop listenAddr (bool_decide (option = kReusePort)) in
  let* pool := EventLoopThreadPool.EventLoopThreadPool_ctor loop nameArg in
  set_server s (mkTcpServer loop ipPort nameArg acceptor pool (Some DefaultCallback)
                  (Some DefaultCallback) None 1 ∅) ;;;
  Acceptor.setNewConnectionCallback acceptor s ;;;
  ret s.

Definition setConnectionCallback (s : ptr) (cb : UserCallback) : M (World K) unit :=
  upd_server s (λ x, {| x with sv_connectionCallback_ := Some cb |}).
Definition setMessageCallback (s : ptr) (cb : UserCallback) : M (World K) unit :=
  upd_server s (λ x, {| x with sv_messageCallback_ := Some cb |}).
Definition setWriteCompleteCallback (s : ptr) (cb : UserCallback) : M (World K) unit :=
  upd_server s (λ x, {| x with sv_writeCompleteCallback_ := Some cb |}).

Definition setThreadNum (s : ptr) (numThreads : Z) : M (World K) unit :=
  assert_ (0 <=? numThreads) ;;;
  let* x := get_server s in
  EventLoopThreadPool.setThreadNum (threadPool_ x) numThreads.

Definition start (threadInitCallback : Init K) (s : ptr) : M (World K) unit :=
  let* x := get_server s in
  EventLoopThreadPool.start threadInitCallback (threadPool_ x) ;;;
  let* a := get_acceptor (acceptor_ x) in
  assert_ (negb (Acceptor.listening a)) ;;;
  EventLoop.runInLoop (sv_loop_ x) (F_listen (acceptor_ x)) (Acceptor.listen (acceptor_ x)).

(** ["%s-%s#%d"], through the 64-byte buffer. *)
Definition connName (x : TcpServer) (id : Z) : bytes :=
  sv_name_ x
  ++ snprintf 64 (str "-" ++ InetAddress.c_str (ipPort_ x) ++ str "#" ++ to_string id).

(** [++nextConnId_], an [int]. *)
Definition next_id (s : ptr) : M (World K) unit :=
  let* x := get_server s in
  let n := sv_nextConnId_ x in
  if n =? INT_MAX then crash Undefined
  else set_server s {| x with sv_nextConnId_ := n + 1 |}.

Definition newConnection (s : ptr) (sockfd : Z) (peerAddr : sockaddr) : M (World K) unit :=
  let* x := get_server s in
  assertInLoopThread (sv_loop_ x) ;;;
  let* ioLoop := EventLoopThreadPool.getNextLoop (threadPool_ x) in
  let name := connName x (sv_nextConnId_ x) in
  next_id s ;;;
  let* localAddr := sockets.getLocalAddr sockfd in
  let* conn := TcpConnection.TcpConnection_ctor ioLoop name sockfd localAddr peerAddr in
  upd_server s (λ x, let m := connections_ x in {| x with connections_ := <[name := conn]> m |}) ;;;
  TcpConnection.setConnectionCallback conn (sv_connectionCallback_ x) ;;;
  TcpConnection.setMessageCallback conn (sv_messageCallback_ x) ;;;
  TcpConnection.setWriteCompleteCallback conn (sv_writeCompleteCallback_ x) ;;;
  TcpConnection.setCloseCallback conn (TcpServer_removeConnection s) ;;;
  EventLoop.runInLoop ioLoop (F_connectEstablished conn) (TcpConnection.connectEstablished conn).

(** The body, then the pool's threads and the acceptor are destroyed. *)
Definition TcpServer_dtor (s : ptr) : M (World K) unit :=
  let* x := get_server s in
  assertInLoopThread (sv_loop_ x) ;;;
  forM (items (connections_ x)) (λ '(_, conn),
    let* c := get_conn conn in
    EventLoop.runInLoop (loop_ c) (F_connectDestroyed conn) (TcpConnection.connectDestroyed conn)) ;;;
  let* p := get_pool (threadPool_ x) in
  forM (threads_ p) EventLoopThread.EventLoopThread_dtor ;;;
  Acceptor.Acceptor_dtor (acceptor_ x) ;;;
  modify (λ w, {| w with w_servers := delete s (w_servers w) |}).
End Ops.

Section Removal.
Context `{Kernel K}.

Definition removeConnectionInLoop (s conn : ptr) : M (World K) unit :=
  let* x := get_server s in
  assertInLoopThread (sv_loop_ x) ;;;
  let* c := get_conn conn in
  let n := bool_decide (is_Some (connections_ x !! name_ c)) in
  set_server s (let m := connections_ x in {| x with connections_ := delete (name_ c) m |}) ;;;
  assert_ n ;;;
  EventLoop.queueInLoop (loop_ c) (F_connectDestroyed conn).

Definition removeConnection (s conn : ptr) : M (World K) unit :=
  let* x := get_server s in
  EventLoop.runInLoop (sv_loop_ x) (F_removeConnectionInLoop s conn) (removeConnectionInLoop s conn).
End Removal.

(** ** The names of a server's connections *)
Definition ip_len (x : TcpServer) : Z := zlen (InetAddress.c_str (ipPort_ x)).

(** The longest [ipPort_] is that of an IPv6 address, 47 characters: the number
    is never cut off, and the names are distinct. *)
Lemma connName_inj x i j : ip_len x ≤ 51 → 0 ≤ i ≤ INT_MAX → 0 ≤ j ≤ INT_MAX →
  connName x i = connName x j → i = j.
Proof.
  intros Hl Hi Hj E. pose proof (zlen_to_string i Hi). pose proof (zlen_to_string j Hj).
  unfold connName, ip_len in *. apply app_inv_head in E.
  assert (zlen (str "-") = 1 ∧ zlen (str "#") = 1) as [] by done.
  rewrite !snprintf_fits in E by (rewrite !zlen_app; lia).
  do 3 apply app_inv_head in E. apply to_string_inj; [unfold INT_MIN; lia..|done].
Qed.

(** Every entry is filed under the name of its connection, numbered below
    [nextConnId_]. *)
Record registry_ok {K} (x : TcpServer) (w : World K) : Prop := {
  rg_next : 1 ≤ sv_nextConnId_ x ≤ INT_MAX;
  rg_len : ip_len x ≤ 51;
  rg_item : ∀ name c, connections_ x !! name = Some c →
    ∃ i y, 1 ≤ i < sv_nextConnId_ x ∧ name = connName x i ∧ w_conns w !! c = Some y ∧ name_ y = name;
}.

(** A connection filed under the next name. *)
Lemma registry_add {K} x x' c y (w w' : World K) : registry_ok x w → sv_nextConnId_ x < INT_MAX →
  w_conns w' !! c = Some y → name_ y = connName x (sv_nextConnId_ x) →
  (∀ c' z, w_conns w !! c' = Some z → w_conns w' !! c' = Some z) →
  x' = (let n := sv_nextConnId_ x + 1 in let m := <[connName x (sv_nextConnId_ x) := c]> (connections_ x) in
        {| x with sv_nextConnId_ := n; connections_ := m |}) →
  registry_ok x' w'.
Proof.
  intros [Hn Hl Hi] Hroom Hc Hy Hkeep ->. split; cbn [sv_nextConnId_ connections_]; [lia|done|].
  intros nm c' [[<- <-]|[_ Hc']]%lookup_insert_Some.
  - exists (sv_nextConnId_ x), y. by split_and!; [lia|lia|..].
  - destruct (Hi _ _ Hc') as (i & z & Hri & -> & Hz & Hnz). exists i, z.
    split_and!; [lia|lia|done|by apply Hkeep|done].
Qed.

Lemma registry_fresh {K} x (w : World K) : registry_ok x w →
  connections_ x !! connName x (sv_nextConnId_ x) = None.
Proof.
  intros [Hn Hl Hi]. destruct (_ !! _) as [c|] eqn:E; [|done].
  destruct (Hi _ _ E) as (i & _ & Hr & Heq & _).
  apply connName_inj in Heq; lia.
Qed.

Section Accepting.
Context `{Kernel K, Observe K, !KernelLaws K, !SocketLaws K, Callbacks K, Inet, HostOrder}.
Implicit Types w : World K.

(** A server that reports to the library's default callback and whose next
    connection goes to a loop [l] of the thread that accepts. *)
Record accepting (s : ptr) (x : TcpServer) (l : ptr) (lp : EventLoop) (fd : Z) w : Prop := {
  acc_cell : w_servers w !! s = Some x;
  acc_loop : is_Some (w_loops w !! sv_loop_ x);
  acc_pool : ∃ p rest, EventLoopThreadPool.running (threadPool_ x) p w ∧
    EventLoopThreadPool.order p = l :: rest;
  acc_io : TcpConnection.attachable l lp fd w;
  acc_fin : fin (w_kernel w) fd = false;
  acc_cb : sv_connectionCallback_ x = Some DefaultCallback;
  acc_names : registry_ok x w;
  acc_room : sv_nextConnId_ x < INT_MAX;
}.

Definition accepted (s : ptr) (x : TcpServer) (fd : Z) w w' : Prop :=
  let name := connName x (sv_nextConnId_ x) in
  ∃ c y ch lp',
    let n := sv_nextConnId_ x + 1 in let m := <[name := c]> (connections_ x) in
    let x' := {| x with sv_nextConnId_ := n; connections_ := m |} in
    connections_ x !! name = None ∧ w_servers w' !! s = Some x' ∧ registry_ok x' w' ∧
    TcpConnection.stream_at c y ch lp' w' ∧ TcpConnection.connected y = true ∧
    socket_ y = fd ∧ name_ y = name ∧ Channel.isReading ch = true ∧
    closeCallback_ y = Some (TcpServer_removeConnection s) ∧
    messageCallback_ y = sv_messageCallback_ x.


Lemma removeConnection_unknown s x c y lp0 w :
  w_servers w !! s = Some x → w_loops w !! sv_loop_ x = Some lp0 → threadId_ lp0 = w_tid w →
  w_conns w !! c = Some y → connections_ x !! name_ y = None →
  removeConnection s c w = Crash AssertFailed.
Proof.
  intros Hs Hl Ht Hc Hn.
  unfold removeConnection, removeConnectionInLoop, EventLoop.runInLoop, isInLoopThread, get_server, get_loop,
    get_conn, bind, get, gets, deref, ret. rewrite Hs. cbn. rewrite Hl. cbn. rewrite Ht, Z.eqb_refl, Hs. cbn.
  rewrite (assertInLoopThread_ok _ _ _ Hl). rewrite Hc. cbn. rewrite Hn. done.
Qed.

(** Removing a registered connection in the server's thread. *)
Lemma wp_removeConnection s x c y lp0 lp w E :
  w_servers w !! s = Some x → w_loops w !! sv_loop_ x = Some lp0 → threadId_ lp0 = w_tid w →
  w_conns w !! c = Some y → connections_ x !! name_ y = Some c → LoopFrame.loop_ok (loop_ y) lp w →
  wpe (removeConnection s c) (λ _ w', ∃ k',
    let m := delete (name_ y) (connections_ x) in let x' := {| x with connections_ := m |} in
    let lp' := {| lp with pendingFunctors_ := pendingFunctors_ lp ++ [F_connectDestroyed c] |} in
    w' = {| w with w_kernel := k'; w_loops := <[loop_ y := lp']> (w_loops w);
                   w_servers := <[s := x']> (w_servers w) |} ∧
    epoll_frame (w_kernel w) k' ∧ LoopFrame.loop_ok (loop_ y) lp' w') E w.
Proof.
  intros Hs Hl0 Ht Hc Hin Hlo.
  unfold removeConnection, EventLoop.runInLoop. wp_run_cells. rewrite Ht, Z.eqb_refl.
  unfold removeConnectionInLoop. wp_run_cells. rewrite Hin. wp_assert by (by apply bool_decide_true; eauto).
  match goal with |- wpe _ _ _ ?v => set (w1 := v) end.
  assert (LoopFrame.loop_ok (loop_ y) lp w1) as Hlo1 by (eapply LoopFrame.loop_ok_cells; [exact Hlo|done..]).
  eapply wpe_mono; [apply (LoopFrame.wp_queue _ _ _ (F_connectDestroyed c) (λ _ _, False) Hlo1)| |done].
  intros [] w2 (k' & -> & Hk & Hlo2). by exists k'.
Qed.

(** C36: a registered connection that closes, in the server's thread, is taken
    out of the map exactly once: the assertion on the erased count holds, no
    other entry changes, and [connectDestroyed] is queued on the connection's
    own loop.  Removing it a second time fails the assertion. *)
Theorem removeConnection_once s x c y lp0 lp w :
  w_servers w !! s = Some x → w_loops w !! sv_loop_ x = Some lp0 → threadId_ lp0 = w_tid w →
  registry_ok x w → w_conns w !! c = Some y → connections_ x !! name_ y = Some c →
  LoopFrame.loop_ok (loop_ y) lp w →
  wp (removeConnection s c) (λ _ w',
    let m := delete (name_ y) (connections_ x) in let x' := {| x with connections_ := m |} in
    let lp' := {| lp with pendingFunctors_ := pendingFunctors_ lp ++ [F_connectDestroyed c] |} in
    w_servers w' !! s = Some x' ∧ registry_ok x' w' ∧ LoopFrame.loop_ok (loop_ y) lp' w' ∧
    removeConnection s c w' = Crash AssertFailed) w.
Proof.
  intros Hs Hl0 Ht Hreg Hc Hin Hlo.
  eapply wpe_mono; [by apply (wp_removeConnection s x c y lp0 lp w (λ _ _, False))| |done].
  intros [] w2 (k' & -> & _ & Hlo2). cbv zeta. split_and!.
  - apply lookup_insert_eq.
  - destruct Hreg as [Hn Hlen Hi]. split; [done|done|]. cbn.
    intros nm c' [_ Hc']%lookup_delete_Some. by apply Hi.
  - exact Hlo2.
  - assert (∃ lp1, <[loop_ y := {| lp with pendingFunctors_ := pendingFunctors_ lp ++ [F_connectDestroyed c] |}]>
      (w_loops w) !! sv_loop_ x = Some lp1 ∧ threadId_ lp1 = w_tid w) as (lp1 & Hl1 & Ht1).
    { pose proof (Poller.inv_loop _ _ _ (LoopFrame.lo_inv _ _ _ Hlo)) as Hl.
      destruct (decide (sv_loop_ x = loop_ y)) as [E|E].
      - rewrite E, lookup_insert_eq. eexists. split; [done|]. cbn. congruence.
      - rewrite lookup_insert_ne by done. eauto. }
    eapply removeConnection_unknown with (lp0 := lp1); [apply lookup_insert_eq|exact Hl1|exact Ht1|exact Hc|].
    apply lookup_delete_eq.
Qed.
End Accepting.

(** ** A server in the executable kernel *)
Section Sim.
#[local] Existing Instance TcpConnection.quiet_callbacks.
#[local] Instance sim_inet : Inet := {
  inet_ntop _ _ := str "0.0.0.0"; inet_pton _ _ := None; gethostbyname _ := None }.

Definition sim_server : TcpServer :=
  mkTcpServer 1 (str "0.0.0.0:10001") (str "ZMQBridge") 32 31 (Some DefaultCallback)
    (Some DefaultCallback) None 1 ∅.
Definition sim_pool : EventLoopThreadPool := mkPool 1 (str "ZMQBridge") true 0 0 [] [].
Definition sim_listening : World Sim.sim :=
  let w := TcpConnection.sim_net in
  {| w with w_servers := {[30 := sim_server]}; w_pools := {[31 := sim_pool]} |}.

Lemma sim_accepting : accepting 30 sim_server 1 EventLoop.sim_loop 5 sim_listening.
Proof.
  assert (TcpConnection.attachable 1 EventLoop.sim_loop 5 sim_listening) as Hatt.
  { eapply TcpConnection.attachable_frame; [apply TcpConnection.sim_attachable|done..]. }
  assert (registry_ok sim_server sim_listening) as Hreg by (split; [done|vm_compute; done|done]).
  assert (EventLoopThreadPool.running 31 sim_pool sim_listening) as Hrun.
  { split; try done. by split; [|left]. }
  split; [done|by eexists|by exists sim_pool, []|exact Hatt|done..].
Qed.


(** The server once the connection 40 is filed. *)
Definition sim_name : bytes := connName sim_server 1.
Definition sim_filed : TcpServer :=
  {| sim_server with sv_nextConnId_ := 2; connections_ := {[sim_name := 40]} |}.
Definition sim_member : TcpConnection := TcpConnection.fresh_conn 1 sim_name 5 41 [] [].
Definition sim_up : World Sim.sim :=
  {| sim_listening with w_servers := {[30 := sim_filed]}; w_conns := {[40 := sim_member]} |}.

Lemma sim_up_ok : registry_ok sim_filed sim_up ∧ LoopFrame.loop_ok 1 EventLoop.sim_loop sim_up.
Proof.
  split.
  - split; [done|vm_compute; done|]. cbn. intros name c [<- <-]%lookup_singleton_Some.
    exists 1, sim_member. split_and!; [lia|lia|done|apply lookup_singleton_eq|done].
  - pose proof (TcpConnection.att_ready _ _ _ _ TcpConnection.sim_attachable) as Hr.
    assert (LoopFrame.loop_ok 1 EventLoop.sim_loop TcpConnection.sim_net) as Hlo by by split; [apply Hr|].
    eapply LoopFrame.loop_ok_cells; [exact Hlo|done..].
Qed.

Lemma removeConnection_once_witness :
  ∃ w', removeConnection 30 40 sim_up = Ret tt w' ∧ removeConnection 30 40 w' = Crash AssertFailed.
Proof.
  pose proof (removeConnection_once 30 sim_filed 40 sim_member EventLoop.sim_loop EventLoop.sim_loop sim_up
    ltac:(apply lookup_singleton_eq) ltac:(reflexivity) ltac:(reflexivity) (proj1 sim_up_ok)
    ltac:(apply lookup_singleton_eq) ltac:(apply lookup_singleton_eq) (proj2 sim_up_ok)) as Hw.
  destruct (proj1 (wp_run _ _ _) Hw) as ([] & w' & Hrun & _ & _ & _ & Hcrash).
  exists w'. split; [exact Hrun|exact Hcrash].
Defined.
End Sim.
End TcpServer.
