(* ===== verification/TcpClient.v ===== *)
(** * TcpClient (network/src/TcpClient.cc)

    One connector and at most one connection.  Only the client holds the
    connector, so the client's destructor destroys it; whether [connection_] is
    the last reference to its connection is the argument [unique]. *)

From S2P Require Import Prelude.
From S2P Require Import CStdlib.
From S2P Require Import Endian.
From S2P Require Import NetTypes.
From S2P Require Import Frame.
From S2P Require Import Kernel.
From S2P Require Import Channel.
From S2P Require Import Poller.
From S2P Require Import SocketsOps.
From S2P Require Import EventLoop.
From S2P Require Import LoopFrame.
From S2P Require Import TcpConnection.
From S2P Require Import Connector.

Module TcpClient.
Section Ops.
Context `{Kernel K}.

(** [detail::removeConnection]. *)
Definition detail_removeConnection (loop conn : ptr) : M (World K) unit :=
  EventLoop.queueInLoop loop (F_connectDestroyed conn).

Definition TcpClient_ctor (loop : ptr) (serverAddr : sockaddr) (nameArg : bytes)
    : M (World K) ptr :=
  let* c := new_ptr in
  let* co := Connector.Connector_ctor loop serverAddr in
  set_client c (mkTcpClient loop co nameArg (Some DefaultCallback) (Some DefaultCallback) None
                  false true 1 None) ;;;
  Connector.setNewConnectionCallback co c ;;;
  ret c.

(** The body, then the members: only [connector_] has a destructor that runs
    code. *)
Definition TcpClient_dtor (unique : bool) (c : ptr) : M (World K) unit :=
  let* x := get_client c in
  match connection_ x with
  | Some conn =>
      let* y := get_conn conn in
      assert_ (cl_loop_ x =? loop_ y) ;;;
      let cb := Detail_removeConnection (cl_loop_ x) in
      EventLoop.runInLoop (cl_loop_ x) (F_setCloseCallback conn cb)
        (TcpConnection.setCloseCallback conn cb) ;;;
      when unique (TcpConnection.forceClose conn)
  | None => Connector.stop (connector_ x)
  end ;;;
  Connector.Connector_dtor (connector_ x) ;;;
  modify (λ w, {| w with w_clients := delete c (w_clients w) |}).

Definition setConnectionCallback (c : ptr) (cb : UserCallback) : M (World K) unit :=
  upd_client c (λ x, {| x with cl_connectionCallback_ := Some cb |}).
Definition setMessageCallback (c : ptr) (cb : UserCallback) : M (World K) unit :=
  upd_client c (λ x, {| x with cl_messageCallback_ := Some cb |}).
Definition setWriteCompleteCallback (c : ptr) (cb : UserCallback) : M (World K) unit :=
  upd_client c (λ x, {| x with cl_writeCompleteCallback_ := Some cb |}).
Definition enableRetry (c : ptr) : M (World K) unit :=
  upd_client c (λ x, {| x with cl_retry_ := true |}).
Definition set_connect (c : ptr) (b : bool) : M (World K) unit :=
  upd_client c (λ x, {| x with cl_connect_ := b |}).

Definition connect (c : ptr) : M (World K) unit :=
  set_connect c true ;;;
  let* x := get_client c in
  Connector.start (connector_ x).

Definition disconnect (c : ptr) : M (World K) unit :=
  set_connect c false ;;;
  let* x := get_client c in
  match connection_ x with
  | Some conn => TcpConnection.shutdown conn
  | None => ret tt
  end.

Definition stop (c : ptr) : M (World K) unit :=
  set_connect c false ;;;
  let* x := get_client c in
  Connector.stop (connector_ x).

(** ["%s:%s#%d"], through the 32-byte buffer. *)
Definition connName `{Inet, HostOrder} (x : TcpClient) (peer : bytes) : bytes :=
  cl_name_ x
  ++ snprintf 32 (str ":" ++ InetAddress.c_str peer ++ str "#" ++ to_string (cl_nextConnId_ x)).

Definition next_id (c : ptr) : M (World K) unit :=
  let* x := get_client c in
  let n := cl_nextConnId_ x in
  if n =? INT_MAX then crash Undefined
  else set_client c {| x with cl_nextConnId_ := n + 1 |}.

Definition newConnection `{!Callbacks K, Inet, HostOrder} (c : ptr) (sockfd : Z)
    : M (World K) unit :=
  let* x := get_client c in
  assertInLoopThread (cl_loop_ x) ;;;
  let* peerAddr := sockets.getPeerAddr sockfd in
  let* peer := InetAddress.toIpPort peerAddr in
  let name := connName x peer in
  next_id c ;;;
  let* localAddr := sockets.getLocalAddr sockfd in
  let* conn := TcpConnection.TcpConnection_ctor (cl_loop_ x) name sockfd localAddr peerAddr in
  TcpConnection.setConnectionCallback conn (cl_connectionCallback_ x) ;;;
  TcpConnection.setMessageCallback conn (cl_messageCallback_ x) ;;;
  TcpConnection.setWriteCompleteCallback conn (cl_writeCompleteCallback_ x) ;;;
  TcpConnection.setCloseCallback conn (TcpClient_removeConnection c) ;;;
  upd_client c (λ x, {| x with connection_ := Some conn |}) ;;;
  TcpConnection.connectEstablished conn.

Definition removeConnection (c conn : ptr) : M (World K) unit :=
  let* x := get_client c in
  assertInLoopThread (cl_loop_ x) ;;;
  let* y := get_conn conn in
  assert_ (cl_loop_ x =? loop_ y) ;;;
  assert_ (bool_decide (connection_ x = Some conn)) ;;;
  upd_client c (λ x, {| x with connection_ := None |}) ;;;
  EventLoop.queueInLoop (cl_loop_ x) (F_connectDestroyed conn) ;;;
  let* x := get_client c in
  if cl_retry_ x && cl_connect_ x then Connector.restart (connector_ x) else ret tt.
End Ops.

(** ** Destroying a client *)
Section Lemmas.
Context `{Kernel K, Observe K, !KernelLaws K, !SocketLaws K}.
Implicit Types w : World K.
Import LoopFrame.

(** C37: destroying a client that has no connection is never clean.  While its
    connector is connecting (or its channel waits to be reset) the connector's
    destructor fails its assertion; otherwise [stop] has queued a closure over
    the connector that is destroyed at once, and running that closure reads
    freed memory. *)
Theorem dtor_unconnected c x co y lp u w :
  w_clients w !! c = Some x → connection_ x = None → connector_ x = co →
  w_connectors w !! co = Some y → loop_ok (co_loop_ y) lp w →
  if co_channel_ y is Some _ then TcpClient_dtor u c w = Crash AssertFailed
  else wp (TcpClient_dtor u c) (λ _ w', ∃ lp', w_loops w' !! co_loop_ y = Some lp' ∧
         pendingFunctors_ lp' = pendingFunctors_ lp ++ [F_stopInLoop co] ∧
         Connector.stopInLoop co w' = Crash Undefined) w.
Proof.
  intros Hc Hno Hco Hy Hlo. set (y1 := {| y with connect_ := false |}).
  set (w1 := {| w with w_connectors := <[co := y1]> (w_connectors w) |}).
  assert (loop_ok (co_loop_ y) lp w1) as Hlo1 by (eapply loop_ok_cells; [exact Hlo|done..]).
  assert (wp (Connector.stop co) (λ _ w', ∃ k', w' = {| w1 with w_kernel := k';
    w_loops := <[co_loop_ y := {| lp with pendingFunctors_ := pendingFunctors_ lp ++ [F_stopInLoop co] |}]>
      (w_loops w1) |}) w) as Hstop.
  { unfold Connector.stop. wp_run_cells.
    eapply wpe_mono; [apply (wp_queue _ _ _ (F_stopInLoop co) (λ _ _, False) Hlo1)| |done].
    intros [] w2 (k' & -> & _). by exists k'. }
  destruct (proj1 (wp_run _ _ _) Hstop) as ([] & w2 & Hrun & k' & ->). clear Hstop.
  match type of Hrun with _ = Ret _ ?v => set (w2 := v) in * end.
  assert (TcpClient_dtor u c w = (Connector.Connector_dtor co ;;;
    modify (λ w, {| w with w_clients := delete c (w_clients w) |})) w2) as Heq.
  { unfold TcpClient_dtor, get_client, bind, get, deref. rewrite Hc, Hno, Hco. by rewrite Hrun. }
  assert (w_connectors w2 !! co = Some y1) as Hy2 by apply lookup_insert_eq.
  assert (w_loops w2 !! co_loop_ y = Some {| lp with pendingFunctors_ := pendingFunctors_ lp ++ [F_stopInLoop co] |})
    as Hl2 by apply lookup_insert_eq.
  clearbody w2. unfold Connector.Connector_dtor in Heq. destruct (co_channel_ y) as [ch|] eqn:Hch.
  - rewrite Heq. unfold get_connector, bind, get, deref. rewrite Hy2. unfold assert_.
    by rewrite bool_decide_false by done.
  - eapply wpe_eq; [exact Heq|]. wp_run_cells. wp_assert by (by apply bool_decide_true).
    split; [done|].
    unfold Connector.stopInLoop, get_connector, bind, get, deref. cbn. by rewrite lookup_delete_eq.
Qed.
End Lemmas.

Section Sim.
Definition sim_client : TcpClient :=
  mkTcpClient 1 9 (str "c") (Some DefaultCallback) (Some DefaultCallback) None false true 1 None.
Definition sim_unconnected : World Sim.sim :=
  {| Connector.sim_rest with w_clients := {[50 := sim_client]} |}.

Lemma dtor_unconnected_witness :
  ∃ w', TcpClient_dtor true 50 sim_unconnected = Ret tt w' ∧ Connector.stopInLoop 9 w' = Crash Undefined.
Proof.
  assert (LoopFrame.loop_ok 1 EventLoop.sim_loop sim_unconnected) as Hlo
    by (eapply LoopFrame.loop_ok_cells; [exact Connector.sim_loop_ok|done..]).
  pose proof (dtor_unconnected 50 sim_client 9 Connector.sim_connector EventLoop.sim_loop true sim_unconnected
    eq_refl eq_refl eq_refl eq_refl Hlo) as Hw.
  destruct (proj1 (wp_run _ _ _) Hw) as ([] & w' & Hrun & lp' & _ & _ & Hcrash).
  exists w'. split; [exact Hrun|exact Hcrash].
Defined.
End Sim.
End TcpClient.
