(* ===== verification/System.v ===== *)
(** * The network library assembled

    Events and queued closures run the operation they are bound to; what is
    left open is the code of the library's user ([UserCode]).  With it the
    event loop runs the whole library. *)

From S2P Require Import Prelude.
From S2P Require Import Endian.
From S2P Require Import Buffer.
From S2P Require Import NetTypes.
From S2P Require Import Frame.
From S2P Require Import Kernel.
From S2P Require Import Channel.
From S2P Require Import Poller.
From S2P Require Import SocketsOps.
From S2P Require Import EventLoop.
From S2P Require Import LoopFrame.
From S2P Require Import TcpConnection.
From S2P Require Import Acceptor.
From S2P Require Import Connector.
From S2P Require Import TcpServer.
From S2P Require Import TcpClient.

Class UserCode (K : Type) := {
  uc_connection : Z → ptr → M (World K) unit;
  uc_message : Z → ptr → M (World K) unit;
  uc_write_complete : Z → ptr → M (World K) unit;
  uc_functor : Z → M (World K) unit;
}.

Module System.
Section Ops.
Context `{Kernel K, UserCode K, Inet, HostOrder}.

(** The close callbacks bound by the server, the client and its destructor. *)
#[global] Instance library_callbacks : Callbacks K := {
  user_connection := uc_connection;
  user_message := uc_message;
  user_write_complete := uc_write_complete;
  on_close cb conn :=
    match cb with
    | TcpServer_removeConnection s => TcpServer.removeConnection s conn
    | TcpClient_removeConnection c => TcpClient.removeConnection c conn
    | Detail_removeConnection loop => TcpClient.detail_removeConnection loop conn
    end;
}.

Definition run_event (e : EventCallback) : M (World K) unit :=
  match e with
  | EventLoop_handleRead l => EventLoop.handleRead l
  | TcpConnection_handleRead c => TcpConnection.handleRead c
  | TcpConnection_handleWrite c => TcpConnection.handleWrite c
  | TcpConnection_handleClose c => TcpConnection.handleClose c
  | TcpConnection_handleError c => TcpConnection.handleError c
  | Acceptor_handleRead a => Acceptor.handleRead TcpServer.newConnection a
  | Connector_handleWrite co => Connector.handleWrite TcpClient.newConnection co
  | Connector_handleError co => Connector.handleError co
  end.

Definition run_functor (f : Functor) : M (World K) unit :=
  match f with
  | F_sendInLoop c message => TcpConnection.sendInLoop c message
  | F_shutdownInLoop c => TcpConnection.shutdownInLoop c
  | F_forceCloseInLoop c => TcpConnection.forceCloseInLoop c
  | F_startReadInLoop c => TcpConnection.startReadInLoop c
  | F_stopReadInLoop c => TcpConnection.stopReadInLoop c
  | F_connectEstablished c => TcpConnection.connectEstablished c
  | F_connectDestroyed c => TcpConnection.connectDestroyed c
  | F_writeComplete cb c => TcpConnection.writeComplete cb c
  | F_setCloseCallback c cb => TcpConnection.setCloseCallback c cb
  | F_removeConnectionInLoop s c => TcpServer.removeConnectionInLoop s c
  | F_listen a => Acceptor.listen a
  | F_startInLoop co => Connector.startInLoop co
  | F_stopInLoop co => Connector.stopInLoop co
  | F_resetChannel co => Connector.resetChannel co
  | F_user n => uc_functor n
  end.

Definition loop (fuel : nat) (l : ptr) : M (World K) bool := EventLoop.loop run_event run_functor fuel l.

(** What [EventLoop::loop] does after the active channels of a turn. *)
Definition end_turn (l : ptr) : M (World K) unit :=
  upd_loop l (λ x, {| x with currentActiveChannel_ := None |}) ;;;
  upd_loop l (λ x, {| x with eventHandling_ := false |}) ;;;
  EventLoop.doPendingFunctors run_functor l.
End Ops.

(** ** A server's connection, from the peer's close to the destructor *)
Section Life.
Context `{Kernel K, Observe K, !KernelLaws K, !SocketLaws K, UserCode K, Inet, HostOrder}.
Implicit Types w : World K.

Lemma ready_loop_ok l lp w : Interest.ready l lp w → LoopFrame.loop_ok l lp w.
Proof.
  intros Hr. split; [apply Hr|]. intros fd c Hm.
  destruct (Poller.inv_chan _ _ _ (Interest.ready_inv _ _ _ Hr) _ _ Hm) as (ch & Hch & <- & Hl).
  by eapply Interest.ready_pollable.
Qed.

(** Updates of the loop object that leave its poller alone. *)
Lemma conn_at_its_loop c x ch lp lp' w k' : TcpConnection.conn_at c x ch lp w →
  Poller.same_poller lp lp' → threadId_ lp' = threadId_ lp → wakeupFd_ lp' = wakeupFd_ lp →
  epoll_frame (w_kernel w) k' →
  TcpConnection.conn_at c x ch lp' {| w with w_kernel := k'; w_loops := <[loop_ x := lp']> (w_loops w) |}.
Proof.
  intros [Hc Hch Hr Hfd Ho Hw Ht] Hs Et Ew Hk. split; cbn; try done; [|congruence..].
  eapply Interest.ready_frame; [exact Hr|apply lookup_insert_eq|done| |by eauto|done].
  intros. apply Poller.chan_frame_refl.
Qed.

(** A connection that is up and filed with its server, on the server's loop. *)
Record filed (s : ptr) (srv : TcpServer) (c : ptr) (x : TcpConnection) (ch : Channel) (lp : EventLoop) w : Prop := {
  fl_conn : TcpConnection.conn_at c x ch lp w;
  fl_up : TcpConnection.closing x = true;
  fl_idle : event_handling_ ch = false;
  fl_cb : connectionCallback_ x = Some DefaultCallback;
  fl_close : closeCallback_ x = Some (TcpServer_removeConnection s);
  fl_server : w_servers w !! s = Some srv;
  fl_loop : sv_loop_ srv = loop_ x;
  fl_entry : connections_ srv !! name_ x = Some c;
  fl_queue : pendingFunctors_ lp = [];
}.

Lemma wp_close_filed s srv c x ch lp w : filed s srv c x ch lp w →
  wp (run_event (TcpConnection_handleClose c)) (λ _ w', ∃ x' ch' lp',
    let m := delete (name_ x) (connections_ srv) in let srv' := {| srv with connections_ := m |} in
    TcpConnection.conn_at c x' ch' lp' w' ∧ TcpConnection.down x' ch' ∧ event_handling_ ch' = false ∧
    TcpConnection.same_ids x x' ∧ w_servers w' !! s = Some srv' ∧
    pendingFunctors_ lp' = [F_connectDestroyed c]) w.
Proof.
  intros [Ha Hup Heh Hcb Hccb Hs Hsl He Hq].
  pose proof (TcpConnection.at_conn _ _ _ _ _ Ha) as Hc. pose proof (TcpConnection.at_loop _ _ _ _ _ Ha) as Hl.
  set (x1 := {| x with state_ := kDisconnected |}).
  pose proof (TcpConnection.conn_at_set _ _ _ _ _ x1 Ha ltac:(done)) as Ha1.
  cbn [run_event]. unfold TcpConnection.handleClose, TcpConnection.setState. wp_run_cells. wp_assert by done.
  apply (wpe_preserves w_servers); [apply _|].
  eapply wpe_mono; [eapply (TcpConnection.wp_conn_change (λ _, 0) c _ ch lp _ (λ _ _, False) Ha1)| |done].
  intros [] w2 (ch2 & lp2 & Ha2 & Hev & [m Hlp2] & Hnew & _ & Heh2) Es2. cbn in Es2.
  pose proof (TcpConnection.at_conn _ _ _ _ _ Ha2) as Hc2. pose proof (TcpConnection.at_loop _ _ _ _ _ Ha2) as Hl2.
  pose proof (TcpConnection.at_thread _ _ _ _ _ Ha2) as Ht2.
  assert (connectionCallback_ x1 = Some DefaultCallback) as Hcb1 by done.
  assert (closeCallback_ x1 = Some (TcpServer_removeConnection s)) as Hccb1 by done.
  unfold TcpConnection.connectionCallback. wp_run_cells. rewrite Hcb1.
  unfold TcpConnection.defaultConnectionCallback. wp_run_cells.
  unfold TcpConnection.closeCallback. wp_run_cells. rewrite Hccb1. cbn [on_close library_callbacks].
  eapply wpe_mono; [eapply (TcpServer.wp_removeConnection s srv c x1 lp2 lp2 w2 (λ _ _, False))| |done];
    [by rewrite Es2|by rewrite Hsl|exact Ht2|exact Hc2|exact He|by apply ready_loop_ok, Ha2|].
  intros [] w3 (k' & -> & Hk & _).
  set (lp3 := {| lp2 with pendingFunctors_ := pendingFunctors_ lp2 ++ [F_connectDestroyed c] |}).
  exists x1, ch2, lp3. cbv zeta. split.
  { eapply TcpConnection.conn_at_cells; [by apply (conn_at_its_loop c x1 ch2 lp2 lp3 w2 k' Ha2)|done..]. }
  split_and!; try done; [congruence|apply lookup_insert_eq|]. cbn. rewrite Hlp2. cbn. by rewrite Hq.
Qed.

End Life.

Section Sim.
Import LittleEndianHost.
#[local] Instance silent_code : UserCode Sim.sim := {
  uc_connection _ _ := ret tt; uc_message _ _ := ret tt; uc_write_complete _ _ := ret tt;
  uc_functor _ := ret tt }.
#[local] Instance sim_inet : Inet := {
  inet_ntop _ _ := str "0.0.0.0"; inet_pton _ _ := None; gethostbyname _ := None }.

(** A connection of the executable kernel, filed with a server. *)
Lemma sim_filed : ∃ srv x ch lp (w : World Sim.sim), filed 30 srv 3 x ch lp w.
Proof.
  destruct TcpConnection.sim_conn as (x & ch & lp & w & Hs & _ & _ & _ & _ & _ & _ & _ & Heh & _).
  pose proof (TcpConnection.st_at _ _ _ _ _ Hs) as Ha. pose proof (TcpConnection.st_up _ _ _ _ _ Hs) as Hup.
  set (x1 := {| x with connectionCallback_ := Some DefaultCallback;
                       closeCallback_ := Some (TcpServer_removeConnection 30) |}).
  set (lp1 := {| lp with pendingFunctors_ := [] |}).
  set (srv := mkTcpServer (loop_ x) [] [] 31 32 None None None 2 {[name_ x := 3]}).
  pose proof (TcpConnection.conn_at_set _ _ _ _ _ x1 Ha ltac:(done)) as Ha1.
  match type of Ha1 with TcpConnection.conn_at _ _ _ _ ?v => set (w1 := v) in Ha1 end.
  assert (Poller.same_poller lp lp1) as Hsp by done.
  pose proof (conn_at_its_loop 3 x1 ch lp lp1 w1 (w_kernel w1) Ha1 Hsp eq_refl eq_refl (reflexivity _)) as Ha2.
  match type of Ha2 with TcpConnection.conn_at _ _ _ _ ?v => set (w2 := v) in Ha2 end.
  exists srv, x1, ch, lp1, {| w2 with w_servers := {[30 := srv]} |}.
  split; try done; [|apply lookup_singleton_eq].
  by eapply TcpConnection.conn_at_cells; [exact Ha2|..].
Qed.

End Sim.
End System.
