(* ===== verification/Json.v ===== *)
(** * JSON values (as nlohmann::json builds, reads and prints them)

    The values the program builds field by field.  [dump] and [parse] are the
    library's and stay parameters. *)

From S2P Require Import Prelude.

Module Json.

(** A number is kept as the [int] it converts to. *)
Inductive jvalue :=
| JNull
| JBool (b : bool)
| JNumber (n : Z)
| JString (s : bytes)
| JArray (l : list jvalue)
| JObject (m : list (bytes * jvalue)).

(** [dump] throws [type_error] on text that is not UTF-8, [parse] throws
    [parse_error]. *)
Class JsonLib := {
  dump_text : jvalue → option bytes;
  parse_text : bytes → option jvalue;
}.

Definition dump `{JsonLib} {S} (j : jvalue) : M S bytes :=
  match dump_text j with Some t => ret t | None => throw json_type_error end.
Definition parse `{JsonLib} {S} (t : bytes) : M S jvalue :=
  match parse_text t with Some j => ret j | None => throw json_parse_error end.

Fixpoint assoc_get (k : bytes) (m : list (bytes * jvalue)) : option jvalue :=
  match m with
  | [] => None
  | (k', v) :: m' => if bool_decide (k = k') then Some v else assoc_get k m'
  end.
Fixpoint assoc_set (k : bytes) (v : jvalue) (m : list (bytes * jvalue)) : list (bytes * jvalue) :=
  match m with
  | [] => [(k, v)]
  | (k', v') :: m' => if bool_decide (k = k') then (k, v) :: m' else (k', v') :: assoc_set k v m'
  end.

(** [j[k] = v]: null becomes an object; any other value throws. *)
Definition set_field {S} (k : bytes) (v : jvalue) (j : jvalue) : M S jvalue :=
  match j with
  | JNull => ret (JObject [(k, v)])
  | JObject m => ret (JObject (assoc_set k v m))
  | _ => throw json_type_error
  end.
(** [j.at(k)]. *)
Definition at_field {S} (k : bytes) (j : jvalue) : M S jvalue :=
  match j with
  | JObject m => at_ (assoc_get k m)
  | _ => throw json_type_error
  end.
Definition contains_field (k : bytes) (j : jvalue) : bool :=
  match j with JObject m => bool_decide (is_Some (assoc_get k m)) | _ => false end.

(** The implicit conversions to [std::string] and [bool]. *)
Definition to_std_string {S} (j : jvalue) : M S bytes :=
  match j with JString s => ret s | _ => throw json_type_error end.
Definition to_bool {S} (j : jvalue) : M S bool :=
  match j with JBool b => ret b | _ => throw json_type_error end.

(** [{"code": code, "message": message}]. *)
Definition error_object (code : Z) (message : bytes) : jvalue :=
  JObject [(str "code", JNumber code); (str "message", JString message)].

Lemma to_std_string_object {S} m (s : S) : to_std_string (JObject m) s = Throw json_type_error s.
Proof. done. Qed.

End Json.
