(* ===== verification/Pzmq.v ===== *)
(** * pzmq: RPC, publish/subscribe and push/pull over zmq
    (hybrid-comm/include/pzmq.hpp)

    The zmq library and the two file system calls are the class [Zmq].  A
    [pzmq] is an object of the store [zstate]; the closures it keeps are values
    of the types [F] (RPC actions) and [C] (message callbacks), which the
    programs that use it define and run ([ZUser]).  The thread a [pzmq] starts
    is its event loop, run step by step; a thread object is present in
    [zmq_thread_] until it is joined. *)

From S2P Require Import Prelude.
From S2P Require Import CStdlib.
From S2P Require Import PzmqData.
Import PzmqData.

Module Pzmq.
Abbreviation ptr := Z.

(** ** zmq.h *)
Definition ZMQ_PUB : Z := 1.
Definition ZMQ_SUB : Z := 2.
Definition ZMQ_REQ : Z := 3.
Definition ZMQ_REP : Z := 4.
Definition ZMQ_PULL : Z := 7.
Definition ZMQ_PUSH : Z := 8.
Definition ZMQ_SNDMORE : Z := 2.
Definition ZMQ_POLLIN : Z := 1.
Definition ZMQ_RPC_FUN : Z := Z.lor ZMQ_REP 0x80.
Definition ZMQ_RPC_CALL : Z := Z.lor ZMQ_REQ 0x80.

Inductive sockopt :=
| ZMQ_RECONNECT_IVL (ms : Z)
| ZMQ_RECONNECT_IVL_MAX (ms : Z)
| ZMQ_RCVTIMEO (ms : Z)
| ZMQ_SNDTIMEO (ms : Z)
| ZMQ_SUBSCRIBE (prefix : bytes).

(** Handles are addresses, [None] is NULL.  [zmq_msg_recv] gives its result and
    what the message holds afterwards (nothing, if it fails); [zmq_poll] its
    result and [revents]. *)
Class Zmq (K : Type) := {
  zmq_ctx_new : K → option ptr * K;
  zmq_socket (ctx : option ptr) (type : Z) : K → option ptr * K;
  zmq_bind (sock : option ptr) (url : bytes) : K → Z * K;
  zmq_connect (sock : option ptr) (url : bytes) : K → Z * K;
  zmq_setsockopt (sock : option ptr) (o : sockopt) : K → Z * K;
  zmq_send (sock : option ptr) (data : bytes) (flags : Z) : K → Z * K;
  zmq_msg_recv (sock : option ptr) (flags : Z) : K → (Z * bytes) * K;
  zmq_poll (sock : option ptr) (events timeout : Z) : K → (Z * Z) * K;
  zmq_close (sock : option ptr) : K → Z * K;
  zmq_ctx_shutdown (ctx : option ptr) : K → Z * K;
  zmq_ctx_destroy (ctx : option ptr) : K → Z * K;
  sys_access (path : bytes) : K → Z * K;
  sys_remove (path : bytes) : K → Z * K;
}.

(** How many times the do-while loops of [creat] are followed. *)
Class Attempts := attempts : nat.

(** [std::unordered_map]: its iteration order is not specified. *)
Class Hashing := {
  um_iter {A B} `{Countable A} : gmap A B → list (A * B);
  um_iter_perm {A B} `{Countable A} (m : gmap A B) : um_iter m ≡ₚ map_to_list m;
}.

(** ** The object *)
Inductive rpc_callback_fun (F : Type) :=
| RpcListAction
| RpcUser (f : F).
#[global] Arguments RpcListAction {F}.
#[global] Arguments RpcUser {F} f.

(** [rpc_url_head_], [flage_] and [timeout_] have initialisers; [mode_] is
    indeterminate ([None]) until it is first written. *)
Record pzmq (F C : Type) := mkPzmq {
  rpc_url_head_ : bytes;
  zmq_ctx_ : option ptr;
  zmq_socket_ : option ptr;
  zmq_fun_ : gmap bytes (rpc_callback_fun F);
  flage_ : bool;
  zmq_thread_ : option (option C);
  mode_ : option Z;
  rpc_server_ : bytes;
  zmq_url_ : bytes;
  timeout_ : Z;
}.
#[global] Arguments mkPzmq {F C}.
#[global] Arguments rpc_url_head_ {F C}.
#[global] Arguments zmq_ctx_ {F C}.
#[global] Arguments zmq_socket_ {F C}.
#[global] Arguments zmq_fun_ {F C}.
#[global] Arguments flage_ {F C}.
#[global] Arguments zmq_thread_ {F C}.
#[global] Arguments mode_ {F C}.
#[global] Arguments rpc_server_ {F C}.
#[global] Arguments zmq_url_ {F C}.
#[global] Arguments timeout_ {F C}.

(** The live [pzmq] objects of a process, over the zmq library's state. *)
Record zstate (K F C : Type) := mkZ {
  z_kernel : K;
  z_objs : gmap ptr (pzmq F C);
  z_next : ptr;
}.
#[global] Arguments mkZ {K F C}.
#[global] Arguments z_kernel {K F C}.
#[global] Arguments z_objs {K F C}.
#[global] Arguments z_next {K F C}.

Definition rpc_url_head_length : Z := 6.
Definition rpc_url_head : bytes := str "ipc:///tmp/rpc.".

Section Ops.
Context `{Zmq K} {F C : Type}.
Abbreviation MZ := (M (zstate K F C)).

Definition zcall {A} (f : K → A * K) : MZ A := λ s,
  let '(a, k) := f (z_kernel s) in Ret a {| s with z_kernel := k |}.
Definition get_pz (p : ptr) : MZ (pzmq F C) := let* s := get in deref (z_objs s !! p).
Definition set_pz (p : ptr) (x : pzmq F C) : MZ unit :=
  modify (λ s, let m := z_objs s in {| s with z_objs := <[p := x]> m |}).
Definition upd_pz (p : ptr) (f : pzmq F C → pzmq F C) : MZ unit :=
  let* x := get_pz p in set_pz p (f x).
Definition new_pz (x : pzmq F C) : MZ ptr := λ s,
  let p := z_next s in let m := z_objs s in
  Ret p {| s with z_next := p + 1; z_objs := <[p := x]> m |}.

(** [mode_] read: indeterminate before the first write. *)
Definition get_mode (p : ptr) : MZ Z := let* x := get_pz p in deref (mode_ x).

Definition bind_mode (mode : Z) : bool :=
  (mode =? ZMQ_PUB) || (mode =? ZMQ_PULL) || (mode =? ZMQ_RPC_FUN).
Definition is_bind (p : ptr) : MZ bool := let* m := get_mode p in ret (bind_mode m).

(** [url.substr(rpc_url_head_length)]. *)
Definition socket_file (url : bytes) : MZ bytes :=
  if rpc_url_head_length <=? zlen url then ret (zdrop rpc_url_head_length url) else throw out_of_range.

Definition set_timeout (p : ptr) (ms : Z) : MZ unit := upd_pz p (λ x, {| x with timeout_ := ms |}).
Definition get_timeout (p : ptr) : MZ Z := let* x := get_pz p in ret (timeout_ x).

(** [zmq_thread_ = std::make_unique<std::thread>(...)]: destroying a thread
    that was not joined ends the process. *)
Definition start_thread (p : ptr) (raw_call : option C) : MZ unit :=
  upd_pz p (λ x, {| x with flage_ := false |}) ;;;
  let* x := get_pz p in
  match zmq_thread_ x with
  | Some _ => crash Terminated
  | None => set_pz p {| x with zmq_thread_ := Some raw_call |}
  end.

Definition creat_pub (p : ptr) (url : bytes) : MZ Z :=
  let* x := get_pz p in zcall (zmq_bind (zmq_socket_ x) url).

Definition creat_push (p : ptr) (url : bytes) : MZ Z :=
  let* x := get_pz p in
  zcall (zmq_setsockopt (zmq_socket_ x) (ZMQ_RECONNECT_IVL 100)) ;;;
  zcall (zmq_setsockopt (zmq_socket_ x) (ZMQ_RECONNECT_IVL_MAX 1000)) ;;;
  zcall (zmq_setsockopt (zmq_socket_ x) (ZMQ_SNDTIMEO (timeout_ x))) ;;;
  zcall (zmq_connect (zmq_socket_ x) url).

Definition creat_pull (p : ptr) (url : bytes) (raw_call : option C) : MZ Z :=
  let* x := get_pz p in
  let* r := zcall (zmq_bind (zmq_socket_ x) url) in
  start_thread p raw_call ;;; ret r.

Definition subscriber_url (p : ptr) (url : bytes) (raw_call : option C) : MZ Z :=
  let* x := get_pz p in
  zcall (zmq_setsockopt (zmq_socket_ x) (ZMQ_RECONNECT_IVL 100)) ;;;
  zcall (zmq_setsockopt (zmq_socket_ x) (ZMQ_RECONNECT_IVL_MAX 1000)) ;;;
  let* r := zcall (zmq_connect (zmq_socket_ x) url) in
  zcall (zmq_setsockopt (zmq_socket_ x) (ZMQ_SUBSCRIBE [])) ;;;
  start_thread p raw_call ;;; ret r.

Definition creat_rep (p : ptr) (url : bytes) (raw_call : option C) : MZ Z :=
  let* x := get_pz p in
  let* r := zcall (zmq_bind (zmq_socket_ x) url) in
  start_thread p raw_call ;;; ret r.

Definition creat_req (p : ptr) (url : bytes) : MZ Z :=
  let* x := get_pz p in
  let* missing :=
    if bool_decide (rpc_url_head_ x = []) then ret false
    else let* file := socket_file url in
         let* r := zcall (sys_access file) in ret (negb (r =? 0)) in
  if missing : bool then ret (-1)
  else
    zcall (zmq_setsockopt (zmq_socket_ x) (ZMQ_SNDTIMEO (timeout_ x))) ;;;
    zcall (zmq_setsockopt (zmq_socket_ x) (ZMQ_RCVTIMEO (timeout_ x))) ;;;
    zcall (zmq_connect (zmq_socket_ x) url).

(** [do { x = f(); } while (x == NULL)]. *)
Fixpoint until_some {A} (n : nat) (f : K → option A * K) : MZ A :=
  match n with
  | O => crash Unfollowed
  | S n' => let* r := zcall f in if r is Some a then ret a else until_some n' f
  end.

Definition creat `{Attempts} (p : ptr) (url : bytes) (raw_call : option C) : MZ Z :=
  upd_pz p (λ x, {| x with zmq_url_ := url |}) ;;;
  let* c := until_some attempts zmq_ctx_new in
  upd_pz p (λ x, {| x with zmq_ctx_ := Some c |}) ;;;
  let* mode := get_mode p in
  let* sock := until_some attempts (zmq_socket (Some c) (Z.land mode 0x3f)) in
  upd_pz p (λ x, {| x with zmq_socket_ := Some sock |}) ;;;
  if mode =? ZMQ_PUB then creat_pub p url
  else if mode =? ZMQ_SUB then subscriber_url p url raw_call
  else if mode =? ZMQ_PUSH then creat_push p url
  else if mode =? ZMQ_PULL then creat_pull p url raw_call
  else if mode =? ZMQ_RPC_FUN then creat_rep p url raw_call
  else if mode =? ZMQ_RPC_CALL then creat_req p url
  else ret 0.

Definition close_zmq (p : ptr) : MZ unit :=
  let* x := get_pz p in
  zcall (zmq_close (zmq_socket_ x)) ;;;
  zcall (zmq_ctx_destroy (zmq_ctx_ x)) ;;;
  let* mode := get_mode p in
  when (bind_mode mode && negb (bool_decide (rpc_url_head_ x = [])))
    (let* file := socket_file (zmq_url_ x) in
     let* r := zcall (sys_access file) in
     when (r =? 0) (zcall (sys_remove file) ;;; ret tt)) ;;;
  upd_pz p (λ x, {| x with zmq_socket_ := None; zmq_ctx_ := None |}).

(** [pzmq(server)], and [pzmq(url, mode, raw_call)]. *)
Definition pzmq_lazy (server : bytes) : MZ ptr :=
  let head := if contains (str "://") server then [] else rpc_url_head in
  new_pz (mkPzmq head None None ∅ true None None server [] 3000).

(** [url[i]], the terminator included. *)
Definition char_at (url : bytes) (i : nat) : MZ ascii := deref ((url ++ ["000"%char]) !! i).
Definition keeps_head (url : bytes) : MZ bool :=
  let* c := char_at url 0 in
  if bool_decide (c = "i"%char) then ret true
  else let* d := char_at url 1 in ret (bool_decide (d = "p"%char)).

Definition pzmq_ctor `{Attempts} (url : bytes) (mode : Z) (raw_call : option C) : MZ ptr :=
  let* keep := keeps_head url in
  let head := if keep : bool then rpc_url_head else [] in
  let* p := new_pz (mkPzmq head None None ∅ true None (Some mode) [] [] 3000) in
  when (negb (mode =? ZMQ_RPC_FUN)) (creat p url raw_call ;;; ret tt) ;;;
  ret p.

(** [~pzmq]: the event loop sees [flage_] and is joined.  An exception out of a
    destructor ends the process. *)
Definition pzmq_dtor (p : ptr) : MZ unit :=
  let* x := get_pz p in
  match zmq_socket_ x with
  | None => ret tt
  | Some _ =>
      upd_pz p (λ x, {| x with flage_ := true |}) ;;;
      zcall (zmq_ctx_shutdown (zmq_ctx_ x)) ;;;
      upd_pz p (λ x, {| x with zmq_thread_ := None |}) ;;;
      try_catch (close_zmq p) (λ _, crash Terminated)
  end ;;;
  modify (λ s, let m := z_objs s in {| s with z_objs := delete p m |}).

Definition send_data (p : ptr) (raw : bytes) : MZ Z :=
  let* x := get_pz p in zcall (zmq_send (zmq_socket_ x) raw 0).

(** ** The RPC registry *)
(** The loop of [_rpc_list_action] from the element [k] on. *)
Fixpoint list_loop (action_list k : bytes) (ks : list bytes) : bytes :=
  let action_list := action_list ++ [dquote] ++ k ++ [dquote] in
  match ks with
  | [] => action_list ++ str "]}"
  | k' :: ks' => list_loop (action_list ++ str ",") k' ks'
  end.
Definition rpc_list_action `{Hashing} (p : ptr) : MZ bytes :=
  let* x := get_pz p in
  match (um_iter (zmq_fun_ x)).*1 with
  | [] => crash Undefined
  | k :: ks => ret (list_loop (json "{'actions':[") k ks)
  end.

Definition register_rpc_action `{Attempts} (p : ptr) (action : bytes) (raw_call : F) : MZ Z :=
  let* x := get_pz p in
  let set_fun := upd_pz p (λ x,
    let m := zmq_fun_ x in {| x with zmq_fun_ := <[action := RpcUser raw_call]> m |}) in
  if bool_decide (is_Some (zmq_fun_ x !! action)) then set_fun ;;; ret 0
  else
    let* r :=
      if bool_decide (zmq_fun_ x = ∅) then
        upd_pz p (λ x, {| x with mode_ := Some ZMQ_RPC_FUN;
                                 zmq_fun_ := {[str "list_action" := RpcListAction]} |}) ;;;
        creat p (rpc_url_head_ x ++ rpc_server_ x) None
      else ret 0 in
    set_fun ;;; ret r.

Definition unregister_rpc_action (p : ptr) (action : bytes) : MZ unit :=
  upd_pz p (λ x, let m := zmq_fun_ x in {| x with zmq_fun_ := delete action m |}).
End Ops.

(** ** Operations that call back into the program *)

(** A program [W] embeds the store of its [pzmq] objects, and runs its
    closures. *)
Class ZHost (K F C W : Type) := {
  zst : W → zstate K F C;
  set_zst : zstate K F C → W → W;
  zst_set z w : zst (set_zst z w) = z;
  set_zst_set z z' w : set_zst z (set_zst z' w) = set_zst z w;
  set_zst_zst w : set_zst (zst w) w = w;
}.
Class ZUser (F C W : Type) := {
  run_rpc : F → ptr → pzmq_data → M W bytes;
  run_msg : C → ptr → pzmq_data → M W unit;
}.

Section Calls.
Context `{Zmq K, ZHost K F C W}.

Definition zq {A} (m : M (zstate K F C) A) : M W A := zoom zst set_zst m.

(** [call_rpc_action]; the result is [ret] and what the callback computed, if
    it was called.  [ret] is indeterminate when the socket already existed. *)
Definition call_rpc_action `{Attempts} {A} (p : ptr) (action data : bytes)
    (raw_call : pzmq_data → M W A) : M W (Z * option A) :=
  let* x := zq (get_pz p) in
  let connect :=
    match zmq_socket_ x with
    | Some _ => ret (inr None)
    | None =>
        if bool_decide (rpc_server_ x = []) then ret (inl (-1))
        else
          zq (upd_pz p (λ x, {| x with mode_ := Some ZMQ_RPC_CALL |})) ;;;
          let* r := zq (creat p (rpc_url_head_ x ++ rpc_server_ x) None) in
          if r =? 0 then ret (inr (Some r)) else throw (thrown_int r)
    end in
  let* c := try_catch (let* c := connect in
      match c with
      | inl r => ret (inl r)
      | inr r =>
          let* x := zq (get_pz p) in
          zq (zcall (zmq_send (zmq_socket_ x) action ZMQ_SNDMORE)) ;;;
          zq (zcall (zmq_send (zmq_socket_ x) data 0)) ;;;
          let* '(_, d) := zq (zcall (zmq_msg_recv (zmq_socket_ x) 0)) in
          let* a := raw_call (mkData d) in
          ret (inr (r, Some a))
      end)
    (λ e, if e is thrown_int n then ret (inr (Some n, None)) else throw e) in
  match c with
  | inl r => ret (r, None)
  | inr (r, a) => zq (close_zmq p) ;;; let* r := deref r in ret (r, a)
  end.

(** What an RPC server answers: the action's result, or "NotAction" when there
    is no such action or it throws. *)
Definition rpc_answer `{Hashing, !ZUser F C W} (p : ptr) (action data : pzmq_data) : M W bytes :=
  try_catch
    (let* x := zq (get_pz p) in
     let* f := at_ (zmq_fun_ x !! string_ action) in
     match f with
     | RpcListAction => zq (rpc_list_action p)
     | RpcUser f => run_rpc f p data
     end)
    (λ _, ret (str "NotAction")).

(** One turn of the loop of [zmq_event_loop]. *)
Definition event_loop_step `{Hashing, !ZUser F C W} (p : ptr) (raw_call : option C) : M W unit :=
  let* mode := zq (get_mode p) in
  let* x := zq (get_pz p) in
  let* ready :=
    if mode =? ZMQ_PULL then
      let* '(r, revents) := zq (zcall (zmq_poll (zmq_socket_ x) ZMQ_POLLIN (-1))) in
      if r =? -1 then zq (zcall (zmq_close (zmq_socket_ x))) ;;; ret false
      else ret (negb (Z.land revents ZMQ_POLLIN =? 0))
    else ret true in
  if negb ready then ret tt
  else
    let* '(r, d) := zq (zcall (zmq_msg_recv (zmq_socket_ x) 0)) in
    if r <=? 0 then ret tt
    else if mode =? ZMQ_RPC_FUN then
      let* '(_, d1) := zq (zcall (zmq_msg_recv (zmq_socket_ x) 0)) in
      let* retval := rpc_answer p (mkData d) (mkData d1) in
      zq (zcall (zmq_send (zmq_socket_ x) retval 0)) ;;; ret tt
    else
      match raw_call with
      | Some cb => run_msg cb p (mkData d)
      | None => throw bad_function_call
      end.

(** [n] turns of the loop, which stops at [flage_]: whether it has ended.  An
    exception leaves the thread's function and ends the process. *)
Fixpoint zmq_event_loop `{Hashing, !ZUser F C W} (n : nat) (p : ptr) (raw_call : option C) : M W bool :=
  let* x := zq (get_pz p) in
  if flage_ x then ret true
  else match n with
       | O => ret false
       | S n' =>
           try_catch (event_loop_step p raw_call) (λ _, crash Terminated) ;;;
           zmq_event_loop n' p raw_call
       end.
End Calls.

(** ** Reasoning about the operations *)
Section Wp.
Context {K F C : Type}.
Implicit Types s : zstate K F C.

Lemma wpe_zcall {A} (f : K → A * K) Q E s :
  wpe (zcall f) Q E s ↔ Q (f (z_kernel s)).1 {| s with z_kernel := (f (z_kernel s)).2 |}.
Proof. unfold zcall, wpe. by destruct (f (z_kernel s)). Qed.
Lemma wpe_get_pz p Q E s :
  wpe (get_pz p) Q E s ↔ ∃ x, z_objs s !! p = Some x ∧ Q x s.
Proof. unfold get_pz. by wp_simp. Qed.
Lemma wpe_set_pz p x Q E s :
  wpe (set_pz p x) Q E s ↔ Q tt (let m := z_objs s in {| s with z_objs := <[p := x]> m |}).
Proof. done. Qed.
Lemma wpe_upd_pz p f Q E s :
  wpe (upd_pz p f) Q E s ↔
  ∃ x, z_objs s !! p = Some x ∧ Q tt (let m := z_objs s in {| s with z_objs := <[p := f x]> m |}).
Proof. unfold upd_pz. by rewrite wpe_bind, wpe_get_pz. Qed.
Lemma wpe_new_pz x Q E s :
  wpe (new_pz x) Q E s ↔
  Q (z_next s) (let m := z_objs s in let p := z_next s in
    {| s with z_next := p + 1; z_objs := <[p := x]> m |}).
Proof. done. Qed.
Lemma wpe_get_mode p Q E s :
  wpe (get_mode p) Q E s ↔
  ∃ x, z_objs s !! p = Some x ∧ ∃ m, mode_ x = Some m ∧ Q m s.
Proof. unfold get_mode. rewrite wpe_bind, wpe_get_pz. by setoid_rewrite wpe_deref. Qed.
End Wp.

Ltac simpl_z := cbn [z_kernel z_objs z_next fst snd].

(** One step of a program over [zstate]. *)
Ltac z_step :=
  lazymatch goal with
  | |- wpe (zcall _) _ _ _ => refine (proj2 (wpe_zcall _ _ _ _) _)
  | |- wpe (get_pz _) _ _ _ => refine (proj2 (wpe_get_pz _ _ _ _) _)
  | |- wpe (set_pz _ _) _ _ _ => refine (proj2 (wpe_set_pz _ _ _ _ _) _)
  | |- wpe (upd_pz _ _) _ _ _ => refine (proj2 (wpe_upd_pz _ _ _ _ _) _)
  | |- wpe (new_pz _) _ _ _ => refine (proj2 (wpe_new_pz _ _ _ _) _)
  | |- wpe (get_mode _) _ _ _ => refine (proj2 (wpe_get_mode _ _ _ _) _)
  | |- wpe (if true then _ else _) _ _ _ => cbv iota
  | |- wpe (if false then _ else _) _ _ _ => cbv iota
  | |- wpe (if negb true then _ else _) _ _ _ => cbn [negb]
  | |- wpe (if negb false then _ else _) _ _ _ => cbn [negb]
  | _ => wp_basic
  end; cbn beta; simpl_z.
Ltac z_run :=
  repeat lazymatch goal with
  | |- ∃ x, _ !! _ = Some x ∧ _ => eexists; split; [solve [solve_cell]|]; cbn beta
  | |- ∃ a, Some _ = Some a ∧ _ => eexists; split; [reflexivity|]; cbn beta
  | |- ∃ m, mode_ _ = Some m ∧ _ => eexists; split; [solve [first [eassumption|reflexivity]]|]; cbn beta
  | _ => z_step
  end.

(** *** Listing the actions *)
Fixpoint join (sep : bytes) (l : list bytes) : bytes :=
  match l with
  | [] => []
  | [x] => x
  | x :: l' => x ++ sep ++ join sep l'
  end.
Lemma join_cons sep x y l : join sep (x :: y :: l) = x ++ sep ++ join sep (y :: l).
Proof. done. Qed.
Definition quoted (k : bytes) : bytes := [dquote] ++ k ++ [dquote].
Definition actions_text (keys : list bytes) : bytes :=
  json "{'actions':[" ++ join (str ",") (map quoted keys) ++ str "]}".

Lemma list_loop_join ks : ∀ acc k,
  list_loop acc k ks = acc ++ join (str ",") (map quoted (k :: ks)) ++ str "]}".
Proof.
  induction ks as [|k' ks IH]; intros acc k; cbn [list_loop map].
  - unfold quoted. cbn [join]. by rewrite <-!app_assoc.
  - rewrite IH. cbn [map]. rewrite join_cons. change (quoted k) with ([dquote] ++ k ++ [dquote]). by rewrite <-!app_assoc.
Qed.

(** C39: the hand-written loop of [_rpc_list_action] prints the JSON object
    whose "actions" are the registered names, each once, separated by commas,
    in the table's iteration order; on an empty table it dereferences [end()]. *)
Theorem list_action_text `{Hashing} {K F C} p (x : pzmq F C) (s : zstate K F C) :
  z_objs s !! p = Some x →
  ∃ keys, keys ≡ₚ (map_to_list (zmq_fun_ x)).*1 ∧
    rpc_list_action p s = if bool_decide (zmq_fun_ x = ∅) then Crash Undefined else Ret (actions_text keys) s.
Proof.
  intros Hx. exists (um_iter (zmq_fun_ x)).*1. split; [by apply fmap_Permutation, um_iter_perm|].
  unfold rpc_list_action, get_pz, bind, get, deref. rewrite Hx.
  pose proof (um_iter_perm (zmq_fun_ x)) as Hp. case_bool_decide as He.
  - rewrite He, map_to_list_empty in Hp. rewrite He.
    by apply Permutation_nil_r in Hp as ->.
  - destruct (um_iter (zmq_fun_ x)) as [|[k f] l].
    + destruct He. apply map_to_list_empty_iff. by apply Permutation_nil_l in Hp.
    + cbn [fst fmap list_fmap]. rewrite list_loop_join. done.
Qed.

(** *** A reply socket (zmq_socket(3), ZMQ_REP)

    A request is a list of parts.  Receiving takes the parts of one request in
    order; then exactly one reply is owed, and receiving fails (EFSM) until it
    is sent. *)
Record rep := mkRep {
  parts : list bytes;
  requests : list (list bytes);
  owed : bool;
  replies : list bytes;
}.
Class ZmqObserve (K : Type) := { rep_state : K → ptr → rep }.
Class RepLaws (K : Type) `{Zmq K, ZmqObserve K} := {
  rep_recv k sock : let '(r, k') := zmq_msg_recv (Some sock) 0 k in
    match rep_state k sock with
    | mkRep (m :: ms) q o out => r = (zlen m, m) ∧ rep_state k' sock = mkRep ms q o out
    | mkRep [] ((m :: ms) :: q) false out =>
        r = (zlen m, m) ∧ rep_state k' sock = mkRep ms q true out
    | mkRep [] q true out => r = (-1, []) ∧ rep_state k' sock = mkRep [] q true out
    | _ => True
    end;
  rep_send k sock d q out : rep_state k sock = mkRep [] q true out →
    rep_state (zmq_send (Some sock) d 0 k).2 sock = mkRep [] q false (out ++ [d]);
}.

(** Step into an operation on the embedded store. *)
Ltac w_step :=
  lazymatch goal with
  | |- wpe (zq _) _ _ _ => refine (proj2 (wpe_zoom _ _ _ _ _ _) _); rewrite ?zst_set
  | _ => z_step
  end.
Ltac w_run :=
  repeat lazymatch goal with
  | |- ∃ x, _ !! _ = Some x ∧ _ => eexists; split; [solve [solve_cell]|]; cbn beta
  | |- ∃ a, Some _ = Some a ∧ _ => eexists; split; [reflexivity|]; cbn beta
  | |- ∃ m, mode_ _ = Some m ∧ _ => eexists; split; [solve [first [eassumption|reflexivity]]|]; cbn beta
  | _ => w_step
  end.

(** The loop, from a live object. *)
Lemma event_loop_at `{Zmq K, ZHost K F C W, Hashing, !ZUser F C W} k p cb (x : pzmq F C) (w : W) :
  z_objs (zst w) !! p = Some x →
  zmq_event_loop k p cb w = (if flage_ x then ret true
    else match k with
         | O => ret false
         | S k' => let* _ := try_catch (event_loop_step p cb) (λ _, crash Terminated) in zmq_event_loop k' p cb
         end) w.
Proof.
  intros Hp. destruct k; cbn [zmq_event_loop]; unfold bind at 1; unfold zq, zoom, get_pz, bind at 1, get at 1, deref;
    rewrite Hp, set_zst_zst; by destruct (flage_ x).
Qed.

(** One turn, when a step keeps the object. *)
Lemma loop_turn `{Zmq K, ZHost K F C W, Hashing, !ZUser F C W} p cb (x : pzmq F C) (P : W → Prop) (w : W) :
  z_objs (zst w) !! p = Some x → P w →
  may_throw (event_loop_step p cb) (λ _ w', P w' ∧ z_objs (zst w') !! p = Some x) w →
  turn_ok (zmq_event_loop 1 p cb) P w.
Proof.
  intros Hp HP Hstep. unfold turn_ok. rewrite (event_loop_at 1 p cb x w Hp). destruct (flage_ x) eqn:Hfl; [done|].
  apply (turn_ok_catch _ _ (λ w', P w' ∧ z_objs (zst w') !! p = Some x)); [done|]. intros _ w' [HP' Hp'].
  unfold turn_ok. by rewrite (event_loop_at 0 p cb x w' Hp'), Hfl.
Qed.

Section Serving.
Context `{Zmq K, !ZmqObserve K, !RepLaws K, ZHost K F C W, !ZUser F C W, Hashing}.
Implicit Types w : W.

(** The server [p], whose actions keep the invariant [I] of the program, leave
    the server and its socket alone, and answer as [Post] says. *)
Record server (p : ptr) (x : pzmq F C) (sock : ptr) (I : W → Prop) (Post : F → bytes → bytes → Prop) : Prop := {
  sv_mode : mode_ x = Some ZMQ_RPC_FUN;
  sv_sock : zmq_socket_ x = Some sock;
  sv_run : flage_ x = false;
  sv_kernel w k : I w → I (set_zst (let z := zst w in {| z with z_kernel := k |}) w);
  sv_call a f d w : zmq_fun_ x !! a = Some (RpcUser f) → I w →
    let same w' := z_objs (zst w') !! p = z_objs (zst w) !! p ∧
      rep_state (z_kernel (zst w')) sock = rep_state (z_kernel (zst w)) sock ∧ I w' in
    wpe (run_rpc f p (mkData d)) (λ r w', Post f d r ∧ same w') (λ _ w', same w') w;
}.

Definition serving (p : ptr) (x : pzmq F C) (sock : ptr) (q : list (list bytes)) (o : bool)
    (out : list bytes) w : Prop :=
  z_objs (zst w) !! p = Some x ∧ rep_state (z_kernel (zst w)) sock = mkRep [] q o out.

Definition reply_ok (x : pzmq F C) (Post : F → bytes → bytes → Prop) (request : bytes * bytes) (r : bytes) : Prop :=
  match zmq_fun_ x !! request.1 with
  | None => r = str "NotAction"
  | Some RpcListAction => ∃ keys, keys ≡ₚ (map_to_list (zmq_fun_ x)).*1 ∧ r = actions_text keys
  | Some (RpcUser f) => Post f request.2 r ∨ r = str "NotAction"
  end.

Lemma list_action_run p (x : pzmq F C) a w :
  z_objs (zst w) !! p = Some x → zmq_fun_ x !! a = Some RpcListAction →
  ∃ keys, keys ≡ₚ (map_to_list (zmq_fun_ x)).*1 ∧
    rpc_list_action p (zst w) = Ret (actions_text keys) (zst w).
Proof.
  intros Hx Ha. exists (um_iter (zmq_fun_ x)).*1. split; [by apply fmap_Permutation, um_iter_perm|].
  unfold rpc_list_action, get_pz, bind, get, deref. rewrite Hx.
  pose proof (um_iter_perm (zmq_fun_ x)) as Hp. destruct (um_iter (zmq_fun_ x)) as [|[k f] l].
  - apply Permutation_nil_l in Hp. symmetry in Hp. apply map_to_list_empty_iff in Hp. by rewrite Hp in Ha.
  - cbn [fst fmap list_fmap]. by rewrite list_loop_join.
Qed.

Lemma wp_rpc_answer p x sock I Post a d q out w :
  server p x sock I Post → serving p x sock q true out w → I w →
  wp (rpc_answer p (mkData a) (mkData d)) (λ r w',
    reply_ok x Post (a, d) r ∧ serving p x sock q true out w' ∧ I w') w.
Proof.
  intros Hs [Hx Hr] HI. unfold rpc_answer, string_. w_run. cbn [msg].
  assert (I (set_zst (zst w) w)) as HI'.
  { pose proof (sv_kernel _ _ _ _ _ Hs w (z_kernel (zst w)) HI) as HI'. by destruct (zst w). }
  assert (serving p x sock q true out (set_zst (zst w) w)) as Hv by (split; by rewrite zst_set).
  destruct (zmq_fun_ x !! a) as [f|] eqn:Ha.
  - destruct f as [|f]; w_run.
    + destruct (list_action_run p x a w Hx Ha) as (keys & Hk & Hrun). unfold wpe. rewrite Hrun.
      rewrite set_zst_set. split; [|done]. unfold reply_ok. cbn. rewrite Ha. eauto.
    + eapply wpe_mono; [apply (sv_call _ _ _ _ _ Hs a f d _ Ha HI')|..].
      * intros r w' (HP & E1 & E2 & E3). rewrite zst_set in E1, E2.
        split; [|split; [by split; congruence|done]]. unfold reply_ok. cbn. rewrite Ha. by left.
      * intros e w' (E1 & E2 & E3). rewrite zst_set in E1, E2. w_run.
        split; [|split; [by split; congruence|done]]. unfold reply_ok. cbn. rewrite Ha. by right.
  - w_run. split; [|done]. unfold reply_ok. cbn. by rewrite Ha.
Qed.

Lemma serving_kernel p x sock q o out (w : W) k :
  z_objs (zst w) !! p = Some x → rep_state k sock = mkRep [] q o out →
  serving p x sock q o out (set_zst (let z := zst w in {| z with z_kernel := k |}) w).
Proof. intros Hx Hr. by split; rewrite zst_set. Qed.

Lemma wp_event_loop_step p x sock I Post a d q out w :
  server p x sock I Post → serving p x sock ([a; d] :: q) false out w → I w → a ≠ [] →
  wp (event_loop_step p None) (λ _ w', ∃ r, reply_ok x Post (a, d) r ∧
    serving p x sock q false (out ++ [r]) w' ∧ I w') w.
Proof.
  intros Hs [Hx Hr] HI Ha. pose proof (sv_mode _ _ _ _ _ Hs) as Hm. pose proof (sv_sock _ _ _ _ _ Hs) as Hk.
  pose proof (rep_recv (z_kernel (zst w)) sock) as R1. rewrite Hr in R1.
  destruct (zmq_msg_recv (Some sock) 0 (z_kernel (zst w))) as [r1 k1] eqn:E1. destruct R1 as [-> R1].
  pose proof (rep_recv k1 sock) as R2. rewrite R1 in R2.
  destruct (zmq_msg_recv (Some sock) 0 k1) as [r2 k2] eqn:E2. destruct R2 as [-> R2].
  unfold event_loop_step. w_run. change (ZMQ_RPC_FUN =? ZMQ_PULL) with false. w_run.
  rewrite Hk. w_run. rewrite E1. cbn [fst snd].
  rewrite (proj2 (Z.leb_gt _ _)) by (destruct a; [done|rewrite zlen_cons; pose proof (zlen_nonneg a0); lia]).
  change (ZMQ_RPC_FUN =? ZMQ_RPC_FUN) with true. w_run. rewrite E2. cbn [fst snd]. w_run.
  rewrite !set_zst_set.
  eapply wpe_mono; [apply (wp_rpc_answer p x sock I Post a d q out); [done| |]| |done].
  - by apply (serving_kernel p x sock q true out w).
  - by apply (sv_kernel _ _ _ _ _ Hs w k2).
  - intros r w' (Hok & [Hx' Hr'] & HI'). w_run. exists r. split; [done|]. split.
    + apply serving_kernel; [done|]. by apply rep_send.
    + by apply (sv_kernel _ _ _ _ _ Hs).
Qed.

End Serving.

(** *** Calls

    A library that gives out contexts and sockets. *)
Class ZmqHealthy (K : Type) `{Zmq K, Attempts} := {
  ctx_new_some k : is_Some (zmq_ctx_new k).1;
  socket_some c type k : is_Some (zmq_socket (Some c) type k).1;
  attempts_pos : attempts ≠ 0%nat;
}.

Section Calling.
Context `{Zmq K, Attempts, !ZmqHealthy K, ZHost K F C W}.
Implicit Types w : W.
Implicit Types s : zstate K F C.

Lemma wp_until_some {A} n (f : K → option A * K) s (Q : A → zstate K F C → Prop) E :
  n ≠ 0%nat → (∀ k, is_Some (f k).1) →
  (∀ a, (f (z_kernel s)).1 = Some a → Q a {| s with z_kernel := (f (z_kernel s)).2 |}) →
  wpe (until_some n f) Q E s.
Proof.
  intros Hn Hf HQ. destruct n as [|n]; [done|]. cbn. z_run.
  destruct (Hf (z_kernel s)) as [a Ha]. rewrite Ha. z_run. by apply HQ.
Qed.

(** [s] with the kernel [k] and the object [x] at [p]. *)
Definition with_pz (p : ptr) (x : pzmq F C) (k : K) s : zstate K F C :=
  mkZ k (<[p := x]> (z_objs s)) (z_next s).
Lemma with_pz_twice p x y k k' s : with_pz p y k' (with_pz p x k s) = with_pz p y k' s.
Proof. unfold with_pz. cbn. by rewrite insert_insert_eq. Qed.
Lemma with_pz_lookup p x k s : z_objs (with_pz p x k s) !! p = Some x.
Proof. apply lookup_insert_eq. Qed.

(** A [pzmq] that has opened a context and a socket. *)
Definition opened (x y : pzmq F C) : Prop :=
  is_Some (zmq_socket_ y) ∧ mode_ y = mode_ x ∧ rpc_url_head_ y = rpc_url_head_ x ∧
  rpc_server_ y = rpc_server_ x ∧ zmq_thread_ y = zmq_thread_ x.

Lemma wp_creat_req p x url s :
  z_objs s !! p = Some x → mode_ x = Some ZMQ_RPC_CALL →
  rpc_url_head_ x = [] ∨ rpc_url_head_length ≤ zlen url →
  wp (creat p url None) (λ _ s', ∃ y k, s' = with_pz p y k s ∧ opened x y) s.
Proof.
  intros Hx Hm Hurl. unfold creat. z_run.
  apply wp_until_some; [apply attempts_pos|apply ctx_new_some|intros c _]. z_run.
  apply wp_until_some; [apply attempts_pos|intros k; apply socket_some|intros sock _]. z_run.
  change (ZMQ_RPC_CALL =? ZMQ_PUB) with false. change (ZMQ_RPC_CALL =? ZMQ_SUB) with false.
  change (ZMQ_RPC_CALL =? ZMQ_PUSH) with false. change (ZMQ_RPC_CALL =? ZMQ_PULL) with false.
  change (ZMQ_RPC_CALL =? ZMQ_RPC_FUN) with false. change (ZMQ_RPC_CALL =? ZMQ_RPC_CALL) with true.
  unfold creat_req. rewrite !insert_insert_eq. z_run. cbn [rpc_url_head_].
  assert (∀ y k (m : gmap ptr (pzmq F C)), m = <[p := y]> (z_objs s) → opened x y →
    ∃ y' k', mkZ k m (z_next s) = with_pz p y' k' s ∧ opened x y') as Hdone.
  { intros y k m -> Ho. by exists y, k. }
  case_bool_decide as Hh; z_run.
  - eapply Hdone; [reflexivity|]. repeat split. by eexists.
  - destruct Hurl as [Hurl|Hurl]; [done|]. unfold socket_file.
    rewrite (proj2 (Z.leb_le _ _) Hurl). z_run. destruct (negb _); z_run.
    all: eapply Hdone; [reflexivity|]; repeat split; by eexists.
Qed.

(** Closing reads the socket's file name only in the modes that bind. *)
Definition closable (y : pzmq F C) : Prop :=
  ∃ m, mode_ y = Some m ∧ (bind_mode m = false ∨ rpc_url_head_length ≤ zlen (zmq_url_ y)).
Lemma closable_call y : mode_ y = Some ZMQ_RPC_CALL → closable y.
Proof. intros Hm. exists ZMQ_RPC_CALL. split; [done|by left]. Qed.

Lemma wp_close_zmq p y s :
  z_objs s !! p = Some y → closable y →
  wp (close_zmq p) (λ _ s', ∃ z k, s' = with_pz p z k s ∧ zmq_socket_ z = None ∧ mode_ z = mode_ y) s.
Proof.
  intros Hy (m & Hm & Hb). unfold close_zmq. z_run.
  destruct (bind_mode m) eqn:Eb; cbn [andb]; z_run; [|by eexists _, _].
  destruct (negb _); z_run; [|by eexists _, _].
  destruct Hb as [Hb|Hb]; [done|]. unfold socket_file. rewrite (proj2 (Z.leb_le _ _) Hb). z_run.
  destruct (_ =? 0); z_run; by eexists _, _.
Qed.

Lemma wp_pzmq_dtor p y s :
  z_objs s !! p = Some y → closable y →
  wp (pzmq_dtor p) (λ _ s', ∃ k, s' = mkZ k (delete p (z_objs s)) (z_next s)) s.
Proof.
  intros Hy Hc. unfold pzmq_dtor. z_run. destruct (zmq_socket_ y) as [so|]; z_run; [|by eexists].
  rewrite !insert_insert_eq. match goal with |- wpe _ _ _ ?v => set (s1 := v) end.
  eapply wpe_mono; [eapply (wp_close_zmq p _ s1); [apply lookup_insert_eq|exact Hc]| |done].
  intros [] s2 (z & k & -> & _). z_run. exists k. unfold with_pz, s1. cbn.
  by rewrite insert_insert_eq, delete_insert_eq.
Qed.

(** Publishers. *)
Definition publisher (url : bytes) (x : pzmq F C) : Prop :=
  mode_ x = Some ZMQ_PUB ∧ zmq_url_ x = url ∧ is_Some (zmq_socket_ x).

Lemma keeps_head_total url s : 1 ≤ zlen url → ∃ b, keeps_head url s = Ret b s.
Proof.
  destruct url as [|c url]; [done|intros _]. unfold keeps_head, char_at, bind, deref. cbn.
  destruct (bool_decide _); [by eexists|]. destruct (url ++ [_]) as [|d l] eqn:E; [by destruct url|].
  cbn. by eexists.
Qed.

(** The modes whose constructor opens a socket and starts at most one thread. *)
Definition plain_mode (mode : Z) : Prop := mode = ZMQ_PUB ∨ mode = ZMQ_SUB ∨ mode = ZMQ_PUSH ∨ mode = ZMQ_PULL.
Definition client (url : bytes) (mode : Z) (x : pzmq F C) : Prop :=
  mode_ x = Some mode ∧ zmq_url_ x = url ∧ is_Some (zmq_socket_ x).

(** The thread it starts: a subscriber's or a puller's. *)
Definition thread_of (mode : Z) (cb : option C) : option (option C) :=
  if (mode =? ZMQ_SUB) || (mode =? ZMQ_PULL) then Some cb else None.

Lemma wp_pzmq_ctor url mode cb s : 1 ≤ zlen url → plain_mode mode →
  wp (pzmq_ctor url mode cb) (λ z s', z = z_next s ∧ ∃ x k,
    s' = mkZ k (<[z := x]> (z_objs s)) (z_next s + 1) ∧ client url mode x ∧
    zmq_thread_ x = thread_of mode cb) s.
Proof.
  intros Hu Hmode. unfold pzmq_ctor. destruct (keeps_head_total url s Hu) as [b Hb].
  apply wpe_bind. unfold wpe at 1. rewrite Hb.
  assert ((mode =? ZMQ_RPC_FUN) = false) as -> by (by destruct Hmode as [->|[->|[->| ->]]]). cbn [negb].
  z_run. unfold creat. z_run.
  apply wp_until_some; [apply attempts_pos|apply ctx_new_some|intros c _]. z_run.
  apply wp_until_some; [apply attempts_pos|intros k; apply socket_some|intros sock _]. z_run.
  destruct Hmode as [->|[->|[->| ->]]]; cbn [Z.eqb Pos.eqb ZMQ_PUB ZMQ_SUB ZMQ_PUSH ZMQ_PULL];
    [unfold creat_pub|unfold subscriber_url, start_thread|unfold creat_push|unfold creat_pull, start_thread];
    z_run; (split; [done|]); simpl_z; rewrite !insert_insert_eq; eexists _, _; (split; [reflexivity|]);
    (split; [split_and!; [done..|by eexists]|done]).
Qed.

Lemma wp_pzmq_ctor_pub url s : 1 ≤ zlen url →
  wp (pzmq_ctor url ZMQ_PUB None) (λ z s', z = z_next s ∧ ∃ x k,
    s' = mkZ k (<[z := x]> (z_objs s)) (z_next s + 1) ∧ publisher url x ∧ zmq_thread_ x = None) s.
Proof. intros Hu. apply (wp_pzmq_ctor url ZMQ_PUB None); [done|by left]. Qed.

(** An action registered with the RPC server [p]: the first one creates its
    socket and starts its thread. *)
Lemma wp_register p action f x s :
  z_objs s !! p = Some x → (zmq_fun_ x = ∅ → zmq_thread_ x = None) →
  wp (register_rpc_action p action f) (λ _ s', ∃ x' k, s' = with_pz p x' k s ∧ zmq_fun_ x' ≠ ∅ ∧
    if decide (zmq_fun_ x = ∅) then zmq_thread_ x' = Some None ∧ mode_ x' = Some ZMQ_RPC_FUN
    else zmq_thread_ x' = zmq_thread_ x ∧ mode_ x' = mode_ x) s.
Proof.
  intros Hx Hth. unfold register_rpc_action. z_run.
  case_bool_decide as Ha; z_run.
  { eexists _, _. split; [reflexivity|]. cbn. split; [apply insert_non_empty|]. rewrite decide_False; [done|].
    intros E. rewrite E, lookup_empty in Ha. by destruct Ha. }
  case_bool_decide as He; z_run.
  2: { eexists _, _. split; [reflexivity|]. cbn. split; [apply insert_non_empty|]. by rewrite decide_False. }
  unfold creat. z_run.
  apply wp_until_some; [apply attempts_pos|apply ctx_new_some|intros c _]. z_run.
  apply wp_until_some; [apply attempts_pos|intros k; apply socket_some|intros sock _]. z_run.
  change (ZMQ_RPC_FUN =? ZMQ_PUB) with false. change (ZMQ_RPC_FUN =? ZMQ_SUB) with false.
  change (ZMQ_RPC_FUN =? ZMQ_PUSH) with false. change (ZMQ_RPC_FUN =? ZMQ_PULL) with false.
  change (ZMQ_RPC_FUN =? ZMQ_RPC_FUN) with true. cbv iota.
  unfold creat_rep, start_thread. z_run. cbn [zmq_thread_]. rewrite Hth by done. z_run.
  rewrite !insert_insert_eq. eexists _, _. split; [reflexivity|]. cbn. split; [apply insert_non_empty|].
  by rewrite decide_True.
Qed.

(** A callback that only looks at a message of [D]: [R] of the message and its
    result, an exception that is not an [int]. *)
Definition reads {A} (raw : pzmq_data → M W A) (D : bytes → Prop) (R : bytes → A → Prop) (E : exn → Prop) : Prop :=
  ∀ d w, D d → wpe (raw (mkData d)) (λ a w1, w1 = w ∧ R d a) (λ e w1, w1 = w ∧ E e ∧ ∀ n, e ≠ thrown_int n) w.

(** [p] is the lazily created [pzmq] of a call. *)
Record callable (p : ptr) (x : pzmq F C) w : Prop := {
  ca_cell : z_objs (zst w) !! p = Some x;
  ca_closed : zmq_socket_ x = None;
  ca_server : rpc_server_ x ≠ [];
  ca_head : rpc_url_head_ x = [] ∨ rpc_url_head_ x = rpc_url_head;
}.

Definition after_call (p : ptr) w w' (sock : option ptr → Prop) : Prop :=
  ∃ y k, w' = set_zst (with_pz p y k (zst w)) w ∧ sock (zmq_socket_ y) ∧ mode_ y = Some ZMQ_RPC_CALL.

(** The peer's answers to a request satisfy [D]. *)
Definition answered (action data : bytes) (D : bytes → Prop) : Prop := ∀ sock k,
  D (zmq_msg_recv sock 0 (zmq_send sock data 0 (zmq_send sock action ZMQ_SNDMORE k).2).2).1.2.

(** What a call can come to, when its answer satisfies [D]. *)
Lemma wp_call_rpc_action {A} p x action data (raw : pzmq_data → M W A) R E (D : bytes → Prop) w :
  callable p x w → answered action data D → reads raw D R E →
  wpe (call_rpc_action p action data raw)
    (λ '(r, oa) w', after_call p w w' (eq None) ∧
       match oa with Some a => r = 0 ∧ ∃ d, D d ∧ R d a | None => r ≠ 0 end)
    (λ e w', E e ∧ after_call p w w' is_Some) w.
Proof.
  intros [Hx Hs Hserver Hhead] HD Hraw. unfold call_rpc_action. w_run. rewrite Hs.
  rewrite bool_decide_false by done. w_run.
  match goal with |- context [creat p _ None] => set (x1 := {| x with mode_ := Some ZMQ_RPC_CALL |}) end.
  set (s1 := with_pz p x1 (z_kernel (zst w)) (zst w)).
  assert (z_objs s1 !! p = Some x1) as Hx1 by apply lookup_insert_eq.
  assert (rpc_url_head_ x = [] ∨ rpc_url_head_length ≤ zlen (rpc_url_head_ x ++ rpc_server_ x)) as Hurl.
  { destruct Hhead as [->| ->]; [by left|right]. rewrite zlen_app. pose proof (zlen_nonneg (rpc_server_ x)).
    change (zlen rpc_url_head) with 15. unfold rpc_url_head_length. lia. }
  eapply wpe_mono; [exact (wp_creat_req p x1 _ s1 Hx1 eq_refl Hurl)| |done].
  intros r s2 (y & k & -> & [sock Hsock] & Hmy & _). cbn in Hmy.
  assert (z_objs (with_pz p y k s1) !! p = Some y) as Hy by apply lookup_insert_eq.
  assert (∀ k', set_zst (let z := with_pz p y k s1 in {| z with z_kernel := k' |}) w
              = set_zst (with_pz p y k' (zst w)) w) as Hst.
  { intros k'. f_equal. unfold s1, with_pz. cbn. by rewrite insert_insert_eq. }
  assert (∀ k' (Q : unit → zstate K F C → Prop) E', (∀ z k'', zmq_socket_ z = None →
      mode_ z = Some ZMQ_RPC_CALL → Q tt (with_pz p z k'' (zst w))) →
    wpe (close_zmq p) Q E' (with_pz p y k' (zst w))) as Hclose.
  { intros k' Q E' HQ.
    eapply wpe_mono; [apply (wp_close_zmq p y _); [apply with_pz_lookup|by apply closable_call]| |done].
    intros [] s3 (z & k3 & -> & Hz & Hmz). rewrite with_pz_twice. apply HQ; [done|congruence]. }
  destruct (Z.eqb_spec r 0) as [->|Hr]; w_run.
  - pose proof (HD (zmq_socket_ y)) as HD'.
    match goal with |- context [zmq_msg_recv ?so 0 (zmq_send ?s2 ?d2 ?f2 (zmq_send ?s1 ?d1 ?f1 ?k0).2).2] =>
      specialize (HD' k0);
      destruct (zmq_msg_recv so 0 (zmq_send s2 d2 f2 (zmq_send s1 d1 f1 k0).2).2) as [[rr d] k'] end.
    cbn [fst snd] in *. w_run. rewrite ?set_zst_set, Hst.
    eapply wpe_mono; [exact (Hraw d _ HD')|..].
    + intros a w4 [-> HR]. w_run. apply Hclose. intros z k3 Hz Hmz. w_run. rewrite ?set_zst_set. split; [by exists z, k3|eauto].
    + intros e w4 (-> & HE & Hint). destruct e; try (by destruct (Hint n)); w_run; (split; [done|]).
      all: exists y, k'; rewrite Hsock; split_and!; [done|by eexists|done].
  - unfold s1. rewrite ?set_zst_set, ?with_pz_twice. apply Hclose. intros z k3 Hz Hmz. w_run. rewrite ?set_zst_set. split; [by exists z, k3|done].
Qed.
End Calling.

(** ** An executable zmq

    Contexts and sockets are numbered; reply sockets follow [RepLaws]; what the
    other sockets receive is scripted in [zs_inbox] (a receive fails when it
    runs out), and [zs_sent] records what they send. *)
Module ZSim.
Record zsim := mkZsim {
  zs_next : Z;
  zs_rep : gmap Z rep;
  zs_inbox : gmap Z (list bytes);
  zs_sent : list (Z * bytes);
  zs_files : gset bytes;
}.

Definition rep_recv_step (r : rep) : (Z * bytes) * rep :=
  match r with
  | mkRep (m :: ms) q o out => ((zlen m, m), mkRep ms q o out)
  | mkRep [] ((m :: ms) :: q) false out => ((zlen m, m), mkRep ms q true out)
  | _ => ((-1, []), r)
  end.

Definition sim_recv (sock : option ptr) (flags : Z) (k : zsim) : (Z * bytes) * zsim :=
  match sock with
  | None => ((-1, []), k)
  | Some h =>
      match zs_rep k !! h with
      | Some r => let '(m, r') := rep_recv_step r in let rs := <[h := r']> (zs_rep k) in
                  (m, {| k with zs_rep := rs |})
      | None =>
          match zs_inbox k !! h with
          | Some (m :: ms) => let i := <[h := ms]> (zs_inbox k) in ((zlen m, m), {| k with zs_inbox := i |})
          | _ => ((-1, []), k)
          end
      end
  end.

Definition sim_send (sock : option ptr) (d : bytes) (flags : Z) (k : zsim) : Z * zsim :=
  match sock with
  | None => (-1, k)
  | Some h =>
      match zs_rep k !! h with
      | Some (mkRep [] q true out) => let rs := <[h := mkRep [] q false (out ++ [d])]> (zs_rep k) in
          (zlen d, {| k with zs_rep := rs |})
      | Some _ => (-1, k)
      | None => let l := zs_sent k ++ [(h, d)] in (zlen d, {| k with zs_sent := l |})
      end
  end.

Definition sim_new (k : zsim) : option ptr * zsim :=
  let n := zs_next k in (Some n, {| k with zs_next := n + 1 |}).

#[global] Instance zsim_zmq : Zmq zsim := {
  zmq_ctx_new := sim_new;
  zmq_socket ctx type k :=
    match ctx with
    | None => (None, k)
    | Some _ => let '(s, k) := sim_new k in let rs := zs_rep k in
        if type =? ZMQ_REP then (s, {| k with zs_rep := <[zs_next k - 1 := mkRep [] [] false []]> rs |}) else (s, k)
    end;
  zmq_bind _ _ k := (0, k);
  zmq_connect _ _ k := (0, k);
  zmq_setsockopt _ _ k := (0, k);
  zmq_send := sim_send;
  zmq_msg_recv := sim_recv;
  zmq_poll _ _ _ k := ((1, ZMQ_POLLIN), k);
  zmq_close _ k := (0, k);
  zmq_ctx_shutdown _ k := (0, k);
  zmq_ctx_destroy _ k := (0, k);
  sys_access path k := (if bool_decide (path ∈ zs_files k) then 0 else -1, k);
  sys_remove path k := let f := zs_files k in (0, {| k with zs_files := f ∖ {[path]} |});
}.
#[global] Instance zsim_attempts : Attempts := 1%nat.
#[global] Instance zsim_hashing : Hashing := {
  um_iter A B _ _ m := map_to_list m;
  um_iter_perm A B _ _ m := reflexivity _;
}.
#[global] Instance zsim_observe : ZmqObserve zsim := {
  rep_state k s := default (mkRep [] [] false []) (zs_rep k !! s) }.

#[global] Instance zsim_rep : RepLaws zsim.
Proof.
  split.
  - intros k sock. cbn. destruct (zs_rep k !! sock) as [[[|m ms] [|[|m' ms'] q] [] out]|] eqn:E; cbn;
      rewrite ?E, ?lookup_insert_eq; try done.
    all: by repeat case_match.
  - intros k sock d q out. cbn. destruct (zs_rep k !! sock) as [r|] eqn:E; cbn; [|done].
    intros ->. cbn. by rewrite lookup_insert_eq.
Qed.
#[global] Instance zsim_healthy : ZmqHealthy zsim.
Proof. split; [by eexists|intros c t k; cbn; by destruct (t =? ZMQ_REP)|done]. Qed.

(** A program with two actions: one returns its data reversed, one throws. *)
#[global] Instance echo_host {F C} : ZHost zsim F C (zstate zsim F C) := {
  zst z := z;
  set_zst z _ := z;
  zst_set _ _ := eq_refl;
  set_zst_set _ _ _ := eq_refl;
  set_zst_zst _ := eq_refl;
}.
#[global] Instance echo_user : ZUser bool unit (zstate zsim bool unit) := {
  run_rpc f _ d := if f : bool then ret (rev (string_ d)) else throw out_of_range;
  run_msg _ _ _ := ret tt;
}.
Definition echo_server : pzmq bool unit :=
  mkPzmq rpc_url_head (Some 0) (Some 1)
    {[str "list_action" := RpcListAction; str "rev" := RpcUser true; str "fail" := RpcUser false]}
    false (Some None) (Some ZMQ_RPC_FUN) (str "sys") (str "ipc:///tmp/rpc.sys") 3000.
Definition echo_requests : list (bytes * bytes) :=
  [(str "rev", str "abc"); (str "fail", str "x"); (str "none", [])].
Definition echo_state : zstate zsim bool unit :=
  mkZ (mkZsim 2 {[1 := mkRep [] (map (λ '(a, d), [a; d]) echo_requests) false []]} ∅ [] ∅)
    {[7 := echo_server]} 8.
End ZSim.


Lemma list_action_text_witness : ∃ keys,
  rpc_list_action 7 ZSim.echo_state = Ret (actions_text keys) ZSim.echo_state ∧ length keys = 3%nat.
Proof.
  destruct (list_action_text 7 ZSim.echo_server ZSim.echo_state eq_refl) as (keys & Hp & Hrun).
  exists keys. split; [exact Hrun|]. by rewrite Hp.
Defined.
End Pzmq.
