(* ===== verification/UnitCall.v ===== *)
(** * Calling another unit (unit_call of infra-controller/src/StackFlowUtil.cpp)

    A call opens a [pzmq] of its own and closes it on every path.  The callback
    that keeps the reply is called only when the peer's socket could be opened;
    it is then called even if no reply came. *)

From S2P Require Import Prelude.
From S2P Require Import CStdlib.
From S2P Require Import PzmqData.
From S2P Require Import Pzmq.
Import PzmqData Pzmq.

Module UnitCall.
Section Ops.
Context `{Zmq K, Attempts, ZHost K F C W}.

(** Run [m] with a local [pzmq] for [server], destroyed on every way out. *)
Definition with_local {A} (server : bytes) (m : ptr → M W A) : M W A :=
  let* p := zq (pzmq_lazy server) in
  let* a := try_catch (m p) (λ e, zq (pzmq_dtor p) ;;; throw e) in
  zq (pzmq_dtor p) ;;; ret a.

(** [unit_call(unit_name, unit_action, data)]. *)
Definition unit_call (unit_name unit_action data : bytes) : M W bytes :=
  with_local unit_name (λ p,
    let* '(_, value) := call_rpc_action p unit_action data (λ raw, ret (string_ raw)) in
    ret (default [] value)).

(** [unit_call(unit_name, unit_action, data, callback)]: what the callback
    computed, if it was called. *)
Definition unit_call_with {A} (unit_name unit_action data : bytes) (callback : pzmq_data → M W A)
    : M W (option A) :=
  with_local unit_name (λ p,
    let* '(_, a) := call_rpc_action p unit_action data callback in ret a).
End Ops.

Section Lemmas.
Context `{Zmq K, Attempts, !ZmqHealthy K, ZHost K F C W}.
Implicit Types w : W.

(** [w] after calls that left nothing behind. *)
Definition calls (w w' : W) : Prop :=
  ∃ k n, z_next (zst w) ≤ n ∧ w' = set_zst (mkZ k (z_objs (zst w)) n) w.

Lemma calls_kernel w k : calls w (set_zst (let z := zst w in {| z with z_kernel := k |}) w).
Proof. by exists k, (z_next (zst w)). Qed.
Lemma calls_refl w : calls w w.
Proof. exists (z_kernel (zst w)), (z_next (zst w)). split; [done|]. rewrite <-(set_zst_zst w) at 1. by destruct (zst w). Qed.
Lemma calls_trans w1 w2 w3 : calls w1 w2 → calls w2 w3 → calls w1 w3.
Proof.
  intros (k1 & n1 & Hn1 & ->) (k2 & n2 & Hn2 & ->). exists k2, n2. rewrite zst_set in *. cbn in *. split; [lia|].
  by rewrite set_zst_set.
Qed.

Definition zfresh w : Prop := z_objs (zst w) !! z_next (zst w) = None.

(** What a call leaves of a local object created on [w]. *)
Lemma wp_with_local {A} server (m : ptr → M W A) (Q : A → Prop) (E : exn → Prop) w :
  zfresh w → server ≠ [] →
  (∀ p x w1, callable p x w1 → wpe (m p) (λ a w2, Q a ∧ after_call p w1 w2 (λ _, True))
     (λ e w2, E e ∧ after_call p w1 w2 (λ _, True)) w1) →
  wpe (with_local server m) (λ a w', Q a ∧ calls w w') (λ e w', E e ∧ calls w w') w.
Proof.
  intros Hf Hs Hm. unfold with_local, pzmq_lazy. w_run.
  set (p := z_next (zst w)).
  match goal with |- context [mkPzmq ?h None None ∅ true None None server [] 3000] =>
    set (x := mkPzmq h None None ∅ true None None server [] 3000 : pzmq F C) end.
  match goal with |- wpe _ _ _ ?v => set (w1 := v) end.
  assert (zst w1 = mkZ (z_kernel (zst w)) (<[p := x]> (z_objs (zst w))) (p + 1)) as Hz by (by unfold w1; rewrite zst_set).
  assert (callable p x w1) as Hc.
  { split; [by rewrite Hz; apply lookup_insert_eq|done|done|]. cbn. destruct (contains _ _); [by left|by right]. }
  assert (∀ w2, after_call p w1 w2 (λ _, True) → ∀ P : Prop, P →
    wp (zq (pzmq_dtor p)) (λ _ w3, P ∧ calls w w3) w2) as Hdtor.
  { intros w2 (y & k & -> & _ & Hmy) P HP. w_run.
    eapply wpe_mono; [apply (wp_pzmq_dtor p y _); [apply with_pz_lookup|by apply closable_call]| |done].
    intros [] s (k' & ->). split; [done|]. exists k', (p + 1). split; [subst p; lia|]. rewrite !set_zst_set.
    unfold with_pz. rewrite Hz. cbn. rewrite insert_insert_eq, delete_insert_id by done.
    unfold w1. by rewrite set_zst_set. }
  eapply wpe_mono; [exact (Hm p x w1 Hc)|..].
  - intros a w2 [HQ Ha]. apply wpe_bind. eapply wpe_mono; [exact (Hdtor w2 Ha (Q a) HQ)| |done].
    intros [] w3 H3. exact H3.
  - intros e w2 [HE Ha]. apply wpe_bind. eapply wpe_mono; [exact (Hdtor w2 Ha (E e) HE)| |done].
    intros [] w3 H3. exact H3.
Qed.

(** The reply, whatever it is, and nothing left behind. *)
Lemma wp_unit_call unit_name unit_action data w : zfresh w → unit_name ≠ [] →
  wp (unit_call unit_name unit_action data) (λ _ w', calls w w') w.
Proof.
  intros Hf Hn. apply (wpe_mono _ (λ _ w', True ∧ calls w w') _ (λ e w', False ∧ calls w w'));
    [|by intros ? ? []..].
  apply wp_with_local; [done..|]. intros p x w1 Hc. apply wpe_bind.
  eapply wpe_mono; [apply (wp_call_rpc_action p x _ _ _ (λ _ _, True) (λ _, False) (λ _, True) w1 Hc)|..]; try done.
  - intros [r v] w2 [(y & k & Ha & _ & Hm) _]; w_run; split; [done|by exists y, k].
  - by intros e w2 [[] _].
Qed.

End Lemmas.

(** ** A peer that never answers *)
Section Silent.
#[local] Instance silent_zmq : Zmq ZSim.zsim := {
  zmq_ctx_new := ZSim.sim_new;
  zmq_socket _ _ := ZSim.sim_new;
  zmq_bind _ _ k := (0, k);
  zmq_connect _ _ k := (0, k);
  zmq_setsockopt _ _ k := (0, k);
  zmq_send := ZSim.sim_send;
  zmq_msg_recv _ _ k := ((-1, []), k);
  zmq_poll _ _ _ k := ((0, 0), k);
  zmq_close _ k := (0, k);
  zmq_ctx_shutdown _ k := (0, k);
  zmq_ctx_destroy _ k := (0, k);
  sys_access path k := (if bool_decide (path ∈ ZSim.zs_files k) then 0 else -1, k);
  sys_remove _ k := (0, k);
}.
#[local] Instance silent_healthy : ZmqHealthy ZSim.zsim.
Proof. by split; [eexists|eexists|]. Qed.

Definition silent_state (files : gset bytes) : zstate ZSim.zsim bool unit :=
  mkZ (ZSim.mkZsim 1 ∅ ∅ [] files) ∅ 1.

End Silent.
End UnitCall.
