(* ===== verification/Manager.v ===== *)
(** * The unit manager: its state, key store and units
    (unit-manager: all.h, unit_data, the globals of main.cpp, remote_server.cpp
    and tcp_comm.cpp)

    [manager] gathers the process's globals: the key store [key_sql] under its
    spin lock, the port table, the live [unit_data], the zmq objects, the
    network library's world and the TCP sessions.  [SAFE_READING],
    [SAFE_SETTING] and [SAFE_ERASE] are single steps. *)

From S2P Require Import Prelude.
From S2P Require Import CStdlib.
From S2P Require Import PzmqData.
From S2P Require Import StackFlowUtil.
From S2P Require Import Pzmq.
From S2P Require Import Buffer.
From S2P Require Import NetTypes.
From S2P Require Import SocketsOps.
Import PzmqData Pzmq.

Module Manager.
Abbreviation ptr := Z.

(** [std::any], as the store uses it; [AnyNone] holds no value. *)
Inductive any :=
| AnyNone
| AnyInt (n : Z)
| AnyString (s : bytes)
| AnyUnit (p : ptr).
Definition cast_int (a : any) : option Z := if a is AnyInt n then Some n else None.
Definition cast_string (a : any) : option bytes := if a is AnyString s then Some s else None.
Definition cast_unit (a : any) : option ptr := if a is AnyUnit p then Some p else None.

(** The closures: the actions of the "sys" server, and the callback of a
    session's pull socket. *)
Inductive sys_action :=
| Rpc_sql_select
| Rpc_register_unit
| Rpc_release_unit
| Rpc_sql_set
| Rpc_sql_unset.
Inductive bus_callback := Bus_send_data (session : ptr).

Record unit_data := mkUnit {
  user_inference_chennal_ : option ptr;
  work_id : bytes;
  output_url : bytes;
  inference_url : bytes;
  port_ : Z;
}.

(** [zmq_bus_com], and [TcpSession] which adds the connection. *)
Record TcpSession := mkSession {
  _zmq_url : bytes;
  exit_flage : Z;
  err_count : Z;
  _port : option Z;
  json_str_ : bytes;
  json_str_flage_ : Z;
  user_chennal_ : option ptr;
  conn_ : ptr;
}.

Record manager (K N : Type) := mkManager {
  m_zmq : zstate K sys_action bus_callback;
  key_sql : gmap bytes any;
  work_id_number_counter : Z;
  port_list_start : Z;
  port_list : list bool;
  sys_rpc_server_ : option ptr;
  m_units : gmap ptr unit_data;
  m_next : ptr;
  zmq_s_format : bytes;
  zmq_c_format : bytes;
  main_exit_flage : Z;
  m_net : World N;
  m_server : option ptr;
  m_loop : ptr;
  m_sessions : gmap ptr TcpSession;
  m_context : gmap ptr ptr;
  counter_port : Z;
}.
#[global] Arguments mkManager {K N}.
#[global] Arguments m_zmq {K N}.
#[global] Arguments key_sql {K N}.
#[global] Arguments work_id_number_counter {K N}.
#[global] Arguments port_list_start {K N}.
#[global] Arguments port_list {K N}.
#[global] Arguments sys_rpc_server_ {K N}.
#[global] Arguments m_units {K N}.
#[global] Arguments m_next {K N}.
#[global] Arguments zmq_s_format {K N}.
#[global] Arguments zmq_c_format {K N}.
#[global] Arguments main_exit_flage {K N}.
#[global] Arguments m_net {K N}.
#[global] Arguments m_server {K N}.
#[global] Arguments m_loop {K N}.
#[global] Arguments m_sessions {K N}.
#[global] Arguments m_context {K N}.
#[global] Arguments counter_port {K N}.

#[global] Instance manager_host {K N} : ZHost K sys_action bus_callback (manager K N) := {
  zst := m_zmq;
  set_zst z m := {| m with m_zmq := z |};
  zst_set _ _ := eq_refl;
  set_zst_set _ _ _ := eq_refl;
  set_zst_zst w := ltac:(by destruct w);
}.

Section Store.
Context {K N : Type}.
Abbreviation MM := (M (manager K N)).

(** ** The key store *)

(** The value a variable holds after [SAFE_READING]: unchanged when the key is
    missing or holds another type. *)
Definition SAFE_READING {A} (cast : any → option A) (key : bytes) (val : A) : MM A :=
  let* m := get in
  ret (match key_sql m !! key with
       | Some a => default val (cast a)
       | None => val
       end).
(** The same for a variable that was not initialised. *)
Definition SAFE_READING_uninit {A} (cast : any → option A) (key : bytes) : MM (option A) :=
  let* m := get in ret (key_sql m !! key ≫= cast).
Definition SAFE_SETTING (key : bytes) (val : any) : MM unit :=
  modify (λ m, let s := key_sql m in {| m with key_sql := <[key := val]> s |}).
Definition SAFE_ERASE (key : bytes) : MM unit :=
  modify (λ m, let s := key_sql m in {| m with key_sql := delete key s |}).

(** ** unit_data *)
Definition get_unit (u : ptr) : MM unit_data := let* m := get in deref (m_units m !! u).
Definition upd_unit (u : ptr) (f : unit_data → unit_data) : MM unit :=
  let* x := get_unit u in
  modify (λ m, let s := m_units m in {| m with m_units := <[u := f x]> s |}).
(** [new unit_data()]: [port_] is indeterminate until it is assigned, which the
    only caller does first. *)
Definition new_unit (port : Z) : MM ptr := λ m,
  let p := m_next m in let s := m_units m in
  Ret p {| m with m_next := p + 1; m_units := <[p := mkUnit None [] [] [] port]> s |}.

Definition init_zmq `{Zmq K, Attempts} (u : ptr) (url : bytes) : MM unit :=
  upd_unit u (λ x, {| x with inference_url := url |}) ;;;
  let* old := get_unit u in
  let* z := zq (pzmq_ctor url ZMQ_PUB None) in
  upd_unit u (λ x, {| x with user_inference_chennal_ := Some z |}) ;;;
  if user_inference_chennal_ old is Some z' then zq (pzmq_dtor z') else ret tt.

Definition send_msg `{Zmq K} (u : ptr) (json_str : bytes) : MM unit :=
  let* x := get_unit u in
  let* z := deref (user_inference_chennal_ x) in
  zq (Pzmq.send_data z json_str) ;;; ret tt.

(** [delete unit_p]. *)
Definition delete_unit `{Zmq K} (u : ptr) : MM unit :=
  let* x := get_unit u in
  (if user_inference_chennal_ x is Some z then zq (pzmq_dtor z) else ret tt) ;;;
  modify (λ m, let s := m_units m in {| m with m_units := delete u s |}).
End Store.

(** ** The "sys" actions (remote_server.cpp) *)
Section RemoteServer.
Context `{Zmq K, Attempts} {N : Type}.
Abbreviation MM := (M (manager K N)).

Definition sys_sql_select (key : bytes) : MM bytes := SAFE_READING cast_string key [].
Definition sys_sql_set (key val : bytes) : MM unit := SAFE_SETTING key (AnyString val).
Definition sys_sql_unset (key : bytes) : MM unit := SAFE_ERASE key.

(** The first free entry of the port table, from index [i]. *)
Fixpoint first_free (l : list bool) (i : nat) : option nat :=
  match l with
  | [] => None
  | b :: l' => if b : bool then first_free l' (S i) else Some i
  end.

(** [int port; for (...) ...]: the first free port, now taken.  [port] stays
    indeterminate when the table is full. *)
Definition take_port : MM (option Z) :=
  let* m := get in
  match first_free (port_list m) 0 with
  | None => ret None
  | Some i =>
      modify (λ m, let l := port_list m in {| m with port_list := <[i := true]> l |}) ;;;
      ret (Some (swrap 32 (port_list_start m + Z.of_nat i)))
  end.

(** [sprintf] of an [int] into a buffer of [size] bytes, then a [std::string]
    up to the terminator. *)
Definition sprintf_buf {S} (size : Z) (fmt : bytes) (n : Z) : M S bytes :=
  let* text := deref (sprintf_int (InetAddress.c_str fmt) (Some n)) in
  if zlen text + 1 <=? size then ret text else crash Undefined.

(** The URL made from the configured format: "sock" formats get a suffix. *)
Definition unit_format (format unit suffix : bytes) : bytes :=
  if contains (str "sock") format then format ++ str "." ++ unit ++ suffix else format.
Definition unit_url (unit suffix : bytes) (port : Z) : MM bytes :=
  let* m := get in
  let zmq_format := unit_format (zmq_s_format m) unit suffix in
  sprintf_buf (zlen zmq_format + zlen (to_string port)) zmq_format port.

Definition sys_allocate_unit (unit : bytes) : MM ptr :=
  let* m := get in
  let n := work_id_number_counter m in
  let* u := new_unit n in
  modify (λ m, {| m with work_id_number_counter := swrap 32 (n + 1) |}) ;;;
  let ports := to_string n in
  upd_unit u (λ x, {| x with work_id := unit ++ str "." ++ ports |}) ;;;
  let* port := take_port in
  let* port := deref port in
  let* zmq_s_url := unit_url unit (str ".output_url") port in
  upd_unit u (λ x, {| x with output_url := zmq_s_url |}) ;;;
  let* port := take_port in
  let* port := deref port in
  let* zmq_s_url := unit_url unit (str ".inference_url") port in
  init_zmq u zmq_s_url ;;;
  let* x := get_unit u in
  SAFE_SETTING (work_id x) (AnyUnit u) ;;;
  SAFE_SETTING (work_id x ++ str ".out_port") (AnyString (output_url x)) ;;;
  ret u.

(** [port_list[port - port_list_start] = false]. *)
Definition free_port (port : Z) : MM unit :=
  let* m := get in
  let i := u64 (swrap 32 (port - port_list_start m)) in
  if i <? zlen (port_list m)
  then modify (λ m, let l := port_list m in {| m with port_list := <[Z.to_nat i := false]> l |})
  else crash Undefined.

Definition sys_release_unit (unit : bytes) : MM Z :=
  let* unit_p := SAFE_READING (λ a, Some <$> cast_unit a) unit None in
  match unit_p with
  | None => ret (-1)
  | Some u =>
      let* x := get_unit u in
      let* m := get in
      let format := InetAddress.c_str (zmq_s_format m) in
      let* port := deref (sscanf_int format (InetAddress.c_str (output_url x))) in
      free_port port ;;;
      free_port (default port (sscanf_int format (InetAddress.c_str (inference_url x)))) ;;;
      delete_unit u ;;;
      SAFE_ERASE unit ;;;
      SAFE_ERASE (unit ++ str ".out_port") ;;;
      ret 0
  end.

Definition rpc_allocate_unit (raw : pzmq_data) : MM bytes :=
  let* u := sys_allocate_unit (string_ raw) in
  let* x := get_unit u in
  ret (set_param (to_string (port_ x)) (set_param (output_url x) (inference_url x))).

Definition rpc_release_unit (raw : pzmq_data) : MM bytes :=
  sys_release_unit (string_ raw) ;;; ret (str "Success").

Definition rpc_sql_select (raw : pzmq_data) : MM bytes := sys_sql_select (string_ raw).

Definition rpc_sql_set (raw : pzmq_data) : MM bytes :=
  let* key := StackFlowUtil.sample_json_str_get (string_ raw) (str "key") in
  let* val := StackFlowUtil.sample_json_str_get (string_ raw) (str "val") in
  if bool_decide (key = []) then ret (str "False")
  else sys_sql_set key val ;;; ret (str "Success").

Definition rpc_sql_unset (raw : pzmq_data) : MM bytes :=
  sys_sql_unset (string_ raw) ;;; ret (str "Success").

(** The closures bound in [remote_server_work]. *)
Definition sys_rpc (a : sys_action) (raw : pzmq_data) : MM bytes :=
  match a with
  | Rpc_sql_select => rpc_sql_select raw
  | Rpc_register_unit => rpc_allocate_unit raw
  | Rpc_release_unit => rpc_release_unit raw
  | Rpc_sql_set => rpc_sql_set raw
  | Rpc_sql_unset => rpc_sql_unset raw
  end.

(** [port_list.resize(n, 0)] for the [size_t] made from an [int]. *)
Definition resize_ports (n : Z) : MM unit :=
  if n <? 0 then throw length_error
  else modify (λ m, let l := port_list m in {| m with port_list := resize (Z.to_nat n) false l |}).

Definition remote_server_work : MM unit :=
  let* m := get in
  let* c := SAFE_READING cast_int (str "config_work_id") (work_id_number_counter m) in
  modify (λ m, {| m with work_id_number_counter := c |}) ;;;
  let* s := SAFE_READING cast_int (str "config_zmq_min_port") (port_list_start m) in
  modify (λ m, {| m with port_list_start := s |}) ;;;
  let* e := SAFE_READING_uninit cast_int (str "config_zmq_max_port") in
  let* port_list_end := deref e in
  resize_ports (swrap 32 (port_list_end - s)) ;;;
  let* p := zq (pzmq_lazy (str "sys")) in
  let* m := get in
  (if sys_rpc_server_ m is Some old then zq (pzmq_dtor old) else ret tt) ;;;
  modify (λ m, {| m with sys_rpc_server_ := Some p |}) ;;;
  zq (register_rpc_action p (str "sql_select") Rpc_sql_select) ;;;
  zq (register_rpc_action p (str "register_unit") Rpc_register_unit) ;;;
  zq (register_rpc_action p (str "release_unit") Rpc_release_unit) ;;;
  zq (register_rpc_action p (str "sql_set") Rpc_sql_set) ;;;
  zq (register_rpc_action p (str "sql_unset") Rpc_sql_unset) ;;;
  ret tt.

Definition remote_server_stop_work : MM unit :=
  let* m := get in
  match sys_rpc_server_ m with
  | None => ret tt
  | Some p => modify (λ m, {| m with sys_rpc_server_ := None |}) ;;; zq (pzmq_dtor p)
  end.
End RemoteServer.

(** ** Reasoning about the operations *)
Section Wp.
Context {K N : Type}.
Implicit Types m : manager K N.

Lemma wpe_get_unit u Q E m :
  wpe (get_unit u) Q E m ↔ ∃ x, m_units m !! u = Some x ∧ Q x m.
Proof. unfold get_unit. by wp_simp. Qed.
Lemma wpe_upd_unit u f Q E m :
  wpe (upd_unit u f) Q E m ↔
  ∃ x, m_units m !! u = Some x ∧ Q tt (let s := m_units m in {| m with m_units := <[u := f x]> s |}).
Proof. unfold upd_unit. by rewrite wpe_bind, wpe_get_unit. Qed.
Lemma wpe_new_unit port Q E m :
  wpe (new_unit port) Q E m ↔
  Q (m_next m) (let s := m_units m in let p := m_next m in
    {| m with m_next := p + 1; m_units := <[p := mkUnit None [] [] [] port]> s |}).
Proof. done. Qed.
Lemma wpe_SAFE_SETTING key v Q E m :
  wpe (SAFE_SETTING key v) Q E m ↔ Q tt (let s := key_sql m in {| m with key_sql := <[key := v]> s |}).
Proof. done. Qed.
Lemma wpe_SAFE_ERASE key Q E m :
  wpe (SAFE_ERASE key) Q E m ↔ Q tt (let s := key_sql m in {| m with key_sql := delete key s |}).
Proof. done. Qed.
Lemma wpe_zq {A} (z : M (zstate K sys_action bus_callback) A) Q E m :
  wpe (zq z) Q E m ↔
  wpe z (λ a t, Q a {| m with m_zmq := t |}) (λ e t, E e {| m with m_zmq := t |}) (m_zmq m).
Proof. apply wpe_zoom. Qed.
End Wp.

Ltac simpl_m :=
  cbn [m_zmq key_sql work_id_number_counter port_list_start port_list sys_rpc_server_ m_units m_next
       zmq_s_format zmq_c_format main_exit_flage m_net m_server m_loop m_sessions m_context counter_port
       user_inference_chennal_ work_id output_url inference_url port_].

(** Run a program over [manager] as far as its steps are determined. *)
Ltac m_step :=
  lazymatch goal with
  | |- wpe (get_unit _) _ _ _ => refine (proj2 (wpe_get_unit _ _ _ _) _)
  | |- wpe (upd_unit _ _) _ _ _ => refine (proj2 (wpe_upd_unit _ _ _ _ _) _)
  | |- wpe (new_unit _) _ _ _ => refine (proj2 (wpe_new_unit _ _ _ _) _)
  | |- wpe (SAFE_SETTING _ _) _ _ _ => refine (proj2 (wpe_SAFE_SETTING _ _ _ _ _) _)
  | |- wpe (SAFE_ERASE _) _ _ _ => refine (proj2 (wpe_SAFE_ERASE _ _ _ _) _)
  | |- wpe (zq _) _ _ _ => refine (proj2 (wpe_zq _ _ _ _) _)
  | _ => z_step
  end; cbn beta zeta; simpl_m.
Ltac m_run :=
  repeat lazymatch goal with
  | |- ∃ x, _ !! _ = Some x ∧ _ => eexists; split; [solve [solve_cell]|]; cbn beta; simpl_m
  | |- ∃ a, Some _ = Some a ∧ _ => eexists; split; [reflexivity|]; cbn beta
  | _ => m_step
  end.
End Manager.
