(* ===== verification/UnitTable.v ===== *)
(** * The unit manager's tables are consistent

    The invariant of the key store, the port table and the live units, kept by
    every action of the "sys" server, for formats of the shape of
    master_config.json's. *)

From S2P Require Import Prelude.
From S2P Require Import CStdlib.
From S2P Require Import PzmqData.
From S2P Require Import StackFlowUtil.
From S2P Require Import Pzmq.
From S2P Require Import NetTypes.
From S2P Require Import SocketsOps.
From S2P Require Import Manager.
Import PzmqData Pzmq Manager.

Module UnitTable.
(** Text without conversions, white space or NUL. *)
Definition plain_char (c : ascii) : bool := literal_char c && negb (bool_decide (c = char_of 0)).
Definition plain (s : bytes) : bool := forallb plain_char s.

Lemma plain_app s t : plain (s ++ t) = plain s && plain t.
Proof. apply forallb_app. Qed.
Lemma plain_literal s : plain s = true → forallb literal_char s = true.
Proof.
  unfold plain. induction s as [|c s IH]; cbn; [done|].
  intros [[-> _]%andb_prop Hs]%andb_prop. by apply IH.
Qed.
Lemma c_str_id s : forallb (λ c, negb (bool_decide (c = char_of 0))) s = true → InetAddress.c_str s = s.
Proof.
  intros Hs. unfold InetAddress.c_str. destruct (list_find _ s) as [[i c]|] eqn:E; [|done].
  apply list_find_Some in E as (Hi & Hc & _). subst c. apply list_elem_of_lookup_2 in Hi.
  rewrite forallb_forall in Hs. apply list_elem_of_In in Hi. apply Hs in Hi.
  by rewrite bool_decide_true in Hi.
Qed.
Lemma plain_no_nul s : plain s = true → forallb (λ c, negb (bool_decide (c = char_of 0))) s = true.
Proof.
  unfold plain. induction s as [|c s IH]; cbn -[bool_decide]; [done|].
  intros [[_ Hc]%andb_prop Hs]%andb_prop. rewrite Hc. by apply IH.
Qed.
Lemma c_str_plain s : plain s = true → InetAddress.c_str s = s.
Proof. intros Hs. by apply c_str_id, plain_no_nul. Qed.

(** A format [l%ir]. *)
Record format_ok (l r fmt : bytes) : Prop := {
  fo_eq : fmt = l ++ str "%i" ++ r;
  fo_l : plain l = true;
  fo_r : plain r = true;
  fo_stop : ∀ c t, r = c :: t → isdigit c = false;
  fo_len : rpc_url_head_length ≤ zlen l;
}.

Section Urls.
Context (l r fmt : bytes) (Hfmt : format_ok l r fmt).

(** The URL of a port, before the unit's suffix. *)
Definition url (port : Z) (suffix : bytes) : bytes := l ++ to_string port ++ r ++ suffix.
Definition stops (suffix : bytes) : Prop := ∀ c t, suffix = c :: t → isdigit c = false.

Lemma stops_app suffix : stops suffix → stops (r ++ suffix).
Proof.
  pose proof (fo_stop _ _ _ Hfmt) as Hr. intros Hs c t.
  destruct r as [|d r']; [by apply Hs|]. intros [= <- <-]. by eapply Hr.
Qed.

Lemma sprintf_url port sfx : plain sfx = true → 0 < port ≤ INT_MAX → stops sfx →
  sprintf_int (InetAddress.c_str (fmt ++ sfx)) (Some port) = Some (url port sfx) ∧
  sscanf_int (InetAddress.c_str fmt) (url port sfx) = Some port.
Proof.
  intros Hp Hr Hs. pose proof Hfmt as [Heq Hl Hrp Hst _]. rewrite !Heq.
  rewrite !c_str_id by (rewrite ?forallb_app; repeat (apply andb_true_intro; split); try (by apply plain_no_nul); done).
  assert (forallb literal_char (r ++ sfx) = true) as Hlit
    by (apply plain_literal; rewrite plain_app; by rewrite Hrp, Hp).
  pose proof (plain_literal _ Hl) as Hll. pose proof (plain_literal _ Hrp) as Hrl.
  pose proof (stops_app sfx Hs) as Hs'. split.
  - destruct (sscanf_sprintf l (r ++ sfx) port []) as [E _]; [done|done| |done|].
    { intros c t. rewrite app_nil_r. apply Hs'. }
    rewrite <-!app_assoc. by rewrite E.
  - destruct (sscanf_sprintf l r port sfx) as [_ E]; [done|done|exact Hs'|done|].
    rewrite <-!app_assoc in E. exact E.
Qed.

Lemma digits_plain ds : digits_only ds → plain ds = true.
Proof.
  induction 1 as [|c ds Hc _ IH]; [done|].
  change (plain_char c && plain ds = true). rewrite IH, andb_true_r.
  unfold plain_char, literal_char. rewrite (digit_not_space c Hc). apply isdigit_sound in Hc.
  rewrite !bool_decide_false; [done|intros ->..].
  - rewrite uchar_char_of in Hc. change (wrap 8 0) with 0 in Hc. lia.
  - change (uchar "%"%char) with 37 in Hc. lia.
Qed.
Lemma plain_url port sfx : plain sfx = true → 0 < port → plain (url port sfx) = true.
Proof.
  intros Hs Hp. unfold url. rewrite !plain_app, (fo_l _ _ _ Hfmt), (fo_r _ _ _ Hfmt), Hs.
  rewrite digits_plain; [done|]. unfold to_string. rewrite (proj2 (Z.ltb_ge _ _)) by lia.
  apply dec_digits_only; [lia|constructor].
Qed.
End Urls.

(** ** The port table *)
Lemma first_free_spec t : ∀ i, match first_free t i with
  | Some j => (i ≤ j)%nat ∧ t !! (j - i)%nat = Some false
  | None => ∀ k, t !! k ≠ Some false
  end.
Proof.
  induction t as [|b t IH]; intros i; cbn; [done|]. destruct b.
  - specialize (IH (S i)). destruct (first_free t (S i)) as [j|].
    + destruct IH as [Hle Hj]. split; [lia|]. by replace (j - i)%nat with (S (j - S i)) by lia.
    + intros [|k]; [done|apply IH].
  - split; [lia|]. by rewrite Nat.sub_diag.
Qed.

Section Tables.
Context `{Zmq K, Attempts, !ZmqHealthy K} {N : Type}.
Implicit Types m : manager K N.

(** The port numbers fit an [int] and are positive. *)
Definition ports_ok m : Prop :=
  0 < port_list_start m ∧ port_list_start m + zlen (port_list m) ≤ INT_MAX.
(** Port [q] is entry [j] of the table. *)
Definition entry m (q : Z) (j : nat) : Prop := q = port_list_start m + Z.of_nat j.
Definition used m (q : Z) : Prop := ∃ j, entry m q j ∧ port_list m !! j = Some true.

Lemma wp_take_port m a : ports_ok m → port_list m !! a = Some false →
  wp take_port (λ q m', ∃ j, q = Some (port_list_start m + Z.of_nat j) ∧ port_list m !! j = Some false ∧
    m' = (let t := port_list m in {| m with port_list := <[j := true]> t |})) m.
Proof.
  intros [Hp Hr] Ha. unfold take_port. wp_simp.
  pose proof (first_free_spec (port_list m) 0) as Hf. destruct (first_free _ _) as [j|]; [|by destruct (Hf a)].
  destruct Hf as [_ Hj]. rewrite Nat.sub_0_r in Hj. wp_simp. exists j. split_and!; [|done|done].
  apply lookup_lt_Some in Hj. f_equal. unfold zlen, INT_MAX in *. apply swrap_small; lia.
Qed.

Lemma wp_free_port m q : ports_ok m → used m q →
  wp (free_port q) (λ _ m', ∃ j, entry m q j ∧
    m' = (let t := port_list m in {| m with port_list := <[j := false]> t |})) m.
Proof.
  intros [Hp Hr] (j & -> & Hj). pose proof (lookup_lt_Some _ _ _ Hj). unfold free_port. wp_simp.
  unfold zlen, INT_MAX in *. replace (port_list_start m + Z.of_nat j - port_list_start m) with (Z.of_nat j) by lia.
  rewrite swrap_small, u64_small by lia. rewrite (proj2 (Z.ltb_lt _ _)) by lia. wp_simp.
  exists j. by rewrite Nat2Z.id.
Qed.

(** ** Allocation *)
Context (l r : bytes).

Definition suffix m (unit kind : bytes) : bytes :=
  if contains (str "sock") (zmq_s_format m) then str "." ++ unit ++ kind else [].
Lemma suffix_plain m unit kind : plain unit = true → plain kind = true → plain (suffix m unit kind) = true.
Proof. intros Hu Hk. unfold suffix. destruct (contains _ _); [|done]. by rewrite !plain_app, Hu, Hk. Qed.
Lemma suffix_stops m unit kind : stops (suffix m unit kind).
Proof. unfold suffix. destruct (contains _ _); [|done]. by intros c t [= <- _]. Qed.

Lemma wp_unit_url m unit kind port : format_ok l r (zmq_s_format m) → plain unit = true → plain kind = true →
  0 < port ≤ INT_MAX →
  wp (unit_url unit kind port) (λ t m', t = url l r port (suffix m unit kind) ∧ m' = m) m.
Proof.
  intros Hf Hu Hk Hp. unfold unit_url. wp_simp.
  assert (unit_format (zmq_s_format m) unit kind = zmq_s_format m ++ suffix m unit kind) as ->.
  { unfold unit_format, suffix. destruct (contains _ _); [done|by rewrite app_nil_r]. }
  destruct (sprintf_url l r _ Hf port (suffix m unit kind)) as [E _];
    [by apply suffix_plain|done|apply suffix_stops|].
  unfold sprintf_buf. wp_simp. exists (url l r port (suffix m unit kind)). split; [exact E|].
  assert (zlen (url l r port (suffix m unit kind)) + 1
    ≤ zlen (zmq_s_format m ++ suffix m unit kind) + zlen (to_string port)) as Hl.
  { unfold url. pose proof (fo_eq _ _ _ Hf) as ->. rewrite !zlen_app. change (zlen (str "%i")) with 2. lia. }
  rewrite (proj2 (Z.leb_le _ _) Hl). by wp_simp.
Qed.

(** What [sys_allocate_unit] does: two free entries [j1], [j2] are taken. *)
Record allocated (unit : bytes) (u : ptr) m m' (j1 j2 : nat) (x : pzmq sys_action bus_callback) (k : K) : Prop := {
  al_ptr : u = m_next m;
  al_free1 : port_list m !! j1 = Some false;
  al_free2 : port_list m !! j2 = Some false;
  al_ne : j1 ≠ j2;
  al_pub : publisher (url l r (port_list_start m + Z.of_nat j2) (suffix m unit (str ".inference_url"))) x;
  al_thread : zmq_thread_ x = None;
  al_state : m' =
    let n := work_id_number_counter m in let z := z_next (m_zmq m) in
    let o := url l r (port_list_start m + Z.of_nat j1) (suffix m unit (str ".output_url")) in
    let i := url l r (port_list_start m + Z.of_nat j2) (suffix m unit (str ".inference_url")) in
    let wid := unit ++ str "." ++ to_string n in
    let c := swrap 32 (n + 1) in
    let t := <[j2 := true]> (<[j1 := true]> (port_list m)) in
    let us := <[u := mkUnit (Some z) wid o i n]> (m_units m) in
    let kv := <[wid ++ str ".out_port" := AnyString o]> (<[wid := AnyUnit u]> (key_sql m)) in
    let nx := m_next m + 1 in
    let zs := mkZ k (<[z := x]> (z_objs (m_zmq m))) (z + 1) in
    {| m with m_zmq := zs; key_sql := kv; work_id_number_counter := c; port_list := t; m_units := us; m_next := nx |};
}.

Lemma wp_sys_allocate_unit m unit a b :
  format_ok l r (zmq_s_format m) → ports_ok m → plain unit = true → a ≠ b →
  port_list m !! a = Some false → port_list m !! b = Some false →
  wp (sys_allocate_unit unit) (λ u m', ∃ j1 j2 x k, allocated unit u m m' j1 j2 x k) m.
Proof.
  intros Hf Hp Hu Hab Ha Hb. unfold sys_allocate_unit. m_run. rewrite !insert_insert_eq.
  match goal with |- wpe _ _ _ ?v => set (m1 := v) end.
  eapply wpe_mono; [apply (wp_take_port m1 a); [exact Hp|exact Ha]| |done].
  intros q1 m2 (j1 & -> & Hj1 & ->). m_run.
  match goal with |- wpe _ _ _ ?v => set (m2 := v) end.
  assert (∀ j, (j < length (port_list m))%nat → 0 < port_list_start m + Z.of_nat j ≤ INT_MAX) as Hrange.
  { intros j Hj. destruct Hp as [Hp1 Hp2]. unfold zlen in Hp2. lia. }
  pose proof (lookup_lt_Some _ _ _ Hj1) as Hlt1.
  eapply wpe_mono; [apply (wp_unit_url m2 unit (str ".output_url")); [exact Hf|exact Hu|done|by apply Hrange]| |done].
  intros o m2' [-> ->]. m_run. subst m2 m1. simpl_m. cbn [port_list] in Hj1, Hlt1.
  match goal with |- wpe _ _ _ ?v => set (m3 := v) end.
  assert (∃ c, port_list m3 !! c = Some false) as [c Hc].
  { unfold m3. simpl_m. destruct (decide (a = j1)) as [->|].
    - exists b. by rewrite list_lookup_insert_ne by done.
    - exists a. by rewrite list_lookup_insert_ne by done. }
  assert (ports_ok m3) as Hp3 by (destruct Hp; split; unfold m3; simpl_m; [done|]; unfold zlen in *; by rewrite length_insert).
  eapply wpe_mono; [exact (wp_take_port m3 c Hp3 Hc)| |done].
  intros q2 m4 (j2 & -> & Hj2 & ->). unfold m3 in Hj2. simpl_m. cbn [port_list] in Hj2.
  destruct (decide (j2 = j1)) as [->|Hne]; [by rewrite list_lookup_insert_eq in Hj2|].
  rewrite list_lookup_insert_ne in Hj2 by done. pose proof (lookup_lt_Some _ _ _ Hj2) as Hlt2.
  subst m3. simpl_m. m_run. match goal with |- wpe _ _ _ ?v => set (m5 := v) end.
  eapply wpe_mono; [apply (wp_unit_url m5 unit (str ".inference_url")); [exact Hf|exact Hu|done|by apply Hrange]| |done].
  intros i m5' [-> ->]. unfold init_zmq. m_run. subst m5. simpl_m.
  match goal with |- wpe (pzmq_ctor ?u _ _) _ _ _ => set (iurl := u) end.
  assert (1 ≤ zlen iurl) as Hlen.
  { unfold iurl, url. rewrite !zlen_app. pose proof (fo_len _ _ _ Hf). unfold rpc_url_head_length in *.
    pose proof (zlen_nonneg (to_string (port_list_start m + Z.of_nat j2))). pose proof (zlen_nonneg r).
    match goal with |- context [zlen (suffix ?x ?y ?z)] => pose proof (zlen_nonneg (suffix x y z)) end. lia. }
  eapply wpe_mono; [exact (wp_pzmq_ctor_pub iurl _ Hlen)| |done].
  intros z zs (-> & x & k & -> & Hpub & Hth). m_run. cbn [user_inference_chennal_]. m_run.
  rewrite !insert_insert_eq. exists j1, j2, x, k. by split.
Qed.

(** ** The invariant

    [key] is a live unit: its cell [p], its two ports, its publisher [z]. *)
Record unit_at m (key : bytes) (p : ptr) (o i : Z) (z : ptr) : Prop := {
  ua_unit : ∃ u s1 s2 x, m_units m !! p = Some u ∧ work_id u = key ∧
    user_inference_chennal_ u = Some z ∧
    output_url u = url l r o s1 ∧ plain s1 = true ∧ stops s1 ∧
    inference_url u = url l r i s2 ∧ plain s2 = true ∧ stops s2 ∧
    z_objs (m_zmq m) !! z = Some x ∧ publisher (inference_url u) x;
  ua_used : used m o ∧ used m i ∧ o ≠ i;
}.

(** Pointers and ports of two units do not overlap. *)
Definition apart (p1 p2 : ptr) (o1 i1 o2 i2 : Z) (z1 z2 : ptr) : Prop :=
  p1 ≠ p2 ∧ z1 ≠ z2 ∧ o1 ≠ o2 ∧ o1 ≠ i2 ∧ i1 ≠ o2 ∧ i1 ≠ i2.

Record tables_ok m : Prop := {
  to_format : format_ok l r (zmq_s_format m);
  to_ports : ports_ok m;
  to_unit : ∀ key p, key_sql m !! key = Some (AnyUnit p) → ∃ o i z, unit_at m key p o i z;
  to_apart : ∀ k1 k2 p1 p2 o1 o2 i1 i2 z1 z2,
    key_sql m !! k1 = Some (AnyUnit p1) → unit_at m k1 p1 o1 i1 z1 →
    key_sql m !! k2 = Some (AnyUnit p2) → unit_at m k2 p2 o2 i2 z2 →
    k1 ≠ k2 → apart p1 p2 o1 i1 o2 i2 z1 z2;
  to_cells : ∀ p, m_next m ≤ p → m_units m !! p = None;
  to_objs : ∀ z, z_next (m_zmq m) ≤ z → z_objs (m_zmq m) !! z = None;
}.

(** A unit's ports and publisher are functions of the state. *)
Lemma unit_at_det m key p o i z o' i' z' : format_ok l r (zmq_s_format m) → ports_ok m →
  unit_at m key p o i z → unit_at m key p o' i' z' → o = o' ∧ i = i' ∧ z = z'.
Proof.
  intros Hf Hports [(u & s1 & s2 & x & Hu & _ & Hz & Ho & Hp1 & Hst1 & Hi & Hp2 & Hst2 & _) (Huo & Hui & _)]
    [(u' & t1 & t2 & x' & Hu' & _ & Hz' & Ho' & Hq1 & Htt1 & Hi' & Hq2 & Htt2 & _) (Huo' & Hui' & _)].
  assert (∀ q, used m q → 0 < q ≤ INT_MAX) as Hr.
  { intros q (j & -> & Hj). apply lookup_lt_Some in Hj. destruct Hports. unfold zlen in *. lia. }
  simplify_eq.
  destruct (sprintf_url l r _ Hf o s1) as [_ E1]; [done|by apply Hr|done|].
  destruct (sprintf_url l r _ Hf o' t1) as [_ E2]; [done|by apply Hr|done|].
  destruct (sprintf_url l r _ Hf i s2) as [_ E3]; [done|by apply Hr|done|].
  destruct (sprintf_url l r _ Hf i' t2) as [_ E4]; [done|by apply Hr|done|].
  split_and!; congruence.
Qed.

Lemma used_range m q : ports_ok m → used m q → 0 < q ≤ INT_MAX.
Proof. intros [] (j & -> & Hj). apply lookup_lt_Some in Hj. unfold zlen in *. lia. Qed.

(** ** Release *)
Lemma wp_free_two m o i : ports_ok m → used m o → used m i → o ≠ i →
  wp (free_port o ;;; free_port i) (λ _ m', ∃ j1 j2, entry m o j1 ∧ entry m i j2 ∧
    m' = (let t := port_list m in {| m with port_list := <[j2 := false]> (<[j1 := false]> t) |})) m.
Proof.
  intros Hp Ho Hi Hne. wp_simp. eapply wpe_mono; [exact (wp_free_port m o Hp Ho)| |done].
  intros [] m1 (j1 & E1 & ->). destruct Hi as (j2 & E2 & Hj2).
  assert (j1 ≠ j2) as Hj by (intros ->; unfold entry in *; congruence).
  eapply wpe_mono; [apply wp_free_port| |done].
  - destruct Hp. split; cbn; [done|]. unfold zlen in *. by rewrite length_insert.
  - exists j2. split; [done|]. cbn. by rewrite list_lookup_insert_ne.
  - intros [] m2 (j2' & E2' & ->). exists j1, j2'. split_and!; done.
Qed.

(** What [sys_release_unit] does to a live unit. *)
Lemma wp_sys_release_unit m key p o i z : tables_ok m → key_sql m !! key = Some (AnyUnit p) →
  unit_at m key p o i z →
  wp (sys_release_unit key) (λ n m', n = 0 ∧ ∃ j1 j2 k, entry m o j1 ∧ entry m i j2 ∧
    m' = let t := <[j2 := false]> (<[j1 := false]> (port_list m)) in
         let zs := mkZ k (delete z (z_objs (m_zmq m))) (z_next (m_zmq m)) in
         let us := delete p (m_units m) in
         let kv := delete (key ++ str ".out_port") (delete key (key_sql m)) in
         {| m with m_zmq := zs; key_sql := kv; port_list := t; m_units := us |}) m.
Proof.
  intros Hm Hk [(u & s1 & s2 & x & Hu & _ & Hz & Ho & Hp1 & Hst1 & Hi & Hp2 & Hst2 & Hx & Hpub) (Huo & Hui & Hne)].
  pose proof (to_format _ Hm) as Hf. pose proof (to_ports _ Hm) as Hp.
  destruct (sprintf_url l r _ Hf o s1) as [_ E1]; [done|by apply used_range with m|done|].
  destruct (sprintf_url l r _ Hf i s2) as [_ E2]; [done|by apply used_range with m|done|].
  assert (∀ q sfx, used m q → plain sfx = true → InetAddress.c_str (url l r q sfx) = url l r q sfx) as Hc.
  { intros q sfx Hq Hs. apply c_str_plain. eapply plain_url; [exact Hf|done|by apply used_range with m]. }
  unfold sys_release_unit, SAFE_READING. m_run. rewrite Hk. cbn [default cast_unit fmap option_fmap option_map].
  m_run. cbn [id]. m_run. rewrite Ho, Hi, !Hc by done. rewrite E1, E2. cbn [default]. m_run.
  pose proof (wp_free_two m o i Hp Huo Hui Hne) as Hfree. rewrite wpe_bind in Hfree.
  eapply wpe_mono; [exact Hfree| |done]. intros [] m1 H1. m_run.
  eapply wpe_mono; [exact H1| |done]. intros [] m2 (j1 & j2 & Ej1 & Ej2 & ->). cbv zeta. simpl_m.
  unfold delete_unit. m_run. rewrite Hz. m_run.
  assert (closable x) as Hcl.
  { destruct Hpub as (Hm1 & Hurl & _). exists ZMQ_PUB. split; [done|right]. rewrite Hurl, Hi. unfold url.
    rewrite zlen_app. pose proof (fo_len _ _ _ Hf). pose proof (zlen_nonneg (to_string i ++ r ++ s2)). lia. }
  eapply wpe_mono; [exact (wp_pzmq_dtor z x _ Hx Hcl)| |done]. intros [] zs (k & ->). m_run.
  split; [done|]. by exists j1, j2, k.
Qed.

(** ** Preservation *)
Lemma unit_at_frame m m' key p o i z : unit_at m key p o i z →
  m_units m' !! p = m_units m !! p → z_objs (m_zmq m') !! z = z_objs (m_zmq m) !! z →
  used m' o → used m' i → unit_at m' key p o i z.
Proof.
  intros [(u & s1 & s2 & x & Hu & H2 & H3 & H4 & H5 & H6 & H7 & H8 & H9 & Hx & Hp) (_ & _ & Hne)] Eu Ez Ho Hi.
  split; [|done]. exists u, s1, s2, x. by rewrite Eu, Ez.
Qed.

Lemma tables_ok_intro m : format_ok l r (zmq_s_format m) → ports_ok m →
  (∀ p, m_next m ≤ p → m_units m !! p = None) →
  (∀ z, z_next (m_zmq m) ≤ z → z_objs (m_zmq m) !! z = None) →
  (∀ key p, key_sql m !! key = Some (AnyUnit p) → ∃ o i z, unit_at m key p o i z) →
  (∀ k1 k2 p1 p2, key_sql m !! k1 = Some (AnyUnit p1) → key_sql m !! k2 = Some (AnyUnit p2) → k1 ≠ k2 →
     ∃ o1 i1 z1 o2 i2 z2, unit_at m k1 p1 o1 i1 z1 ∧ unit_at m k2 p2 o2 i2 z2 ∧
       apart p1 p2 o1 i1 o2 i2 z1 z2) → tables_ok m.
Proof.
  intros Hf Hp Hc Ho Hu Ha. split; try done.
  intros k1 k2 p1 p2 o1 o2 i1 i2 z1 z2 H1 U1 H2 U2 Hne.
  destruct (Ha k1 k2 p1 p2 H1 H2 Hne) as (o1' & i1' & z1' & o2' & i2' & z2' & U1' & U2' & Hap).
  destruct (unit_at_det m k1 p1 _ _ _ _ _ _ Hf Hp U1 U1') as (-> & -> & ->).
  by destruct (unit_at_det m k2 p2 _ _ _ _ _ _ Hf Hp U2 U2') as (-> & -> & ->).
Qed.

(** Forgetting keys, or filing texts, keeps the invariant. *)
Lemma tables_ok_keys m kv : tables_ok m →
  (∀ key p, kv !! key = Some (AnyUnit p) → key_sql m !! key = Some (AnyUnit p)) →
  tables_ok {| m with key_sql := kv |}.
Proof.
  intros [Hf Hp Hu Ha Hc Ho] Hk.
  assert (∀ key p o i z, unit_at m key p o i z → unit_at {| m with key_sql := kv |} key p o i z) as Hat.
  { intros key p o i z U. by eapply unit_at_frame; [exact U|..]; try done; apply U. }
  apply tables_ok_intro; try done; cbn.
  - intros key p H1. destruct (Hu _ _ (Hk _ _ H1)) as (o & i & z & U). eauto.
  - intros k1 k2 p1 p2 H1 H2 Hne. apply Hk in H1, H2.
    destruct (Hu _ _ H1) as (o1 & i1 & z1 & U1), (Hu _ _ H2) as (o2 & i2 & z2 & U2).
    exists o1, i1, z1, o2, i2, z2. split_and!; eauto.
Qed.

(** Other objects come and go: the publishers stay. *)
Lemma tables_ok_frame m m' : tables_ok m →
  key_sql m' = key_sql m → m_units m' = m_units m → port_list m' = port_list m →
  port_list_start m' = port_list_start m → zmq_s_format m' = zmq_s_format m → m_next m ≤ m_next m' →
  (∀ z x, z_objs (m_zmq m) !! z = Some x → mode_ x = Some ZMQ_PUB → z_objs (m_zmq m') !! z = Some x) →
  (∀ z, z_next (m_zmq m') ≤ z → z_objs (m_zmq m') !! z = None) → tables_ok m'.
Proof.
  intros [Hf Hp Hu Ha Hc Ho] Ek Eu Ep Es Ef Hn Hz Ho'.
  assert (∀ q, used m q → used m' q) as Hused by (intros q (j & E & Hj); exists j; unfold entry; by rewrite Es, Ep).
  assert (∀ key p o i z, unit_at m key p o i z → unit_at m' key p o i z) as Hat.
  { intros key p o i z U. pose proof U as [(u & s1 & s2 & x & _ & _ & _ & _ & _ & _ & _ & _ & _ & Hx & Hm & _) (? & ? & _)].
    eapply unit_at_frame; [exact U|by rewrite Eu| |auto..]. by rewrite Hx, (Hz _ _ Hx Hm). }
  apply tables_ok_intro; unfold ports_ok; rewrite ?Ef, ?Ep, ?Es, ?Ek, ?Eu; try done.
  - intros p ?. apply Hc. lia.
  - intros key p H1. destruct (Hu _ _ H1) as (o & i & z & U). eauto.
  - intros k1 k2 p1 p2 H1 H2 Hne.
    destruct (Hu _ _ H1) as (o1 & i1 & z1 & U1), (Hu _ _ H2) as (o2 & i2 & z2 & U2).
    exists o1, i1, z1, o2, i2, z2. split_and!; eauto.
Qed.

Lemma lookup_set_two (t : list bool) j1 j2 j b : t !! j = Some b →
  <[j2 := true]> (<[j1 := true]> t) !! j = Some (if decide (j = j1 ∨ j = j2) then true else b).
Proof.
  intros Hj. pose proof (lookup_lt_Some _ _ _ Hj).
  destruct (decide (j = j2)) as [->|].
  { rewrite list_lookup_insert_eq by (by rewrite length_insert). by rewrite decide_True by tauto. }
  rewrite list_lookup_insert_ne by done. destruct (decide (j = j1)) as [->|].
  { rewrite list_lookup_insert_eq by done. by rewrite decide_True by tauto. }
  rewrite list_lookup_insert_ne by done. by rewrite decide_False by tauto.
Qed.

Section Allocated.
Context (unit : bytes) (u : ptr) (m m' : manager K N) (j1 j2 : nat) (x : pzmq sys_action bus_callback) (k : K).
Context (Hm : tables_ok m) (Hun : plain unit = true) (Hal : allocated unit u m m' j1 j2 x k).
Let wid := unit ++ str "." ++ to_string (work_id_number_counter m).
Let q1 := port_list_start m + Z.of_nat j1.
Let q2 := port_list_start m + Z.of_nat j2.

Lemma allocated_used q : used m q → used m' q ∧ q ≠ q1 ∧ q ≠ q2.
Proof.
  destruct Hal as [_ Hj1 Hj2 _ _ _ Hm']. intros (j & -> & Hj). split; [|split].
  - exists j. unfold entry. rewrite Hm'. cbn. split; [done|].
    rewrite (lookup_set_two _ _ _ _ _ Hj). by case_decide.
  - unfold q1. intros E. assert (j = j1) as -> by lia. congruence.
  - unfold q2. intros E. assert (j = j2) as -> by lia. congruence.
Qed.

Lemma allocated_keeps key p o i z : unit_at m key p o i z →
  unit_at m' key p o i z ∧ p ≠ m_next m ∧ z ≠ z_next (m_zmq m).
Proof.
  pose proof Hal as [Eu _ _ _ _ _ Hm']. rewrite Eu in Hm'. intros U.
  pose proof U as [(y & s1 & s2 & x0 & Hy & _ & _ & _ & _ & _ & _ & _ & _ & Hx0 & _) (Uo & Ui & _)].
  assert (p ≠ m_next m) as Hpn by (intros ->; rewrite (to_cells _ Hm) in Hy by lia; done).
  assert (z ≠ z_next (m_zmq m)) as Hzn by (intros ->; rewrite (to_objs _ Hm) in Hx0 by lia; done).
  split; [|done].
  eapply unit_at_frame; [exact U| | |by apply allocated_used|by apply allocated_used]; rewrite Hm'; cbn;
    by rewrite lookup_insert_ne.
Qed.

Lemma allocated_at : unit_at m' wid (m_next m) q1 q2 (z_next (m_zmq m)).
Proof.
  destruct Hal as [-> Hj1 Hj2 Hne Hpub _ Hm']. split.
  - exists (mkUnit (Some (z_next (m_zmq m))) wid (url l r q1 (suffix m unit (str ".output_url")))
      (url l r q2 (suffix m unit (str ".inference_url"))) (work_id_number_counter m)),
      (suffix m unit (str ".output_url")), (suffix m unit (str ".inference_url")), x.
    rewrite Hm'. cbn [m_units m_zmq z_objs].
    split_and!; try done; try (by apply suffix_plain); try apply suffix_stops; apply lookup_insert_eq.
  - split_and!; [exists j1|exists j2|unfold q1, q2; lia]; unfold entry; rewrite Hm'; cbn; (split; [done|]);
      erewrite lookup_set_two by eassumption; rewrite decide_True; tauto.
Qed.

Lemma allocated_key key p : key_sql m' !! key = Some (AnyUnit p) →
  (key = wid ∧ p = m_next m) ∨ (key ≠ wid ∧ key_sql m !! key = Some (AnyUnit p)).
Proof.
  destruct Hal as [-> _ _ _ _ _ Hm']. rewrite Hm'. cbn.
  intros [[_ E]|[_ [[<- [= <-]]|[? ?]]%lookup_insert_Some]]%lookup_insert_Some; [done|by left|right; by split].
Qed.

Lemma allocated_ok : tables_ok m'.
Proof.
  pose proof Hm as [Hf Hp Hu Ha Hc Ho].
  pose proof Hal as [Eu _ _ _ _ _ Hm']. rewrite Eu in Hm'. apply tables_ok_intro.
  - by rewrite Hm'.
  - rewrite Hm'. destruct Hp. split; cbn; [done|]. unfold zlen in *. by rewrite !length_insert.
  - intros p. rewrite Hm'. cbn. intros. rewrite lookup_insert_ne by lia. apply Hc. lia.
  - intros z. rewrite Hm'. cbn. intros. rewrite lookup_insert_ne by lia. apply Ho. lia.
  - intros key p [[-> ->]|[_ Hk]]%allocated_key; [eauto using allocated_at|].
    destruct (Hu _ _ Hk) as (o & i & z & U). apply allocated_keeps in U as (U & _). eauto.
  - assert (∀ key p, key_sql m !! key = Some (AnyUnit p) → ∃ o i z, unit_at m' key p o i z ∧
      apart p (m_next m) o i q1 q2 z (z_next (m_zmq m)) ∧ unit_at m key p o i z) as Hold.
    { intros key p Hk. destruct (Hu _ _ Hk) as (o & i & z & U). exists o, i, z.
      pose proof (allocated_keeps _ _ _ _ _ U) as (U' & Hpn & Hzn). destruct U as [Ux (Uo & Ui & Une)].
      destruct (allocated_used _ Uo) as (_ & ? & ?), (allocated_used _ Ui) as (_ & ? & ?). by split_and!. }
    intros k1 k2 p1 p2 [[-> ->]|[_ H1]]%allocated_key [[-> ->]|[_ H2]]%allocated_key Hne; [done|..].
    + destruct (Hold _ _ H2) as (o & i & z & U & (? & ? & ? & ? & ? & ?) & _).
      exists q1, q2, (z_next (m_zmq m)), o, i, z. split_and!; [apply allocated_at|done|]. by split_and!.
    + destruct (Hold _ _ H1) as (o & i & z & U & Hap & _).
      exists o, i, z, q1, q2, (z_next (m_zmq m)). split_and!; [done|apply allocated_at|done].
    + destruct (Hold _ _ H1) as (o1 & i1 & z1 & U1 & _ & V1), (Hold _ _ H2) as (o2 & i2 & z2 & U2 & _ & V2).
      exists o1, i1, z1, o2, i2, z2. split_and!; [done|done|]. eauto.
Qed.
End Allocated.

Lemma used_clear m j1 j2 o i q : entry m o j1 → entry m i j2 → q ≠ o → q ≠ i → used m q →
  ∀ m', port_list_start m' = port_list_start m →
    port_list m' = <[j2 := false]> (<[j1 := false]> (port_list m)) → used m' q.
Proof.
  intros E1 E2 N1 N2 (j & E & Hj) m' Es Et. exists j. unfold entry in *. rewrite Es, Et. split; [done|].
  rewrite !list_lookup_insert_ne; [done|intros ->; congruence..].
Qed.

Lemma released_ok m m' key p o i z j1 j2 k : tables_ok m → key_sql m !! key = Some (AnyUnit p) →
  unit_at m key p o i z → entry m o j1 → entry m i j2 →
  (m' = let t := <[j2 := false]> (<[j1 := false]> (port_list m)) in
        let zs := mkZ k (delete z (z_objs (m_zmq m))) (z_next (m_zmq m)) in
        let us := delete p (m_units m) in
        let kv := delete (key ++ str ".out_port") (delete key (key_sql m)) in
        {| m with m_zmq := zs; key_sql := kv; port_list := t; m_units := us |}) → tables_ok m'.
Proof.
  intros [Hf Hp Hu Ha Hc Ho] Hk U E1 E2 Hm'.
  assert (∀ key' p', key_sql m' !! key' = Some (AnyUnit p') → key_sql m !! key' = Some (AnyUnit p') ∧
    ∃ o' i' z', unit_at m key' p' o' i' z' ∧ unit_at m' key' p' o' i' z') as Hold.
  { intros key' p'. rewrite Hm' at 1. cbn.
    intros [_ [Hne Hk']%lookup_delete_Some]%lookup_delete_Some. split; [done|].
    destruct (Hu _ _ Hk') as (o' & i' & z' & U').
    destruct (Ha _ _ _ _ _ _ _ _ _ _ Hk U Hk' U' ltac:(done)) as (Np & Nz & ? & ? & ? & ?).
    exists o', i', z'. split; [done|]. pose proof U' as [_ (Uo & Ui & _)].
    eapply unit_at_frame; [exact U'|rewrite Hm'; cbn; by rewrite lookup_delete_ne..| |];
      (eapply (used_clear m j1 j2 o i); [done|done|congruence|congruence|done|by rewrite Hm'..]). }
  apply tables_ok_intro.
  - by rewrite Hm'.
  - rewrite Hm'. destruct Hp. split; cbn; [done|]. unfold zlen in *. by rewrite !length_insert.
  - intros p'. rewrite Hm'. cbn. intros. apply lookup_delete_None. auto.
  - intros z'. rewrite Hm'. cbn. intros. apply lookup_delete_None. auto.
  - intros key' p' H1. destruct (Hold _ _ H1) as (_ & o' & i' & z' & _ & U'). eauto.
  - intros k1 k2 p1 p2 H1 H2 Hne. apply Hold in H1 as (H1 & o1 & i1 & z1 & V1 & U1).
    apply Hold in H2 as (H2 & o2 & i2 & z2 & V2 & U2).
    exists o1, i1, z1, o2, i2, z2. split_and!; eauto.
Qed.

(** When the "register_unit" action is admitted: a plain name and two free
    ports. *)
Definition admitted (a : sys_action) (raw : bytes) m : Prop :=
  match a with
  | Rpc_register_unit => plain raw = true ∧
      ∃ j1 j2, j1 ≠ j2 ∧ port_list m !! j1 = Some false ∧ port_list m !! j2 = Some false
  | _ => True
  end.

(** What the "sys" actions leave alone: everything but the units, their keys,
    ports and publishers. *)
Record bystanders m m' : Prop := {
  by_objs : ∀ q y, mode_ y ≠ Some ZMQ_PUB → z_objs (m_zmq m') !! q = Some y ↔ z_objs (m_zmq m) !! q = Some y;
  by_thread : ∀ q y cb, z_objs (m_zmq m') !! q = Some y → zmq_thread_ y = Some cb → z_objs (m_zmq m) !! q = Some y;
  by_next : m_next m ≤ m_next m';
  by_rest : zmq_c_format m' = zmq_c_format m ∧ m_sessions m' = m_sessions m ∧ m_context m' = m_context m ∧
    counter_port m' = counter_port m ∧ m_net m' = m_net m;
}.
Lemma bystanders_refl m : bystanders m m.
Proof. split; [done|done|lia|done]. Qed.
Lemma bystanders_keys m kv : bystanders m {| m with key_sql := kv |}.
Proof. split; cbn; [done|done|lia|done]. Qed.
Lemma allocated_bystanders unit u m m' j1 j2 x k : tables_ok m → allocated unit u m m' j1 j2 x k → bystanders m m'.
Proof.
  intros Hm [_ _ _ _ (Hmode & _) Hth ->]. split; cbn; [| |lia|done].
  - intros q y Hy. destruct (decide (q = z_next (m_zmq m))) as [->|]; [|by rewrite lookup_insert_ne].
    rewrite lookup_insert_eq, (to_objs _ Hm) by lia. split; [|done]. intros [= ->]. congruence.
  - intros q y cb [[_ <-]|[_ ?]]%lookup_insert_Some; [congruence|done].
Qed.
Lemma released_bystanders m m' key p o i z j1 j2 k : unit_at m key p o i z →
  (m' = let t := <[j2 := false]> (<[j1 := false]> (port_list m)) in
        let zs := mkZ k (delete z (z_objs (m_zmq m))) (z_next (m_zmq m)) in
        let us := delete p (m_units m) in
        let kv := delete (key ++ str ".out_port") (delete key (key_sql m)) in
        {| m with m_zmq := zs; key_sql := kv; port_list := t; m_units := us |}) → bystanders m m'.
Proof.
  intros [(u & s1 & s2 & x & _ & _ & _ & _ & _ & _ & _ & _ & _ & Hx & (Hmode & _)) _] ->. split; cbn; [| |lia|done].
  - intros q y Hy. destruct (decide (q = z)) as [->|]; [|by rewrite lookup_delete_ne].
    rewrite lookup_delete_eq, Hx. split; [done|]. intros [= ->]. congruence.
  - by intros q y cb [_ ?]%lookup_delete_Some.
Qed.

Lemma wp_sys_rpc a raw m : let Q m' := tables_ok m' ∧ bystanders m m' in tables_ok m → admitted a raw m →
  wpe (sys_rpc a (mkData raw)) (λ _ m', Q m') (λ _ m', Q m') m.
Proof.
  intros Q Hm Ha. assert (Q m) as Hsame by (split; [done|apply bystanders_refl]). destruct a; cbn [sys_rpc].
  - unfold rpc_sql_select, sys_sql_select, SAFE_READING. by m_run.
  - destruct Ha as (Hu & j1 & j2 & Hne & H1 & H2). unfold rpc_allocate_unit, string_. cbn [msg]. wp_simp.
    eapply wp_mono; [by apply (wp_sys_allocate_unit m raw j1 j2); try apply Hm|].
    intros u m1 (i1 & i2 & x & k & Hal). pose proof (allocated_ok _ _ _ _ _ _ _ _ Hm Hu Hal) as Hok.
    pose proof (allocated_bystanders _ _ _ _ _ _ _ _ Hm Hal) as Hby.
    destruct Hal as [-> _ _ _ _ _ Hm1].
    assert (is_Some (m_units m1 !! m_next m)) as [y Hy] by (rewrite Hm1; cbn; rewrite lookup_insert_eq; by eexists).
    clear Hm1. by m_run; split.
  - unfold rpc_release_unit, string_. cbn [msg]. wp_simp.
    destruct (key_sql m !! raw) as [[| | |p]|] eqn:Hk.
    4: { destruct (to_unit _ Hm _ _ Hk) as (o & i & z & U).
      eapply wp_mono; [exact (wp_sys_release_unit m raw p o i z Hm Hk U)|].
      intros n m1 (_ & j1 & j2 & k & E1 & E2 & Hm1). wp_simp. split; [by eapply released_ok|by eapply released_bystanders]. }
    all: unfold sys_release_unit, SAFE_READING; m_run; rewrite Hk; by m_run.
  - unfold rpc_sql_set, string_. cbn [msg].
    assert (∀ k P, (∀ v, P v m) → wpe (StackFlowUtil.sample_json_str_get raw k) P (λ _ m', Q m') m) as Hget.
    { intros k P HP. unfold StackFlowUtil.sample_json_str_get, substr. destruct (find _ _); [|by wp_simp].
      destruct (_ =? -1); [by wp_simp|]. wp_simp. by destruct (_ && _); wp_simp. }
    wp_simp. apply Hget. intros key. wp_simp. apply Hget. intros v. case_bool_decide; [by wp_simp|].
    unfold sys_sql_set. m_run. split; [apply tables_ok_keys; [done|]|apply bystanders_keys]. by intros key' p [[_ ?]|[_ ?]]%lookup_insert_Some.
  - unfold rpc_sql_unset, sys_sql_unset. m_run. split; [apply tables_ok_keys; [done|]|apply bystanders_keys].
    by intros key' p [_ ?]%lookup_delete_Some.
Qed.

(** C2: the unit manager's tables stay consistent.  Whatever a client asks of the
    "sys" server, as long as a new unit has a plain name and two ports are
    free, the action does not crash, and afterwards each unit filed in the key
    store is still a live object with its own publisher and two ports marked
    used in the port table, no two units sharing any of them. *)
Theorem sys_rpc_consistent a raw m : tables_ok m → admitted a raw m →
  wpe (sys_rpc a (mkData raw)) (λ _ m', tables_ok m') (λ _ m', tables_ok m') m.
Proof. intros Hm Ha. eapply wpe_mono; [by apply wp_sys_rpc|by intros ? ? []..]. Qed.

(** C14: releasing a unit undoes its allocation: the port table, the key store,
    the units and the zmq objects are what they were, and only the counter of
    work ids has moved on. *)
Theorem allocate_release unit m : let wid := unit ++ str "." ++ to_string (work_id_number_counter m) in
  tables_ok m → admitted Rpc_register_unit unit m →
  key_sql m !! wid = None → key_sql m !! (wid ++ str ".out_port") = None →
  wp (sys_allocate_unit unit ;;; sys_release_unit wid) (λ n m', n = 0 ∧
    port_list m' = port_list m ∧ key_sql m' = key_sql m ∧ m_units m' = m_units m ∧
    z_objs (m_zmq m') = z_objs (m_zmq m) ∧
    work_id_number_counter m' = swrap 32 (work_id_number_counter m + 1)) m.
Proof.
  intros wid Hm (Hu & a & b & Hne & Ha & Hb) Hk1 Hk2. wp_simp.
  eapply wp_mono; [by apply (wp_sys_allocate_unit m unit a b); try apply Hm|].
  intros u m1 (j1 & j2 & x & k & Hal).
  pose proof (allocated_ok _ _ _ _ _ _ _ _ Hm Hu Hal) as Hok.
  pose proof (allocated_at _ _ _ _ _ _ _ _ Hu Hal) as Hat. fold wid in Hat.
  destruct Hal as [-> Hj1 Hj2 Hj _ _ Hm1]. fold wid in Hm1.
  assert (wid ++ str ".out_port" ≠ wid) as Hw.
  { intros E. apply (f_equal zlen) in E. rewrite zlen_app in E. change (zlen (str ".out_port")) with 9 in E. lia. }
  assert (key_sql m1 !! wid = Some (AnyUnit (m_next m))) as Hk.
  { rewrite Hm1. cbn. by rewrite lookup_insert_ne, lookup_insert_eq. }
  eapply wp_mono; [exact (wp_sys_release_unit m1 wid _ _ _ _ Hok Hk Hat)|].
  intros n m2 (-> & i1 & i2 & k' & E1 & E2 & ->). cbv zeta. simpl_m. unfold entry in E1, E2.
  rewrite Hm1 in *. cbn [port_list_start port_list key_sql m_units m_zmq z_objs work_id_number_counter] in *.
  assert (i1 = j1) as -> by lia. assert (i2 = j2) as -> by lia. split_and!; [done|..|done].
  - rewrite (list_insert_insert_ne _ j1 j2) by done. rewrite !list_insert_insert_eq.
    rewrite (list_insert_id _ _ _ Hj1). by apply list_insert_id.
  - rewrite (delete_insert_ne _ wid) by done. rewrite delete_insert_id by (by rewrite lookup_delete_ne, lookup_insert_ne).
    rewrite delete_insert_id; [done..].
  - by rewrite delete_insert_id by (apply (to_cells _ Hm); lia).
  - by rewrite delete_insert_id by (apply (to_objs _ Hm); lia).
Qed.

(** With a full port table the port number is read uninitialised. *)
Lemma allocate_exhausted unit m : (∀ j, port_list m !! j ≠ Some false) →
  sys_allocate_unit unit m = Crash Undefined.
Proof.
  intros Hfull. pose proof (first_free_spec (port_list m) 0) as Hf.
  destruct (first_free (port_list m) 0) as [j|] eqn:E; [destruct Hf as [_ Hj]; by destruct (Hfull (j - 0)%nat)|].
  cbv [sys_allocate_unit bind get modify new_unit upd_unit get_unit deref take_port ret].
  cbn -[first_free]. rewrite lookup_insert_eq. cbn -[first_free]. by rewrite E.
Qed.
End Tables.

(** ** A manager with the ports and formats of master_config.json *)
Section Sim.
Definition sim_l : bytes := str "ipc:///tmp/llm/".
Definition sim_r : bytes := str ".sock".
Definition sim_manager : manager ZSim.zsim unit :=
  mkManager (mkZ (ZSim.mkZsim 1 ∅ ∅ [] ∅) ∅ 1) ∅ 0 5010 (replicate 545 false) None ∅ 1
    (sim_l ++ str "%i" ++ sim_r) (sim_l ++ str "%i" ++ sim_r) 0 (start_world tt) None 0 ∅ ∅ 8000.

Lemma sim_tables : tables_ok sim_l sim_r sim_manager.
Proof.
  split; try done. split; try done. by intros c t [= <- <-].
Qed.

Lemma sys_rpc_consistent_witness :
  wpe (sys_rpc Rpc_register_unit (mkData (str "llm"))) (λ _ m', tables_ok sim_l sim_r m')
    (λ _ m', tables_ok sim_l sim_r m') sim_manager.
Proof.
  exact (sys_rpc_consistent sim_l sim_r Rpc_register_unit (str "llm") sim_manager sim_tables
    (conj eq_refl (ex_intro _ 0%nat (ex_intro _ 1%nat (conj (O_S 0) (conj eq_refl eq_refl)))))).
Defined.

Lemma allocate_release_witness :
  ∃ m', (sys_allocate_unit (str "llm") ;;; sys_release_unit (str "llm.0")) sim_manager = Ret 0 m'
    ∧ port_list m' = replicate 545 false ∧ key_sql m' = ∅.
Proof.
  pose proof (allocate_release sim_l sim_r (str "llm") sim_manager sim_tables
    (conj eq_refl (ex_intro _ 0%nat (ex_intro _ 1%nat (conj (O_S 0) (conj eq_refl eq_refl)))))
    eq_refl eq_refl) as Hw.
  destruct (proj1 (wp_run _ _ _) Hw) as (n & m' & Hrun & -> & Hp & Hk & _).
  exists m'. split; [exact Hrun|]. split; [exact Hp|exact Hk].
Defined.
End Sim.
End UnitTable.
