(* ===== verification/UnitAction.v ===== *)
(** * The unit manager: routing requests to units
    (unit-manager: zmq_bus.cpp, remote_action.cpp and the rest of
    remote_server.cpp)

    simdjson and nlohmann::json are the classes [Simdjson] and [JsonLib].  A throw that no caller catches reaches the event loop of
    the network library and ends the process. *)

From S2P Require Import Prelude.
From S2P Require Import CStdlib.
From S2P Require Import PzmqData.
From S2P Require Import StackFlowUtil.
From S2P Require Import Json.
From S2P Require Import Pzmq.
From S2P Require Import UnitCall.
From S2P Require Import NetTypes.
From S2P Require Import SocketsOps.
From S2P Require Import Manager.
Import PzmqData Pzmq Manager Json StackFlowUtil.

(** [parser.iterate] of a text, and [doc[key].get_string(...)] on its document
    ([None] is an error code). *)
Class Simdjson := {
  iterate_ok : bytes → bool;
  get_string : bytes → bytes → option bytes;
}.

Module UnitAction.
Section Ops.
Context `{Zmq K, Attempts, !Clock K, JsonLib, Simdjson} {N : Type}.
Abbreviation MM := (M (manager K N)).

(** ** zmq_bus.cpp *)

(** [sprintf(zmq_push_url, zmq_c_format.c_str(), com_id)] into 128 bytes. *)
Definition push_url (com_id : Z) : MM bytes :=
  let* m := get in sprintf_buf 128 (zmq_c_format m) com_id.

(** The [else] belongs to the [if] hidden in the [ALOGW] before it, whose
    condition (the log level) always holds: an unknown work id is not an
    error. *)
Definition zmq_bus_publisher_push (work_id json_str : bytes) : MM Z :=
  if bool_decide (work_id = []) then ret (-1)
  else
    let* unit_p := SAFE_READING (λ a, Some <$> cast_unit a) work_id None in
    (if unit_p is Some u then send_msg u json_str else ret tt) ;;;
    ret 0.

(** A local [pzmq] of a mode, destroyed at the end of its scope. *)
Definition with_pzmq {A} (url : bytes) (mode : Z) (m : ptr → MM A) : MM A :=
  let* p := zq (pzmq_ctor url mode None) in
  let* a := m p in
  zq (pzmq_dtor p) ;;; ret a.

Definition zmq_com_send (com_id : Z) (out_str : bytes) : MM unit :=
  let* zmq_push_url := push_url com_id in
  with_pzmq zmq_push_url ZMQ_PUSH (λ p,
    zq (Pzmq.send_data p (out_str ++ [char_of 10])) ;;; ret tt).

Definition select_json_str (json_src : bytes) (out_fun : bytes → MM unit) : MM unit :=
  let test_json :=
    if bool_decide (last json_src = Some (char_of 10))
    then ztake (zlen json_src - 1) json_src else json_src in
  out_fun test_json.

(** ** remote_action.cpp *)

(** [snprintf(com_url, 255, zmq_c_format.c_str(), com_id)]. *)
Definition com_url (com_id : Z) : MM bytes :=
  let* m := get in
  let* text := deref (sprintf_int (InetAddress.c_str (zmq_c_format m)) (Some com_id)) in
  ret (snprintf 255 text).

(** The texts read from the document; they stay empty on an error. *)
Definition field_or_empty (json_str key : bytes) : bytes := default [] (get_string json_str key).

Definition remote_call (com_id : Z) (json_str : bytes) : MM Z :=
  let work_id := field_or_empty json_str (str "work_id") in
  let work_unit := StackFlowUtil.sample_get_work_id_name work_id in
  let action := field_or_empty json_str (str "action") in
  if bool_decide (work_id = []) || bool_decide (action = []) then throw runtime_error
  else
    let* url := com_url com_id in
    let* '(r, _) := UnitCall.with_local work_unit (λ p,
      call_rpc_action p action (set_param url json_str) (λ _, ret tt)) in
    ret r.

(** ** remote_server.cpp *)
Definition usr_print_error (request_id work_id : bytes) (error_msg : bytes) (zmq_out : Z) : MM unit :=
  let* b := set_field (str "request_id") (JString request_id) JNull in
  let* b := set_field (str "work_id") (JString work_id) b in
  let* now := zq (zcall sys_time) in
  let* b := set_field (str "created") (JNumber now) b in
  let* e := parse error_msg in
  let* b := set_field (str "error") e b in
  let* b := set_field (str "object") (JString (str "None")) b in
  let* b := set_field (str "data") (JString (str "None")) b in
  let* out := dump b in
  zmq_com_send zmq_out out.

Definition json_format_error : bytes := json "{'code':-2, 'message':'json format error'}".
Definition inference_push_false : bytes := json "{'code':-4, 'message':'inference data push false'}".
Definition unit_call_false : bytes := json "{'code':-9, 'message':'unit call false'}".

(** [work_id_fragment]: the text split at the dots, a last empty piece left
    out. *)
Fixpoint fragments (fragment : bytes) (work_id : bytes) : list bytes :=
  match work_id with
  | [] => if bool_decide (fragment = []) then [] else [fragment]
  | c :: work_id' =>
      if bool_decide (c = "."%char) then fragment :: fragments [] work_id'
      else fragments (fragment ++ [c]) work_id'
  end.

(** [sprintf(data + off, ...)] of the text [t] into the string [buf]: the
    terminator may also fall on the string's own. *)
Definition sprintf_at {S} (off : Z) (t buf : bytes) : M S bytes :=
  if off + zlen t <=? zlen buf
  then ret (ztake (zlen buf) (zblit off (t ++ ["000"%char]) buf)) else crash Undefined.

(** [memcpy(data + off, src, n)]. *)
Definition memcpy_at {S} (off : Z) (src : bytes) (n : Z) (buf : bytes) : M S bytes :=
  if (0 <=? n) && (n <=? zlen src) && (off + n <=? zlen buf)
  then ret (zblit off (ztake n src) buf) else crash Undefined.

Definition zmq_com_head : bytes := json "{'zmq_com':'".

(** [inference_raw_data], assembled in place. *)
Definition inference_data {S} (zmq_push_url json_str : bytes) : M S bytes :=
  let post := zlen zmq_push_url in
  let buf := zeros (Z.to_nat (post + zlen json_str + 13)) in
  let* buf := sprintf_at 0 zmq_com_head buf in
  let post := zlen zmq_com_head in
  let* buf := sprintf_at post zmq_push_url buf in
  let post := post + zlen zmq_push_url in
  let* buf := sprintf_at post (json "',") buf in
  let post := post + zlen (json "',") in
  memcpy_at post (zdrop 1 json_str) (zlen json_str - 1) buf.

Definition unit_action_match (com_id : Z) (json_str : bytes) : MM unit :=
  let bad := usr_print_error (str "0") (str "sys") json_format_error com_id in
  if negb (iterate_ok json_str) then bad
  else match get_string json_str (str "request_id") with
  | None => bad
  | Some request_id =>
  match get_string json_str (str "work_id") with
  | None => bad
  | Some w =>
  let work_id := if bool_decide (w = []) then str "sys" else w in
  match get_string json_str (str "action") with
  | None => bad
  | Some action =>
      if bool_decide (action = str "inference") then
        let* zmq_push_url := push_url com_id in
        let* data := inference_data zmq_push_url json_str in
        let* r := zmq_bus_publisher_push work_id data in
        when (negb (r =? 0)) (usr_print_error request_id work_id inference_push_false com_id)
      else
        let* first := deref (head (fragments [] work_id)) in
        if bool_decide (first = []) then ret tt
        else
          let* r := remote_call com_id json_str in
          when (negb (r =? 0)) (usr_print_error request_id work_id unit_call_false com_id)
  end end end.
End Ops.

(** ** The frame pushed for an inference *)

(** The JSON text [{...] with a first member zmq_com. *)
Definition framed (url body : bytes) : bytes := zmq_com_head ++ url ++ json "'," ++ body.

Lemma zeros_app n m : zeros (n + m) = zeros n ++ zeros m.
Proof. unfold zeros. induction n as [|n IH]; cbn; [done|by f_equal]. Qed.
Lemma length_zeros n : length (zeros n) = n.
Proof. apply repeat_length. Qed.

(** Text written over zeros, its terminator falling on the next zero or off the
    end. *)
Lemma blit_zeros (t : bytes) (n : nat) : (length t ≤ n)%nat →
  take n ((t ++ ["000"%char]) ++ drop (length t + 1) (zeros n)) = t ++ zeros (n - length t).
Proof.
  intros Hn. destruct (n - length t)%nat as [|m] eqn:E.
  - assert (n = length t) as -> by lia. rewrite drop_ge by (rewrite length_zeros; lia).
    rewrite app_nil_r, take_app_length. by rewrite app_nil_r.
  - replace n with (length t + 1 + m)%nat by lia. rewrite !zeros_app, drop_app_length'
      by (rewrite length_app, !length_zeros; lia).
    rewrite take_ge by (rewrite !length_app, length_zeros; cbn; lia).
    rewrite <-app_assoc. by f_equal.
Qed.

Lemma sprintf_at_end {S} (a t : bytes) (n : nat) (s : S) : (length t ≤ n)%nat →
  sprintf_at (zlen a) t (a ++ zeros n) s = Ret (a ++ t ++ zeros (n - length t)) s.
Proof.
  intros Hn. unfold sprintf_at. rewrite zlen_app, (proj2 (Z.leb_le _ _))
    by (unfold zlen; rewrite length_zeros; lia).
  unfold ret. f_equal. rewrite <-blit_zeros by done. unfold zblit, ztake, zdrop.
  unfold zlen. rewrite Nat2Z.id, take_app_length, length_app. rewrite length_zeros.
  replace (Z.to_nat (Z.of_nat (length a) + Z.of_nat n)) with (length a + n)%nat by lia.
  rewrite take_app_add'. 2: done. f_equal. f_equal. f_equal.
  replace (Z.to_nat _) with (length a + (length t + 1))%nat by (cbn [length]; lia).
  by rewrite drop_app_add'.
Qed.

(** The whole buffer is written, its size being exact. *)
Lemma inference_data_eq {S} url c body (s : S) :
  inference_data url (c :: body) s = Ret (framed url body) s.
Proof.
  unfold inference_data, bind, ret. set (u := length url). set (b := length body).
  replace (Z.to_nat (zlen url + zlen (c :: body) + 13)) with (12 + (u + (2 + b)))%nat
    by (unfold zlen, u, b; cbn [length]; lia).
  pose proof (sprintf_at_end [] zmq_com_head (12 + (u + (2 + b))) s ltac:(cbn; lia)) as E.
  cbn [app] in E. change (zlen []) with 0 in E. rewrite E. clear E.
  replace (12 + (u + (2 + b)) - length zmq_com_head)%nat with (u + (2 + b))%nat by (cbn; lia).
  rewrite sprintf_at_end by (unfold u; lia).
  replace (u + (2 + b) - length url)%nat with (2 + b)%nat by (unfold u; lia).
  rewrite (app_assoc zmq_com_head), <-zlen_app, sprintf_at_end by (cbn; lia).
  replace (2 + b - length (json "',"))%nat with b by (cbn; lia).
  rewrite (app_assoc (zmq_com_head ++ url)), <-zlen_app. set (h := (zmq_com_head ++ url) ++ json "',").
  change (zdrop 1 (c :: body)) with body. unfold memcpy_at.
  replace (zlen (c :: body) - 1) with (zlen body) by (rewrite zlen_cons; lia).
  assert ((0 <=? zlen body) && (zlen body <=? zlen body) && (zlen h + zlen body <=? zlen (h ++ zeros b)) = true) as ->.
  { rewrite zlen_app. pose proof (zlen_nonneg body). assert (zlen (zeros b) = zlen body) as -> by (unfold zlen; by rewrite length_zeros).
    rewrite !(proj2 (Z.leb_le _ _)) by lia. done. }
  unfold ret. f_equal. unfold zblit, ztake, zdrop, zlen. rewrite !Nat2Z.id, take_app_length, firstn_all.
  replace (Z.to_nat _) with (length h + b)%nat by (unfold b; lia).
  rewrite drop_ge by (rewrite length_app, length_zeros; lia).
  unfold h, framed. by rewrite app_nil_r, <-!app_assoc.
Qed.

(** A key the frame leaves as the client wrote it. *)
Definition client_key (url k : bytes) : Prop :=
  (dquote ∉ k) ∧ k ≠ str "zmq_com" ∧ k ≠ str ":" ∧ k ≠ url ∧ head k ≠ Some ","%char.

(** What precedes the client's text in the frame. *)
Definition frame_head (url : bytes) : bytes := zmq_com_head ++ url ++ json "',".
Lemma framed_head url body : framed url body = frame_head url ++ body.
Proof. unfold framed, frame_head. by rewrite <-!app_assoc. Qed.

Lemma framed_find url body k : dquote ∉ url → client_key url k →
  find (quoted k) (framed url body) = (λ n, length (frame_head url) + n)%nat <$> find (quoted k) body.
Proof.
  intros Hu (Hk & H1 & H2 & H3 & H4). unfold framed.
  change (zmq_com_head ++ url ++ json "'," ++ body) with
    (["{"%char] ++ dquote :: str "zmq_com" ++ dquote :: str ":" ++ dquote :: url ++ dquote :: [","%char] ++ body).
  assert (∀ c, c ≠ dquote → dquote ∉ [c]) as Hs.
  { intros c Hc [Hc'|[]%elem_of_nil]%elem_of_cons. by symmetry in Hc'. }
  rewrite find_quoted_text by (by apply Hs).
  rewrite find_quoted_miss; [|apply (bool_decide_unpack _); reflexivity|by apply prefixb_quoted; [|apply (bool_decide_unpack _); reflexivity|]].
  rewrite find_quoted_miss; [|by apply Hs|by apply prefixb_quoted; [|by apply Hs|]].
  rewrite find_quoted_miss; [|done|by apply prefixb_quoted].
  rewrite find_quoted_miss; [|by apply Hs|].
  - destruct (find (quoted k) body) as [n|]; [|done]. cbn -[dquote]. f_equal. unfold frame_head.
    rewrite !length_app. cbn. lia.
  - destruct k as [|d k]; [done|]. cbn -[dquote]. rewrite bool_decide_true by done. cbn -[dquote].
    rewrite bool_decide_false; [done|]. intros ->. by apply H4.
Qed.
Lemma framed_value url body k : dquote ∉ url → client_key url k →
  json_value (framed url body) k = json_value body k.
Proof. intros Hu Hk. rewrite framed_head. apply json_value_skip. rewrite <-framed_head. by apply framed_find. Qed.

(** The frame built in place for an inference.  The string's size is exact:
    every write stays inside it and every byte of it is written.  A unit that
    reads the frame finds the client's push URL under "zmq_com", and under
    every other key what the client's JSON has there. *)
Theorem inference_frame {S} url c body (s : S) :
  dquote ∉ url → string_body dquote url = true → c ≠ dquote → zlen url + zlen body + 14 < 2 ^ 31 →
  inference_data url (c :: body) s = Ret (framed url body) s
  ∧ sample_json_str_get (framed url body) (str "zmq_com") s = Ret url s
  ∧ (∀ k, client_key url k →
      sample_json_str_get (framed url body) k s = sample_json_str_get (c :: body) k s).
Proof.
  intros Hu Hs Hc Hl.
  assert (zlen (framed url body) < 2 ^ 31) as Hf.
  { unfold framed. rewrite !zlen_app. change (zlen zmq_com_head) with 12. change (zlen (json "',")) with 2. lia. }
  assert (zlen (c :: body) < 2 ^ 31) as Hj by (rewrite zlen_cons; pose proof (zlen_nonneg url); lia).
  split; [apply inference_data_eq|split].
  - rewrite sample_json_str_get_eq by done. f_equal.
    apply (scan_field (str ":" ++ [dquote] ++ url ++ [dquote] ++ str "," ++ body)).
    by apply (FieldString 0 0).
  - intros k Hk. rewrite !sample_json_str_get_eq by done. rewrite framed_value by done.
    symmetry. f_equal. apply (json_value_text k [c]). intros [E|[]%elem_of_nil]%elem_of_cons. by symmetry in E.
Qed.

Lemma inference_frame_witness :
  inference_data (str "ipc:///tmp/llm/8000.sock") (json "{'work_id':'llm.1000'}") tt
    = Ret (json "{'zmq_com':'ipc:///tmp/llm/8000.sock','work_id':'llm.1000'}") tt
  ∧ sample_json_str_get (json "{'zmq_com':'ipc:///tmp/llm/8000.sock','work_id':'llm.1000'}") (str "work_id") tt
    = Ret (str "llm.1000") tt.
Proof.
  destruct (inference_frame (str "ipc:///tmp/llm/8000.sock") "{"%char (json "'work_id':'llm.1000'}") tt
    ltac:(apply (bool_decide_unpack _); reflexivity) eq_refl ltac:(discriminate) ltac:(vm_compute; reflexivity))
    as (H1 & _ & H3).
  split; [exact H1|]. etransitivity; [apply (H3 (str "work_id"))|reflexivity].
  split_and!; try discriminate. apply (bool_decide_unpack _). reflexivity.
Defined.

(** ** Requests that are not answered *)
Section Errors.
Context `{Zmq K, Attempts, !Clock K, JsonLib, Simdjson} {N : Type}.
Implicit Types m : manager K N.

(** The three fields of a request. *)
Definition request (json_str request_id work_id action : bytes) : Prop :=
  iterate_ok json_str = true ∧ get_string json_str (str "request_id") = Some request_id ∧
  get_string json_str (str "work_id") = Some work_id ∧
  get_string json_str (str "action") = Some action.

Lemma fragments_head w : w ≠ [] → head w ≠ Some "."%char → ∃ d f l, fragments [] w = (d :: f) :: l.
Proof.
  intros Hw Hd. destruct w as [|c w]; [done|]. cbn [fragments]. rewrite bool_decide_false by (intros ->; by apply Hd).
  cbn [app]. clear Hw Hd. assert (∀ w fr, fr ≠ [] → ∃ d f l, fragments fr w = (d :: f) :: l) as Hfr; [|by apply Hfr].
  clear. induction w as [|c w IH]; intros fr Hne; cbn [fragments]; destruct fr as [|d fr]; try done.
  - rewrite bool_decide_false by done. eauto.
  - case_bool_decide; [eauto|]. by apply IH.
Qed.

(** What the sender of a request is not told.  An inference for a work id
    that is not filed is dropped: the manager is unchanged and no error is
    pushed.  A request without an action, or one without a work id that is not
    an inference, makes [remote_call] throw; nothing catches it on the way. *)
Theorem unit_action_match_unanswered com_id c body request_id work_id action m :
  request (c :: body) request_id work_id action →
  (action = str "inference" →
     key_sql m !! (if bool_decide (work_id = []) then str "sys" else work_id) = None →
     (∃ url, push_url com_id m = Ret url m) →
     unit_action_match com_id (c :: body) m = Ret tt m)
  ∧ (action ≠ str "inference" → action = [] ∨ work_id = [] → head work_id ≠ Some "."%char →
     unit_action_match com_id (c :: body) m = Throw runtime_error m).
Proof.
  intros (Hi & Hr & Hw & Ha). unfold unit_action_match. rewrite Hi, Hr, Hw, Ha. cbn [negb]. split.
  - intros -> Hk [url Hu]. rewrite bool_decide_true by done. unfold bind. rewrite Hu.
    rewrite inference_data_eq.
    unfold zmq_bus_publisher_push, SAFE_READING, bind, get, ret.
    assert (bool_decide ((if bool_decide (work_id = []) then str "sys" else work_id) = []) = false) as ->.
    { apply bool_decide_false. by case_bool_decide. }
    by rewrite Hk.
  - intros Hna Hor Hdot. rewrite bool_decide_false by done.
    destruct (fragments_head (if bool_decide (work_id = []) then str "sys" else work_id)) as (d & f & l & Hf);
      [by case_bool_decide|by case_bool_decide|].
    unfold bind. rewrite Hf. cbn [head deref]. rewrite bool_decide_false by done.
    unfold remote_call, field_or_empty. rewrite Hw, Ha. cbn [from_option id].
    destruct Hor as [-> | ->]; [|done].
    by rewrite orb_comm.
Qed.
End Errors.

(** A parser that reads the fields as [sample_json_str_get] does. *)
Section Sim.
#[local] Instance sim_json_lib : JsonLib := {| dump_text _ := None; parse_text _ := None |}.
#[local] Instance sim_simdjson : Simdjson :=
  {| iterate_ok _ := true; get_string t k := Some (json_value t k) |}.
#[local] Instance sim_clock : Clock ZSim.zsim := {| sys_time k := (0, k) |}.
Definition sim_manager : manager ZSim.zsim unit :=
  mkManager (mkZ (ZSim.mkZsim 1 ∅ ∅ [] ∅) ∅ 1) ∅ 0 5010 [] None ∅ 1
    (str "ipc:///tmp/llm/%i.sock") (str "ipc:///tmp/llm/%i.sock") 0 (start_world tt) None 0 ∅ ∅ 8000.

Lemma unit_action_match_unanswered_witness :
  unit_action_match 8000 (json "{'request_id':'1','work_id':'llm.7','action':'inference'}") sim_manager
    = Ret tt sim_manager
  ∧ unit_action_match 8000 (json "{'request_id':'1','work_id':'','action':'setup'}") sim_manager
    = Throw runtime_error sim_manager.
Proof.
  split.
  - apply (unit_action_match_unanswered 8000 "{"%char (json "'request_id':'1','work_id':'llm.7','action':'inference'}")
      (str "1") (str "llm.7") (str "inference") sim_manager).
    + split_and!; vm_compute; reflexivity.
    + reflexivity.
    + reflexivity.
    + exists (str "ipc:///tmp/llm/8000.sock"). vm_compute. reflexivity.
  - apply (unit_action_match_unanswered 8000 "{"%char (json "'request_id':'1','work_id':'','action':'setup'}")
      (str "1") [] (str "setup") sim_manager).
    + split_and!; vm_compute; reflexivity.
    + discriminate.
    + by right.
    + discriminate.
Defined.
End Sim.
End UnitAction.
