(* ===== verification/TcpComm.v ===== *)
(** * The unit manager: TCP sessions and the entry point
    (unit-manager: session.h, zmq_bus_com of zmq_bus.cpp, tcp_comm.cpp,
    config.cpp, main.cpp)

    A connection's context holds its session; a session keeps its connection
    and a pull socket whose messages it sends back.  [onConnection] and
    [onMessage] are operations of the manager; the network library, run on its
    own world, sees them as the user callbacks 0 and 1. *)

From S2P Require Import Prelude.
From S2P Require Import CStdlib.
From S2P Require Import Endian.
From S2P Require Import PzmqData.
From S2P Require Import Json.
From S2P Require Import Pzmq.
From S2P Require Import Buffer.
From S2P Require Import NetTypes.
From S2P Require Import SocketsOps.
From S2P Require Import EventLoop.
From S2P Require Import TcpConnection.
From S2P Require Import EventLoopThreadPool.
From S2P Require Import TcpServer.
From S2P Require Import System.
From S2P Require Import Manager.
From S2P Require Import UnitAction.
Import PzmqData Pzmq Manager Json.

Module TcpComm.
Section Ops.
Context {K N : Type} `{Zmq K, Attempts, !Clock K, JsonLib, Simdjson, Kernel N, UserCode N, Inet, HostOrder}.
Abbreviation MM := (M (manager K N)).

Definition net {A} (m : M (World N) A) : MM A :=
  zoom m_net (λ n s, {| s with m_net := n |}) m.

Definition get_session (t : ptr) : MM TcpSession := let* m := get in deref (m_sessions m !! t).
Definition upd_session (t : ptr) (f : TcpSession → TcpSession) : MM unit :=
  let* x := get_session t in
  modify (λ m, let s := m_sessions m in {| m with m_sessions := <[t := f x]> s |}).

(** [zmq_bus_com::zmq_bus_com] and [TcpSession::TcpSession]. *)
Definition TcpSession_ctor (conn : ptr) : MM ptr := λ m,
  let t := m_next m in let s := m_sessions m in
  Ret t {| m with m_next := t + 1; m_sessions := <[t := mkSession [] 1 0 None [] 0 None conn]> s |}.

Definition work (t : ptr) (zmq_url_format : bytes) (port : Z) : MM unit :=
  upd_session t (λ x, {| x with _port := Some port; exit_flage := 1 |}) ;;;
  let* url := sprintf_buf (zlen zmq_url_format + zlen (to_string port)) zmq_url_format port in
  upd_session t (λ x, {| x with _zmq_url := url |}) ;;;
  let* p := zq (pzmq_ctor url ZMQ_PULL (Some (Bus_send_data t))) in
  let* x := get_session t in
  upd_session t (λ x, {| x with user_chennal_ := Some p |}) ;;;
  if user_chennal_ x is Some old then zq (pzmq_dtor old) else ret tt.

Definition stop (t : ptr) : MM unit :=
  let* x := get_session t in
  upd_session t (λ x, {| x with exit_flage := 0; user_chennal_ := None |}) ;;;
  if user_chennal_ x is Some p then zq (pzmq_dtor p) else ret tt.

(** [~zmq_bus_com], then the members. *)
Definition TcpSession_dtor (t : ptr) : MM unit :=
  let* x := get_session t in
  when (negb (exit_flage x =? 0)) (stop t) ;;;
  let* x := get_session t in
  (if user_chennal_ x is Some p then zq (pzmq_dtor p) else ret tt) ;;;
  modify (λ m, let s := m_sessions m in {| m with m_sessions := delete t s |}).

Definition on_data (t : ptr) (data : bytes) : MM unit :=
  let* x := get_session t in
  let* port := deref (_port x) in
  UnitAction.unit_action_match port data.

(** [TcpSession::send_data]; the buffer is never freed. *)
Definition send_data (t : ptr) (data : bytes) : MM unit :=
  let* x := get_session t in
  let* b := Buffer.Buffer_ctor Buffer.kInitialSize in
  let* '(_, b) := (λ m, match Buffer.append data b with
                       | Ret a b => Ret (a, b) m
                       | Throw e _ => Throw e m
                       | Crash f => Crash f
                       end) in
  net (TcpConnection.send (conn_ x) b) ;;; ret tt.

(** ** tcp_comm.cpp *)
Definition onConnection (conn : ptr) : MM unit :=
  let* y := net (get_conn conn) in
  if TcpConnection.connected y then
    let* t := TcpSession_ctor conn in
    modify (λ m, let c := m_context m in {| m with m_context := <[conn := t]> c |}) ;;;
    let* m := get in
    let port := counter_port m in
    modify (λ m, {| m with counter_port := swrap 32 (port + 1) |}) ;;;
    work t (zmq_s_format m) port ;;;
    let* m := get in
    when (65535 <? counter_port m) (modify (λ m, {| m with counter_port := 8000 |}))
  else
    (* [std::bad_any_cast] is caught; boost throws its own. *)
    try_catch
      (let* m := get in
       match m_context m !! conn with
       | Some t => stop t
       | None => throw boost_bad_any_cast
       end)
      (λ e, if bool_decide (e = bad_any_cast) then ret tt else throw e).

Definition onMessage (conn : ptr) : MM unit :=
  let* msg := net (TcpConnection.in_input conn Buffer.retrieveAllAsString) in
  try_catch
    (let* m := get in
     match m_context m !! conn with
     | Some t => UnitAction.select_json_str msg (on_data t)
     | None => throw boost_bad_any_cast
     end)
    (λ e, if bool_decide (e = boost_bad_any_cast) then ret tt else throw e).

(** The closures the session's server is given: [onConnection] is callback 0,
    [onMessage] callback 1.  [fuel] bounds the turns of [loop.loop()] that are
    followed. *)
Definition tcp_work (fuel : nat) (raw : sockaddr) : MM bool :=
  let* listenport := SAFE_READING cast_int (str "config_tcp_server") 0 in
  let listenAddr := InetAddress.InetAddress_port raw (wrap 16 listenport) false false in
  let* m := get in
  let* s := net (TcpServer.TcpServer_ctor (m_loop m) listenAddr (str "ZMQBridge") kNoReusePort) in
  (if m_server m is Some old then net (TcpServer.TcpServer_dtor old) else ret tt) ;;;
  modify (λ m, {| m with m_server := Some s |}) ;;;
  net (TcpServer.setConnectionCallback s (User 0)) ;;;
  net (TcpServer.setMessageCallback s (User 1)) ;;;
  net (TcpServer.setThreadNum s 2) ;;;
  net (TcpServer.start None s) ;;;
  net (System.loop fuel (m_loop m)).

Definition tcp_stop_work : MM unit :=
  let* m := get in
  net (EventLoop.quit (m_loop m)) ;;;
  match m_server m with
  | None => ret tt
  | Some s => modify (λ m, {| m with m_server := None |}) ;;; net (TcpServer.TcpServer_dtor s)
  end.

(** ** config.cpp

    [file] is the content of ../master_config.json, if it can be opened; its
    members in order, [JNumber] and [JString] kept. *)
Definition load_default_config (file : option bytes) : MM unit :=
  match file with
  | None => ret tt
  | Some text =>
      match parse_text text with
      | None => ret tt
      | Some (JObject members) =>
          forM members (λ '(k, v),
            match v with
            | JNumber n => SAFE_SETTING k (AnyInt n)
            | JString s => SAFE_SETTING k (AnyString s)
            | _ => ret tt
            end)
      | Some JNull | Some (JArray []) => ret tt
      | Some _ => throw json_type_error
      end
  end.

(** ** main.cpp *)

(** [std::any_cast<std::string>(key_sql[key])]: a missing key is inserted. *)
Definition config_string (key : bytes) : MM bytes :=
  let* m := get in
  match key_sql m !! key with
  | Some (AnyString s) => ret s
  | Some _ => throw bad_any_cast
  | None => SAFE_SETTING key AnyNone ;;; throw bad_any_cast
  end.

Definition all_work (fuel : nat) (raw : sockaddr) : MM bool :=
  let* s := config_string (str "config_zmq_s_format") in
  modify (λ m, {| m with zmq_s_format := s |}) ;;;
  let* c := config_string (str "config_zmq_c_format") in
  modify (λ m, {| m with zmq_c_format := c |}) ;;;
  remote_server_work ;;;
  tcp_work fuel raw.

Definition all_stop_work : MM unit := tcp_stop_work ;;; remote_server_stop_work.

(** The handler of SIGINT and SIGTERM. *)
Definition sigint : MM unit :=
  modify (λ m, {| m with main_exit_flage := 1 |}) ;;; all_stop_work.

(** [main] up to its waiting loop. *)
Definition main_start (file : option bytes) (fuel : nat) (raw : sockaddr) : MM bool :=
  load_default_config file ;;; all_work fuel raw.

(** [main]: its exit code, if it gets there.  [spin_init] is what
    [pthread_spin_init] returned; once the work has ended, [main] sleeps until
    a signal has set the flag. *)
Definition main (spin_init : Z) (file : option bytes) (fuel : nat) (raw : sockaddr) : MM (option Z) :=
  if negb (spin_init =? 0) then ret (Some 1)
  else
    let* ended := main_start file fuel raw in
    let* m := get in
    ret (if ended && negb (main_exit_flage m =? 0) then Some 0 else None).

(** The closures of the process. *)
#[global] Instance manager_user : ZUser sys_action bus_callback (manager K N) := {
  run_rpc a _ d := sys_rpc a d;
  run_msg c _ d := match c with Bus_send_data t => send_data t (string_ d) end;
}.
End Ops.
End TcpComm.
