(* ===== verification/Node.v ===== *)
(** * A StackFlow node's process: its state
    (infra-controller/include/StackFlow.h, infra-controller/include/channel.h)

    A process holds one [StackFlow] object, whose derived class keeps its own
    data in [n_unit] and its closures in the type [X].  The [llm_channel_obj]
    live in [n_channels]; a [std::weak_ptr] to one is its address, and locking
    it succeeds while the cell is there.  The only owners of a channel are its
    entry in [llm_task_channel_] and locals of the call that is running, so the
    cell goes when the entry does. *)

From S2P Require Import Prelude.
From S2P Require Import CStdlib.
From S2P Require Import PzmqData.
From S2P Require Import Pzmq.
Import PzmqData Pzmq.

Module Node.
Abbreviation ptr := Z.

(** The actions the framework registers, and the callback of a subscription:
    [subscriber_event_call] of a channel, bound to the user's function. *)
Inductive rpc_action := Rpc_setup | Rpc_pause | Rpc_exit | Rpc_taskinfo.
Inductive node_callback (X : Type) := Subscriber_event_call (channel : ptr) (call : X).
#[global] Arguments Subscriber_event_call {X}.

(** [enoutput_] and [enstream_] are indeterminate until they are set.  An entry
    of [zmq_] may hold a null pointer. *)
Record llm_channel_obj := mkChannel {
  zmq_ : gmap Z (option ptr);
  zmq_url_index_ : Z;
  zmq_url_map_ : gmap bytes Z;
  ch_unit_name_ : bytes;
  enoutput_ : option bool;
  enstream_ : option bool;
  ch_request_id_ : bytes;
  work_id_ : bytes;
  inference_url_ : bytes;
  publisher_url_ : bytes;
  output_url_ : bytes;
}.

Inductive LOCAL_EVENT := EVENT_NONE | EVENT_SETUP | EVENT_EXIT | EVENT_PAUSE | EVENT_TASKINFO.

Record node (K U X : Type) := mkNode {
  n_zmq : zstate K rpc_action (node_callback X);
  n_channels : gmap ptr llm_channel_obj;
  n_next : ptr;
  unit_name_ : bytes;
  request_id_ : bytes;
  out_zmq_url_ : bytes;
  exit_flage_ : bool;
  status_ : Z;
  event_queue_ : list (LOCAL_EVENT * option pzmq_data);
  even_loop_thread_ : bool;
  rpc_ctx_ : option ptr;
  llm_task_channel_ : gmap Z (option ptr);
  n_unit : U;
}.
#[global] Arguments mkNode {K U X}.
#[global] Arguments n_zmq {K U X}.
#[global] Arguments n_channels {K U X}.
#[global] Arguments n_next {K U X}.
#[global] Arguments unit_name_ {K U X}.
#[global] Arguments request_id_ {K U X}.
#[global] Arguments out_zmq_url_ {K U X}.
#[global] Arguments exit_flage_ {K U X}.
#[global] Arguments status_ {K U X}.
#[global] Arguments event_queue_ {K U X}.
#[global] Arguments even_loop_thread_ {K U X}.
#[global] Arguments rpc_ctx_ {K U X}.
#[global] Arguments llm_task_channel_ {K U X}.
#[global] Arguments n_unit {K U X}.

#[global] Instance node_host {K U X} : ZHost K rpc_action (node_callback X) (node K U X) := {
  zst := n_zmq;
  set_zst z n := {| n with n_zmq := z |};
  zst_set _ _ := eq_refl;
  set_zst_set _ _ _ := eq_refl;
  set_zst_zst w := ltac:(by destruct w);
}.

(** What the derived class of [StackFlow] supplies: its overrides of the virtual
    functions, and its closures. *)
Class StackFlowUnit (K U X : Type) := {
  unit_setup : bytes → bytes → bytes → M (node K U X) Z;
  unit_exit : bytes → bytes → bytes → M (node K U X) Z;
  unit_pause : bytes → bytes → bytes → M (node K U X) unit;
  unit_taskinfo : bytes → bytes → bytes → M (node K U X) unit;
  run_call : X → bytes → bytes → M (node K U X) unit;
}.

Section Cells.
Context {K U X : Type}.
Abbreviation MN := (M (node K U X)).

Definition get_chan (c : ptr) : MN llm_channel_obj := let* n := get in deref (n_channels n !! c).
Definition upd_chan (c : ptr) (f : llm_channel_obj → llm_channel_obj) : MN unit :=
  let* x := get_chan c in
  modify (λ n, let s := n_channels n in {| n with n_channels := <[c := f x]> s |}).
Definition new_chan (x : llm_channel_obj) : MN ptr := λ n,
  let c := n_next n in let s := n_channels n in
  Ret c {| n with n_next := c + 1; n_channels := <[c := x]> s |}.
Definition free_chan (c : ptr) : MN unit :=
  modify (λ n, let s := n_channels n in {| n with n_channels := delete c s |}).
(** A [weak_ptr] locked. *)
Definition lock_chan (c : ptr) : MN (option llm_channel_obj) := gets (λ n, n_channels n !! c).

Definition upd_unit_data (f : U → U) : MN unit :=
  modify (λ n, let u := n_unit n in {| n with n_unit := f u |}).

(** The last owner of a [pzmq] lets go of it. *)
Definition release `{Zmq K} (p : option ptr) : MN unit :=
  if p is Some p then zq (pzmq_dtor p) else ret tt.
End Cells.

(** ** Reasoning about the cells *)
Section Wp.
Context {K U X : Type}.
Implicit Types n : node K U X.

Lemma wpe_get_chan c Q E n : wpe (get_chan c) Q E n ↔ ∃ x, n_channels n !! c = Some x ∧ Q x n.
Proof. unfold get_chan. by wp_simp. Qed.
Lemma wpe_upd_chan c f Q E n :
  wpe (upd_chan c f) Q E n ↔
  ∃ x, n_channels n !! c = Some x ∧
    Q tt (let s := n_channels n in {| n with n_channels := <[c := f x]> s |}).
Proof. unfold upd_chan. by rewrite wpe_bind, wpe_get_chan. Qed.
Lemma wpe_new_chan x Q E n :
  wpe (new_chan x) Q E n ↔
  Q (n_next n) (let s := n_channels n in let c := n_next n in
    {| n with n_next := c + 1; n_channels := <[c := x]> s |}).
Proof. done. Qed.
Lemma wpe_zq_node {A} (z : M (zstate K rpc_action (node_callback X)) A) Q E n :
  wpe (zq z) Q E n ↔
  wpe z (λ a t, Q a {| n with n_zmq := t |}) (λ e t, E e {| n with n_zmq := t |}) (n_zmq n).
Proof. apply wpe_zoom. Qed.
End Wp.

Ltac simpl_n :=
  cbn [n_zmq n_channels n_next unit_name_ request_id_ out_zmq_url_ exit_flage_ status_ event_queue_
       even_loop_thread_ rpc_ctx_ llm_task_channel_ n_unit
       zmq_ zmq_url_index_ zmq_url_map_ ch_unit_name_ enoutput_ enstream_ ch_request_id_ work_id_
       inference_url_ publisher_url_ output_url_].

(** Run a program over [node] as far as its steps are determined. *)
Ltac n_step :=
  lazymatch goal with
  | |- wpe (get_chan _) _ _ _ => refine (proj2 (wpe_get_chan _ _ _ _) _)
  | |- wpe (upd_chan _ _) _ _ _ => refine (proj2 (wpe_upd_chan _ _ _ _ _) _)
  | |- wpe (new_chan _) _ _ _ => refine (proj2 (wpe_new_chan _ _ _ _) _)
  | |- wpe (zq _) _ _ _ => refine (proj2 (wpe_zq_node _ _ _ _) _)
  | _ => z_step
  end; cbn beta zeta; simpl_n.
Ltac n_run :=
  repeat lazymatch goal with
  | |- ∃ x, _ !! _ = Some x ∧ _ => eexists; split; [solve [solve_cell]|]; cbn beta; simpl_n
  | |- ∃ a, Some _ = Some a ∧ _ => eexists; split; [reflexivity|]; cbn beta
  | _ => n_step
  end.
End Node.
