(* ===== verification/LlmChannel.v ===== *)
(** * The LLM channel (infra-controller/include/channel.h, infra-controller/src/channel.cpp)

    [llm_channel_obj] keeps its sockets in a map: the publisher under -1, the
    user's push socket under -2, the subscriptions under work id numbers (0 for
    its own inference URL) or under a decreasing index for other URLs. *)

From S2P Require Import Prelude.
From S2P Require Import CStdlib.
From S2P Require Import PzmqData.
From S2P Require Import StackFlowUtil.
From S2P Require Import Json.
From S2P Require Import Pzmq.
From S2P Require Import UnitCall.
From S2P Require Import Node.
Import PzmqData StackFlowUtil Json Pzmq Node.

Module LlmChannel.
Section Ops.
Context `{Zmq K, Attempts, Hashing, !Clock K, JsonLib} {U X : Type}.
Abbreviation MN := (M (node K U X)).

(** ** The map of sockets *)

(** [zmq_[i]] read: a missing entry is inserted as null. *)
Definition zmq_at (c : ptr) (i : Z) : MN (option ptr) :=
  let* x := get_chan c in
  match zmq_ x !! i with
  | Some o => ret o
  | None => upd_chan c (λ x, let m := zmq_ x in {| x with zmq_ := <[i := None]> m |}) ;;; ret None
  end.
(** [zmq_[i] = o], which lets go of what was there. *)
Definition zmq_assign (c : ptr) (i : Z) (o : option ptr) : MN unit :=
  let* old := zmq_at c i in
  upd_chan c (λ x, let m := zmq_ x in {| x with zmq_ := <[i := o]> m |}) ;;;
  release old.
(** [zmq_.erase(i)]. *)
Definition zmq_erase (c : ptr) (i : Z) : MN unit :=
  let* x := get_chan c in
  upd_chan c (λ x, let m := zmq_ x in {| x with zmq_ := delete i m |}) ;;;
  release (default None (zmq_ x !! i)).
(** [zmq_.clear()], as the destructor of the map also does. *)
Definition zmq_clear (c : ptr) : MN unit :=
  let* x := get_chan c in
  forM (um_iter (zmq_ x)).*2 release ;;;
  upd_chan c (λ x, {| x with zmq_ := ∅ |}).

(** ** Creation and destruction *)
Definition llm_channel_ctor (publisher_url inference_url unit_name : bytes) : MN ptr :=
  let* c := new_chan (mkChannel ∅ (-1000) ∅ unit_name None None [] [] inference_url publisher_url []) in
  let* p := zq (pzmq_ctor publisher_url ZMQ_PUB None) in
  zmq_assign c (-1) (Some p) ;;;
  zmq_assign c (-2) None ;;;
  ret c.

Definition llm_channel_dtor (c : ptr) : MN unit := zmq_clear c ;;; free_chan c.

Definition set_output (c : ptr) (flage : bool) : MN unit :=
  upd_chan c (λ x, {| x with enoutput_ := Some flage |}).
Definition get_output (c : ptr) : MN bool := let* x := get_chan c in deref (enoutput_ x).
Definition set_stream (c : ptr) (flage : bool) : MN unit :=
  upd_chan c (λ x, {| x with enstream_ := Some flage |}).
Definition get_stream (c : ptr) : MN bool := let* x := get_chan c in deref (enstream_ x).

(** ** Sending *)
Definition send_raw_to_pub (c : ptr) (raw : bytes) : MN Z :=
  let* p := zmq_at c (-1) in
  let* p := deref p in
  zq (Pzmq.send_data p raw).

Definition send_raw_to_usr (c : ptr) (raw : bytes) : MN Z :=
  let* p := zmq_at c (-2) in
  match p with
  | Some p => zq (Pzmq.send_data p raw)
  | None => ret (-1)
  end.

Definition set_push_url (c : ptr) (url : bytes) : MN unit :=
  let* x := get_chan c in
  if bool_decide (output_url_ x = url) then ret tt
  else
    upd_chan c (λ x, {| x with output_url_ := url |}) ;;;
    let* p := zq (pzmq_ctor url ZMQ_PUSH None) in
    zmq_assign c (-2) (Some p).

Definition cear_push_url (c : ptr) : MN unit := zmq_assign c (-2) None.

(** Run [m] with a local [pzmq] on [url], destroyed on every way out. *)
Definition with_url {A} (url : bytes) (mode : Z) (m : ptr → MN A) : MN A :=
  let* p := zq (pzmq_ctor url mode None) in
  let* a := try_catch (m p) (λ e, zq (pzmq_dtor p) ;;; throw e) in
  zq (pzmq_dtor p) ;;; ret a.

Definition send_raw_for_url (zmq_url raw : bytes) : MN Z :=
  with_url zmq_url ZMQ_PUSH (λ p, zq (Pzmq.send_data p raw)).

(** The reply object [out_body]. *)
Definition reply_body {S} (request_id work_id : bytes) (now : Z) (object : bytes) (data : jvalue)
    (error_msg : bytes) : M S jvalue :=
  let* b := set_field (str "request_id") (JString request_id) JNull in
  let* b := set_field (str "work_id") (JString work_id) b in
  let* b := set_field (str "created") (JNumber now) b in
  let* b := set_field (str "object") (JString object) b in
  let* b := set_field (str "data") data b in
  if bool_decide (error_msg = []) then
    let* e := set_field (str "code") (JNumber 0) JNull in
    let* e := set_field (str "message") (JString []) e in
    set_field (str "error") e b
  else set_field (str "error") (JString error_msg) b.

(** [send(object, data, error_msg, work_id)]. *)
Definition send (c : ptr) (object : bytes) (data : jvalue) (error_msg work_id : bytes) : MN Z :=
  let* x := get_chan c in
  let* now := zq (zcall sys_time) in
  let* out_body := reply_body (ch_request_id_ x)
    (if bool_decide (work_id = []) then work_id_ x else work_id) now object data error_msg in
  let* out := dump out_body in
  let out := out ++ [char_of 10] in
  send_raw_to_pub c out ;;;
  let* enoutput := get_output c in
  if enoutput : bool then send_raw_to_usr c out else ret 0.

(** ** Receiving *)
Definition user_inference_flage_str : bytes := json "'action'".

(** The loop over the occurrences of ["action"]: the first one that is neither
    at the start nor behind a backslash.  [sizeof] of the [const char *] is 8. *)
Fixpoint find_action {S} (fuel : nat) (_raw : bytes) (pos : option nat) : M S (option nat) :=
  match pos with
  | None => ret None
  | Some p =>
      match fuel with
      | O => crash Unfollowed
      | S fuel' =>
          if (0 <? p)%nat && negb (bool_decide (_raw !! (p - 1)%nat = Some "\"%char))
          then ret (Some p)
          else find_action fuel' _raw (find_from user_inference_flage_str _raw (p + 8))
      end
  end.

Definition subscriber_event_call (c : ptr) (call : bytes → bytes → MN unit) (raw : pzmq_data) : MN unit :=
  let _raw := string_ raw in
  let* hit := find_action (S (length _raw)) _raw (find user_inference_flage_str _raw) in
  (if hit is Some _ then
     let* zmq_com := sample_json_str_get _raw (str "zmq_com") in
     when (negb (bool_decide (zmq_com = []))) (set_push_url c zmq_com) ;;;
     let* r := sample_json_str_get _raw (str "request_id") in
     upd_chan c (λ x, {| x with ch_request_id_ := r |}) ;;;
     let* w := sample_json_str_get _raw (str "work_id") in
     upd_chan c (λ x, {| x with work_id_ := w |})
   else ret tt) ;;;
  let* object := sample_json_str_get _raw (str "object") in
  let* data := sample_json_str_get _raw (str "data") in
  call object data.

(** [regex_match(s, R"((\w+)\.(\d+))")]: the second group. *)
Definition word_char (c : ascii) : bool :=
  isdigit c || ((65 <=? uchar c) && (uchar c <=? 90)) || ((97 <=? uchar c) && (uchar c <=? 122))
  || bool_decide (c = "_"%char).
Definition work_id_match (s : bytes) : option bytes :=
  match find (str ".") s with
  | None => None
  | Some i =>
      let w := take i s in let d := drop (S i) s in
      if negb (bool_decide (w = [])) && forallb word_char w
         && negb (bool_decide (d = [])) && forallb isdigit d
      then Some d else None
  end.

Definition subscriber_work_id (c : ptr) (work_id : bytes) (call : X) : MN Z :=
  let subscribe (id_num : Z) (subscriber_url : bytes) : MN Z :=
    let* p := zq (pzmq_ctor subscriber_url ZMQ_SUB (Some (Subscriber_event_call c call))) in
    zmq_assign c id_num (Some p) ;;; ret 0 in
  match work_id_match work_id with
  | Some d =>
      let* id_num := stoi d in
      let input_url_name := work_id ++ str ".out_port" in
      let* input_url := UnitCall.unit_call (str "sys") (str "sql_select") input_url_name in
      if bool_decide (input_url = []) then ret (-1) else subscribe id_num input_url
  | None => let* x := get_chan c in subscribe 0 (inference_url_ x)
  end.

Definition stop_subscriber_work_id (c : ptr) (work_id : bytes) : MN unit :=
  let* id_num := match work_id_match work_id with Some d => stoi d | None => ret 0 end in
  let* x := get_chan c in
  when (bool_decide (is_Some (zmq_ x !! id_num))) (zmq_erase c id_num).

Definition subscriber (c : ptr) (zmq_url : bytes) (call : node_callback X) : MN unit :=
  upd_chan c (λ x, let i := zmq_url_index_ x in let m := zmq_url_map_ x in
    {| x with zmq_url_map_ := <[zmq_url := i]> m; zmq_url_index_ := swrap 32 (i - 1) |}) ;;;
  let* p := zq (pzmq_ctor zmq_url ZMQ_SUB (Some call)) in
  let* x := get_chan c in
  let* i := deref (zmq_url_map_ x !! zmq_url) in
  zmq_assign c i (Some p).

Definition stop_subscriber (c : ptr) (zmq_url : bytes) : MN unit :=
  if bool_decide (zmq_url = []) then
    zmq_clear c ;;; upd_chan c (λ x, {| x with zmq_url_map_ := ∅ |})
  else
    let* x := get_chan c in
    match zmq_url_map_ x !! zmq_url with
    | None => ret tt
    | Some i =>
        zmq_erase c i ;;;
        upd_chan c (λ x, let m := zmq_url_map_ x in {| x with zmq_url_map_ := delete zmq_url m |})
    end.
End Ops.

(** ** Reasoning about the sockets of a channel *)
Section Sockets.
Context `{Zmq K, Attempts, !ZmqHealthy K, Hashing} {U X : Type}.
Implicit Types n : node K U X.

(** [n] with the channel [x] at [c], or with the zmq objects [z]. *)
Definition with_chan (c : ptr) (x : llm_channel_obj) n : node K U X :=
  let cs := <[c := x]> (n_channels n) in {| n with n_channels := cs |}.
Definition with_zmq z n : node K U X := {| n with n_zmq := z |}.
Definition with_sockets (m : gmap Z (option ptr)) (x : llm_channel_obj) : llm_channel_obj :=
  {| x with zmq_ := m |}.

Lemma wp_zmq_assign_new c i o x n :
  n_channels n !! c = Some x → default None (zmq_ x !! i) = None →
  wp (zmq_assign c i o) (λ _ n', n' = with_chan c (with_sockets (<[i := o]> (zmq_ x)) x) n) n.
Proof.
  intros Hc Hi. unfold zmq_assign, zmq_at. n_run.
  destruct (zmq_ x !! i) as [[p|]|]; [done|..]; n_run; unfold release; n_run; unfold with_chan, with_sockets;
    simpl_n; by rewrite ?insert_insert_eq.
Qed.

Lemma wp_release p y n : z_objs (n_zmq n) !! p = Some y → closable y →
  wp (release (Some p)) (λ _ n', ∃ k,
    n' = with_zmq (mkZ k (delete p (z_objs (n_zmq n))) (z_next (n_zmq n))) n) n.
Proof.
  intros Hp Hy. unfold release. n_run.
  eapply wpe_mono; [exact (wp_pzmq_dtor p y _ Hp Hy)| |done]. intros [] s (k & ->). by exists k.
Qed.

(** The sockets in a list are live, each once. *)
Definition live (l : list (option ptr)) n : Prop :=
  NoDup (omap id l) ∧ ∀ p, Some p ∈ l → ∃ y, z_objs (n_zmq n) !! p = Some y ∧ closable y.

Lemma wp_release_all l n : live l n →
  wp (forM l release) (λ _ n', ∃ k m, n' = with_zmq (mkZ k m (z_next (n_zmq n))) n ∧
    ∀ p, m !! p = if decide (Some p ∈ l) then None else z_objs (n_zmq n) !! p) n.
Proof.
  revert n. induction l as [|o l IH]; intros n [Hnd Hl]; cbn [forM].
  { n_run. exists (z_kernel (n_zmq n)), (z_objs (n_zmq n)). split.
    - unfold with_zmq. by destruct n as [[] ? ? ? ? ? ? ? ? ? ? ? ?].
    - intros p. by rewrite decide_False by apply not_elem_of_nil. }
  n_run. destruct o as [p|].
  - cbn in Hnd. apply NoDup_cons in Hnd as [Hp Hnd].
    destruct (Hl p) as (y & Hy & Hcl); [by left|].
    eapply wpe_mono; [exact (wp_release p y n Hy Hcl)| |done]. intros [] n1 (k & ->).
    assert (∀ q, Some q ∈ l → q ≠ p) as Hne.
    { intros q Hq ->. apply Hp. apply list_elem_of_omap. by exists (Some p). }
    eapply wpe_mono; [apply IH|..]; [split; [done|]| |done].
    + intros q Hq. cbn. rewrite lookup_delete_ne by (symmetry; by apply Hne). apply Hl. by right.
    + intros [] n2 (k2 & m & -> & Hm). exists k2, m. split; [done|]. intros q. rewrite Hm. cbn.
      destruct (decide (q = p)) as [->|Hq].
      * rewrite lookup_delete_eq, (decide_True (P := Some p ∈ Some p :: l)) by by left. by case_decide.
      * rewrite lookup_delete_ne by done. apply decide_ext. rewrite elem_of_cons. naive_solver.
  - unfold release. n_run. eapply wpe_mono; [apply IH|..]; [split; [done|]| |done].
    + intros q Hq. apply Hl. by right.
    + intros [] n2 (k2 & m & -> & Hm). exists k2, m. split; [done|]. intros q. rewrite Hm.
      apply decide_ext. rewrite elem_of_cons. naive_solver.
Qed.

(** The sockets of a channel. *)
Definition sockets (x : llm_channel_obj) : list (option ptr) := (um_iter (zmq_ x)).*2.
Lemma elem_of_sockets x o : o ∈ sockets x ↔ ∃ i, zmq_ x !! i = Some o.
Proof.
  unfold sockets. rewrite (um_iter_perm (zmq_ x)), list_elem_of_fmap. split.
  - intros ([i o'] & -> & Hi). exists i. by apply elem_of_map_to_list.
  - intros [i Hi]. exists (i, o). split; [done|]. by apply elem_of_map_to_list.
Qed.

Lemma wp_zmq_clear c x n : n_channels n !! c = Some x → live (sockets x) n →
  wp (zmq_clear c) (λ _ n', ∃ k m,
    n' = with_chan c (with_sockets ∅ x) (with_zmq (mkZ k m (z_next (n_zmq n))) n) ∧
    ∀ p, m !! p = if decide (Some p ∈ sockets x) then None else z_objs (n_zmq n) !! p) n.
Proof.
  intros Hc Hl. unfold zmq_clear. n_run.
  eapply wpe_mono; [exact (wp_release_all _ _ Hl)| |done]. intros [] n1 (k & m & -> & Hm).
  n_run. by exists k, m.
Qed.

Lemma wp_llm_channel_dtor c x n : n_channels n !! c = Some x → live (sockets x) n →
  wp (llm_channel_dtor c) (λ _ n', ∃ k m,
    n' = (let cs := delete c (n_channels n) in
          let n1 := with_zmq (mkZ k m (z_next (n_zmq n))) n in {| n1 with n_channels := cs |}) ∧
    ∀ p, m !! p = if decide (Some p ∈ sockets x) then None else z_objs (n_zmq n) !! p) n.
Proof.
  intros Hc Hl. unfold llm_channel_dtor, free_chan. n_run.
  eapply wpe_mono; [exact (wp_zmq_clear _ _ _ Hc Hl)| |done]. intros [] n1 (k & m & -> & Hm).
  n_run. exists k, m. split; [|done]. unfold with_chan. cbn. by rewrite delete_insert_eq.
Qed.
End Sockets.

(** ** Who owns which socket *)
Section Owners.
Context `{Zmq K, Attempts, !ZmqHealthy K, Hashing} {U X : Type}.
Implicit Types n : node K U X.
Implicit Types cs : gmap ptr llm_channel_obj.
Implicit Types s : zstate K rpc_action (node_callback X).

(** Entry [i] of the channel at [c] is the socket [p]. *)
Definition owns cs (p c : ptr) (i : Z) : Prop := ∃ x, cs !! c = Some x ∧ zmq_ x !! i = Some (Some p).

(** [y]'s thread calls back into the channel at [c]. *)
Definition listens (y : pzmq rpc_action (node_callback X)) (c : ptr) (call : X) : Prop :=
  zmq_thread_ y = Some (Some (Subscriber_event_call c call)).

(** Each socket is live and has one owner; a subscriber belongs to the channel
    its callback holds, and is not the push socket; addresses not yet given out
    are free. *)
Record sockets_ok cs s : Prop := {
  so_live : ∀ p c i, owns cs p c i → ∃ y, z_objs s !! p = Some y ∧ closable y;
  so_once : ∀ p c i c' i', owns cs p c i → owns cs p c' i' → c = c' ∧ i = i';
  so_sub : ∀ p y c call, z_objs s !! p = Some y → listens y c call → ∃ i, i ≠ -2 ∧ owns cs p c i;
  so_fresh : ∀ z, z_next s ≤ z → z_objs s !! z = None;
}.

Lemma NoDup_values (l : list (Z * option ptr)) : NoDup l.*1 →
  (∀ i j p, (i, Some p) ∈ l → (j, Some p) ∈ l → i = j) → NoDup (omap id l.*2).
Proof.
  induction l as [|[i o] l IH]; intros Hnd Hi; [constructor|]. apply NoDup_cons in Hnd as [Hni Hnd].
  assert (NoDup (omap id l.*2)) as Hl by (apply IH; [done|]; intros j k p Hj Hk; eapply Hi; right; eassumption).
  destruct o as [p|]; [|done]. cbn. apply NoDup_cons. split; [|done].
  intros (o & Ho & E)%list_elem_of_omap. cbn in E. subst o.
  apply list_elem_of_fmap in Ho as ([k o] & Eo & Hk). cbn in Eo. subst o. apply Hni.
  apply list_elem_of_fmap. exists (k, Some p). split; [|done]. cbn. eapply Hi; [by left|by right].
Qed.

Lemma sockets_live cs s n c x : sockets_ok cs s → n_zmq n = s → cs !! c = Some x → live (sockets x) n.
Proof.
  intros [Hl Ho _ _] Hz Hc. split.
  - unfold sockets. rewrite (um_iter_perm (zmq_ x)). apply NoDup_values; [apply NoDup_fst_map_to_list|].
    intros i j p Hi%elem_of_map_to_list Hj%elem_of_map_to_list. by eapply (Ho p c i c j); exists x.
  - intros p [i Hi]%elem_of_sockets. rewrite Hz. eapply (Hl p c i). by exists x.
Qed.

(** Sockets given up. *)
Lemma sockets_ok_keep cs cs' s s' : sockets_ok cs s →
  (∀ p c i, owns cs' p c i → owns cs p c i ∧ z_objs s' !! p = z_objs s !! p) →
  (∀ p y, z_objs s' !! p = Some y → z_objs s !! p = Some y ∧ ∀ c i, owns cs p c i → owns cs' p c i) →
  (∀ z, z_next s' ≤ z → z_objs s' !! z = None) → sockets_ok cs' s'.
Proof.
  intros [Hl Ho Hs Hf] Hc Hy Hf'. split; [|naive_solver| |done].
  - intros p c i [Hp Hz]%Hc. destruct (Hl _ _ _ Hp) as (y & Hy' & Hcl). exists y. by rewrite Hz.
  - intros p y c call [Hp Hk]%Hy Hcb. destruct (Hs _ _ _ _ Hp Hcb) as (i & Hi & Hown). eauto.
Qed.

(** A new socket [p] put in place of entry [i]. *)
Lemma sockets_ok_assign cs s s' c x x' i p y : sockets_ok cs s → cs !! c = Some x →
  zmq_ x' = <[i := Some p]> (zmq_ x) → z_next s ≤ p → z_objs s' !! p = Some y → closable y →
  (∀ c' call, listens y c' call → i ≠ -2 ∧ c' = c) →
  (∀ q, q ≠ p → z_objs s' !! q = if decide (zmq_ x !! i = Some (Some q)) then None else z_objs s !! q) →
  (∀ z, z_next s' ≤ z → z_objs s' !! z = None) → sockets_ok (<[c := x']> cs) s'.
Proof.
  intros [Hl Ho Hsub Hf] Hc Hx' Hp Hy Hcl Hcb Hs Hf'.
  assert (∀ q c' i', owns cs q c' i' → q ≠ p) as Hne.
  { intros q c' i' Hq ->. destruct (Hl _ _ _ Hq) as (z & Hz & _). by rewrite Hf in Hz. }
  assert (∀ q c' i', owns (<[c := x']> cs) q c' i' ↔
    (q = p ∧ c' = c ∧ i' = i) ∨ (owns cs q c' i' ∧ (c' = c → i' ≠ i))) as Hown.
  { intros q c' i'. split.
    - intros (x1 & [[<- <-]|[Hc1 Hx1]]%lookup_insert_Some & Hi).
      + rewrite Hx' in Hi. apply lookup_insert_Some in Hi as [[<- [= <-]]|[Hi' Hi]]; [by left|].
        right. split; [by exists x|by intros _ ->].
      + right. split; [by exists x1|by intros ->].
    - intros [(-> & -> & ->)|[(x1 & Hx1 & Hi) Hci]].
      + exists x'. by rewrite lookup_insert_eq, Hx', lookup_insert_eq.
      + destruct (decide (c' = c)) as [->|]; [|exists x1; by rewrite lookup_insert_ne].
        rewrite Hc in Hx1. injection Hx1 as <-. exists x'. rewrite lookup_insert_eq, Hx'. split; [done|].
        rewrite lookup_insert_ne; [done|]. intros ->. by apply Hci. }
  split; [| | |done].
  - intros q c' i' [(-> & _ & _)|(Hq & Hi)]%Hown; [by exists y|].
    destruct (Hl _ _ _ Hq) as (z & Hz & Hzc). exists z. split; [|done]. rewrite Hs by (by eapply Hne).
    rewrite decide_False; [done|]. intros E. destruct (Ho q c' i' c i Hq) as [-> ->]; [by exists x|]. by apply Hi.
  - intros q c1 i1 c2 i2 [(-> & -> & ->)|(Hq1 & _)]%Hown [(E & -> & ->)|(Hq2 & _)]%Hown; [done|..].
    + by destruct (Hne _ _ _ Hq2).
    + by destruct (Hne _ _ _ Hq1).
    + by eapply Ho.
  - intros q z c' call Hz Hzc. destruct (decide (q = p)) as [->|Hqp].
    + rewrite Hy in Hz. injection Hz as <-. destruct (Hcb _ _ Hzc) as [Hi ->]. exists i. split; [done|]. apply Hown. by left.
    + rewrite Hs in Hz by done. case_decide as E; [done|]. destruct (Hsub _ _ _ _ Hz Hzc) as (i' & Hi' & Hq).
      exists i'. split; [done|]. apply Hown. right. split; [done|]. intros -> ->. destruct Hq as (x1 & Hx1 & Hi1).
      apply E. by simplify_eq.
Qed.

Lemma wp_zmq_assign c i o x n : n_channels n !! c = Some x →
  (∀ q, zmq_ x !! i = Some (Some q) → ∃ y, z_objs (n_zmq n) !! q = Some y ∧ closable y) →
  wp (zmq_assign c i o) (λ _ n', ∃ k m,
    n' = with_chan c (with_sockets (<[i := o]> (zmq_ x)) x) (with_zmq (mkZ k m (z_next (n_zmq n))) n) ∧
    ∀ q, m !! q = if decide (zmq_ x !! i = Some (Some q)) then None else z_objs (n_zmq n) !! q) n.
Proof.
  intros Hc Hq. destruct (zmq_ x !! i) as [[q|]|] eqn:Hi.
  - destruct (Hq q eq_refl) as (y & Hy & Hcl). unfold zmq_assign, zmq_at. n_run. rewrite Hi. n_run.
    eapply wpe_mono; [eapply (wp_release q y); [exact Hy|exact Hcl]| |done].
    intros [] n1 (k & ->). exists k, (delete q (z_objs (n_zmq n))). split; [done|].
    intros q'. destruct (decide (q' = q)) as [->|Hne].
    + by rewrite lookup_delete_eq, decide_True.
    + rewrite lookup_delete_ne by done. rewrite decide_False; [done|congruence].
  - eapply wpe_mono; [apply (wp_zmq_assign_new c i o x n Hc); by rewrite Hi| |done]. intros [] n1 ->.
    exists (z_kernel (n_zmq n)), (z_objs (n_zmq n)). split; [by destruct n as [[] ? ? ? ? ? ? ? ? ? ? ? ?]|].
    intros q. by rewrite decide_False.
  - eapply wpe_mono; [apply (wp_zmq_assign_new c i o x n Hc); by rewrite Hi| |done]. intros [] n1 ->.
    exists (z_kernel (n_zmq n)), (z_objs (n_zmq n)). split; [by destruct n as [[] ? ? ? ? ? ? ? ? ? ? ? ?]|].
    intros q. by rewrite decide_False.
Qed.

(** A subscription or a push socket opened and filed under [i]. *)
Definition opens (c : ptr) (i : Z) (mode : Z) (cb : option (node_callback X)) : Prop :=
  (mode = ZMQ_PUSH ∧ cb = None) ∨ (mode = ZMQ_SUB ∧ i ≠ -2 ∧ ∃ call, cb = Some (Subscriber_event_call c call)).

Lemma wp_open c i x url mode cb n (Q : unit → node K U X → Prop) E :
  sockets_ok (n_channels n) (n_zmq n) → n_channels n !! c = Some x → 1 ≤ zlen url → opens c i mode cb →
  (∀ s', sockets_ok (<[c := with_sockets (<[i := Some (z_next (n_zmq n))]> (zmq_ x)) x]> (n_channels n)) s' →
     (∀ q y, z_objs s' !! q = Some y → z_objs (n_zmq n) !! q = Some y ∨ zmq_thread_ y = thread_of mode cb) →
     (∀ q, is_Some (z_objs (n_zmq n) !! q) → zmq_ x !! i ≠ Some (Some q) → z_objs s' !! q = z_objs (n_zmq n) !! q) →
     (∃ y, z_objs s' !! z_next (n_zmq n) = Some y ∧ client url mode y) →
     Q tt (with_chan c (with_sockets (<[i := Some (z_next (n_zmq n))]> (zmq_ x)) x) (with_zmq s' n))) →
  wpe (zq (pzmq_ctor url mode cb)) (λ p n1, wpe (zmq_assign c i (Some p)) Q E n1) E n.
Proof.
  intros Hok Hc Hu Hopen HQ. n_run.
  assert (plain_mode mode) as Hpm by (destruct Hopen as [[-> _]|[-> _]]; [by right; right; left|right; by left]).
  eapply wpe_mono; [exact (wp_pzmq_ctor url mode cb _ Hu Hpm)| |done].
  intros p s1 (-> & y & k & -> & Hcli & Hth). pose proof Hcli as (Hmo & _).
  set (p := z_next (n_zmq n)) in *.
  assert (closable y) as Hcl by (exists mode; split; [done|left; by destruct Hopen as [[-> _]|[-> _]]]).
  match goal with |- wpe _ _ _ ?v => set (n1 := v) end.
  assert (∀ q, zmq_ x !! i = Some (Some q) → q ≠ p ∧ ∃ y, z_objs (n_zmq n) !! q = Some y ∧ closable y) as Hold.
  { intros q Hq. destruct (so_live _ _ Hok q c i) as (z & Hz & Hzc); [by exists x|]. split; [|eauto].
    intros ->. by rewrite (so_fresh _ _ Hok) in Hz. }
  eapply wpe_mono; [apply (wp_zmq_assign c i (Some p) x n1 Hc)| |done].
  { intros q Hq. destruct (Hold q Hq) as (Hne & z & Hz & Hzc). exists z. split; [|done].
    unfold n1. cbn. by rewrite lookup_insert_ne. }
  intros [] n2 (k2 & m & -> & Hm).
  assert (with_zmq (mkZ k2 m (z_next (n_zmq n1))) n1 = with_zmq (mkZ k2 m (p + 1)) n) as -> by done.
  unfold n1 in Hm. cbn in Hm. apply HQ; cbn.
  - eapply (sockets_ok_assign _ _ _ c x _ i p y Hok Hc); [done|done|..]; cbn.
    + rewrite Hm, decide_False by (intros E'; by destruct (Hold p E')). apply lookup_insert_eq.
    + done.
    + unfold listens. rewrite Hth. intros c' call Hl. destruct Hopen as [[-> ->]|(-> & Hi & call' & ->)]; cbn in Hl; [done|]. split; [done|congruence].
    + intros q Hne. rewrite Hm, lookup_insert_ne by done. done.
    + intros z Hz. rewrite Hm. case_decide; [done|].
      rewrite lookup_insert_ne by lia. apply (so_fresh _ _ Hok). lia.
  - intros q z Hz. rewrite Hm in Hz. case_decide; [done|]. apply lookup_insert_Some in Hz as [[_ <-]|[_ Hz]]; auto.
  - intros q [z Hz] Hi. rewrite Hm, decide_False by done. rewrite lookup_insert_ne; [done|]. intros <-.
    unfold p in Hz. by rewrite (so_fresh _ _ Hok) in Hz.
  - exists y. split; [|exact Hcli]. rewrite Hm, decide_False by (intros E'; by destruct (Hold p E')). apply lookup_insert_eq.
Qed.

(** A local socket on an URL. *)
Lemma wp_with_url {A} url (m : ptr → M (node K U X) A) n (Q : A → node K U X → Prop) (E : exn → node K U X → Prop) :
  z_objs (n_zmq n) !! z_next (n_zmq n) = None → 1 ≤ zlen url →
  (∀ p n1, is_Some (z_objs (n_zmq n1) !! p) →
     wpe (m p) (λ a n2, (∃ k, n2 = with_zmq (let s := n_zmq n1 in {| s with z_kernel := k |}) n1) ∧
                        ∀ n3, UnitCall.calls n n3 → Q a n3)
               (λ e n2, (∃ k, n2 = with_zmq (let s := n_zmq n1 in {| s with z_kernel := k |}) n1) ∧
                        ∀ n3, UnitCall.calls n n3 → E e n3) n1) →
  wpe (with_url url ZMQ_PUSH m) Q E n.
Proof.
  intros Hf Hu Hm. unfold with_url. n_run.
  eapply wpe_mono; [apply (wp_pzmq_ctor url ZMQ_PUSH None _ Hu); by right; right; left| |done].
  intros p s1 (-> & y & k & -> & (Hmo & _) & _). n_run. set (p := z_next (n_zmq n)) in *.
  match goal with |- wpe _ _ _ ?v => set (n1 := v) end.
  assert (closable y) as Hcl by (exists ZMQ_PUSH; split; [done|by left]).
  assert (∀ k1 (P : node K U X → Prop), (∀ n3, UnitCall.calls n n3 → P n3) →
    wp (zq (pzmq_dtor p)) (λ _ n3, P n3) (with_zmq (let s := n_zmq n1 in {| s with z_kernel := k1 |}) n1)) as Hd.
  { intros k1 P HP. n_run. eapply wpe_mono; [eapply (wp_pzmq_dtor p y); [apply lookup_insert_eq|exact Hcl]| |done].
    intros [] s (k3 & ->). apply HP. exists k3, (p + 1). split; [cbn; lia|]. cbn. by rewrite delete_insert_id. }
  eapply wpe_mono; [apply (Hm p n1)|..].
  - unfold n1. cbn. rewrite lookup_insert_eq. by eexists.
  - intros a n2 [[k2 ->] HQ]. n_step. eapply wpe_mono; [exact (Hd k2 _ HQ)| |done]. by intros [] n3.
  - intros e n2 [[k2 ->] HE]. n_step. eapply wpe_mono; [exact (Hd k2 _ HE)| |done]. by intros [] n3.
Qed.
End Owners.
End LlmChannel.
