(* ===== verification/StackFlow.v ===== *)
(** * The StackFlow node framework
    (infra-controller/include/StackFlow.h, infra-controller/src/StackFlow.cpp)

    RPC actions enqueue events, the event loop dispatches them to the virtual
    functions of the derived class ([StackFlowUnit]).  The queue is
    eventpp::EventQueue: [process] takes out what is queued and calls the
    listener of each event in order.  The event loop is a thread of its own; its
    turns are the steps [even_loop] makes, and an exception that leaves it ends
    the process. *)

From S2P Require Import Prelude.
From S2P Require Import CStdlib.
From S2P Require Import PzmqData.
From S2P Require Import StackFlowUtil.
From S2P Require Import Json.
From S2P Require Import Pzmq.
From S2P Require Import UnitCall.
From S2P Require Import Node.
From S2P Require Import LlmChannel.
Import PzmqData StackFlowUtil Json Pzmq Node LlmChannel.

Module StackFlow.
Definition None_text : bytes := str "None".

Section Base.
Context `{Zmq K, Attempts, Hashing, !Clock K, JsonLib} {U X : Type}.
Abbreviation MN := (M (node K U X)).

(** ** Replies *)
Definition send (object : bytes) (data : jvalue) (error_msg work_id zmq_url : bytes) : MN Z :=
  let* n := get in
  let* now := zq (zcall sys_time) in
  let* out_body := reply_body (request_id_ n) work_id now object data error_msg in
  with_url (if bool_decide (zmq_url = []) then out_zmq_url_ n else zmq_url) ZMQ_PUSH (λ p,
    let* out := dump out_body in
    zq (Pzmq.send_data p (out ++ [char_of 10]))).

(** [send("None", "None", error_body, work_id)]: the object converts to
    [std::string] implicitly. *)
Definition send_error (code : Z) (message work_id : bytes) : MN unit :=
  let* error_msg := to_std_string (error_object code message) in
  send None_text (JString None_text) error_msg work_id [] ;;; ret tt.

(** The virtual functions of the base class. *)
Definition not_have_unit_action (work_id : bytes) : MN unit :=
  send_error (-18) (str "not have unit action!") work_id.
Definition base_setup (work_id object data : bytes) : MN Z := not_have_unit_action work_id ;;; ret (-1).
Definition base_exit (work_id object data : bytes) : MN Z := not_have_unit_action work_id ;;; ret 0.
Definition base_pause (work_id object data : bytes) : MN unit := not_have_unit_action work_id.
Definition base_taskinfo (work_id object data : bytes) : MN unit := not_have_unit_action work_id.

(** ** The channels of the node *)
Definition get_channel (workid : Z) : MN (option ptr) :=
  let* n := get in at_ (llm_task_channel_ n !! workid).
Definition get_channel_named (workid : bytes) : MN (option ptr) :=
  let* _work_id_num := sample_get_work_id_num workid in get_channel _work_id_num.

(** [llm_task_channel_[n] = c]. *)
Definition set_channel (i : Z) (c : ptr) : MN unit :=
  let* n := get in
  modify (λ n, let m := llm_task_channel_ n in {| n with llm_task_channel_ := <[i := Some c]> m |}) ;;;
  if llm_task_channel_ n !! i is Some (Some old) then llm_channel_dtor old else ret tt.
(** [llm_task_channel_[i].reset(); llm_task_channel_.erase(i)]. *)
Definition erase_channel (i : Z) : MN unit :=
  let* n := get in
  (if llm_task_channel_ n !! i is Some (Some old) then llm_channel_dtor old else ret tt) ;;;
  modify (λ n, let m := llm_task_channel_ n in {| n with llm_task_channel_ := delete i m |}).

(** ** Calls to the unit manager *)

(** The callback of [sys_register_unit]: the packed work id number and URLs. *)
Definition register_reply (pzmg_msg : pzmq_data) : MN (bytes * bytes * bytes) :=
  let* str_port := get_param pzmg_msg 1 [] in
  let* out_port := get_param pzmg_msg 0 str_port in
  let* inference_port := get_param pzmg_msg 1 str_port in
  let* str_port := get_param pzmg_msg 0 [] in
  ret (str_port, out_port, inference_port).

Definition sys_register_unit (unit_name : bytes) : MN Z :=
  let* r := UnitCall.unit_call_with (str "sys") (str "register_unit") unit_name register_reply in
  let '(str_port, out_port, inference_port) := default ([], [], []) r in
  let* work_id_number := stoi str_port in
  let* n := get in
  let* c := llm_channel_ctor out_port inference_port (unit_name_ n) in
  set_channel work_id_number c ;;;
  ret work_id_number.

Definition sys_release_unit (work_id_num : Z) (work_id : bytes) : MN bool :=
  let* n := get in
  let* '(_work_id, _work_id_num) :=
    if bool_decide (work_id = []) then ret (sample_get_work_id work_id_num (unit_name_ n), work_id_num)
    else let* i := sample_get_work_id_num work_id in ret (work_id, i) in
  UnitCall.unit_call (str "sys") (str "release_unit") _work_id ;;;
  erase_channel _work_id_num ;;;
  ret false.

(** The template of the header, for an [int] and for a text. *)
Definition release_call (_work_id : bytes) (_work_id_num : Z) : MN bool :=
  UnitCall.with_local (str "sys") (λ p,
    call_rpc_action p (str "release_unit") _work_id (λ _, ret tt) ;;;
    erase_channel _work_id_num ;;; ret false).
Definition sys_release_unit_num (workid : Z) : MN bool :=
  let* n := get in release_call (sample_get_work_id workid (unit_name_ n)) workid.
Definition sys_release_unit_named (workid : bytes) : MN bool :=
  let* i := sample_get_work_id_num workid in release_call workid i.

(** The body is empty: the function does not return. *)
Definition sys_sql_select (key : bytes) : MN bytes := crash Undefined.
Definition sys_sql_set (key val : bytes) : MN unit :=
  let* b := set_field (str "key") (JString key) JNull in
  let* b := set_field (str "val") (JString val) b in
  let* text := dump b in
  UnitCall.unit_call (str "sys") (str "sql_set") text ;;; ret tt.
Definition sys_sql_unset (key : bytes) : MN unit :=
  UnitCall.unit_call (str "sys") (str "sql_unset") key ;;; ret tt.

(** ** The event queue *)
Definition enqueue (e : LOCAL_EVENT) (arg : option pzmq_data) : MN unit :=
  modify (λ n, let q := event_queue_ n in {| n with event_queue_ := q ++ [(e, arg)] |}).

Definition _rpc_setup (data : pzmq_data) : MN bytes := enqueue EVENT_SETUP (Some data) ;;; ret None_text.
Definition _rpc_exit (data : pzmq_data) : MN bytes := enqueue EVENT_EXIT (Some data) ;;; ret None_text.
Definition _rpc_pause (data : pzmq_data) : MN bytes := enqueue EVENT_PAUSE (Some data) ;;; ret None_text.
Definition _rpc_taskinfo (data : pzmq_data) : MN bytes := enqueue EVENT_TASKINFO (Some data) ;;; ret None_text.

(** The closures registered by the constructor. *)
Definition run_action (a : rpc_action) (data : pzmq_data) : MN bytes :=
  match a with
  | Rpc_setup => _rpc_setup data
  | Rpc_exit => _rpc_exit data
  | Rpc_pause => _rpc_pause data
  | Rpc_taskinfo => _rpc_taskinfo data
  end.
End Base.

Section Virtual.
Context `{Zmq K, Attempts, Hashing, !Clock K, JsonLib} {U X : Type} `{!StackFlowUnit K U X}.
Abbreviation MN := (M (node K U X)).

(** ** The requests *)
Definition setup (zmq_url raw : bytes) : MN Z :=
  let* n := get in
  let* workid_num := sys_register_unit (unit_name_ n) in
  let work_id := unit_name_ n ++ str "." ++ to_string workid_num in
  let* task_channel := get_channel workid_num in
  let* c := deref task_channel in
  set_push_url c zmq_url ;;;
  let* r := sample_json_str_get raw (str "request_id") in
  upd_chan c (λ x, {| x with ch_request_id_ := r; work_id_ := work_id |}) ;;;
  let* object := sample_json_str_get raw (str "object") in
  let* data := sample_json_str_get raw (str "data") in
  let* r := unit_setup work_id object data in
  when (negb (r =? 0)) (sys_release_unit workid_num work_id ;;; ret tt) ;;;
  ret 0.

(** [try { get_channel(...)->set_push_url(zmq_url) } catch (...) {}]. *)
Definition try_push_url (work_id zmq_url : bytes) : MN unit :=
  try_catch
    (let* i := sample_get_work_id_num work_id in
     let* task_channel := get_channel i in
     let* c := deref task_channel in
     set_push_url c zmq_url)
    (λ _, ret tt).

(** The call of a virtual function with the fields of the request. *)
Definition with_fields {A} (raw : bytes) (f : bytes → bytes → bytes → MN A) (work_id : bytes) : MN A :=
  let* object := sample_json_str_get raw (str "object") in
  let* data := sample_json_str_get raw (str "data") in
  f work_id object data.

Definition exit (zmq_url raw : bytes) : MN Z :=
  let* work_id := sample_json_str_get raw (str "work_id") in
  try_push_url work_id zmq_url ;;;
  let* r := with_fields raw unit_exit work_id in
  if r =? 0 then let* b := sys_release_unit (-1) work_id in ret (Z.b2z b) else ret 0.

Definition pause (zmq_url raw : bytes) : MN unit :=
  let* work_id := sample_json_str_get raw (str "work_id") in
  try_push_url work_id zmq_url ;;;
  with_fields raw unit_pause work_id.

Definition taskinfo (zmq_url raw : bytes) : MN unit :=
  let* work_id := sample_json_str_get raw (str "work_id") in
  try_push_url work_id zmq_url ;;;
  with_fields raw unit_taskinfo work_id.

(** ** The listeners *)
Definition _none_event (arg : option pzmq_data) : MN unit := ret tt.

(** The listeners differ in the parameter they take for the data. *)
Definition listener (data_param : Z) (handle : bytes → bytes → MN unit) (arg : option pzmq_data) : MN unit :=
  let* d := deref arg in
  let* zmq_url := get_param d 0 [] in
  let* data := get_param d data_param [] in
  let* r := sample_json_str_get data (str "request_id") in
  modify (λ n, {| n with request_id_ := r; out_zmq_url_ := zmq_url |}) ;;;
  let* n := get in
  when (negb (status_ n =? 0)) (handle zmq_url data).

Definition _setup := listener 1 (λ zmq_url data, setup zmq_url data ;;; ret tt).
Definition _exit := listener 1 (λ zmq_url data, exit zmq_url data ;;; ret tt).
(** [data] is parameter 0 again. *)
Definition _pause := listener 0 pause.
Definition _taskinfo := listener 1 taskinfo.

Definition dispatch (e : LOCAL_EVENT * option pzmq_data) : MN unit :=
  match e.1 with
  | EVENT_NONE => _none_event e.2
  | EVENT_SETUP => _setup e.2
  | EVENT_EXIT => _exit e.2
  | EVENT_PAUSE => _pause e.2
  | EVENT_TASKINFO => _taskinfo e.2
  end.

Definition process : MN unit :=
  let* n := get in
  modify (λ n, {| n with event_queue_ := [] |}) ;;;
  forM (event_queue_ n) dispatch.

(** At most [k] turns of the loop, which waits while nothing is queued: whether
    it has ended. *)
Fixpoint even_loop (k : nat) : MN bool :=
  let* n := get in
  if exit_flage_ n then ret true
  else
    match event_queue_ n, k with
    | [], _ | _, O => ret false
    | _, S k' => try_catch process (λ _, crash Terminated) ;;; even_loop k'
    end.

(** ** Construction and destruction *)
Definition StackFlow_ctor (unit_name : bytes) : MN unit :=
  let* p := zq (pzmq_lazy unit_name) in
  modify (λ n, {| n with unit_name_ := unit_name; rpc_ctx_ := Some p |}) ;;;
  zq (register_rpc_action p (str "setup") Rpc_setup) ;;;
  zq (register_rpc_action p (str "pause") Rpc_pause) ;;;
  zq (register_rpc_action p (str "exit") Rpc_exit) ;;;
  zq (register_rpc_action p (str "taskinfo") Rpc_taskinfo) ;;;
  modify (λ n, {| n with status_ := 0; exit_flage_ := false |}) ;;;
  modify (λ n, {| n with even_loop_thread_ := true; status_ := 1 |}).

(** [even_loop_thread_->join()] once [exit_flage_] is set and an event is queued:
    a thread that was [waiting] makes one more turn. *)
Definition join_even_loop (waiting : bool) : MN unit :=
  let* n := get in
  if negb (even_loop_thread_ n) then throw system_error
  else
    when waiting (try_catch process (λ _, crash Terminated)) ;;;
    modify (λ n, {| n with even_loop_thread_ := false |}).

(** [~StackFlow].  When a channel is left, [iteam->second.reset()] uses the
    element that [sys_release_unit] has just erased.  The members go last. *)
Definition StackFlow_dtor (waiting : bool) : MN unit :=
  try_catch
    (modify (λ n, {| n with exit_flage_ := true |}) ;;;
     enqueue EVENT_NONE None ;;;
     join_even_loop waiting ;;;
     let* n := get in
     match um_iter (llm_task_channel_ n) with
     | [] => ret tt
     | (first, _) :: _ => sys_release_unit first [] ;;; crash Undefined
     end)
    (λ _, crash Terminated) ;;;
  let* n := get in
  modify (λ n, {| n with rpc_ctx_ := None |}) ;;;
  release (rpc_ctx_ n).
End Virtual.

(** The closures of a node's [pzmq] objects. *)
#[global] Instance node_user `{Zmq K, Attempts, Hashing, !Clock K, JsonLib} {U X} `{!StackFlowUnit K U X} :
    ZUser rpc_action (node_callback X) (node K U X) := {
  run_rpc a _ d := run_action a d;
  run_msg cb _ d := let 'Subscriber_event_call c call := cb in subscriber_event_call c (run_call call) d;
}.
End StackFlow.
