(* ===== verification/Registration.v ===== *)
(** * A node registers with the unit manager
    (StackFlow::sys_register_unit against the "register_unit" action)

    The two sides of the registration meet in the reply text: what the manager
    packs is what the node unpacks. *)

From S2P Require Import Prelude.
From S2P Require Import CStdlib.
From S2P Require Import PzmqData.
From S2P Require Import Pzmq.
From S2P Require Import UnitCall.
From S2P Require Import Json.
From S2P Require Import NetTypes.
From S2P Require Import Manager.
From S2P Require Import UnitTable.
From S2P Require Import Node.
From S2P Require Import LlmChannel.
From S2P Require Import StackFlow.
Import PzmqData Pzmq UnitCall Json.

Module Registration.
(** The reply of [rpc_allocate_unit]. *)
Definition reply (id : Z) (output_url inference_url : bytes) : bytes :=
  set_param (to_string id) (set_param output_url inference_url).

Section Node.
Context `{Zmq K, Attempts, Hashing, !Clock K, JsonLib, !ZmqHealthy K} {U X : Type}.
Import Node LlmChannel StackFlow.
Implicit Types n : node K U X.

Lemma get_param_both {T} d idata p0 p1 (s : T) : packed_in d idata (set_param p0 p1) →
  zlen (p0 ++ p1) < 2 ^ 31 - 1 → zlen p0 ≤ 127 →
  get_param d 0 idata s = Ret p0 s ∧ get_param d 1 idata s = Ret p1 s.
Proof.
  intros Hp Hl Hle. destruct (get_param_packet d idata p0 p1 s Hp Hl) as (Hpos & _).
  rewrite (split_at_small p0 Hle) in *. destruct Hpos as [-> ->]; [apply zlen_nonneg|].
  unfold ztake, zdrop, zlen. rewrite Nat2Z.id. by rewrite take_app_length, drop_app_length.
Qed.

Lemma register_reply_reads id o i n : zlen (to_string id) ≤ 127 → zlen o ≤ 127 → zlen i < 2 ^ 30 →
  register_reply (mkData (reply id o i)) n = Ret (to_string id, o, i) n.
Proof.
  intros Hid Ho Hi. unfold register_reply, bind.
  pose proof (zlen_nonneg o). pose proof (zlen_nonneg i).
  destruct (get_param_both (mkData (reply id o i)) [] (to_string id) (set_param o i) n) as [E0 E1];
    [by left|rewrite zlen_app, zlen_set_param, zlen_app; lia|done|].
  destruct (get_param_both (mkData (reply id o i)) (set_param o i) o i n) as [E2 E3];
    [by right|rewrite zlen_app; lia|done|].
  by rewrite E1, E2, E3, E0.
Qed.

(** The channel of a new unit. *)
Definition registered n (id : Z) (o i : bytes) n' : Prop :=
  ∃ c x z y, llm_task_channel_ n' = <[id := Some c]> (llm_task_channel_ n) ∧
    n_channels n' !! c = Some x ∧ publisher_url_ x = o ∧ inference_url_ x = i ∧
    zmq_ x = {[-1 := Some z; -2 := None]} ∧
    z_objs (n_zmq n') !! z = Some y ∧ publisher o y.

Lemma wp_llm_channel_ctor o i name n : 1 ≤ zlen o →
  wp (llm_channel_ctor o i name) (λ c n', ∃ x y k, c = n_next n ∧ publisher_url_ x = o ∧ inference_url_ x = i ∧
    zmq_ x = {[-1 := Some (z_next (n_zmq n)); -2 := None]} ∧ publisher o y ∧ zmq_thread_ y = None ∧
    n' = let z := z_next (n_zmq n) in let zs := mkZ k (<[z := y]> (z_objs (n_zmq n))) (z + 1) in
         let cs := <[c := x]> (n_channels n) in
         {| n with n_zmq := zs; n_channels := cs; n_next := c + 1 |}) n.
Proof.
  intros Ho. unfold llm_channel_ctor. n_run.
  eapply wpe_mono; [exact (wp_pzmq_ctor_pub o _ Ho)| |done].
  intros z zs (-> & y & k & -> & Hy & Hth). n_run.
  match goal with |- wpe _ _ _ ?v => set (n1 := v) end.
  eapply wpe_mono; [eapply (wp_zmq_assign_new _ _ _ _ n1); [apply lookup_insert_eq|done]| |done].
  intros [] n2 ->. n_run.
  match goal with |- wpe _ _ _ ?v => set (n2 := v) end.
  eapply wpe_mono; [eapply (wp_zmq_assign_new _ _ _ _ n2); [apply lookup_insert_eq|done]| |done].
  intros [] n3 ->. n_run. eexists _, y, k. split_and!; [done|..].
  6: { unfold n2, n1, with_chan. cbn. rewrite !insert_insert_eq. reflexivity. }
  all: done.
Qed.

(** The call, when [register_reply] reads each answer as something in [R]. *)
Lemma wp_register_call unit (D : bytes → Prop) (R : bytes * bytes * bytes → Prop) n :
  zfresh n → answered (str "register_unit") unit D →
  (∀ d, D d → ∃ a, R a ∧ ∀ n1, register_reply (mkData d) n1 = Ret a n1) →
  wp (unit_call_with (str "sys") (str "register_unit") unit register_reply)
    (λ r n', (∀ a, r = Some a → R a) ∧ calls n n') n.
Proof.
  intros Hf HD HR.
  apply (wpe_mono _ (λ r n', (∀ a, r = Some a → R a) ∧ calls n n') _ (λ e n', False ∧ calls n n'));
    [|done|by intros ? ? []].
  apply wp_with_local; [done..|]. intros p x n1 Hc. n_run.
  eapply wpe_mono; [apply (wp_call_rpc_action p x _ _ register_reply (λ _ a, R a) (λ _, False) D n1 Hc HD)|..].
  - intros d n2 Hd. destruct (HR d Hd) as (a & Ha & E). unfold wpe. by rewrite E.
  - intros [r oa] n2 [(y & k & Ha & _ & Hm) Hv]; n_run; (split; [|by exists y, k]).
    intros a ->. by destruct Hv as (_ & _ & _ & ?).
  - by intros e n2 [[] _].
Qed.

(** A node whose peer answers with [d], which [register_reply] reads as [num]
    and two URLs. *)
Lemma wp_sys_register_unit unit d num o i n :
  zfresh n → answered (str "register_unit") unit (eq d) →
  (∀ n1, register_reply (mkData d) n1 = Ret (to_string num, o, i) n1) →
  INT_MIN ≤ num ≤ INT_MAX → 1 ≤ zlen o → llm_task_channel_ n !! num = None →
  wpe (sys_register_unit unit) (λ r n', r = num ∧ registered n num o i n')
    (λ e n', e = invalid_argument ∧ calls n n') n.
Proof.
  intros Hf Hd Hr Hid Ho Hnew. unfold sys_register_unit. n_run.
  eapply wpe_mono; [apply (wp_register_call unit (eq d) (eq (to_string num, o, i)) n Hf Hd)| |done].
  { intros ? <-. by eexists. }
  intros r n1 [Hr1 Hcalls]. destruct r as [a|]; cbn [default from_option id]; n_run.
  2: { unfold wpe, bind. cbn. by split. }
  destruct (Hr1 a eq_refl). destruct Hcalls as (k & z & Hle & ->).
  n_run. rewrite <-(app_nil_r (to_string num)). unfold wpe at 1. rewrite stoi_to_string by done. n_run.
  match goal with |- wpe _ _ _ ?v => set (n2 := v) end.
  eapply wpe_mono; [apply (wp_llm_channel_ctor o i _ n2); done| |done].
  intros c n3 (x & y & k3 & -> & Hpo & Hpi & Hz & Hy & _ & ->). unfold set_channel. n_run.
  unfold n2. cbn. rewrite Hnew. n_run. split; [done|].
  exists (n_next n), x, (z_next (mkZ k (z_objs (n_zmq n)) z)), y. cbn. split_and!; try done.
  all: apply lookup_insert_eq.
Qed.
End Node.

Section EndToEnd.
Context `{Zmq KM, Attempts, !ZmqHealthy KM, Zmq KN, !ZmqHealthy KN, Hashing, !Clock KN, JsonLib} {N U X : Type}.
Import Manager UnitTable.

Lemma zlen_suffix (m : manager KM N) unit : zlen (suffix m unit (str ".output_url")) ≤ zlen (suffix m unit (str ".inference_url")).
Proof. unfold suffix. destruct (contains _ _); [|done]. rewrite !zlen_app. by apply Z.add_le_mono_l, Z.add_le_mono_l. Qed.

Lemma zlen_url (l r : bytes) port sfx : 0 < port ≤ INT_MAX →
  zlen l ≤ zlen (url l r port sfx) ≤ zlen l + 10 + zlen r + zlen sfx.
Proof.
  intros Hp. unfold url. rewrite !zlen_app. pose proof (zlen_to_string port ltac:(lia)).
  pose proof (zlen_nonneg (to_string port)). pose proof (zlen_nonneg r). pose proof (zlen_nonneg sfx). lia.
Qed.

(** C13: what the unit manager packs for a new unit is what the node unpacks.
    The manager files the unit and its output URL under its work id; a node
    that gets the manager's reply records a channel under the same work id
    number, with the unit's two URLs and a publisher on its output URL, or,
    when the call could not be sent, throws and keeps nothing. *)
Theorem registration_roundtrip l r unit (m : manager KM N) :
  tables_ok l r m → admitted Rpc_register_unit unit m → 0 ≤ work_id_number_counter m ≤ INT_MAX →
  zlen l + 10 + zlen r + zlen (suffix m unit (str ".inference_url")) ≤ 127 →
  let num := work_id_number_counter m in
  let wid := unit ++ str "." ++ to_string num in
  wp (sys_rpc Rpc_register_unit (mkData unit)) (λ d m', ∃ p u,
    key_sql m' !! wid = Some (AnyUnit p) ∧ m_units m' !! p = Some u ∧ Manager.work_id u = wid ∧
    key_sql m' !! (wid ++ str ".out_port") = Some (AnyString (output_url u)) ∧
    ∀ n : Node.node KN U X, zfresh n → answered (str "register_unit") unit (eq d) →
      Node.llm_task_channel_ n !! num = None →
      wpe (StackFlow.sys_register_unit unit)
        (λ i n', i = num ∧ registered n num (output_url u) (inference_url u) n')
        (λ e n', e = invalid_argument ∧ calls n n') n) m.
Proof.
  intros Hm (Hu & a & b & Hne & Ha & Hb) Hnum Hlen num wid. cbn [sys_rpc].
  unfold rpc_allocate_unit, string_. cbn [msg]. wp_simp.
  eapply wp_mono; [by apply (wp_sys_allocate_unit l r m unit a b); try apply Hm|].
  intros p m1 (j1 & j2 & x & k & [-> Hj1 Hj2 _ _ _ ->]). m_run.
  match goal with |- context [mkUnit ?z ?w ?o ?i ?q] => set (o_url := o); set (i_url := i); set (u := mkUnit z w o_url i_url q) end.
  exists (m_next m), u. fold num wid.
  assert (wid ++ str ".out_port" ≠ wid) as Hw.
  { intros E. apply (f_equal zlen) in E. rewrite zlen_app in E. change (zlen (str ".out_port")) with 9 in E. lia. }
  split; [by rewrite lookup_insert_ne, lookup_insert_eq|]. split; [apply lookup_insert_eq|].
  split; [done|]. split; [apply lookup_insert_eq|].
  assert (∀ j, port_list m !! j = Some false → 0 < port_list_start m + Z.of_nat j ≤ INT_MAX) as Hr.
  { intros j Hj%lookup_lt_Some. destruct (to_ports _ _ _ Hm). unfold zlen in *. lia. }
  pose proof (zlen_url l r _ (suffix m unit (str ".output_url")) (Hr _ Hj1)) as Ho.
  pose proof (zlen_url l r _ (suffix m unit (str ".inference_url")) (Hr _ Hj2)) as Hi.
  pose proof (zlen_suffix m unit). pose proof (fo_len _ _ _ (to_format _ _ _ Hm)) as Hl. unfold rpc_url_head_length in Hl.
  pose proof (zlen_to_string num Hnum).
  change (output_url u) with o_url. change (inference_url u) with i_url.
  intros n Hf Hd Hnew. eapply (wp_sys_register_unit unit _ num o_url i_url n Hf Hd); [|unfold INT_MIN; lia|unfold o_url; lia|done].
  intros n1. apply register_reply_reads; unfold o_url, i_url; lia.
Qed.
End EndToEnd.

(** ** The node "llm" against a manager with the formats of master_config.json *)
Section Sim.
Definition sim_reply : bytes := reply 0 (str "ipc:///tmp/llm/5010.sock.llm.output_url")
  (str "ipc:///tmp/llm/5011.sock.llm.inference_url").
#[local] Instance replying_zmq : Zmq unit := {
  zmq_ctx_new k := (Some 1, k);
  zmq_socket _ _ k := (Some 2, k);
  zmq_bind _ _ k := (0, k);
  zmq_connect _ _ k := (0, k);
  zmq_setsockopt _ _ k := (0, k);
  zmq_send _ d _ k := (zlen d, k);
  zmq_msg_recv _ _ k := ((zlen sim_reply, sim_reply), k);
  zmq_poll _ _ _ k := ((0, 0), k);
  zmq_close _ k := (0, k);
  zmq_ctx_shutdown _ k := (0, k);
  zmq_ctx_destroy _ k := (0, k);
  sys_access _ k := (0, k);
  sys_remove _ k := (0, k);
}.
#[local] Instance replying_healthy : ZmqHealthy unit.
Proof. by split; [eexists|eexists|]. Qed.
#[local] Instance sim_json : JsonLib := {| dump_text _ := None; parse_text _ := None |}.
#[local] Instance sim_clock : Clock unit := {| sys_time k := (0, k) |}.
Definition sim_node : Node.node unit unit unit :=
  Node.mkNode (mkZ tt ∅ 1) ∅ 1 (str "llm") [] [] false 1 [] true None ∅ tt.

Lemma registration_roundtrip_witness : ∃ o i,
  wpe (StackFlow.sys_register_unit (str "llm")) (λ r n', r = 0 ∧ registered sim_node 0 o i n')
    (λ e n', e = invalid_argument ∧ calls sim_node n') sim_node.
Proof.
  assert (match Manager.sys_rpc Manager.Rpc_register_unit (mkData (str "llm")) UnitTable.sim_manager with
          | Ret d _ => d = sim_reply | _ => False end) as Hd by (vm_compute; reflexivity).
  assert (zlen UnitTable.sim_l + 10 + zlen UnitTable.sim_r
    + zlen (UnitTable.suffix UnitTable.sim_manager (str "llm") (str ".inference_url")) ≤ 127) as Hlen
    by (vm_compute; congruence).
  destruct (proj1 (wp_run _ _ _) (registration_roundtrip (KN := unit) (U := unit) (X := unit)
    UnitTable.sim_l UnitTable.sim_r (str "llm") UnitTable.sim_manager UnitTable.sim_tables
    (conj eq_refl (ex_intro _ 0%nat (ex_intro _ 1%nat (conj (O_S 0) (conj eq_refl eq_refl)))))
    ltac:(vm_compute; split; congruence) Hlen)) as (d & m' & Hrun & p & u & _ & _ & _ & _ & Hn).
  rewrite Hrun in Hd. subst d.
  exists (Manager.output_url u), (Manager.inference_url u).
  exact (Hn sim_node eq_refl (λ _ _, eq_refl) eq_refl).
Defined.
End Sim.
End Registration.
