(* ===== verification/LlmNode.v ===== *)
(** * The LLM node (node/test/src/main.cpp)

    [llm_llm] derives from [StackFlow].  Its tasks live in [l_tasks]; their only
    owner is [llm_task_], so the cell goes when the entry does, and the
    [std::weak_ptr]s bound into the callbacks are addresses. *)

From S2P Require Import Prelude.
From S2P Require Import CStdlib.
From S2P Require Import PzmqData.
From S2P Require Import StackFlowUtil.
From S2P Require Import Json.
From S2P Require Import Pzmq.
From S2P Require Import Node.
From S2P Require Import LlmChannel.
From S2P Require Import StackFlow.
Import PzmqData StackFlowUtil Json Pzmq Node LlmChannel StackFlow.

Module LlmNode.
(** [out_callback_] is [task_output] bound to a task and a channel. *)
Record llm_task := mkTask {
  model_ : bytes;
  response_format_ : bytes;
  inputs_ : list bytes;
  out_callback_ : option (ptr * ptr);
  t_enoutput_ : option bool;
  t_enstream_ : option bool;
}.

(** [llm_llm], and the static variables [stream_buff] and [count]. *)
Record llm_llm := mkLlm {
  task_count_ : Z;
  llm_task_ : gmap Z ptr;
  l_tasks : gmap ptr llm_task;
  l_next : ptr;
  stream_buff_ : gmap Z bytes;
  count_ : Z;
}.

(** [task_user_data] bound to a task and a channel. *)
Inductive llm_call := Task_user_data (task channel : ptr).

(** ** Configuration of a task *)
Definition new_task : llm_task := mkTask [] [] [] None None None.

Fixpoint push_inputs (l : list jvalue) : M llm_task unit :=
  match l with
  | [] => ret tt
  | j :: l' =>
      let* s := to_std_string j in
      modify (λ t, let i := inputs_ t in {| t with inputs_ := i ++ [s] |}) ;;;
      push_inputs l'
  end.

Definition read_config (config_body : jvalue) : M llm_task unit :=
  let* j := at_field (str "model") config_body in
  let* s := to_std_string j in
  modify (λ t, {| t with model_ := s |}) ;;;
  let* j := at_field (str "response_format") config_body in
  let* s := to_std_string j in
  modify (λ t, {| t with response_format_ := s |}) ;;;
  let* j := at_field (str "enoutput") config_body in
  let* b := to_bool j in
  modify (λ t, {| t with t_enoutput_ := Some b |}) ;;;
  when (contains_field (str "input") config_body)
    (let* j := at_field (str "input") config_body in
     match j with
     | JString _ => push_inputs [j]
     | JArray l => push_inputs l
     | _ => ret tt
     end).

(** [parse_config]: whether it failed. *)
Definition parse_config (config_body : jvalue) : M llm_task bool :=
  let* failed := try_catch (read_config config_body ;;; ret false) (λ _, ret true) in
  if failed : bool then ret true
  else
    modify (λ t, let r := response_format_ t in {| t with t_enstream_ := Some (contains (str "stream") r) |}) ;;;
    ret false.

Definition load_model (config_body : jvalue) : M llm_task Z :=
  let* failed := parse_config config_body in ret (if failed : bool then -1 else 0).

Section Ops.
Context `{Zmq K, Attempts, Hashing, !Clock K, JsonLib}.
Abbreviation MN := (M (node K llm_llm llm_call)).

Definition get_llm : MN llm_llm := gets n_unit.
Definition upd_llm : (llm_llm → llm_llm) → MN unit := upd_unit_data.
(** A [weak_ptr] locked. *)
Definition lock_task (t : ptr) : MN (option llm_task) := gets (λ n, l_tasks (n_unit n) !! t).
Definition new_task_obj : MN ptr := λ n,
  let u := n_unit n in let t := l_next u in let m := l_tasks u in
  Ret t {| n with n_unit := {| u with l_next := t + 1; l_tasks := <[t := new_task]> m |} |}.
Definition upd_task (t : ptr) (f : llm_task → llm_task) : MN unit :=
  let* o := lock_task t in
  let* x := deref o in
  upd_llm (λ u, let m := l_tasks u in {| u with l_tasks := <[t := f x]> m |}).
Definition free_task (t : ptr) : MN unit :=
  upd_llm (λ u, let m := l_tasks u in {| u with l_tasks := delete t m |}).
(** An operation of a task. *)
Definition on_task {A} (t : ptr) (m : M llm_task A) : MN A :=
  let* o := lock_task t in
  let* x := deref o in
  zoom (λ _, x) (λ x' n, let u := n_unit n in let s := l_tasks u in
    {| n with n_unit := {| u with l_tasks := <[t := x']> s |} |}) m.

(** [llm_task_[i] = t], which lets go of the task that was there. *)
Definition set_task (i : Z) (t : ptr) : MN unit :=
  let* u := get_llm in
  upd_llm (λ u, let m := llm_task_ u in {| u with llm_task_ := <[i := t]> m |}) ;;;
  if llm_task_ u !! i is Some old then free_task old else ret tt.
Definition erase_task (i : Z) : MN unit :=
  let* u := get_llm in
  upd_llm (λ u, let m := llm_task_ u in {| u with llm_task_ := delete i m |}) ;;;
  if llm_task_ u !! i is Some old then free_task old else ret tt.

(** ** The output of a task *)
Definition task_output (llm_task_obj_weak llm_channel_weak : ptr) (data : bytes) (finish : bool) : MN unit :=
  let* t := lock_task llm_task_obj_weak in
  let* c := lock_chan llm_channel_weak in
  match t, c with
  | Some t, Some x =>
      let c := llm_channel_weak in
      let* enstream := deref (enstream_ x) in
      if enstream : bool then
        let* u := get_llm in
        let* b := set_field (str "index") (JNumber (count_ u)) JNull in
        upd_llm (λ u, let i := count_ u in {| u with count_ := swrap 32 (i + 1) |}) ;;;
        let* b := set_field (str "delta") (JString data) b in
        let* b := set_field (str "delta") (JString (if finish then [] else data)) b in
        let* data_body := set_field (str "finish") (JBool finish) b in
        when finish (upd_llm (λ u, {| u with count_ := 0 |})) ;;;
        LlmChannel.send c (response_format_ t) data_body [] [] ;;; ret tt
      else when finish (LlmChannel.send c (response_format_ t) (JString data) [] [] ;;; ret tt)
  | _, _ => ret tt
  end.

Definition inference (t : ptr) (msg : bytes) : MN unit :=
  let* o := lock_task t in
  let* x := deref o in
  match out_callback_ x with
  | None => ret tt
  | Some (t, c) =>
      task_output t c msg false ;;;
      task_output t c (str "hello") false ;;;
      task_output t c [] true
  end.

(** ** The data of a user *)
Definition unit_error (code : Z) (message : bytes) : MN unit :=
  let* n := get in send_error code message (unit_name_ n).

(** [decode_stream] of the data into [tmp_msg], over the static buffer. *)
Definition decode (data : bytes) : MN (bool * bytes) :=
  let* u := get_llm in
  zoom (λ n, mkStream [] (stream_buff_ (n_unit n)))
       (λ st n, let u := n_unit n in let b := stream_buff st in
          {| n with n_unit := {| u with stream_buff_ := b |} |})
       (let* r := decode_stream data in let* st := get in ret (r, out st)).

Definition task_user_data (llm_task_obj_weak llm_channel_weak : ptr) (object data : bytes) : MN unit :=
  let* t := lock_task llm_task_obj_weak in
  let* c := lock_chan llm_channel_weak in
  match t, c with
  | Some _, Some _ =>
      if bool_decide (data = []) || bool_decide (data = None_text) then
        unit_error (-24) (str "The inference data is empty.")
      else if contains (str "stream") object then
        let* r := try_catch (let* r := decode data in ret (Some r))
          (λ _, upd_llm (λ u, {| u with stream_buff_ := ∅ |}) ;;; ret None) in
        match r with
        | None => unit_error (-25) (str "Stream data index error.")
        | Some (true, _) => ret tt
        | Some (false, tmp_msg) => inference llm_task_obj_weak tmp_msg
        end
      else inference llm_task_obj_weak data
  | _, _ => unit_error (-11) (str "Model run failed.")
  end.

(** ** The requests *)
Definition setup (work_id object data : bytes) : MN Z :=
  let* n := get in
  let* u := get_llm in
  if u64 (Z.of_nat (base.size (llm_task_channel_ n)) - 1) =? u64 (task_count_ u) then
    unit_error (-21) (str "task full") ;;; ret (-1)
  else
    let* work_id_num := sample_get_work_id_num work_id in
    let* llm_channel := get_channel_named work_id in
    let* t := new_task_obj in
    let* config_body := try_catch (let* j := parse data in ret (Some j)) (λ _, ret None) in
    match config_body with
    | None => unit_error (-2) (str "json format error.") ;;; ret (-2)
    | Some config_body =>
        let* r := on_task t (load_model config_body) in
        if r =? 0 then
          let* c := deref llm_channel in
          set_output c true ;;;
          let* o := lock_task t in
          let* x := deref o in
          let* enstream := deref (t_enstream_ x) in
          set_stream c enstream ;;;
          upd_task t (λ x, {| x with out_callback_ := Some (t, c) |}) ;;;
          subscriber_work_id c [] (Task_user_data t c) ;;;
          set_task work_id_num t ;;;
          send None_text (JString None_text) [] work_id [] ;;;
          ret 0
        else unit_error (-5) (str "Model loading failed.") ;;; ret (-1)
    end.

(** The work ids of the channels. *)
Fixpoint task_list (l : list (option ptr)) : MN (list jvalue) :=
  match l with
  | [] => ret []
  | o :: l' =>
      let* c := deref o in
      let* x := get_chan c in
      let* r := task_list l' in
      ret (JString (work_id_ x) :: r)
  end.

Definition taskinfo (work_id object data : bytes) : MN unit :=
  let* work_id_num := sample_get_work_id_num work_id in
  if WORK_ID_NONE =? work_id_num then
    let* n := get in
    let* l := task_list (um_iter (llm_task_channel_ n)).*2 in
    send (str "llm.tasklist") (JArray l) [] work_id [] ;;; ret tt
  else
    let* u := get_llm in
    match llm_task_ u !! work_id_num with
    | None => send_error (-6) (str "Unit Does Not Exist") work_id
    | Some t =>
        let* o := lock_task t in
        let* x := deref o in
        let* b := set_field (str "model") (JString (model_ x)) JNull in
        let* b := set_field (str "response_format") (JString (response_format_ x)) b in
        let* enoutput := deref (t_enoutput_ x) in
        let* b := set_field (str "enoutput") (JBool enoutput) b in
        let* b := set_field (str "inputs") (JArray (map JString (inputs_ x))) b in
        send (str "llm.taskinfo") b [] work_id [] ;;; ret tt
    end.

Definition exit (work_id object data : bytes) : MN Z :=
  let* work_id_num := sample_get_work_id_num work_id in
  let* u := get_llm in
  match llm_task_ u !! work_id_num with
  | None => send_error (-6) (str "Unit Does Not Exist") work_id ;;; ret (-1)
  | Some _ =>
      let* llm_channel := get_channel work_id_num in
      let* c := deref llm_channel in
      stop_subscriber c [] ;;;
      erase_task work_id_num ;;;
      send None_text (JString None_text) [] work_id [] ;;;
      ret 0
  end.

(** ** Construction and destruction *)

(** [~llm_llm] runs while [llm_task_] has an element; [n] iterations are
    followed.  An exception out of a destructor ends the process. *)
Fixpoint llm_dtor_loop (n : nat) : MN unit :=
  let* u := get_llm in
  match um_iter (llm_task_ u) with
  | [] => ret tt
  | (first, _) :: _ =>
      match n with
      | O => crash Unfollowed
      | S n' =>
          let* llm_channel := get_channel first in
          let* c := deref llm_channel in
          stop_subscriber c [] ;;;
          erase_task first ;;;
          llm_dtor_loop n'
      end
  end.
Definition llm_dtor : MN unit :=
  let* u := get_llm in
  try_catch (llm_dtor_loop (base.size (llm_task_ u))) (λ _, crash Terminated).
End Ops.

#[global] Instance llm_unit `{Zmq K, Attempts, Hashing, !Clock K, JsonLib} : StackFlowUnit K llm_llm llm_call := {
  unit_setup := setup;
  unit_exit := exit;
  unit_pause := base_pause;
  unit_taskinfo := taskinfo;
  run_call call := let 'Task_user_data t c := call in task_user_data t c;
}.

Section Main.
Context `{Zmq K, Attempts, Hashing, !Clock K, JsonLib}.
Abbreviation MN := (M (node K llm_llm llm_call)).

Definition llm_ctor : MN unit :=
  StackFlow_ctor (str "llm") ;;; upd_llm (λ u, {| u with task_count_ := 3 |}).

(** The end of [main]: the derived destructor, then the base's. *)
Definition llm_end (waiting : bool) : MN unit := llm_dtor ;;; StackFlow_dtor waiting.
End Main.
End LlmNode.
