(* ===== verification/LlmLife.v ===== *)
(** * The LLM node: refused requests and shutdown

    Error replies convert a JSON object to [std::string], which throws; the
    destructors run over the tasks and channels the node still has. *)

From S2P Require Import Prelude.
From S2P Require Import CStdlib.
From S2P Require Import PzmqData.
From S2P Require Import StackFlowUtil.
From S2P Require Import Json.
From S2P Require Import Pzmq.
From S2P Require Import UnitCall.
From S2P Require Import Node.
From S2P Require Import LlmChannel.
From S2P Require Import StackFlow.
From S2P Require Import LlmNode.
Import PzmqData StackFlowUtil Json Pzmq Node LlmChannel StackFlow LlmNode.

Module LlmLife.
(** ** Refused requests *)
Section Refusals.
Context `{Zmq K, Attempts, Hashing, !Clock K, JsonLib}.
Implicit Types n : node K llm_llm llm_call.

Lemma send_error_throws {U X} code message work_id (n : node K U X) :
  send_error code message work_id n = Throw json_type_error n.
Proof. done. Qed.

Lemma unit_error_throws code message n : unit_error code message n = Throw json_type_error n.
Proof. done. Qed.

(** An event whose listener throws ends the process. *)
Lemma even_loop_throws k e q x n n' : exit_flage_ n = false → event_queue_ n = e :: q →
  dispatch e {| n with event_queue_ := [] |} = Throw x n' → even_loop (S k) n = Crash Terminated.
Proof.
  intros Hx Hq Hd. cbn [even_loop]. unfold bind at 1, get. rewrite Hx, Hq.
  unfold bind, try_catch, process, bind, get, modify. rewrite Hq. cbn [forM]. unfold bind. by rewrite Hd.
Qed.

(** A pause request: the listener reads the URL twice. *)
Lemma pause_event_throws url raw n :
  status_ n ≠ 0 → zlen url ≤ 127 → (dquote ∉ url) → zlen (url ++ raw) < 2 ^ 31 - 1 →
  llm_task_channel_ n !! WORK_ID_NONE = None →
  ∃ n', dispatch (EVENT_PAUSE, Some (mkData (set_param url raw))) n = Throw json_type_error n'.
Proof.
  intros Hs Hl Hq Hlen Hc.
  assert (∀ k (s : node K llm_llm llm_call), sample_json_str_get url k s = Ret [] s) as Hget.
  { intros k s. rewrite sample_json_str_get_eq by lia. f_equal.
    rewrite <-(app_nil_r url). rewrite json_value_text by done. done. }
  assert (∀ s : node K llm_llm llm_call, get_param (mkData (set_param url raw)) 0 [] s = Ret url s) as Hp.
  { intros s. destruct (get_param_packet (mkData (set_param url raw)) [] url raw s) as (Hpos & _);
      [by left|done|]. rewrite (split_at_small url Hl) in *. destruct Hpos as [-> _]; [apply zlen_nonneg|].
    unfold ztake, zlen. by rewrite Nat2Z.id, take_app_length. }
  eexists. cbn [dispatch fst snd]. unfold _pause, listener, bind, deref, modify, get, when. rewrite !Hp, Hget.
  cbn [status_]. rewrite (proj2 (Z.eqb_neq _ _) Hs). cbn [negb].
  unfold pause, bind. rewrite Hget.
  assert (∀ s : node K llm_llm llm_call, llm_task_channel_ s !! WORK_ID_NONE = None → try_push_url [] url s = Ret tt s) as ->.
  { intros s Hs'. unfold try_push_url, try_catch, bind, sample_get_work_id_num, get_channel, get, ret. cbn [find prefixb str list_ascii_of_string].
    unfold bind, at_. cbn. by rewrite Hs'. }
  2: exact Hc. unfold with_fields, bind. rewrite !Hget. cbn. reflexivity.
Qed.

End Refusals.

(** ** Shutdown *)
Section Shutdown.
Context `{Zmq K, Attempts, !ZmqHealthy K, Hashing, !Clock K, JsonLib}.
Implicit Types n : node K llm_llm llm_call.

(** The node's objects: each task has a channel, each channel is alive, and so
    are its sockets, each owned once. *)
Record objects_ok n : Prop := {
  ob_task : ∀ i t, llm_task_ (n_unit n) !! i = Some t → is_Some (llm_task_channel_ n !! i);
  ob_chan : ∀ i o, llm_task_channel_ n !! i = Some o → ∃ c, o = Some c ∧ is_Some (n_channels n !! c);
  ob_sock : sockets_ok (n_channels n) (n_zmq n);
}.

Lemma wp_stop_all c x n : sockets_ok (n_channels n) (n_zmq n) → n_channels n !! c = Some x →
  wp (stop_subscriber c []) (λ _ n', ∃ s' x', zmq_ x' = ∅ ∧ inference_url_ x' = inference_url_ x ∧
    n' = with_chan c x' (with_zmq s' n) ∧ sockets_ok (n_channels n') s' ∧
    ∀ p y, z_objs s' !! p = Some y → z_objs (n_zmq n) !! p = Some y) n.
Proof.
  intros Hok Hc. unfold stop_subscriber. rewrite bool_decide_true by done. n_run.
  eapply wpe_mono; [exact (wp_zmq_clear c x n Hc (sockets_live _ _ _ _ _ Hok eq_refl Hc))| |done].
  intros [] n1 (k & m & -> & Hm). n_run. eexists (mkZ k m _), _. split_and!.
  3: { unfold with_chan, with_zmq. cbn. rewrite insert_insert_eq. reflexivity. }
  1, 2: done.
  2: { cbn. intros p y. rewrite Hm. by case_decide. }
  eapply (sockets_ok_keep _ _ _ _ Hok).
  - intros p c' i (x' & [[<- <-]|[Hne Hx']]%lookup_insert_Some & Hi); [done|].
    cbn in Hx'. rewrite lookup_insert_ne in Hx' by done.
    split; [by exists x'|]. cbn. rewrite Hm, decide_False; [done|]. intros [j Hj]%elem_of_sockets.
    destruct Hne. by destruct (so_once _ _ Hok p c j c' i) as [-> _]; [exists x|exists x'|].
  - cbn. intros p y. rewrite Hm. case_decide as Hp; [done|]. intros Hy. split; [done|].
    intros c' i (x' & Hx' & Hi). destruct (decide (c' = c)) as [->|Hne].
    + destruct Hp. apply elem_of_sockets. exists i. congruence.
    + exists x'. by rewrite !lookup_insert_ne.
  - intros z Hz. cbn. rewrite Hm. case_decide; [done|]. by apply (so_fresh _ _ Hok).
Qed.

Lemma objects_ok_stop c x' s' n : objects_ok n → is_Some (n_channels n !! c) →
  sockets_ok (<[c := x']> (n_channels n)) s' → objects_ok (with_chan c x' (with_zmq s' n)).
Proof.
  intros [Ht Hc _] [x Hx] Hs. split; [done| |done]. intros i o Ho.
  destruct (Hc _ _ Ho) as (c1 & -> & Hc1). exists c1. split; [done|]. cbn.
  destruct (decide (c1 = c)) as [->|]; [rewrite lookup_insert_eq; by eexists|by rewrite lookup_insert_ne].
Qed.

Lemma um_iter_nil {A} (m : gmap Z A) : um_iter m = [] ↔ m = ∅.
Proof.
  pose proof (um_iter_perm m) as Hp. rewrite <-map_to_list_empty_iff. split; intros E; rewrite E in Hp.
  - by apply Permutation_nil_l in Hp.
  - by apply Permutation_nil_r in Hp.
Qed.
Lemma um_iter_cons {A} (m : gmap Z A) i a l : um_iter m = (i, a) :: l → m !! i = Some a.
Proof.
  intros E. apply elem_of_map_to_list. rewrite <-(um_iter_perm m), E. by left.
Qed.

Lemma wp_erase_task i n : objects_ok n →
  wp (erase_task i) (λ _ n', objects_ok n' ∧ llm_task_ (n_unit n') = delete i (llm_task_ (n_unit n)) ∧
    n_channels n' = n_channels n ∧ llm_task_channel_ n' = llm_task_channel_ n ∧ rpc_ctx_ n' = rpc_ctx_ n ∧
    even_loop_thread_ n' = even_loop_thread_ n ∧ event_queue_ n' = event_queue_ n) n.
Proof.
  intros [Ht Hc Hs]. unfold erase_task, get_llm, upd_llm, upd_unit_data, free_task, upd_llm, upd_unit_data.
  n_run. destruct (llm_task_ (n_unit n) !! i) as [t|]; n_run; (split; [|done]); split; cbn; try done.
  all: intros j u [_ Hj]%lookup_delete_Some; by eapply Ht.
Qed.

(** The destructor's loop: one task per iteration. *)
Lemma wp_llm_dtor_loop k n : objects_ok n → (base.size (llm_task_ (n_unit n)) ≤ k)%nat →
  wp (llm_dtor_loop k) (λ _ n', objects_ok n' ∧ llm_task_ (n_unit n') = ∅ ∧
    llm_task_channel_ n' = llm_task_channel_ n ∧ rpc_ctx_ n' = rpc_ctx_ n ∧
    even_loop_thread_ n' = even_loop_thread_ n ∧ event_queue_ n' = event_queue_ n ∧
    (∀ c x, n_channels n !! c = Some x → zmq_ x = ∅ → ∃ x', n_channels n' !! c = Some x' ∧ zmq_ x' = ∅) ∧
    (∀ i t c, llm_task_ (n_unit n) !! i = Some t → llm_task_channel_ n !! i = Some (Some c) →
       ∃ x, n_channels n' !! c = Some x ∧ zmq_ x = ∅)) n.
Proof.
  revert n. induction k as [|k IH]; intros n Hok Hk; cbn [llm_dtor_loop]; unfold get_llm at 1; n_run;
    destruct (um_iter (llm_task_ (n_unit n))) as [|[i t] l] eqn:E.
  1, 3: apply um_iter_nil in E; n_run; split_and!; try done; [eauto|intros i t c Hi; by rewrite E in Hi].
  - apply um_iter_cons in E. assert (base.size (llm_task_ (n_unit n)) = 0%nat) as Hz by lia.
    apply map_size_empty_iff in Hz. by rewrite Hz in E.
  - apply um_iter_cons in E. destruct (ob_task _ Hok _ _ E) as [o Ho].
    destruct (ob_chan _ Hok _ _ Ho) as (c & -> & x & Hx). unfold get_channel. n_run. rewrite Ho. n_run.
    eapply wpe_mono; [exact (wp_stop_all c x n (ob_sock _ Hok) Hx)| |done].
    intros [] n1 (s1 & x1 & Hz1 & _ & -> & Hs1 & _). n_run.
    pose proof (objects_ok_stop c x1 s1 n Hok (ex_intro _ x Hx) Hs1) as Hok1.
    eapply wpe_mono; [exact (wp_erase_task i _ Hok1)| |done].
    intros [] n2 (Hok2 & Hl2 & Hc2 & Ht2 & Hr2 & Hth2 & Hq2).
    change (llm_task_channel_ n2 = llm_task_channel_ n) in Ht2. change (rpc_ctx_ n2 = rpc_ctx_ n) in Hr2.
    change (even_loop_thread_ n2 = even_loop_thread_ n) in Hth2. change (event_queue_ n2 = event_queue_ n) in Hq2.
    assert (∀ c x, n_channels n !! c = Some x → zmq_ x = ∅ → ∃ x', n_channels n2 !! c = Some x' ∧ zmq_ x' = ∅) as Hkeep.
    { intros c' x' Hc' Hx'. rewrite Hc2. cbn. destruct (decide (c' = c)) as [->|Hne].
      - rewrite lookup_insert_eq. by exists x1.
      - rewrite lookup_insert_ne by done. by exists x'. }
    eapply wpe_mono; [apply (IH n2 Hok2)| |done].
    { rewrite Hl2. cbn. rewrite map_size_delete, E. lia. }
    intros [] n3 (Hok3 & Hl3 & Ht3 & Hr3 & Hth3 & Hq3 & Hkeep3 & Hall3).
    split_and!; [done|done|congruence..|eauto| ].
    + intros c' x' Hc' Hx'. destruct (Hkeep _ _ Hc' Hx') as (x2 & ? & ?). eauto.
    + intros j t' c' Hj Hc'. destruct (decide (j = i)) as [->|Hne].
      * rewrite Ho in Hc'. injection Hc' as <-. apply (Hkeep3 c x1); [|done]. rewrite Hc2. cbn. apply lookup_insert_eq.
      * apply (Hall3 j t'); [rewrite Hl2; cbn; by rewrite lookup_delete_ne|congruence].
Qed.

(** [~StackFlow] up to its look at the channels. *)
Lemma dtor_body waiting n (k : M (node K llm_llm llm_call) unit) :
  even_loop_thread_ n = true → (waiting = true → event_queue_ n = []) →
  ∃ n1, (modify (λ n, {| n with exit_flage_ := true |}) ;;; enqueue EVENT_NONE None ;;; join_even_loop waiting ;;; k) n
      = k n1 ∧ llm_task_channel_ n1 = llm_task_channel_ n ∧ n_zmq n1 = n_zmq n ∧ rpc_ctx_ n1 = rpc_ctx_ n ∧
        exit_flage_ n1 = true ∧ even_loop_thread_ n1 = false.
Proof.
  intros Ht Hq. unfold bind, modify, enqueue, join_even_loop, bind, modify, get, when. cbn [even_loop_thread_].
  rewrite Ht. cbn [negb]. destruct waiting; [rewrite Hq by done|]; cbn; by eexists.
Qed.

End Shutdown.

Section Sim.
#[local] Instance sim_json : JsonLib := {| dump_text _ := Some []; parse_text _ := None |}.
#[local] Instance sim_clock : Clock ZSim.zsim := {| sys_time k := (0, k) |}.
Definition sim_llm : llm_llm := mkLlm 3 ∅ ∅ 1 ∅ 0.
Definition pause_data : pzmq_data := mkData (set_param (str "ipc:///tmp/llm/8000.sock") (json "{'work_id':'llm.0'}")).
Definition paused_node : node ZSim.zsim llm_llm llm_call :=
  mkNode (mkZ (ZSim.mkZsim 1 ∅ ∅ [] ∅) ∅ 1) ∅ 1 (str "llm") [] [] false 1 [(EVENT_PAUSE, Some pause_data)] true None ∅ sim_llm.


(** A node with one task. *)
Definition busy_pub : pzmq rpc_action (node_callback llm_call) :=
  mkPzmq rpc_url_head (Some 1) (Some 2) ∅ true None (Some ZMQ_PUB) [] (str "ipc:///tmp/llm/5010.sock") 3000.
Definition busy_chan : llm_channel_obj :=
  mkChannel {[-1 := Some 1]} (-1000) ∅ (str "llm") None None [] [] [] (str "ipc:///tmp/llm/5010.sock") [].
Definition busy_node : node ZSim.zsim llm_llm llm_call :=
  mkNode (mkZ (ZSim.mkZsim 3 ∅ ∅ [] ∅) {[1 := busy_pub]} 2) {[1 := busy_chan]} 2 (str "llm") [] [] false 1 [] true None
    {[0 := Some 1]} (mkLlm 3 {[0 := 1]} {[1 := new_task]} 2 ∅ 0).

Lemma busy_socket i p : zmq_ busy_chan !! i = Some (Some p) → i = -1 ∧ p = 1.
Proof.
  change (({[-1 := Some 1]} : gmap Z (option ptr)) !! i = Some (Some p) → i = -1 ∧ p = 1).
  by intros [<- [= <-]]%lookup_singleton_Some.
Qed.
Lemma busy_ok : objects_ok busy_node.
Proof.
  split; cbn.
  - intros i t [<- <-]%lookup_singleton_Some. by eexists.
  - intros i o [<- <-]%lookup_singleton_Some. exists 1. split; [done|]. by eexists.
  - split; cbn.
    + intros p c i (x & [<- <-]%lookup_singleton_Some & Hi). apply busy_socket in Hi as [-> ->]. exists busy_pub.
      split; [done|]. exists ZMQ_PUB. split; [done|right]. vm_compute. congruence.
    + by intros p c i c' i' (x & [<- <-]%lookup_singleton_Some & [-> ->]%busy_socket)
        (x' & [<- <-]%lookup_singleton_Some & [-> _]%busy_socket).
    + by intros p y c call [<- <-]%lookup_singleton_Some [=].
    + intros z Hz. apply lookup_singleton_None. lia.
Qed.

End Sim.
End LlmLife.
