(* ===== verification/LlmEvents.v ===== *)
(** * The LLM node: its state stays well formed

    The invariant every event keeps: the channels, their sockets, the tasks and
    the limit of three units. *)

From S2P Require Import Prelude.
From S2P Require Import CStdlib.
From S2P Require Import PzmqData.
From S2P Require Import StackFlowUtil.
From S2P Require Import Json.
From S2P Require Import Pzmq.
From S2P Require Import UnitCall.
From S2P Require Import Node.
From S2P Require Import LlmChannel.
From S2P Require Import StackFlow.
From S2P Require Import Registration.
From S2P Require Import LlmNode.
From S2P Require Import LlmLife.
Import PzmqData StackFlowUtil Json Pzmq UnitCall Node LlmChannel StackFlow LlmNode LlmLife Registration.

Module LlmEvents.
(** ** Texts *)
Section Texts.
Context {S : Type}.
Implicit Types s : S.

(** A computation whose outcome depends on nothing but its arguments. *)
Definition quiet {A} (m : M S A) : Prop :=
  ∃ r : A + exn, ∀ s, m s = match r with inl a => Ret a s | inr e => Throw e s end.

Lemma quiet_ret {A} (a : A) : quiet (ret a).
Proof. by exists (inl a). Qed.
Lemma quiet_throw {A} e : quiet (A := A) (throw e).
Proof. by exists (inr e). Qed.
Lemma quiet_if {A} (b : bool) (m m' : M S A) : quiet m → quiet m' → quiet (if b then m else m').
Proof. by destruct b. Qed.
Lemma quiet_bind {A B} (m : M S A) (k : A → M S B) : quiet m → (∀ a, quiet (k a)) → quiet (bind m k).
Proof.
  intros [[a|e] Hm] Hk.
  - destruct (Hk a) as [r Hr]. exists r. intros s. unfold bind. by rewrite Hm.
  - exists (inr e). intros s. unfold bind. by rewrite Hm.
Qed.
Lemma wpe_quiet {A} (m : M S A) (Q : A → S → Prop) (E : exn → S → Prop) s :
  quiet m → (∀ a, (∀ s', m s' = Ret a s') → Q a s) → (∀ e, E e s) → wpe m Q E s.
Proof. intros [[a|e] Hm] HQ HE; unfold wpe; rewrite Hm; auto. Qed.

Lemma quiet_substr t pos : quiet (substr (T := S) t pos).
Proof. apply quiet_if; [apply quiet_ret|apply quiet_throw]. Qed.
Lemma quiet_stoi t : quiet (stoi (T := S) t).
Proof.
  unfold stoi. destruct (scan_sign _) as [neg r], (scan_digits _ _ _) as [[v [|k]] ?]; [apply quiet_throw|].
  apply quiet_if; [apply quiet_throw|apply quiet_ret].
Qed.
Lemma quiet_json_get text k : quiet (sample_json_str_get (T := S) text k).
Proof.
  unfold sample_json_str_get. destruct (find _ _); [|apply quiet_ret].
  apply quiet_if; [apply quiet_ret|]. apply quiet_bind; [apply quiet_substr|intros; apply quiet_ret].
Qed.
Lemma quiet_work_id_num w : quiet (sample_get_work_id_num (T := S) w).
Proof.
  unfold sample_get_work_id_num. destruct (find _ _); [|apply quiet_ret].
  apply quiet_if; [apply quiet_ret|]. apply quiet_bind; [apply quiet_substr|intros; apply quiet_stoi].
Qed.
Lemma to_string_cons i : to_string i ≠ [].
Proof.
  unfold to_string. case_cmp; [done|]. destruct (dec_nonneg_cons i) as (c & t & -> & _); [lia|done].
Qed.
Lemma work_id_num_print u i s : "."%char ∉ u → INT_MIN ≤ i ≤ INT_MAX →
  sample_get_work_id_num (u ++ str "." ++ to_string i) s = Ret i s.
Proof.
  intros Hu Hi. rewrite work_id_num_dotted by (done || apply to_string_cons).
  rewrite <-(app_nil_r (to_string i)). by apply stoi_to_string.
Qed.
End Texts.

(** ** The invariant *)
Record tasks_ok (u : llm_llm) : Prop := {
  tk_count : task_count_ u = 3;
  tk_cells : ∀ t, l_next u ≤ t → l_tasks u !! t = None;
  tk_live : ∀ i t, llm_task_ u !! i = Some t → ∃ x, l_tasks u !! t = Some x ∧ is_Some (t_enoutput_ x);
  tk_once : ∀ i j t, llm_task_ u !! i = Some t → llm_task_ u !! j = Some t → i = j;
}.

Lemma tasks_ok_cell u t x : tasks_ok u → (∀ i, llm_task_ u !! i ≠ Some t) → t ≤ l_next u →
  tasks_ok (let m := <[t := x]> (l_tasks u) in let k := Z.max (l_next u) (t + 1) in
            {| u with l_next := k; l_tasks := m |}).
Proof.
  intros [Hc Hf Hl Ho] Ht Hle. split; cbn; [done| |  |done].
  - intros t' Ht'. rewrite lookup_insert_ne by lia. apply Hf. lia.
  - intros i t' Hi. destruct (Hl i t' Hi) as (x' & Hx' & Hs). exists x'. split; [|done].
    rewrite lookup_insert_ne; [done|]. intros ->. by apply (Ht i).
Qed.
Lemma tasks_ok_set u i t x : tasks_ok u → (∀ j, llm_task_ u !! j ≠ Some t) → l_tasks u !! t = Some x →
  is_Some (t_enoutput_ x) →
  tasks_ok (let m := <[i := t]> (llm_task_ u) in let c := match llm_task_ u !! i with
      | Some old => delete old (l_tasks u) | None => l_tasks u end in
    {| u with llm_task_ := m; l_tasks := c |}).
Proof.
  intros [Hc Hf Hl Ho] Ht Hx Hs. split; cbn; [done|..].
  - intros t' Ht'. destruct (llm_task_ u !! i); [apply lookup_delete_None; right|]; by apply Hf.
  - intros j t' [[<- <-]|[Hne Hj]]%lookup_insert_Some.
    + exists x. split; [|done]. destruct (llm_task_ u !! i) as [old|] eqn:E; [|done].
      rewrite lookup_delete_ne; [done|]. intros ->. by apply (Ht i).
    + destruct (Hl j t' Hj) as (x' & Hx' & Hs'). exists x'. split; [|done].
      destruct (llm_task_ u !! i) as [old|] eqn:E; [|done]. rewrite lookup_delete_ne; [done|]. intros ->.
      by destruct Hne; eapply Ho.
  - intros j k t' [[<- <-]|[Hne Hj]]%lookup_insert_Some [[<- E]|[Hne' Hk]]%lookup_insert_Some; [done|..].
    + by destruct (Ht k).
    + subst t'. by destruct (Ht j).
    + by eapply Ho.
Qed.
Lemma tasks_ok_erase u i : tasks_ok u →
  tasks_ok (let m := delete i (llm_task_ u) in let c := match llm_task_ u !! i with
      | Some old => delete old (l_tasks u) | None => l_tasks u end in
    {| u with llm_task_ := m; l_tasks := c |}).
Proof.
  intros [Hc Hf Hl Ho]. split; cbn; [done|..].
  - intros t' Ht'. destruct (llm_task_ u !! i); [apply lookup_delete_None; right|]; by apply Hf.
  - intros j t' [Hne Hj]%lookup_delete_Some. destruct (Hl j t' Hj) as (x' & Hx' & Hs'). exists x'. split; [|done].
    destruct (llm_task_ u !! i) as [old|] eqn:E; [|done]. rewrite lookup_delete_ne; [done|]. intros ->.
    by destruct Hne; eapply Ho.
  - intros j k t' [_ Hj]%lookup_delete_Some [_ Hk]%lookup_delete_Some. by eapply Ho.
Qed.

(** ** Loading a configuration *)
Lemma wp_push_inputs l x : may_throw (push_inputs l) (λ _ x', t_enoutput_ x' = t_enoutput_ x) x.
Proof.
  revert x. induction l as [|j l IH]; intros x; cbn [push_inputs]; [by wp_simp|]. wp_simp.
  destruct j; unfold to_std_string; wp_simp; try done. eapply wpe_mono; [apply IH|done..].
Qed.
Lemma wp_at_field {S} k j (Q : jvalue → S → Prop) (E : exn → S → Prop) s :
  (∀ v, Q v s) → (∀ e, E e s) → wpe (at_field k j) Q E s.
Proof. intros HQ HE. destruct j; unfold at_field; wp_simp; auto. destruct (assoc_get k m); auto. Qed.

Lemma wp_load_model j :
  wp (load_model j) (λ r x, r = 0 → is_Some (t_enoutput_ x) ∧ is_Some (t_enstream_ x)) new_task.
Proof.
  unfold load_model, parse_config. wp_simp.
  assert (may_throw (read_config j) (λ _ x, is_Some (t_enoutput_ x)) new_task) as Hread.
  { unfold read_config. wp_simp.
    repeat (apply wp_at_field; [intros [| | |?| |]|done]; unfold to_std_string, to_bool; wp_simp; try done).
    destruct (contains_field _ _); [|by eexists]. wp_simp. apply wp_at_field; [|done].
    intros v. assert (∀ l y, is_Some (t_enoutput_ y) → may_throw (push_inputs l) (λ _ x, is_Some (t_enoutput_ x)) y) as Hp.
    { intros l y Hy. eapply wpe_mono; [apply wp_push_inputs| |done]. by intros [] x ->. }
    destruct v; wp_simp; try (by eexists); apply Hp; by eexists. }
  eapply wpe_mono; [exact Hread|..].
  - intros [] x Hx. wp_simp. intros _. cbn. split; [done|by eexists].
  - intros e x _. wp_simp. done.
Qed.

(** What the unit manager sends: a URL that fits one length byte, and the
    request. *)
Definition event_ok (e : LOCAL_EVENT * option pzmq_data) : Prop :=
  match e with
  | (EVENT_NONE, _) => True
  | (_, Some d) => ∃ url raw, d = mkData (set_param url raw) ∧ 1 ≤ zlen url ≤ 127 ∧ zlen raw < 2 ^ 30
  | (_, None) => False
  end.

Section Invariant.
Context `{Zmq K, Attempts, !ZmqHealthy K, Hashing, !Clock K, JsonLib}.
Implicit Types n : node K llm_llm llm_call.

(** The channel can send a task's output. *)
Definition ready (x : llm_channel_obj) : Prop :=
  is_Some (enoutput_ x) ∧ is_Some (enstream_ x) ∧ ∃ q, zmq_ x !! (-1) = Some (Some q).

(** What the callback of a subscription of [c] holds: [c], and a task whose
    output goes there. *)
Definition heard n (c : ptr) (call : llm_call) : Prop :=
  ∃ t x, call = Task_user_data t c ∧ n_channels n !! c = Some x ∧ ready x ∧ t < l_next (n_unit n) ∧
    ∀ k, l_tasks (n_unit n) !! t = Some k → out_callback_ k = Some (t, c).

(** At most [l] units; units and tasks have non-negative numbers; each task has
    a channel, each channel is alive and owned by one entry; the callback of a
subscription can be run; what is queued came from the unit manager. *)
Record node_ok (l : nat) n : Prop := {
  nk_name : unit_name_ n = str "llm";
  nk_sock : sockets_ok (n_channels n) (n_zmq n);
  nk_cells : ∀ c, n_next n ≤ c → n_channels n !! c = None;
  nk_chan : ∀ i o, llm_task_channel_ n !! i = Some o → ∃ c, o = Some c ∧ is_Some (n_channels n !! c);
  nk_chan_once : ∀ i j c, llm_task_channel_ n !! i = Some (Some c) →
    llm_task_channel_ n !! j = Some (Some c) → i = j;
  nk_url : ∀ c x, n_channels n !! c = Some x → 1 ≤ zlen (inference_url_ x);
  nk_unit : tasks_ok (n_unit n);
  nk_task : ∀ i t, llm_task_ (n_unit n) !! i = Some t → 0 ≤ i ∧ is_Some (llm_task_channel_ n !! i);
  nk_limit : (base.size (llm_task_channel_ n) ≤ l)%nat;
  nk_subs : ∀ p y c call, z_objs (n_zmq n) !! p = Some y → listens y c call → heard n c call;
  nk_queue : Forall event_ok (event_queue_ n);
}.

(** What the calls and the sockets of a channel leave alone: sockets stay
    where they are, but for the push sockets. *)
Record keeps n n' : Prop := {
  ke_unit : n_unit n' = n_unit n;
  ke_channels : llm_task_channel_ n' = llm_task_channel_ n;
  ke_out : out_zmq_url_ n' = out_zmq_url_ n;
  ke_owns : ∀ q c i, i ≠ -2 → owns (n_channels n) q c i → owns (n_channels n') q c i;
  ke_subs : ∀ p y c call, z_objs (n_zmq n) !! p = Some y → listens y c call → z_objs (n_zmq n') !! p = Some y;
}.
Lemma keeps_refl n : keeps n n.
Proof. done. Qed.
Lemma keeps_trans n1 n2 n3 : keeps n1 n2 → keeps n2 n3 → keeps n1 n3.
Proof. intros [] []. split; [congruence..|auto|eauto]. Qed.

(** The objects of [s] that were not there before. *)
Definition fewer (s s' : zstate K rpc_action (node_callback llm_call)) : Prop :=
  ∀ p y, z_objs s' !! p = Some y → z_objs s !! p = Some y.

Lemma node_ok_zmq l n s : node_ok l n → sockets_ok (n_channels n) s → fewer (n_zmq n) s → node_ok l (with_zmq s n).
Proof.
  intros [] Hs Hf. split; try done. intros p y c call Hp Hy.
  destruct (nk_subs0 p y c call) as (t & x & Hh); [by apply Hf|done|]. by exists t, x.
Qed.
Lemma sockets_ok_calls cs (s : zstate K rpc_action (node_callback llm_call)) (k : K) z : sockets_ok cs s → z_next s ≤ z → sockets_ok cs (mkZ k (z_objs s) z).
Proof. intros Hs Hz. apply (sockets_ok_keep _ _ _ _ Hs); [done|by auto|]. cbn. intros. apply (so_fresh _ _ Hs). lia. Qed.
Lemma node_ok_calls l n n' : node_ok l n → calls n n' → node_ok l n' ∧ keeps n n'.
Proof.
  intros Hok (k & z & Hz & ->). split; [|done].
  apply (node_ok_zmq l n _ Hok); [|by intros p y]. apply sockets_ok_calls; [apply Hok|done].
Qed.

Lemma node_ok_chan l n c x x' s : node_ok l n → n_channels n !! c = Some x → inference_url_ x' = inference_url_ x →
  sockets_ok (<[c := x']> (n_channels n)) s →
  (∀ p y c' call, z_objs s !! p = Some y → listens y c' call →
     z_objs (n_zmq n) !! p = Some y ∧ (c' = c → ready x → ready x') ∨ heard (with_chan c x' n) c' call) →
  node_ok l (with_chan c x' (with_zmq s n)).
Proof.
  intros Hok Hc Hu Hs Hnew. pose proof Hok as [Hn _ Hf Hch Ho Hurl Ht Htc Hl Hsu Hqu]. split; try done; cbn.
  - intros c' Hc'. rewrite lookup_insert_ne; [auto|]. intros ->. by rewrite Hf in Hc.
  - intros i o Hi. destruct (Hch i o Hi) as (c' & -> & Hc'). exists c'. split; [done|].
    destruct (decide (c' = c)) as [->|]; [rewrite lookup_insert_eq; by eexists|by rewrite lookup_insert_ne].
  - intros c' y [[<- <-]|[_ Hy]]%lookup_insert_Some; [|by eapply Hurl]. rewrite Hu. by eapply Hurl.
  - intros p y c' call Hp Hy. destruct (Hnew p y c' call Hp Hy) as [[Hp' Hr]|Hh]; [|exact Hh].
    destruct (Hsu p y c' call Hp' Hy) as (t & x0 & -> & Hx0 & Hrx & Ht' & Hk).
    destruct (decide (c' = c)) as [->|Hne].
    + exists t, x'. cbn. rewrite lookup_insert_eq. simplify_eq. by auto 10.
    + exists t, x0. cbn. rewrite lookup_insert_ne by done. by auto 10.
Qed.
(** A change that leaves the sockets of the channel alone. *)
Lemma sockets_ok_same cs (s : zstate K rpc_action (node_callback llm_call)) c x x' : sockets_ok cs s → cs !! c = Some x → zmq_ x' = zmq_ x →
  sockets_ok (<[c := x']> cs) s.
Proof.
  intros Hs Hc Hx. apply (sockets_ok_keep _ _ _ _ Hs); [| |apply Hs].
  - intros p c' i (y & [[<- <-]|[_ Hy]]%lookup_insert_Some & Hi); (split; [|done]); [exists x; by rewrite <-Hx|by exists y].
  - intros p y Hp. split; [done|]. intros c' i (z & Hz & Hi). destruct (decide (c' = c)) as [->|].
    + exists x'. rewrite lookup_insert_eq, Hx. split; [done|congruence].
    + exists z. by rewrite lookup_insert_ne.
Qed.
(** A change of the other members of a channel. *)
Definition gains (x x' : llm_channel_obj) : Prop :=
  zmq_ x' = zmq_ x ∧ inference_url_ x' = inference_url_ x ∧
  (is_Some (enoutput_ x) → is_Some (enoutput_ x')) ∧ (is_Some (enstream_ x) → is_Some (enstream_ x')).
Lemma wp_upd_chan l c x f n : node_ok l n → n_channels n !! c = Some x → gains x (f x) →
  wp (upd_chan c f) (λ _ n', node_ok l n' ∧ keeps n n' ∧ n_channels n' !! c = Some (f x) ∧ n_zmq n' = n_zmq n) n.
Proof.
  intros Hok Hc (Hz & Hu & He & Hst). n_run. split_and!; [|split; try done|apply lookup_insert_eq|done].
  - replace (_ : node K llm_llm llm_call) with (with_chan c (f x) (with_zmq (n_zmq n) n)) by done.
    eapply node_ok_chan; [done..| |].
    + eapply sockets_ok_same; [apply Hok|done|done].
    + intros p y c' call Hp _. left. split; [done|]. intros _ (? & ? & q & Hq). split_and!; [auto..|exists q; by rewrite Hz].
  - intros q c' i _ (y & Hy & Hi). destruct (decide (c' = c)) as [->|].
    + exists (f x). cbn. rewrite lookup_insert_eq, Hz. split; [done|congruence].
    + exists y. cbn. by rewrite lookup_insert_ne.
Qed.

(** No callback names the task [t]. *)
Definition unheard (t : ptr) n : Prop :=
  ∀ p y c c', z_objs (n_zmq n) !! p = Some y → ¬ listens y c (Task_user_data t c').

Lemma node_ok_unit l n u : node_ok l n → tasks_ok u →
  (∀ i t, llm_task_ u !! i = Some t → 0 ≤ i ∧ is_Some (llm_task_channel_ n !! i)) →
  l_next (n_unit n) ≤ l_next u →
  (∀ t k, l_tasks u !! t = Some k → l_tasks (n_unit n) !! t = Some k ∨ unheard t n) →
  node_ok l (let m := u in {| n with n_unit := m |}).
Proof.
  intros Hok Hu Ht Hl Hk. pose proof Hok as []. split; try done.
  intros p y c call Hp Hy. destruct (nk_subs _ _ Hok p y c call Hp Hy) as (t & x & -> & Hx & Hr & Hlt & Hcb).
  exists t, x. split_and!; [done..|cbn; lia|]. cbn. intros k [Hk'|Hk']%Hk; [auto|]. by destruct (Hk' p y c c).
Qed.

(** ** Sockets and replies *)
Lemma wp_set_push_url l c x url n : node_ok l n → n_channels n !! c = Some x → 1 ≤ zlen url →
  wp (set_push_url c url) (λ _ n', node_ok l n' ∧ keeps n n' ∧ is_Some (n_channels n' !! c)) n.
Proof.
  intros Hok Hc Hu. unfold set_push_url. n_step. n_step. exists x. split; [done|]. n_run.
  case_bool_decide; [n_run; split_and!; [done|done|by eexists]|n_step].
  eapply wpe_mono; [apply (wp_upd_chan l c x _ n Hok Hc); done| |done].
  intros [] n1 (Hok1 & Hk1 & Hc1 & _).
  n_step. eapply (wp_open c (-2) _ url ZMQ_PUSH None n1); [apply Hok1|exact Hc1|done|by left|].
  intros s' Hs' Hnew Hold _. split_and!.
  - eapply node_ok_chan; [done|exact Hc1|done|exact Hs'|]. intros p y c' call Hp Hy.
    destruct (Hnew p y Hp) as [Hp'|Hth]; [|unfold listens in Hy; rewrite Hth in Hy; discriminate Hy].
    left. split; [done|]. intros _ (? & ? & q & Hq). split_and!; [done..|]. exists q. cbn. by rewrite lookup_insert_ne.
  - apply (keeps_trans _ _ _ Hk1). split; try done.
    + intros q c' i Hi (y & Hy & Hq). destruct (decide (c' = c)) as [->|]; [|exists y; cbn; by rewrite lookup_insert_ne].
      eexists. cbn. rewrite lookup_insert_eq. split; [done|]. cbn. rewrite lookup_insert_ne by done. by simplify_eq.
    + intros p y c' call Hp Hy. cbn. rewrite Hold; [done|by eexists|]. intros E.
      destruct (so_sub _ _ (nk_sock _ _ Hok1) p y c' call Hp Hy) as (i & Hi & Hown).
      destruct (so_once _ _ (nk_sock _ _ Hok1) p c' i c (-2) Hown) as [_ E']; [by eexists|done].
  - cbn. rewrite lookup_insert_eq. by eexists.
Qed.

Lemma reply_body_ret request_id work_id now object data error_msg :
  ∃ b, ∀ S (s : S), reply_body request_id work_id now object data error_msg s = Ret b s.
Proof. unfold reply_body, bind. case_bool_decide; by eexists. Qed.

Lemma wp_send_reply l object data error_msg work_id n : node_ok l n → 1 ≤ zlen (out_zmq_url_ n) →
  may_throw (send object data error_msg work_id []) (λ _ n', node_ok l n' ∧ keeps n n') n.
Proof.
  intros Hok Hu. unfold send. n_run.
  destruct (reply_body_ret (request_id_ n) work_id (sys_time (z_kernel (n_zmq n))).1 object data error_msg) as [b Hb].
  match goal with |- wpe _ _ _ ?v => set (n1 := v) end.
  assert (node_ok l n1 ∧ keeps n n1) as [Hok1 Hk1].
  { split; [|done]. apply (node_ok_zmq l n _ Hok); [|by intros p y]. apply sockets_ok_calls; [apply Hok|done]. }
  unfold wpe at 1. rewrite Hb. rewrite (bool_decide_true ([] = [])) by done.
  eapply wp_with_url; [apply (so_fresh _ _ (nk_sock _ _ Hok1)); cbn; lia|done|].
  intros p n2 [y Hy]. n_step. unfold dump, Pzmq.send_data. destruct (dump_text b) as [t|]; n_run.
  - split; [by eexists|]. intros n3 Hc. destruct (node_ok_calls l n1 n3 Hok1 Hc) as [Hok3 Hk3].
    split; [done|by eapply keeps_trans].
  - split; [exists (z_kernel (n_zmq n2)); by destruct n2 as [[] ? ? ? ? ? ? ? ? ? ? ? ?]|done].
Qed.

Lemma wp_try_push_url l work_id url n : node_ok l n → 1 ≤ zlen url →
  wp (try_push_url work_id url) (λ _ n', node_ok l n' ∧ keeps n n') n.
Proof.
  intros Hok Hu. unfold try_push_url. n_run.
  apply wpe_quiet; [apply quiet_work_id_num|intros i _|intros e; by n_run].
  unfold get_channel. n_run. destruct (llm_task_channel_ n !! i) as [o|] eqn:Ho; n_run; [|done].
  destruct (nk_chan _ _ Hok i o Ho) as (c & -> & x & Hx). n_run.
  eapply wpe_mono; [apply (wp_set_push_url l c x url n Hok Hx Hu)| |done]. by intros [] n1 (? & ? & _).
Qed.

(** ** Units registered and released *)
Lemma sockets_ok_new cs (s s' : zstate K rpc_action (node_callback llm_call)) c x z y :
  sockets_ok cs s → cs !! c = None → zmq_ x = {[-1 := Some z; -2 := None]} → z_next s ≤ z →
  z_objs s' = <[z := y]> (z_objs s) → z < z_next s' → closable y → zmq_thread_ y = None →
  sockets_ok (<[c := x]> cs) s'.
Proof.
  intros [Hl Ho Hsu Hf] Hc Hx Hz Es Hz' Hy Hth.
  assert (∀ p c' i, owns (<[c := x]> cs) p c' i → (p = z ∧ c' = c ∧ i = -1) ∨ (p ≠ z ∧ owns cs p c' i)) as Hown.
  { intros p c' i (x1 & [[<- <-]|[_ Hx1]]%lookup_insert_Some & Hi).
    - rewrite Hx in Hi. apply lookup_insert_Some in Hi as [[<- [= <-]]|[_ Hi]]; [by left|].
      apply lookup_singleton_Some in Hi as [_ Hi]. discriminate Hi.
    - assert (owns cs p c' i) as Hp by (by exists x1). right. split; [|done]. intros ->.
      destruct (Hl _ _ _ Hp) as (w & Hw & _). by rewrite Hf in Hw. }
  split.
  - intros p c' i [(-> & _ & _)|[Hne Hp]]%Hown; rewrite Es; [exists y; by rewrite lookup_insert_eq|].
    rewrite lookup_insert_ne by done. eauto.
  - intros p c1 i1 c2 i2 [(-> & -> & ->)|[Hn1 Hp1]]%Hown [(E & -> & ->)|[Hn2 Hp2]]%Hown; try done. by eapply Ho.
  - rewrite Es. intros p w c1 call [[_ <-]|[_ Hp]]%lookup_insert_Some Hw; [unfold listens in Hw; by rewrite Hth in Hw|].
    destruct (Hsu p w c1 call Hp Hw) as (i & Hi & x1 & Hx1 & Hi1). exists i. split; [done|]. exists x1.
    rewrite lookup_insert_ne; [done|congruence].
  - intros q Hq. rewrite Es, lookup_insert_ne by lia. apply Hf. lia.
Qed.

Lemma sockets_ok_delete cs (s s' : zstate K rpc_action (node_callback llm_call)) c x :
  sockets_ok cs s → cs !! c = Some x → z_next s' = z_next s →
  (∀ p, z_objs s' !! p = if decide (Some p ∈ sockets x) then None else z_objs s !! p) →
  sockets_ok (delete c cs) s'.
Proof.
  intros Hs Hc Ez Eo. apply (sockets_ok_keep _ _ _ _ Hs).
  - intros p c' i (y & [Hne Hy]%lookup_delete_Some & Hi). assert (owns cs p c' i) as Hp by (by exists y).
    split; [done|]. rewrite Eo, decide_False; [done|]. intros [j Hj]%elem_of_sockets. destruct Hne.
    by destruct (so_once _ _ Hs p c j c' i) as [-> _]; [exists x| |].
  - intros p y. rewrite Eo. case_decide as Hp; [done|]. intros Hy. split; [done|]. intros c' i (z & Hz & Hi).
    exists z. split; [|done]. rewrite lookup_delete_ne; [done|]. intros ->. destruct Hp. apply elem_of_sockets.
    exists i. congruence.
  - intros z Hz. rewrite Eo. case_decide; [done|]. apply (so_fresh _ _ Hs). lia.
Qed.

(** A channel cell that no entry names goes. *)
Lemma node_ok_free l n c s : node_ok l n → (∀ i, llm_task_channel_ n !! i ≠ Some (Some c)) →
  sockets_ok (delete c (n_channels n)) s → fewer (n_zmq n) s →
  node_ok l (let n1 := with_zmq s n in let cs := delete c (n_channels n) in {| n1 with n_channels := cs |}).
Proof.
  intros [Hn _ Hf Hch Ho Hurl Ht Htc Hl Hsu Hqu] Hc Hs Hfew. split; try done; cbn.
  - intros c' Hc'. apply lookup_delete_None. auto.
  - intros i o Hi. destruct (Hch i o Hi) as (c' & -> & Hc'). exists c'. split; [done|].
    rewrite lookup_delete_ne; [done|]. intros ->. by apply (Hc i).
  - intros c' x [_ Hx]%lookup_delete_Some. by eapply Hurl.
  - intros p y c' call Hp Hy. destruct (so_sub _ _ Hs p y c' call Hp Hy) as (i & _ & x0 & Hx0 & _).
    destruct (Hsu p y c' call (Hfew _ _ Hp) Hy) as (t & x & -> & Hx & Hr). exists t, x.
    apply lookup_delete_Some in Hx0 as [Hne _]. cbn. by rewrite lookup_delete_ne.
Qed.

Lemma node_ok_unfile l n i : node_ok l n → llm_task_ (n_unit n) !! i = None →
  node_ok l (let m := delete i (llm_task_channel_ n) in {| n with llm_task_channel_ := m |}).
Proof.
  intros [Hn Hs Hf Hch Ho Hurl Ht Htc Hl Hsu Hqu] Hi. split; try done; cbn.
  - intros j o [_ Hj]%lookup_delete_Some. eauto.
  - intros j k c [_ Hj]%lookup_delete_Some [_ Hk]%lookup_delete_Some. eauto.
  - intros j t Hj. destruct (Htc j t Hj) as [? [o Ho']]. split; [done|].
    rewrite lookup_delete_ne by congruence. by eexists.
  - rewrite map_size_delete. destruct (llm_task_channel_ n !! i); cbn; lia.
Qed.

Lemma wp_erase_channel l i n : node_ok l n → llm_task_ (n_unit n) !! i = None →
  wp (erase_channel i) (λ _ n', node_ok l n') n.
Proof.
  intros Hok Hi. unfold erase_channel. n_run. destruct (llm_task_channel_ n !! i) as [[c|]|] eqn:E; n_run;
    [|by apply node_ok_unfile..].
  destruct (nk_chan _ _ Hok i _ E) as (c' & [= <-] & x & Hx).
  eapply wpe_mono; [apply (wp_llm_channel_dtor c x n Hx), (sockets_live _ _ _ _ _ (nk_sock _ _ Hok) eq_refl Hx)| |done].
  intros [] n1 (k & m & -> & Hm). n_run.
  pose proof (node_ok_free l _ c (mkZ k m (z_next (n_zmq n))) (node_ok_unfile l n i Hok Hi)) as Hfree.
  unfold with_zmq in *. cbn in Hfree |- *. apply Hfree.
  - intros j [Hne Hj]%lookup_delete_Some. apply Hne. eapply (nk_chan_once _ _ Hok); eassumption.
  - by eapply sockets_ok_delete; [apply Hok|exact Hx| |exact Hm].
  - intros p y. cbn. rewrite Hm. by case_decide.
Qed.

Lemma wp_set_channel l i c x n : node_ok l n → n_channels n !! c = Some x →
  (∀ j, llm_task_channel_ n !! j ≠ Some (Some c)) →
  wp (set_channel i c) (λ _ n', node_ok (S l) n' ∧ n_unit n' = n_unit n ∧ out_zmq_url_ n' = out_zmq_url_ n ∧
    llm_task_channel_ n' !! i = Some (Some c) ∧ n_channels n' !! c = Some x) n.
Proof.
  intros Hok Hc Hnew. unfold set_channel. n_run.
  match goal with |- wpe _ _ _ ?v => set (n1 := v) end.
  assert (node_ok (S l) n1) as Hok1.
  { pose proof Hok as [Hn Hs Hf Hch Ho Hurl Ht Htc Hl Hsu Hqu]. split; try done; cbn.
    - intros j o [[<- <-]|[_ Hj]]%lookup_insert_Some; [|eauto]. exists c. split; [done|]. by exists x.
    - intros j k c' [[<- [= <-]]|[Hne1 Hj]]%lookup_insert_Some [[<- E]|[Hne2 Hk]]%lookup_insert_Some; [done|..].
      + by destruct (Hnew k).
      + injection E as ->. by destruct (Hnew j).
      + eauto.
    - intros j t Hj. destruct (Htc j t Hj) as [? [o Ho']]. split; [done|].
      destruct (decide (j = i)) as [->|]; [rewrite lookup_insert_eq; by eexists|]. rewrite lookup_insert_ne by done. by eexists.
    - rewrite map_size_insert. destruct (llm_task_channel_ n !! i); cbn; lia. }
  assert (llm_task_channel_ n1 !! i = Some (Some c)) as Hi1 by apply lookup_insert_eq.
  destruct (llm_task_channel_ n !! i) as [[c'|]|] eqn:E; n_run; [|done..].
  destruct (nk_chan _ _ Hok i _ E) as (? & [= <-] & x' & Hx').
  assert (c' ≠ c) as Hcc by (intros ->; by apply (Hnew i)).
  eapply wpe_mono; [apply (wp_llm_channel_dtor c' x' n1 Hx'), (sockets_live _ _ _ _ _ (nk_sock _ _ Hok1) eq_refl Hx')| |done].
  intros [] n2 (k & m & -> & Hm). split; [|split_and!; [done..|cbn; by rewrite lookup_delete_ne]].
  apply (node_ok_free (S l) n1 c' (mkZ k m (z_next (n_zmq n1))) Hok1).
  - intros j Hj. unfold n1 in Hj. cbn in Hj. apply lookup_insert_Some in Hj as [[<- [= ->]]|[Hne Hj]]; [done|]. apply Hne.
    symmetry. eapply (nk_chan_once _ _ Hok); eassumption.
  - by eapply sockets_ok_delete; [apply Hok1|exact Hx'| |exact Hm].
  - intros p z. cbn. rewrite Hm. by case_decide.
Qed.

(** The answers of the manager to a registration. *)
Definition manager_reply (d : bytes) : Prop := ∃ i o u, d = reply i o u ∧ 0 ≤ i ≤ INT_MAX ∧
  rpc_url_head_length ≤ zlen o ≤ 127 ∧ 1 ≤ zlen u < 2 ^ 30.

Lemma node_ok_new_chan l n c x z y k :
  node_ok l n → c = n_next n → zmq_ x = {[-1 := Some z; -2 := None]} → z_next (n_zmq n) = z → closable y →
  zmq_thread_ y = None → 1 ≤ zlen (inference_url_ x) →
  node_ok l (let zs := mkZ k (<[z := y]> (z_objs (n_zmq n))) (z + 1) in let cs := <[c := x]> (n_channels n) in
             {| n with n_zmq := zs; n_channels := cs; n_next := c + 1 |}).
Proof.
  intros [Hn Hs Hf Hch Ho Hurl Ht Htc Hl Hsu Hqu] -> Hx Hz Hy Hth Hu. split; try done; cbn.
  - eapply (sockets_ok_new _ _ _ _ x z y Hs); [apply Hf; lia|done|lia|done|cbn; lia|done|done].
  - intros c Hc. rewrite lookup_insert_ne; [apply Hf; cbn in Hc; lia|cbn in Hc; lia].
  - intros i o Hi. destruct (Hch i o Hi) as (c & -> & Hc). exists c. split; [done|].
    destruct (decide (c = n_next n)) as [->|]; [rewrite lookup_insert_eq; by eexists|by rewrite lookup_insert_ne].
  - intros c x' [[_ <-]|[_ Hx']]%lookup_insert_Some; [done|eauto].
  - intros p w c call [[_ <-]|[_ Hp]]%lookup_insert_Some Hw; [unfold listens in Hw; by rewrite Hth in Hw|].
    destruct (Hsu p w c call Hp Hw) as (t & x' & -> & Hx' & Hr). exists t, x'. cbn.
    rewrite lookup_insert_ne; [done|]. intros <-. by rewrite Hf in Hx'.
Qed.

Lemma wp_sys_register l n : node_ok l n → answered (str "register_unit") (str "llm") manager_reply →
  may_throw (sys_register_unit (str "llm")) (λ r n', 0 ≤ r ≤ INT_MAX ∧ node_ok (S l) n' ∧
    (∃ c q, llm_task_channel_ n' !! r = Some (Some c) ∧ owns (n_channels n') q c (-1)) ∧
    n_unit n' = n_unit n ∧ out_zmq_url_ n' = out_zmq_url_ n) n.
Proof.
  intros Hok Hans. unfold sys_register_unit. n_run.
  eapply wpe_mono; [apply (wp_register_call (str "llm") manager_reply (λ a, ∃ i o u, a = (to_string i, o, u) ∧
    0 ≤ i ≤ INT_MAX ∧ rpc_url_head_length ≤ zlen o ∧ 1 ≤ zlen u) n); [|done|]| |done].
  { by apply (so_fresh _ _ (nk_sock _ _ Hok)). }
  { intros d (i & o & u & -> & Hi & Ho & Hu). exists (to_string i, o, u). split; [exists i, o, u; naive_solver lia|].
    intros n1. apply register_reply_reads; [pose proof (zlen_to_string i Hi); lia|lia|lia]. }
  intros r n1 [Hr Hcalls]. destruct (node_ok_calls _ _ _ Hok Hcalls) as [Hok1 [Hu1 Ht1 Hz1 _ _]].
  destruct r as [a|]; cbn [default from_option id]; n_run.
  2: { unfold wpe, bind. by cbn. }
  destruct (Hr a eq_refl) as (i & o & u & -> & Hi & Ho & Hu). n_run.
  rewrite <-(app_nil_r (to_string i)). unfold wpe at 1. rewrite stoi_to_string by (unfold INT_MIN; lia || done). n_run.
  eapply wpe_mono; [apply (wp_llm_channel_ctor o u _ n1); unfold rpc_url_head_length in Ho; lia| |done].
  intros c n2 (x & y & k & Hc & Hpo & Hpi & Hz & Hy & Hth & ->).
  assert (closable y) as Hcl.
  { destruct Hy as (Hm & Hurl & _). exists ZMQ_PUB. split; [done|right]. by rewrite Hurl. }
  pose proof (node_ok_new_chan l n1 c x _ y k Hok1 Hc Hz eq_refl Hcl Hth ltac:(by rewrite Hpi)) as Hok2.
  n_run. eapply wpe_mono; [eapply (wp_set_channel l i c x _ Hok2); cbn; [apply lookup_insert_eq|]| |done].
  { intros j Hj. destruct (nk_chan _ _ Hok1 j _ Hj) as (c' & [= <-] & ? & Hx').
    rewrite (nk_cells _ _ Hok1) in Hx'; [done|lia]. }
  intros [] n3 (Hok3 & Hu3 & Hz3 & Hi3 & Hx3). n_run. split; [done|]. split; [done|].
  split; [eexists c, _; split; [done|]; exists x; by rewrite Hz|].
  split; [by rewrite Hu3|by rewrite Hz3].
Qed.

Lemma wp_sys_release l i work_id n : node_ok l n →
  (∀ j, (if bool_decide (work_id = []) then j = i else sample_get_work_id_num work_id n = Ret j n) →
     llm_task_ (n_unit n) !! j = None) →
  may_throw (sys_release_unit i work_id) (λ _ n', node_ok l n') n.
Proof.
  intros Hok Hnone. unfold sys_release_unit. n_step. n_step. n_step.
  apply (wpe_mono _ (λ '(_, j) n', n' = n ∧ llm_task_ (n_unit n) !! j = None) _ (λ _ _, True)); [|intros [wid j] n1 [-> Hj]|done].
  - case_bool_decide; n_run; [split; [done|by apply Hnone]|].
    apply wpe_quiet; [apply quiet_work_id_num|intros j Hj; n_run; split; [done|apply Hnone, Hj]|done].
  - n_run. eapply wpe_mono; [apply (wp_unit_call (str "sys") (str "release_unit") wid n); [|done]| |done].
    { by apply (so_fresh _ _ (nk_sock _ _ Hok)). }
    intros d n1 Hcalls. destruct (node_ok_calls _ _ _ Hok Hcalls) as [Hok1 [Hu1 Ht1 Hz1 _ _]].
    n_run. eapply wpe_mono; [apply (wp_erase_channel l j n1 Hok1); by rewrite Hu1| |done].
    intros [] n2 Hok2. by n_run.
Qed.

(** ** The overrides *)
Lemma node_ok_limit l l' n : node_ok l n → (base.size (llm_task_channel_ n) ≤ l')%nat → node_ok l' n.
Proof. intros [] Hl. by split. Qed.

(** Neither [llm_task_] nor a callback names the cell [t]. *)
Definition unfiled (t : ptr) n : Prop := (∀ i, llm_task_ (n_unit n) !! i ≠ Some t) ∧ unheard t n.

Lemma wp_new_task l n : node_ok l n →
  wp new_task_obj (λ t n', node_ok l n' ∧ llm_task_channel_ n' = llm_task_channel_ n ∧ n_channels n' = n_channels n ∧
    out_zmq_url_ n' = out_zmq_url_ n ∧ unfiled t n' ∧ t < l_next (n_unit n') ∧
    l_tasks (n_unit n') !! t = Some new_task) n.
Proof.
  intros Hok. pose proof (nk_unit _ _ Hok) as Hu.
  assert (∀ i, llm_task_ (n_unit n) !! i ≠ Some (l_next (n_unit n))) as Hf.
  { intros i Hi. destruct (tk_live _ Hu _ _ Hi) as (x & Hx & _). by rewrite (tk_cells _ Hu) in Hx. }
  assert (unheard (l_next (n_unit n)) n) as Hh.
  { intros p y c c' Hp Hy. destruct (nk_subs _ _ Hok p y _ _ Hp Hy) as (t & x & [= -> ->] & _ & _ & Hlt & _). lia. }
  unfold new_task_obj, wpe. cbn. split_and!; try done; [|lia|apply lookup_insert_eq].
  pose proof (tasks_ok_cell _ _ new_task Hu Hf (Z.le_refl _)) as Hu'. cbv zeta in Hu'.
  rewrite Z.max_r in Hu' by lia. apply (node_ok_unit l n _ Hok Hu').
  - intros i t. apply (nk_task _ _ Hok).
  - cbn. lia.
  - cbn. intros t k [[<- _]|[_ Hk]]%lookup_insert_Some; auto.
Qed.

(** A task that is not filed yet, changed. *)
Lemma node_ok_task l n t x : node_ok l n → unfiled t n → t < l_next (n_unit n) →
  node_ok l (let u := n_unit n in let m := <[t := x]> (l_tasks u) in {| n with n_unit := {| u with l_tasks := m |} |}).
Proof.
  intros Hok [Hf Hh] Ht. pose proof (tasks_ok_cell _ _ x (nk_unit _ _ Hok) Hf ltac:(lia)) as Hu.
  cbv zeta in Hu. rewrite Z.max_l in Hu by lia. apply (node_ok_unit l n _ Hok Hu).
  - intros i t'. apply (nk_task _ _ Hok).
  - cbn. lia.
  - cbn. intros t' k [[<- _]|[_ Hk]]%lookup_insert_Some; auto.
Qed.

(** Tasks that go, the others staying as they are. *)
Lemma fewer_tasks n (o : option ptr) t k :
  (match o with Some old => delete old (l_tasks (n_unit n)) | None => l_tasks (n_unit n) end) !! t = Some k →
  l_tasks (n_unit n) !! t = Some k ∨ unheard t n.
Proof. destruct o; [intros [_ Hk]%lookup_delete_Some|]; auto. Qed.

Lemma wp_set_task l i t x n : node_ok l n → (∀ i, llm_task_ (n_unit n) !! i ≠ Some t) →
  l_tasks (n_unit n) !! t = Some x →
  is_Some (t_enoutput_ x) → 0 ≤ i → is_Some (llm_task_channel_ n !! i) →
  wp (set_task i t) (λ _ n', node_ok l n' ∧ out_zmq_url_ n' = out_zmq_url_ n) n.
Proof.
  intros Hok Hf Hx Hs Hi Hc. pose proof (tasks_ok_set _ i t x (nk_unit _ _ Hok) Hf Hx Hs) as Hu.
  assert (∀ j t', <[i := t]> (llm_task_ (n_unit n)) !! j = Some t' → 0 ≤ j ∧ is_Some (llm_task_channel_ n !! j)) as Ht.
  { intros j t' [[<- _]|[_ Hj]]%lookup_insert_Some; [done|]. by eapply (nk_task _ _ Hok). }
  pose proof (node_ok_unit l n _ Hok Hu Ht (Z.le_refl _) (fewer_tasks n (llm_task_ (n_unit n) !! i))) as Hok'.
  unfold set_task, get_llm, upd_llm, upd_unit_data, free_task, upd_llm, upd_unit_data. n_run.
  destruct (llm_task_ (n_unit n) !! i) as [old|]; n_run; by split; [exact Hok'|].
Qed.

Lemma wp_erase_task_ok l i n : node_ok l n →
  wp (erase_task i) (λ _ n', node_ok l n' ∧ llm_task_channel_ n' = llm_task_channel_ n ∧
    out_zmq_url_ n' = out_zmq_url_ n ∧ llm_task_ (n_unit n') = delete i (llm_task_ (n_unit n))) n.
Proof.
  intros Hok. pose proof (tasks_ok_erase _ i (nk_unit _ _ Hok)) as Hu.
  assert (∀ j t', delete i (llm_task_ (n_unit n)) !! j = Some t' → 0 ≤ j ∧ is_Some (llm_task_channel_ n !! j)) as Ht.
  { intros j t' [_ Hj]%lookup_delete_Some. by eapply (nk_task _ _ Hok). }
  pose proof (node_ok_unit l n _ Hok Hu Ht (Z.le_refl _) (fewer_tasks n (llm_task_ (n_unit n) !! i))) as Hok'.
  unfold erase_task, get_llm, upd_llm, upd_unit_data, free_task, upd_llm, upd_unit_data. n_run.
  destruct (llm_task_ (n_unit n) !! i) as [old|]; n_run; by split; [exact Hok'|].
Qed.

Lemma wp_on_task l t x (m : M llm_task Z) n Q : node_ok l n → unfiled t n → t < l_next (n_unit n) →
  l_tasks (n_unit n) !! t = Some x → wp m Q x →
  wp (on_task t m) (λ r n', node_ok l n' ∧ llm_task_channel_ n' = llm_task_channel_ n ∧
    n_channels n' = n_channels n ∧ out_zmq_url_ n' = out_zmq_url_ n ∧ unfiled t n' ∧ t < l_next (n_unit n') ∧
    ∃ x', l_tasks (n_unit n') !! t = Some x' ∧ Q r x') n.
Proof.
  intros Hok Hf Ht Hx Hm. unfold on_task, lock_task. n_run. apply wpe_zoom.
  eapply wpe_mono; [exact Hm| |done]. intros r x' HQ.
  split_and!; try done; [by apply node_ok_task|]. exists x'. split; [apply lookup_insert_eq|done].
Qed.

Lemma wp_subscribe_own l c x call n : node_ok l n → n_channels n !! c = Some x → heard n c call →
  wp (subscriber_work_id c [] call) (λ _ n', node_ok l n' ∧ n_unit n' = n_unit n ∧
    llm_task_channel_ n' = llm_task_channel_ n ∧ out_zmq_url_ n' = out_zmq_url_ n) n.
Proof.
  intros Hok Hc Hh. unfold subscriber_work_id. change (work_id_match []) with (@None bytes). cbv iota zeta. n_step. n_step.
  exists x. split; [done|]. n_step. set (Q := λ n', node_ok l n' ∧ n_unit n' = n_unit n ∧
    llm_task_channel_ n' = llm_task_channel_ n ∧ out_zmq_url_ n' = out_zmq_url_ n).
  eapply wpe_mono; [eapply (wp_open c 0 x (inference_url_ x) ZMQ_SUB _ n (λ _, Q) (λ _ _, False));
    [apply Hok|exact Hc|exact (nk_url _ _ Hok c x Hc)|by right; split_and!; [..|by eexists]|]| |done].
  - set (x' := with_sockets _ x). assert (ready x → ready x') as Hr.
    { intros (? & ? & q & Hq). split_and!; [done..|]. exists q. cbn. by rewrite lookup_insert_ne. }
    intros s' Hs' Hnew _ _. split; [|done].
    eapply node_ok_chan; [done|exact Hc|done|exact Hs'|]. intros p y c' call' Hp Hy.
    destruct (Hnew p y Hp) as [Hp'|Hth]; [by left|right].
    unfold listens in Hy. rewrite Hth in Hy. injection Hy as <- <-.
    destruct Hh as (t & x0 & -> & Hx0 & Hrx & Hlt & Hk). exists t, x'. simplify_eq. cbn.
    rewrite lookup_insert_eq. by auto 10.
  - intros p n1 Hp. n_step. eapply wpe_mono; [exact Hp| |done]. intros [] n2 HQ. by n_run.
Qed.

(** What the set-up does to its channel and its task, up to the subscription. *)
Lemma wp_attach {A} l t k b c y n (rest : M (node K llm_llm llm_call) A) Q (E : exn → node K llm_llm llm_call → Prop) :
  node_ok l n → unfiled t n → t < l_next (n_unit n) → l_tasks (n_unit n) !! t = Some k → t_enstream_ k = Some b →
  n_channels n !! c = Some y → (∃ q, zmq_ y !! (-1) = Some (Some q)) →
  (∀ n' k', node_ok l n' → llm_task_channel_ n' = llm_task_channel_ n → out_zmq_url_ n' = out_zmq_url_ n →
     llm_task_ (n_unit n') = llm_task_ (n_unit n) → l_tasks (n_unit n') !! t = Some k' → t_enoutput_ k' = t_enoutput_ k →
     wpe rest Q E n') →
  wpe (set_output c true ;;;
       let* o := lock_task t in
       let* x := deref o in
       let* enstream := deref (t_enstream_ x) in
       set_stream c enstream ;;;
       upd_task t (λ x, {| x with out_callback_ := Some (t, c) |}) ;;;
       subscriber_work_id c [] (Task_user_data t c) ;;; rest) Q E n.
Proof.
  intros Hok Hf Ht Hk Hb Hy Hpub HQ. unfold set_output. n_step.
  eapply wpe_mono; [apply (wp_upd_chan l c y _ n Hok Hy); by repeat split| |done].
  intros [] n3 (Hok3 & Hk3 & Hy3 & Hz3). n_run. unfold lock_task. n_run.
  rewrite (ke_unit _ _ Hk3). exists k. split; [done|]. n_run. exists b. split; [done|]. n_run. unfold set_stream.
  eapply wpe_mono; [apply (wp_upd_chan l c _ _ n3 Hok3 Hy3); by repeat split| |done].
  intros [] n4 (Hok4 & Hk4 & Hy4 & Hz4). pose proof (keeps_trans _ _ _ Hk3 Hk4) as [Hu4 Hch4 Hout4 _ _].
  unfold upd_task, lock_task, upd_llm, upd_unit_data. n_run. exists k. split; [by rewrite Hu4|]. n_run.
  match goal with |- wpe _ _ _ ?w => set (n5 := w) end.
  assert (node_ok l n5) as Hok5.
  { apply node_ok_task; [done| |by rewrite Hu4]. unfold unfiled, unheard. by rewrite Hu4, Hz4, Hz3. }
  eapply wpe_mono; [apply (wp_subscribe_own l c _ (Task_user_data t c) n5 Hok5 Hy4)| |done].
  { eexists t, _. unfold n5. cbn. rewrite Hu4. split_and!; [done|exact Hy4|by repeat split|done|].
    intros k'. rewrite lookup_insert_eq. by intros [= <-]. }
  intros v6 n6 (Hok6 & Hu6 & Hch6 & Hout6).
  eapply (HQ n6 _ Hok6); [by rewrite Hch6|by rewrite Hout6|by rewrite Hu6; unfold n5; cbn; rewrite Hu4|
    rewrite Hu6; unfold n5; cbn; apply lookup_insert_eq|done].
Qed.

Lemma wp_llm_setup r c q object data n : node_ok 4 n → 0 ≤ r ≤ INT_MAX →
  llm_task_channel_ n !! r = Some (Some c) → owns (n_channels n) q c (-1) → 1 ≤ zlen (out_zmq_url_ n) →
  may_throw (LlmNode.setup (str "llm" ++ str "." ++ to_string r) object data) (λ v n', v = 0 ∧ node_ok 3 n') n.
Proof.
  intros Hok Hr Ho (y & Hy & Hq) Hout.
  unfold LlmNode.setup. n_run. unfold get_llm at 1. n_run.
  pose proof (nk_limit _ _ Hok) as Hl4. rewrite (tk_count _ (nk_unit _ _ Hok)). change (u64 3) with 3.
  assert (base.size (llm_task_channel_ n) ≠ 0%nat) as Hpos.
  { intros E%map_size_empty_iff. by rewrite E in Ho. }
  rewrite u64_small by lia. destruct (Z.eqb_spec (Z.of_nat (base.size (llm_task_channel_ n)) - 1) 3) as [|Hfull]; [done|].
  assert (node_ok 3 n) as Hok3 by (apply (node_ok_limit 4); [done|lia]). clear Hok.
  assert (sample_get_work_id_num (str "llm" ++ str "." ++ to_string r) n = Ret r n) as Hwid.
  { apply work_id_num_print; [apply (bool_decide_unpack _); reflexivity|unfold INT_MIN; lia]. }
  n_step. eapply wpe_Ret_eq; [exact Hwid|]. n_step. unfold get_channel_named. n_step.
  eapply wpe_Ret_eq; [exact Hwid|]. unfold get_channel. n_run. rewrite Ho. n_run.
  eapply wpe_mono; [exact (wp_new_task 3 n Hok3)| |done].
  intros t n1 (Hok1 & Hch1 & Hcs1 & Hout1 & Hf1 & Ht1 & Hx1). n_run. unfold parse.
  destruct (parse_text data) as [j|]; n_run; [|done].
  eapply wpe_mono; [exact (wp_on_task 3 t _ _ n1 _ Hok1 Hf1 Ht1 Hx1 (wp_load_model j))| |done].
  intros v n2 (Hok2 & Hch2 & Hcs2 & Hout2 & Hf2 & Ht2 & x & Hx2 & Hv). n_run.
  destruct (Z.eqb_spec v 0) as [Hv0|]; [|done]. destruct (Hv Hv0) as [Hen [b Hst]]. clear Hv. n_step.
  eapply (wp_attach 3 t x b c y n2); [done..|by rewrite Hcs2, Hcs1|by exists q|].
  intros n6 k6 Hok6 Hch6 Hout6 Hl6 Hx6 Hen6. n_run.
  eapply wpe_mono; [eapply (wp_set_task 3 r t k6 n6 Hok6)|..].
  { intros i. rewrite Hl6. apply Hf2. }
  { done. }
  { by rewrite Hen6. }
  { lia. }
  { rewrite Hch6, Hch2, Hch1, Ho. by eexists. }
  2: done.
  intros [] n7 (Hok7 & Hout7). n_run. eapply wpe_mono; [apply (wp_send_reply 3); [exact Hok7|]| |done].
  { by rewrite Hout7, Hout6, Hout2, Hout1. }
  intros ? n8 [Hok8 _]. by n_run.
Qed.

Lemma wp_llm_exit l work_id object data n : node_ok l n → 1 ≤ zlen (out_zmq_url_ n) →
  may_throw (LlmNode.exit work_id object data) (λ v n', v = 0 ∧ node_ok l n' ∧
    ∀ j, (if bool_decide (work_id = []) then j = -1 else sample_get_work_id_num work_id n' = Ret j n') →
      llm_task_ (n_unit n') !! j = None) n.
Proof.
  intros Hok Hout. unfold LlmNode.exit. n_step. apply wpe_quiet; [apply quiet_work_id_num|intros i Hi|done].
  unfold get_llm. n_run. destruct (llm_task_ (n_unit n) !! i) as [t|] eqn:Et; [|done].
  destruct (nk_task _ _ Hok i t Et) as [_ [o Ho]]. destruct (nk_chan _ _ Hok i o Ho) as (c & -> & x & Hx).
  unfold get_channel. n_run. rewrite Ho. n_run.
  eapply wpe_mono; [exact (wp_stop_all c x n (nk_sock _ _ Hok) Hx)| |done].
  intros [] n1 (s1 & x1 & Hz1 & Hu1 & -> & Hs1 & Hfew). n_run.
  assert (node_ok l (with_chan c x1 (with_zmq s1 n))) as Hok1.
  { apply (node_ok_chan l n c x x1 s1 Hok Hx Hu1 Hs1). intros p y c' call Hp Hy. left. split; [by apply Hfew|].
    intros -> _. destruct (so_sub _ _ Hs1 p y c call Hp Hy) as (j & _ & x' & Hx' & Hj). cbn in Hx'.
    rewrite lookup_insert_eq in Hx'. injection Hx' as <-. by rewrite Hz1 in Hj. }
  eapply wpe_mono; [exact (wp_erase_task_ok l i _ Hok1)| |done].
  intros [] n2 (Hok2 & _ & Hout2 & Hl2). n_run.
  eapply wpe_mono; [apply (wp_send_reply l _ _ _ _ n2 Hok2); by rewrite Hout2| |done].
  intros v n3 [Hok3 [Hu3 _ _ _ _]]. n_run. split; [done|]. split; [done|]. intros j Hj.
  case_bool_decide as Hw.
  - destruct (llm_task_ (n_unit n3) !! j) as [t'|] eqn:E; [|done]. apply (nk_task _ _ Hok3) in E as [E _]. lia.
  - rewrite Hi in Hj. injection Hj as ->. rewrite Hu3, Hl2. apply lookup_delete_eq.
Qed.

Lemma wp_task_list ls n : Forall (λ o, ∃ c, o = Some c ∧ is_Some (n_channels n !! c)) ls →
  wp (task_list ls) (λ _ n', n' = n) n.
Proof.
  induction 1 as [|o ls (c & -> & x & Hx) _ IH]; cbn [task_list]; n_run; [done|].
  eapply wpe_mono; [exact IH| |done]. intros r n' ->. by n_run.
Qed.

Lemma wp_llm_taskinfo l work_id object data n : node_ok l n → 1 ≤ zlen (out_zmq_url_ n) →
  may_throw (LlmNode.taskinfo work_id object data) (λ _ n', node_ok l n') n.
Proof.
  intros Hok Hout. unfold LlmNode.taskinfo. n_step. apply wpe_quiet; [apply quiet_work_id_num|intros i Hi|done].
  destruct (Z.eqb_spec WORK_ID_NONE i) as [_|_].
  - n_run. eapply wpe_mono; [apply (wp_task_list _ n)| |done].
    + apply Forall_forall. intros o ([j o'] & -> & Hj)%list_elem_of_fmap.
      rewrite (um_iter_perm (llm_task_channel_ n)) in Hj. apply elem_of_map_to_list in Hj.
      by apply (nk_chan _ _ Hok j).
    + intros ls ? ->. n_run. eapply wpe_mono; [by apply (wp_send_reply l)| |done]. intros v n1 [Hok1 _]. by n_run.
  - unfold get_llm. n_run. destruct (llm_task_ (n_unit n) !! i) as [t|] eqn:Et; [|done].
    destruct (tk_live _ (nk_unit _ _ Hok) _ _ Et) as (x & Hx & b & Hb). unfold lock_task. n_run.
    unfold set_field. n_run. rewrite Hb. n_run.
    eapply wpe_mono; [by apply (wp_send_reply l)| |done]. intros v n1 [Hok1 _]. by n_run.
Qed.

(** ** Events *)
Section Events.
Context (Hans : answered (str "register_unit") (str "llm") manager_reply).

Lemma wp_setup zmq_url raw n : node_ok 3 n → 1 ≤ zlen zmq_url → 1 ≤ zlen (out_zmq_url_ n) →
  may_throw (StackFlow.setup zmq_url raw) (λ _ n', node_ok 3 n') n.
Proof.
  intros Hok Hurl Hout. unfold StackFlow.setup. n_run. rewrite (nk_name _ _ Hok).
  eapply wpe_mono; [exact (wp_sys_register 3 n Hok Hans)| |done].
  intros r n1 (Hr & Hok1 & (c & q & Hc & Hq) & Hu1 & Hz1). unfold get_channel. n_run. rewrite Hc. n_run.
  destruct (nk_chan _ _ Hok1 r _ Hc) as (? & [= <-] & x & Hx).
  eapply wpe_mono; [exact (wp_set_push_url 4 c x zmq_url n1 Hok1 Hx Hurl)| |done].
  intros [] n2 (Hok2 & [Hu2 Hc2 Hz2 Hq2 _] & y & Hy). n_step.
  apply wpe_quiet; [apply quiet_json_get|intros v _|done]. n_step.
  eapply wpe_mono; [apply (wp_upd_chan 4 c y _ n2 Hok2 Hy); by repeat split| |done].
  intros [] n3 (Hok3 & [Hu3 Hc3 Hz3 Hq3 _] & _). n_step. apply wpe_quiet; [apply quiet_json_get|intros obj _|done]. n_step.
  apply wpe_quiet; [apply quiet_json_get|intros data _|done]. n_step.
  eapply wpe_mono; [apply (wp_llm_setup r c q obj data n3 Hok3 Hr); [by rewrite Hc3, Hc2|by auto|by rewrite Hz3, Hz2, Hz1]| |done].
  intros v4 n4 [-> Hok4]. change (negb (0 =? 0)) with false. by n_run.
Qed.

Lemma wp_exit zmq_url raw n : node_ok 3 n → 1 ≤ zlen zmq_url → 1 ≤ zlen (out_zmq_url_ n) →
  may_throw (StackFlow.exit zmq_url raw) (λ _ n', node_ok 3 n') n.
Proof.
  intros Hok Hurl Hout. unfold StackFlow.exit, with_fields. n_step.
  apply wpe_quiet; [apply quiet_json_get|intros w _|done]. n_step.
  eapply wpe_mono; [exact (wp_try_push_url 3 w zmq_url n Hok Hurl)| |done].
  intros [] n1 [Hok1 [_ _ Hz1 _ _]]. n_step. n_step. apply wpe_quiet; [apply quiet_json_get|intros obj _|done]. n_step.
  apply wpe_quiet; [apply quiet_json_get|intros data _|done].
  eapply wpe_mono; [apply (wp_llm_exit 3 w obj data n1 Hok1); by rewrite Hz1| |done].
  intros v n2 (-> & Hok2 & Hnone). change (0 =? 0) with true. cbv iota. n_step.
  eapply wpe_mono; [exact (wp_sys_release 3 (-1) w n2 Hok2 Hnone)| |done]. intros b n3 Hok3. by n_run.
Qed.

Lemma wp_taskinfo zmq_url raw n : node_ok 3 n → 1 ≤ zlen zmq_url → 1 ≤ zlen (out_zmq_url_ n) →
  may_throw (StackFlow.taskinfo zmq_url raw) (λ _ n', node_ok 3 n') n.
Proof.
  intros Hok Hurl Hout. unfold StackFlow.taskinfo, with_fields. n_step.
  apply wpe_quiet; [apply quiet_json_get|intros w _|done]. n_step.
  eapply wpe_mono; [exact (wp_try_push_url 3 w zmq_url n Hok Hurl)| |done].
  intros [] n1 [Hok1 [_ _ Hz1 _ _]]. n_step. apply wpe_quiet; [apply quiet_json_get|intros obj _|done]. n_step.
  apply wpe_quiet; [apply quiet_json_get|intros data _|done].
  apply (wp_llm_taskinfo 3 w obj data n1 Hok1). by rewrite Hz1.
Qed.

Lemma wp_pause zmq_url raw n : node_ok 3 n → 1 ≤ zlen zmq_url →
  may_throw (StackFlow.pause zmq_url raw) (λ _ n', node_ok 3 n') n.
Proof.
  intros Hok Hurl. unfold StackFlow.pause, with_fields. n_step.
  apply wpe_quiet; [apply quiet_json_get|intros w _|done]. n_step.
  eapply wpe_mono; [exact (wp_try_push_url 3 w zmq_url n Hok Hurl)| |done].
  intros [] n1 _. n_step. apply wpe_quiet; [apply quiet_json_get|intros obj _|done]. n_step.
  by apply wpe_quiet; [apply quiet_json_get|intros data _|done].
Qed.

Lemma wp_listener i handle d n : node_ok 3 n → i = 0 ∨ i = 1 →
  (∃ url raw, d = mkData (set_param url raw) ∧ 1 ≤ zlen url ≤ 127 ∧ zlen raw < 2 ^ 30) →
  (∀ url data n1, node_ok 3 n1 → 1 ≤ zlen url → 1 ≤ zlen (out_zmq_url_ n1) →
     may_throw (handle url data) (λ _ n', node_ok 3 n') n1) →
  may_throw (listener i handle (Some d)) (λ _ n', node_ok 3 n') n.
Proof.
  intros Hok Hi (url & raw & -> & Hurl & Hraw) Hh. unfold listener. n_run.
  destruct (get_param_both (mkData (set_param url raw)) [] url raw n) as [H0' H1'];
    [by left|rewrite zlen_app; lia|lia|]. eapply wpe_Ret_eq; [exact H0'|]. n_step.
  apply (wpe_mono _ (λ _ n', n' = n) _ (λ _ _, False)); [|intros data ? ->|done].
  { destruct Hi as [-> | ->]; eapply wpe_Ret_eq; done. }
  n_step. apply wpe_quiet; [apply quiet_json_get|intros r _|done]. n_run.
  destruct (negb _); [|by destruct Hok]. apply Hh; [by destruct Hok|lia|cbn; lia].
Qed.

Lemma wp_dispatch e n : node_ok 3 n → event_ok e → may_throw (dispatch e) (λ _ n', node_ok 3 n') n.
Proof.
  intros Hok He. destruct e as [[| | | |] [d|]]; try done.
  - apply wp_listener; [done|by right|done|]. intros url data n1 Hok1 Hu Ho. n_step.
    eapply wpe_mono; [by apply wp_setup| |done]. intros v n2 Hok2. by n_run.
  - apply wp_listener; [done|by right|done|]. intros url data n1 Hok1 Hu Ho. n_step.
    eapply wpe_mono; [by apply wp_exit| |done]. intros v n2 Hok2. by n_run.
  - apply wp_listener; [done|by left|done|]. intros url data n1 Hok1 Hu _. by apply wp_pause.
  - apply wp_listener; [done|by right|done|]. intros url data n1 Hok1 Hu Ho. by apply wp_taskinfo.
Qed.

(** A turn of the event loop. *)
Lemma wp_process n : node_ok 3 n → may_throw process (λ _ n', node_ok 3 n') n.
Proof.
  intros Hok. pose proof (nk_queue _ _ Hok) as Hq. unfold process. n_run.
  assert (node_ok 3 {| n with event_queue_ := [] |}) as Hok' by (by destruct Hok).
  generalize dependent (event_queue_ n). intros q Hq. revert Hok'.
  match goal with |- node_ok 3 ?w → _ => generalize w end.
  induction Hq as [|e q He _ IH]; intros n1 Hok1; cbn [forM]; n_run; [done|].
  eapply wpe_mono; [by apply wp_dispatch| |done]. intros [] n2. apply IH.
Qed.
End Events.
End Invariant.

End LlmEvents.
