(* ===== verification/LlmRun.v ===== *)
(** * The LLM node: every state it reaches is well formed *)

From S2P Require Import Prelude.
From S2P Require Import CStdlib.
From S2P Require Import PzmqData.
From S2P Require Import StackFlowUtil.
From S2P Require Import Json.
From S2P Require Import Pzmq.
From S2P Require Import UnitCall.
From S2P Require Import Node.
From S2P Require Import LlmChannel.
From S2P Require Import StackFlow.
From S2P Require Import Registration.
From S2P Require Import LlmNode.
From S2P Require Import LlmLife.
From S2P Require Import LlmEvents.
Import PzmqData StackFlowUtil Json Pzmq UnitCall Node LlmChannel StackFlow LlmNode LlmLife Registration LlmEvents.

Module LlmRun.
(** ** The fuel of [find_action] is enough *)
Lemma find_length p s n : find p s = Some n → (n ≤ length s)%nat.
Proof.
  revert n. induction s as [|c s IH]; intros n; cbn [find]; destruct (prefixb _ _); try by intros [= <-]; cbn; lia.
  intros (m & Hm & ->)%fmap_Some. apply IH in Hm. cbn. lia.
Qed.
Lemma find_from_range p s pos n : find_from p s pos = Some n → (pos ≤ n ≤ length s)%nat.
Proof.
  unfold find_from. destruct (Nat.ltb_spec (length s) pos); [done|].
  intros (m & Hm%find_length & ->)%fmap_Some. rewrite length_drop in Hm. lia.
Qed.
Lemma find_action_ret {S} fuel raw pos :
  (∀ p, pos = Some p → p ≤ length raw ∧ length raw - p < fuel)%nat →
  ∃ r, ∀ s : S, find_action fuel raw pos s = Ret r s.
Proof.
  revert pos. induction fuel as [|fuel IH]; intros [p|] Hp; try (by eexists); destruct (Hp p eq_refl) as [Hle Hlt]; [lia|].
  cbn [find_action]. destruct (_ && _); [by eexists|]. apply IH. intros q Hq%find_from_range. lia.
Qed.

Section Messages.
Context `{Zmq K, Attempts, !ZmqHealthy K, Hashing, !Clock K, JsonLib}.
Implicit Types n : node K llm_llm llm_call.

(** The node is well formed and the subscriber [p] is still [y]. *)
Record serves (p : ptr) (y : pzmq rpc_action (node_callback llm_call)) n : Prop := {
  sv_ok : node_ok 3 n;
  sv_sub : z_objs (n_zmq n) !! p = Some y;
}.

Lemma serves_keeps p y c call n n' : serves p y n → listens y c call → node_ok 3 n' → keeps n n' → serves p y n'.
Proof. intros [Hok Hp] Hy Hok' Hk. split; [done|]. by eapply (ke_subs _ _ Hk). Qed.
Lemma serves_heard p y c call n : serves p y n → listens y c call → heard n c call.
Proof. intros [Hok Hp] Hy. by eapply (nk_subs _ _ Hok). Qed.

(** A change of the unit's counter or buffer. *)
Lemma serves_unit p y n u : serves p y n → task_count_ u = task_count_ (n_unit n) → llm_task_ u = llm_task_ (n_unit n) →
  l_tasks u = l_tasks (n_unit n) → l_next u = l_next (n_unit n) →
  serves p y (let m := u in {| n with n_unit := m |}).
Proof.
  intros [Hok Hp] Hc Ht Hl Hn. split; [|done]. destruct (nk_unit _ _ Hok) as [Hcount Hcells Hlive Honce].
  apply node_ok_unit; [done|split|..]; rewrite ?Hc, ?Ht, ?Hl, ?Hn; try done.
  - apply (nk_task _ _ Hok).
  - auto.
Qed.

(** [zmq_[i]] read, for a channel that is alive. *)
Lemma wp_zmq_at l c x i n : node_ok l n → n_channels n !! c = Some x →
  wp (zmq_at c i) (λ o n', o = default None (zmq_ x !! i) ∧ node_ok l n' ∧ keeps n n' ∧
    ∃ x', n_channels n' !! c = Some x' ∧ ∀ q, o = Some q → zmq_ x' !! i = Some (Some q)) n.
Proof.
  intros Hok Hc. unfold zmq_at. n_run. destruct (zmq_ x !! i) as [o|] eqn:Hi; n_run; [split_and!; try done; exists x; naive_solver|].
  set (x' := _ : llm_channel_obj).
  assert (∀ q c' j, owns (<[c := x']> (n_channels n)) q c' j ↔ owns (n_channels n) q c' j) as Hown.
  { intros q c' j. unfold owns. split; intros (z & Hz & Hj).
    - apply lookup_insert_Some in Hz as [[<- <-]|[_ Hz]]; [|by exists z]. exists x. split; [done|].
      unfold x' in Hj. cbn in Hj. apply lookup_insert_Some in Hj as [[_ Hj]|[_ Hj]]; [discriminate Hj|done].
    - destruct (decide (c' = c)) as [->|]; [|exists z; by rewrite lookup_insert_ne]. exists x'.
      rewrite lookup_insert_eq. split; [done|]. cbn. rewrite lookup_insert_ne; congruence. }
  split; [done|]. split; [|split; [split; try done|]].
  - replace (_ : node K llm_llm llm_call) with (with_chan c x' (with_zmq (n_zmq n) n)) by done.
    apply (node_ok_chan _ _ _ x); [done..| |].
    + apply (sockets_ok_keep _ _ _ _ (nk_sock _ _ Hok)); [intros q c' j Hq; by apply Hown in Hq| |apply Hok].
      intros q z Hq. split; [done|]. intros c' j Hq'. by apply Hown.
    + intros q z c' call Hq _. left. split; [done|]. intros _ (? & ? & r & Hr). split_and!; [done..|]. exists r. cbn.
      rewrite lookup_insert_ne; [done|]. intros ->. congruence.
  - intros q c' j _ Hq. by apply Hown.
  - cbn. rewrite lookup_insert_eq. by eexists.
Qed.

(** [decode_stream] ends, and changes nothing but the pieces. *)
Lemma append_chunks_ends k i st : wpe (append_chunks k i) (λ _ _, True) (λ _ _, True) st.
Proof.
  revert i st. induction k as [|k IH]; intros i st; cbn [append_chunks]; wp_simp; [done|].
  destruct (stream_buff st !! i); cbn [at_]; wp_simp; [apply IH|done].
Qed.
Lemma decode_stream_ends in_ st : wpe (decode_stream in_) (λ _ _, True) (λ _ _, True) st.
Proof.
  unfold decode_stream. wp_simp. apply wpe_quiet; [apply quiet_json_get|intros i _|done]. wp_simp.
  apply wpe_quiet; [apply quiet_stoi|intros idx _|done]. wp_simp.
  apply wpe_quiet; [apply quiet_json_get|intros f _|done]. wp_simp.
  apply wpe_quiet; [apply quiet_json_get|intros d _|done]. wp_simp.
  destruct (contains _ _); wp_simp; [done|].
  eapply wpe_mono; [apply append_chunks_ends| |done]. intros [] st' _. by wp_simp.
Qed.

(** ** Sending a task's output *)
Lemma wp_raw_send l c x raw i q n : node_ok l n → n_channels n !! c = Some x → zmq_ x !! i = Some (Some q) →
  wp (zq (Pzmq.send_data q raw)) (λ _ n', node_ok l n' ∧ keeps n n' ∧ n_channels n' !! c = Some x) n.
Proof.
  intros Hok Hc Hi. destruct (so_live _ _ (nk_sock _ _ Hok) q c i) as (y & Hy & _); [by exists x|].
  unfold Pzmq.send_data. n_run. match goal with |- node_ok l ?w ∧ _ => destruct (node_ok_calls l n w Hok) end; [|done].
  eexists _, (z_next (n_zmq n)). split; [done|]. by destruct n as [[] ? ? ? ? ? ? ? ? ? ? ? ?].
Qed.

Lemma wp_channel_send l c x object data error_msg work_id n :
  node_ok l n → n_channels n !! c = Some x → ready x →
  may_throw (LlmChannel.send c object data error_msg work_id) (λ _ n', node_ok l n' ∧ keeps n n') n.
Proof.
  intros Hok Hc ([eo Heo] & _ & q & Hq). unfold LlmChannel.send. n_run.
  match goal with |- wpe (reply_body ?r ?w ?t ?o ?d ?e) _ _ ?v =>
    destruct (reply_body_ret r w t o d e) as [b Hb]; set (n1 := v) end.
  assert (node_ok l n1 ∧ keeps n n1) as [Hok1 Hk1].
  { apply node_ok_calls; [done|]. by eexists _, (z_next (n_zmq n)). }
  unfold wpe at 1. rewrite Hb. unfold dump. destruct (dump_text b) as [t|]; n_run; [|done].
  assert (n_channels n1 !! c = Some x) as Hc1 by done. clearbody n1.
  unfold send_raw_to_pub, zmq_at. n_run. rewrite Hq. do 3 n_step. exists q. split; [done|].
  eapply wpe_mono; [exact (wp_raw_send l c x _ (-1) q n1 Hok1 Hc1 Hq)| |done].
  intros _ n2 (Hok2 & Hk2 & Hc2). pose proof (keeps_trans _ _ _ Hk1 Hk2) as Hk02. unfold get_output. n_run. rewrite Heo.
  n_run. destruct eo; n_run; [|done]. unfold send_raw_to_usr. n_step.
  eapply wpe_mono; [exact (wp_zmq_at l c x (-2) n2 Hok2 Hc2)| |done].
  intros [p|] n3 (_ & Hok3 & Hk3 & x3 & Hx3 & Hp); pose proof (keeps_trans _ _ _ Hk02 Hk3); [|by n_run].
  eapply wpe_mono; [exact (wp_raw_send l c x3 _ (-2) p n3 Hok3 Hx3 (Hp p eq_refl))| |done].
  intros _ n4 (Hok4 & Hk4 & _). split; [done|]. by eapply keeps_trans.
Qed.

(** ** A user's message

    The subscriber [p] is [y], whose callback holds the task [t] and the channel
    [c]. *)
Section Message.
Context (p : ptr) (y : pzmq rpc_action (node_callback llm_call)) (t c : ptr).
Context (Hy : listens y c (Task_user_data t c)).

Lemma serves_send x object data error_msg work_id n : serves p y n → n_channels n !! c = Some x →
  may_throw (LlmChannel.send c object data error_msg work_id) (λ _ n', serves p y n') n.
Proof.
  intros Hs Hx. destruct (serves_heard p y c _ n Hs Hy) as (t' & x' & _ & Hx' & Hr & _). rewrite Hx in Hx'. injection Hx' as <-.
  eapply wpe_mono; [apply (wp_channel_send 3 c x _ _ _ _ n (sv_ok _ _ _ Hs) Hx Hr)| |done].
  intros r n' [Hok' Hk]. by eapply serves_keeps.
Qed.

Lemma wp_task_output data finish n : serves p y n →
  may_throw (task_output t c data finish) (λ _ n', serves p y n') n.
Proof.
  intros Hs. unfold task_output, lock_task, lock_chan. n_run.
  destruct (l_tasks (n_unit n) !! t) as [k|] eqn:Hk; n_run; [|done].
  destruct (n_channels n !! c) as [x|] eqn:Hx; n_run; [|done].
  destruct (serves_heard p y c _ n Hs Hy) as (t' & x' & _ & Hx' & (_ & [b Hb] & _) & _). rewrite Hx in Hx'. injection Hx' as <-.
  rewrite Hb. n_run. destruct b.
  - unfold get_llm, upd_llm, upd_unit_data, set_field. n_run.
    match goal with |- context [wpe _ _ _ ?w] => assert (serves p y w) as Hs1 by by apply serves_unit end.
    destruct finish; n_run.
    + eapply wpe_mono; [eapply (serves_send x); [|exact Hx]| |done]; [by apply (serves_unit p y _ _ Hs1)|]. intros r n' Hs'. by n_run.
    + eapply wpe_mono; [by eapply (serves_send x _ _ _ _ _ Hs1)| |done]. intros r n' Hs'. by n_run.
  - destruct finish; n_run; [|done].
    eapply wpe_mono; [by eapply (serves_send x)| |done]. intros r n' Hs'. by n_run.
Qed.

Lemma wp_inference k msg n : serves p y n → l_tasks (n_unit n) !! t = Some k →
  may_throw (inference t msg) (λ _ n', serves p y n') n.
Proof.
  intros Hs Hk. unfold inference, lock_task. n_run.
  destruct (serves_heard p y c _ n Hs Hy) as (t' & x & [= <-] & _ & _ & _ & Hcb). rewrite (Hcb k Hk). n_run.
  eapply wpe_mono; [by apply wp_task_output| |done]. intros [] n1 Hs1. n_run.
  eapply wpe_mono; [by apply wp_task_output| |done]. intros [] n2 Hs2. n_run.
  by apply wp_task_output.
Qed.

(** A computation that may change the counter and the pieces only. *)
Definition buffered n n' : Prop := serves p y n' ∧ l_tasks (n_unit n') = l_tasks (n_unit n).

Lemma wp_decode data n : serves p y n →
  wpe (try_catch (let* r := decode data in ret (Some r))
         (λ _, upd_llm (λ u, {| u with stream_buff_ := ∅ |}) ;;; ret None))
    (λ _ n', buffered n n') (λ _ _, False) n.
Proof.
  intros Hs. unfold decode, get_llm, upd_llm, upd_unit_data. n_run. apply wpe_zoom. wp_simp.
  assert (∀ b, buffered n (let u := n_unit n in let v := {| u with stream_buff_ := b |} in {| n with n_unit := v |})) as Hb.
  { intros b. split; [by apply serves_unit|done]. }
  eapply wpe_mono; [apply decode_stream_ends|..].
  - intros r st _. wp_simp. apply (Hb (stream_buff st)).
  - intros e st _. n_run. apply (Hb ∅).
Qed.

Lemma wp_task_user_data object data n : serves p y n →
  may_throw (task_user_data t c object data) (λ _ n', serves p y n') n.
Proof.
  intros Hs. unfold task_user_data, lock_task, lock_chan. n_run.
  destruct (l_tasks (n_unit n) !! t) as [k|] eqn:Hk; [|done]. destruct (n_channels n !! c) as [x|]; [|done].
  destruct (_ || _); [done|]. destruct (contains _ _); [|by eapply wp_inference]. n_step.
  eapply wpe_mono; [by apply wp_decode| |done].
  intros [[[] tmp]|] n1 [Hs1 Hl]; [by n_run| |done]. eapply wp_inference; [done|by rewrite Hl].
Qed.

Lemma serves_chan x f n : serves p y n → n_channels n !! c = Some x → gains x (f x) →
  wp (upd_chan c f) (λ _ n', serves p y n' ∧ n_channels n' !! c = Some (f x)) n.
Proof.
  intros Hs Hx Hg. eapply wpe_mono; [exact (wp_upd_chan 3 c x f n (sv_ok _ _ _ Hs) Hx Hg)| |done].
  intros [] n' (Hok' & Hk & Hx' & _). split; [by eapply serves_keeps|done].
Qed.

Lemma wp_subscriber_event_call raw n : serves p y n →
  may_throw (subscriber_event_call c (task_user_data t c) raw) (λ _ n', serves p y n') n.
Proof.
  intros Hs. unfold subscriber_event_call. set (_raw := string_ raw). n_step.
  destruct (find_action_ret (S := node K llm_llm llm_call) (S (length _raw)) _raw (find user_inference_flage_str _raw)) as [hit Hhit].
  { intros q Hq%find_length. lia. }
  eapply wpe_Ret_eq; [apply Hhit|]. n_step.
  apply (wpe_mono _ (λ _ n', serves p y n') _ (λ _ _, True)); [|clear n Hs; intros [] n Hs|done].
  - destruct hit; [|by n_run]. n_step. apply wpe_quiet; [apply quiet_json_get|intros url _|done]. n_step.
    apply (wpe_mono _ (λ _ n', serves p y n') _ (λ _ _, True)); [|clear n Hs; intros [] n Hs|done].
    + unfold when. case_bool_decide as Hu; cbn [negb]; [by n_run|].
      destruct (serves_heard p y c _ n Hs Hy) as (_ & x & _ & Hx & _).
      eapply wpe_mono; [apply (wp_set_push_url 3 c x url n (sv_ok _ _ _ Hs) Hx)| |done].
      * destruct url; [done|]. rewrite zlen_cons. pose proof (zlen_nonneg url). lia.
      * intros [] n' (Hok' & Hk & _). by eapply serves_keeps.
    + destruct (serves_heard p y c _ n Hs Hy) as (_ & x & _ & Hx & _).
      n_step. apply wpe_quiet; [apply quiet_json_get|intros r _|done]. n_step.
      eapply wpe_mono; [apply (serves_chan x _ n Hs Hx); by repeat split| |done]. intros [] n1 [Hs1 Hx1].
      n_step. apply wpe_quiet; [apply quiet_json_get|intros w _|done].
      eapply wpe_mono; [apply (serves_chan _ _ n1 Hs1 Hx1); by repeat split| |done]. by intros [] n2 [Hs2 _].
  - n_step. apply wpe_quiet; [apply quiet_json_get|intros object _|done]. n_step.
    apply wpe_quiet; [apply quiet_json_get|intros data _|done]. by apply wp_task_user_data.
Qed.
End Message.

(** One message of a subscriber. *)
Lemma wp_subscriber_step p y cb n : node_ok 3 n → z_objs (n_zmq n) !! p = Some y → zmq_thread_ y = Some cb →
  mode_ y = Some ZMQ_SUB → may_throw (event_loop_step p cb) (λ _ n', serves p y n') n.
Proof.
  intros Hok Hp Hth Hm. unfold event_loop_step. n_run. exists ZMQ_SUB. split; [done|]. n_run.
  change (ZMQ_SUB =? ZMQ_PULL) with false. change (ZMQ_SUB =? ZMQ_RPC_FUN) with false. cbv iota. n_run. cbn [negb]. n_run.
  match goal with |- wpe _ _ _ ?v => set (n1 := v) end.
  assert (serves p y n1) as Hs.
  { split; [|exact Hp]. refine (proj1 (node_ok_calls 3 n n1 Hok _)). by eexists _, (z_next (n_zmq n)). }
  clearbody n1. destruct (zmq_msg_recv _ _ _).1 as [r d]. destruct (r <=? 0); [by n_run|].
  destruct cb as [[c call]|]; [|done]. cbn [run_msg node_user run_call llm_unit].
  destruct (serves_heard p y c call n1 Hs Hth) as (t & x & -> & _).
  by apply (wp_subscriber_event_call p y t c Hth).
Qed.

(** A turn of a subscriber's thread. *)
Lemma subscriber_turn p y cb n : node_ok 3 n → z_objs (n_zmq n) !! p = Some y → zmq_thread_ y = Some cb →
  mode_ y = Some ZMQ_SUB → turn_ok (zmq_event_loop 1 p cb) (node_ok 3) n.
Proof.
  intros Hok Hp Hth Hm. apply (loop_turn p cb y); [done..|].
  eapply wpe_mono; [by apply (wp_subscriber_step p y)|by intros ? ? []|done].
Qed.

(** A turn of the node's own event loop. *)
Lemma even_loop_turn n : answered (str "register_unit") (str "llm") manager_reply → node_ok 3 n →
  turn_ok (even_loop 1) (node_ok 3) n.
Proof.
  intros Hans Hok. unfold turn_ok. cbn [even_loop]. unfold bind at 1, get at 1.
  destruct (exit_flage_ n); [done|]. destruct (event_queue_ n) as [|e q] eqn:Hq; [done|].
  apply (turn_ok_catch _ _ (node_ok 3)); [by apply wp_process|]. intros _ n' Hok'.
  unfold turn_ok, bind, get. cbn. destruct (exit_flage_ n'); [done|]. by destruct (event_queue_ n').
Qed.

(** ** Construction *)

(** The process before [llm_llm] is built. *)
Definition blank (k : K) : node K llm_llm llm_call :=
  mkNode (mkZ k ∅ 1) ∅ 1 [] [] [] false 0 [] false None ∅ (mkLlm 0 ∅ ∅ 1 ∅ 0).

(** A node with nothing but its RPC server [p]. *)
Definition bare (k : K) (x : pzmq rpc_action (node_callback llm_call)) (name : bytes) : node K llm_llm llm_call :=
  mkNode (mkZ k {[1 := x]} 2) ∅ 1 name [] [] false 0 [] false (Some 1) ∅ (mkLlm 0 ∅ ∅ 1 ∅ 0).

Lemma wp_bare_register k x name action f (Q : Z → node K llm_llm llm_call → Prop) E :
  (zmq_fun_ x = ∅ → zmq_thread_ x = None) →
  (∀ r k' x', zmq_fun_ x' ≠ ∅ → (zmq_thread_ x' = zmq_thread_ x ∨ zmq_thread_ x' = Some None) → Q r (bare k' x' name)) →
  wpe (zq (register_rpc_action 1 action f)) Q E (bare k x name).
Proof.
  intros Hx HQ. apply wpe_zq_node. eapply wpe_mono; [apply (wp_register 1 action f x); [apply lookup_singleton_eq|exact Hx]| |done].
  intros r s' (x' & k' & -> & Hf & Hth). 
  assert (zmq_thread_ x' = zmq_thread_ x ∨ zmq_thread_ x' = Some None) as Hd by (case_decide; naive_solver).
  specialize (HQ r k' x' Hf Hd). unfold bare in HQ |- *. unfold with_pz. cbn.
  by rewrite insert_singleton_eq.
Qed.

Lemma llm_ctor_ok k : wp llm_ctor (λ _ n, node_ok 3 n) (blank k).
Proof.
  unfold llm_ctor, StackFlow_ctor, pzmq_lazy. do 7 n_step.
  match goal with |- context [mkPzmq ?h ?a ?b ?c ?d ?e ?f ?g ?u ?v] => set (x := mkPzmq h a b c d e f g u v) end.
  match goal with |- wpe _ _ _ ?w => change w with (bare k x (str "llm")) end.
  apply wp_bare_register; [done|intros _ k1 x1 Hf1 Hth1]. n_step.
  apply wp_bare_register; [done|intros _ k2 x2 Hf2 Hth2]. n_step.
  apply wp_bare_register; [done|intros _ k3 x3 Hf3 Hth3]. n_step.
  apply wp_bare_register; [done|intros _ k4 x4 Hf4 Hth4].
  assert (∀ c call, ¬ listens x4 c call) as Hx4.
  { unfold listens. intros c call. change (zmq_thread_ x) with (@None (option (node_callback llm_call))) in Hth1.
    intuition congruence. }
  unfold upd_llm, upd_unit_data. n_run. split; cbn; try done.
  - split; cbn.
    + by intros q c i (z & ? & _).
    + by intros q c i c' i' (z & ? & _).
    + by intros q z c call [<- <-]%lookup_singleton_Some ?%Hx4.
    + intros z Hz. apply lookup_singleton_None. lia.
  - vm_compute. lia.
  - by intros q z c call [<- <-]%lookup_singleton_Some ?%Hx4.
Qed.
End Messages.

(** ** The node as a transition system *)
Section Steps.
Context `{Zmq K, Attempts, !ZmqHealthy K, Hashing, !Clock K, JsonLib}.
Implicit Types n : node K llm_llm llm_call.

(** The threads of the process take turns: the RPC server queues a request of
    the unit manager, the event loop makes a turn, a subscriber's thread makes
    one. *)
Inductive llm_step n : node K llm_llm llm_call → Prop :=
| llm_request a url raw r n' :
    1 ≤ zlen url ≤ 127 → zlen raw < 2 ^ 30 → run_action a (mkData (set_param url raw)) n = Ret r n' → llm_step n n'
| llm_turn b n' : even_loop 1 n = Ret b n' → llm_step n n'
| llm_message p y cb b n' :
    z_objs (n_zmq n) !! p = Some y → zmq_thread_ y = Some cb → mode_ y = Some ZMQ_SUB →
    zmq_event_loop 1 p cb n = Ret b n' → llm_step n n'.

Inductive llm_reachable : node K llm_llm llm_call → Prop :=
| llm_starts k n : llm_ctor (blank k) = Ret tt n → llm_reachable n
| llm_steps n n' : llm_reachable n → llm_step n n' → llm_reachable n'.

Lemma request_ok a url raw n r n' : node_ok 3 n → 1 ≤ zlen url ≤ 127 → zlen raw < 2 ^ 30 →
  run_action a (mkData (set_param url raw)) n = Ret r n' → node_ok 3 n'.
Proof.
  intros [] Hu Hr. assert (event_ok (EVENT_SETUP, Some (mkData (set_param url raw)))) as He by by exists url, raw.
  destruct a; intros [= <- <-]; split; try done; cbn; (apply Forall_app; split; [done|by constructor]).
Qed.

End Steps.

(** ** A node that is asked for a unit *)
Section Sim.
#[local] Existing Instances replying_zmq replying_healthy sim_clock.
Definition sim_config : jvalue := JObject [(str "model", JString (str "qwen")); (str "response_format", JString (str "llm.utf-8.stream"));
  (str "enoutput", JBool true); (str "input", JString (str "llm.utf-8"))].
#[local] Instance config_json : JsonLib := {| dump_text _ := Some []; parse_text _ := Some sim_config |}.
Definition sim_url : bytes := str "ipc:///tmp/llm/5555.sock".
Definition sim_request : bytes :=
  json "{'request_id':'1','work_id':'llm','action':'setup','object':'llm.setup','data':{'model':'qwen'}}".

(** The node built, the request queued, and one turn. *)
Definition sim_run : M (node unit llm_llm llm_call) bool :=
  llm_ctor ;;; run_action Rpc_setup (mkData (set_param sim_url sim_request)) ;;; even_loop 1.

Lemma sim_reachable : ∃ n, llm_reachable n ∧ base.size (llm_task_ (n_unit n)) = 1%nat ∧ base.size (z_objs (n_zmq n)) = 4%nat.
Proof.
  assert (match sim_run (blank tt) with
          | Ret _ n => base.size (llm_task_ (n_unit n)) = 1%nat ∧ base.size (z_objs (n_zmq n)) = 4%nat
          | _ => False end) as Hrun by (vm_compute; split; reflexivity).
  unfold sim_run, bind in Hrun. destruct (llm_ctor (blank tt)) as [[] n0| |] eqn:E0; [|destruct Hrun..].
  destruct (run_action _ _ n0) as [r n1| |] eqn:E1; [|destruct Hrun..].
  destruct (even_loop 1 n1) as [b n2| |] eqn:E2; [|destruct Hrun..]. exists n2. split; [|exact Hrun].
  eapply llm_steps; [|by eapply llm_turn]. eapply llm_steps; [by eapply llm_starts|].
  eapply (llm_request _ _ sim_url sim_request); [| |exact E1]; vm_compute; [split|]; congruence.
Qed.

End Sim.
End LlmRun.
