(* ===== verification/Forwarding.v ===== *)
(** * From a client's request to the unit that serves it
    (unit_action_match of the manager against llm_channel_obj and StackFlow)

    The manager pushes an inference to the unit's publisher and sends every
    other request as an RPC call; the node's channel and its event loop read
    back what was packed. *)

From S2P Require Import Prelude.
From S2P Require Import CStdlib.
From S2P Require Import PzmqData.
From S2P Require Import StackFlowUtil.
From S2P Require Import Json.
From S2P Require Import Pzmq.
From S2P Require Import UnitCall.
From S2P Require Import SocketsOps.
From S2P Require Import Manager.
From S2P Require Import UnitTable.
From S2P Require Import UnitAction.
From S2P Require Import Node.
From S2P Require Import LlmChannel.
From S2P Require Import StackFlow.
From S2P Require Import Registration.
From S2P Require Import LlmEvents.
Import PzmqData StackFlowUtil Json Pzmq Node LlmChannel.

Module Forwarding.
(** ** The URL of a session *)

(** Text without quotes and backslashes. *)
Definition clean (s : bytes) : Prop := Forall (λ c, c ≠ dquote ∧ c ≠ "\"%char) s.

(** A format [l%ir] whose URLs fit the manager's buffers and a length byte. *)
Record session_format (l r fmt : bytes) : Prop := {
  sf_ok : UnitTable.format_ok l r fmt;
  sf_clean : clean (l ++ r);
  sf_len : zlen l + 11 + zlen r ≤ 127;
}.
Definition session_url (l r : bytes) (com_id : Z) : bytes := UnitTable.url l r com_id [].

Section Urls.
Context (l r fmt : bytes) (Hfmt : session_format l r fmt) (com_id : Z) (Hid : 0 < com_id ≤ INT_MAX).

Lemma session_url_len : 1 ≤ zlen (session_url l r com_id) ≤ 126.
Proof.
  pose proof (sf_len _ _ _ Hfmt). pose proof (UnitTable.fo_len _ _ _ (sf_ok _ _ _ Hfmt)) as Hl.
  unfold rpc_url_head_length in Hl. pose proof (zlen_to_string com_id ltac:(lia)).
  pose proof (zlen_nonneg (to_string com_id)). pose proof (zlen_nonneg r).
  unfold session_url, UnitTable.url. rewrite !zlen_app, zlen_nil. lia.
Qed.

Lemma to_string_digits : digits_only (to_string com_id) ∧ to_string com_id ≠ [].
Proof.
  split; [|apply LlmEvents.to_string_cons].
  unfold to_string. rewrite (proj2 (Z.ltb_ge _ _)) by lia. apply dec_digits_only; [lia|constructor].
Qed.

Lemma session_url_clean : clean (session_url l r com_id).
Proof.
  pose proof (sf_clean _ _ _ Hfmt) as [Hl Hr]%Forall_app. unfold session_url, UnitTable.url, clean.
  rewrite app_nil_r. apply Forall_app. split; [done|]. apply Forall_app. split; [|done].
  eapply Forall_impl; [apply to_string_digits|]. intros c Hc. split; intros ->; discriminate Hc.
Qed.

Lemma session_sprintf : sprintf_int (InetAddress.c_str fmt) (Some com_id) = Some (session_url l r com_id).
Proof.
  destruct (UnitTable.sprintf_url l r fmt (sf_ok _ _ _ Hfmt) com_id []) as [E _]; [done|done|by intros ? ?|].
  by rewrite app_nil_r in E.
Qed.

(** Keys without digits are not the URL. *)
Lemma session_client_key k : clean k → forallb (λ c, negb (isdigit c)) k = true →
  k ≠ str "zmq_com" → k ≠ str ":" → head k ≠ Some ","%char → UnitAction.client_key (session_url l r com_id) k.
Proof.
  intros Hk Hd H1 H2 H3. split_and!; [|done|done| |done].
  - intros Hin. by apply (proj1 (Forall_forall _ _) Hk) in Hin as [].
  - intros ->. destruct to_string_digits as [Hds Hne]. destruct (to_string com_id) as [|d ds] eqn:E; [done|].
    unfold session_url, UnitTable.url in Hd. rewrite E, !forallb_app in Hd. cbn in Hd. inversion Hds as [|? ? Hd' _].
    rewrite Hd' in Hd. cbn in Hd. by rewrite andb_false_r in Hd.
Qed.
End Urls.

Lemma clean_no_quote s : clean s → dquote ∉ s.
Proof. intros Hs Hin. by apply (proj1 (Forall_forall _ _) Hs) in Hin as []. Qed.
Lemma clean_string_body a s : a ≠ "\"%char → clean s → string_body a s = true.
Proof.
  intros Ha Hs. revert a Ha. induction Hs as [|c s [Hc Hb] _ IH]; intros a Ha; cbn.
  - by rewrite bool_decide_false.
  - rewrite bool_decide_false by done. by apply IH.
Qed.

(** ** An inference, read by the unit's channel *)

(** The first "action" in a text is not behind a backslash. *)
Definition action_shown (body : bytes) : Prop :=
  ∃ p, find user_inference_flage_str body = Some p ∧ (p = 0%nat ∨ body !! (p - 1)%nat ≠ Some "\"%char).

(** What the channel reads from an inference. *)
Definition inference_keys : list bytes :=
  [str "action"; str "request_id"; str "work_id"; str "object"; str "data"].

Section Channel.
Context `{Zmq K, Attempts, Hashing, !Clock K, JsonLib} {U X : Type}.
Implicit Types n : node K U X.

(** What the channel does with an inference: the user's URL, the request, and
    the callback. *)
Definition take_inference (c : ptr) (call : bytes → bytes → M (node K U X) unit) (url body : bytes) : M (node K U X) unit :=
  set_push_url c url ;;;
  upd_chan c (λ x, {| x with ch_request_id_ := json_value body (str "request_id") |}) ;;;
  upd_chan c (λ x, {| x with work_id_ := json_value body (str "work_id") |}) ;;;
  call (json_value body (str "object")) (json_value body (str "data")).

Lemma channel_reads_frame c call url body n :
  clean url → url ≠ [] → Forall (UnitAction.client_key url) inference_keys →
  action_shown body → zlen url + zlen body + 14 < 2 ^ 31 →
  subscriber_event_call c call (mkData (UnitAction.framed url body)) n = take_inference c call url body n.
Proof.
  intros Hu Hne Hk (p & Hp & Hshown) Hl.
  set (f := UnitAction.framed url body).
  assert (zlen f < 2 ^ 31) as Hf.
  { unfold f, UnitAction.framed. rewrite !zlen_app. change (zlen UnitAction.zmq_com_head) with 12.
    change (zlen (json "',")) with 2. lia. }
  assert (Forall (λ k, ∀ T (s : T), sample_json_str_get f k s = Ret (json_value body k) s) inference_keys) as Hget.
  { eapply Forall_impl; [exact Hk|]. intros k Hkk T s. rewrite sample_json_str_get_eq by done. f_equal.
    by apply UnitAction.framed_value; [apply clean_no_quote|]. }
  apply Forall_cons in Hget as [_ Hget]. apply Forall_cons in Hget as [Hrid Hget].
  apply Forall_cons in Hget as [Hwid Hget]. apply Forall_cons in Hget as [Hobj Hget]. apply Forall_cons in Hget as [Hdata _].
  assert (∀ S (s : S), sample_json_str_get f (str "zmq_com") s = Ret url s) as Hcom.
  { intros S s. rewrite sample_json_str_get_eq by done. f_equal.
    apply (scan_field (str ":" ++ [dquote] ++ url ++ [dquote] ++ str "," ++ body)).
    apply (FieldString 0 0). by apply clean_string_body. }
  assert (find user_inference_flage_str f = Some (length (UnitAction.frame_head url) + p)%nat) as Hfind.
  { change user_inference_flage_str with (StackFlowUtil.quoted (str "action")) in Hp |- *. unfold f.
    rewrite UnitAction.framed_find; [by rewrite Hp|by apply clean_no_quote|by apply Forall_cons in Hk as [Hk _]]. }
  assert (∀ T (s : T), find_action (S (length f)) f (find user_inference_flage_str f) s
    = Ret (Some (length (UnitAction.frame_head url) + p)%nat) s) as Hact.
  { intros T s. rewrite Hfind. cbn [find_action].
    assert ((0 <? length (UnitAction.frame_head url) + p)%nat = true) as -> by (apply Nat.ltb_lt; cbn; lia).
    rewrite bool_decide_false; [done|]. unfold f. rewrite UnitAction.framed_head.
    destruct p as [|p].
    - rewrite Nat.add_0_r. change (json "',") with ([dquote] ++ [","%char]).
      replace (UnitAction.frame_head url) with ((UnitAction.zmq_com_head ++ url ++ [dquote]) ++ [","%char])
        by (unfold UnitAction.frame_head; by rewrite <-!app_assoc).
      generalize (UnitAction.zmq_com_head ++ url ++ [dquote]). intros h.
      rewrite length_app, <-app_assoc, lookup_app_r by (cbn; lia).
      by replace (_ - _)%nat with 0%nat by (cbn; lia).
    - destruct Hshown as [|Hb]; [done|]. rewrite lookup_app_r by lia.
      by replace (_ - _)%nat with (S p - 1)%nat by lia. }
  unfold subscriber_event_call, take_inference, string_, bind. cbn [msg]. fold f.
  rewrite Hact, Hcom. rewrite (bool_decide_false (url = [])) by done. cbn [negb when].
  destruct (set_push_url c url n) as [[] n1| |]; [|reflexivity..]. rewrite Hrid.
  destruct (upd_chan c _ n1) as [[] n2| |]; [|reflexivity..]. rewrite Hwid.
  destruct (upd_chan c _ n2) as [[] n3| |]; [|reflexivity..]. rewrite Hobj, Hdata. reflexivity.
Qed.
End Channel.

(** ** From the manager *)
Section Manager.
Import Manager UnitAction.
Context `{Zmq KM, Attempts, !Clock KM, JsonLib, Simdjson, Zmq KN, Hashing, !Clock KN} {N U X : Type}.
Implicit Types m : manager KM N.
Implicit Types n : node KN U X.

(** [m] after [data] was sent on [sock]. *)
Definition sent_on (sock : option ptr) (data : bytes) m : manager KM N :=
  let z := m_zmq m in let k := (zmq_send sock data 0 (z_kernel z)).2 in
  {| m with m_zmq := {| z with z_kernel := k |} |}.

Lemma push_url_eq l r com_id m : session_format l r (zmq_c_format m) → 0 < com_id ≤ INT_MAX →
  push_url com_id m = Ret (session_url l r com_id) m.
Proof.
  intros Hf Hid. pose proof (session_url_len l r _ Hf com_id Hid). unfold push_url, sprintf_buf, bind, get.
  rewrite (session_sprintf l r _ Hf com_id Hid). cbn. by rewrite (proj2 (Z.leb_le _ _)) by lia.
Qed.
Lemma com_url_eq l r com_id m : session_format l r (zmq_c_format m) → 0 < com_id ≤ INT_MAX →
  com_url com_id m = Ret (session_url l r com_id) m.
Proof.
  intros Hf Hid. pose proof (session_url_len l r _ Hf com_id Hid). unfold com_url, bind, get.
  rewrite (session_sprintf l r _ Hf com_id Hid). cbn. unfold snprintf, ztake, ret. f_equal.
  apply take_ge. unfold zlen in *. lia.
Qed.

Lemma session_keys l r fmt com_id : session_format l r fmt → 0 < com_id ≤ INT_MAX →
  Forall (client_key (session_url l r com_id)) inference_keys.
Proof.
  intros Hf Hid. unfold inference_keys. repeat apply Forall_cons_2; [..|apply Forall_nil_2].
  all: apply (session_client_key l r com_id Hid); [apply (bool_decide_unpack _); reflexivity|reflexivity|discriminate..].
Qed.

(** C8: an inference reaches the unit as the client wrote it.  The manager
    sends one frame on the publisher of the unit that the work id names, and
    changes nothing else; a channel that receives the frame pushes its replies
    to the client's session, and runs its callback on the client's object and
    data under the client's request id and work id. *)
Theorem inference_reaches_unit l r com_id c body request_id work_id u x z y m :
  session_format l r (zmq_c_format m) → 0 < com_id ≤ 65535 →
  request (c :: body) request_id work_id (str "inference") → work_id ≠ [] →
  key_sql m !! work_id = Some (AnyUnit u) → m_units m !! u = Some x →
  user_inference_chennal_ x = Some z → z_objs (m_zmq m) !! z = Some y →
  action_shown body → zlen body < 2 ^ 30 →
  let url := session_url l r com_id in
  unit_action_match com_id (c :: body) m = Ret tt (sent_on (zmq_socket_ y) (framed url body) m)
  ∧ ∀ ch call n, subscriber_event_call ch call (mkData (framed url body)) n = take_inference ch call url body n.
Proof.
  intros Hf Hid (Hi & Hr & Hw & Ha) Hne Hkey Hu Hx Hz Hact Hl url.
  assert (0 < com_id ≤ INT_MAX) as Hid' by (unfold INT_MAX; lia).
  pose proof (session_url_len l r _ Hf com_id Hid') as Hlen. split.
  - unfold unit_action_match. rewrite Hi, Hr, Hw, Ha. cbn [negb]. rewrite bool_decide_true, bool_decide_false by done.
    unfold bind at 1. rewrite (push_url_eq l r com_id m Hf Hid'). unfold bind at 1. rewrite inference_data_eq.
    unfold zmq_bus_publisher_push. rewrite bool_decide_false by done.
    unfold SAFE_READING, send_msg, get_unit, zq, Pzmq.send_data, zcall, get_pz, zoom, bind, get, deref, ret. cbn.
    rewrite Hkey. cbn. rewrite Hu, Hx, Hz. unfold sent_on, url. by destruct (zmq_send _ _ _ _).
  - intros ch call n. subst url. apply channel_reads_frame; [by eapply session_url_clean| |by eapply session_keys|done|lia].
    intros E. rewrite E in Hlen. change (zlen []) with 0 in Hlen. lia.
Qed.

(** ** Every other request *)

(** The event an action queues, the text its listener reads, and the function
    the listener calls: the listener of a pause reads the URL again. *)
Definition event_of (a : rpc_action) : LOCAL_EVENT :=
  match a with
  | Rpc_setup => EVENT_SETUP
  | Rpc_pause => EVENT_PAUSE
  | Rpc_exit => EVENT_EXIT
  | Rpc_taskinfo => EVENT_TASKINFO
  end.
Definition request_text (a : rpc_action) (url raw : bytes) : bytes := if a is Rpc_pause then url else raw.
Definition handler `{!StackFlowUnit KN U X} (a : rpc_action) (url raw : bytes) : M (node KN U X) unit :=
  match a with
  | Rpc_setup => StackFlow.setup url raw ;;; ret tt
  | Rpc_exit => StackFlow.exit url raw ;;; ret tt
  | Rpc_pause => StackFlow.pause url raw
  | Rpc_taskinfo => StackFlow.taskinfo url raw
  end.

Lemma dispatch_reads `{!StackFlowUnit KN U X} a url raw n : zlen url ≤ 127 → zlen raw < 2 ^ 30 → status_ n ≠ 0 →
  StackFlow.dispatch (event_of a, Some (mkData (set_param url raw))) n =
  handler a url (request_text a url raw)
    (let r := json_value (request_text a url raw) (str "request_id") in {| n with request_id_ := r; out_zmq_url_ := url |}).
Proof.
  intros Hu Hr Hs.
  destruct (Registration.get_param_both (mkData (set_param url raw)) [] url raw n) as [E0 E1];
    [by left|rewrite zlen_app; lia|lia|].
  assert (zlen (request_text a url raw) < 2 ^ 31) as Hl by (destruct a; cbn; lia).
  assert (∀ k, sample_json_str_get (request_text a url raw) k n = Ret (json_value (request_text a url raw) k) n) as Hj.
  { intros k. by rewrite sample_json_str_get_eq. }
  unfold StackFlow.dispatch, StackFlow._setup, StackFlow._exit, StackFlow._pause, StackFlow._taskinfo.
  destruct a; cbn [event_of fst snd request_text handler] in *; unfold StackFlow.listener, bind at 1, deref;
    unfold bind at 1, ret; rewrite E0; unfold bind at 1; rewrite ?E1, ?E0; unfold bind at 1; rewrite Hj;
    unfold bind at 1, modify; unfold bind at 1, get; cbn [status_];
    by rewrite (proj2 (Z.eqb_neq _ _) Hs).
Qed.

End Manager.

(** ** A client of session 8000 *)
Section Sim.
Import Manager UnitAction.
#[local] Existing Instances sim_json_lib sim_simdjson sim_clock.
Definition fwd_publisher : pzmq sys_action bus_callback :=
  mkPzmq rpc_url_head (Some 8) (Some 9) ∅ true None (Some ZMQ_PUB) [] (str "ipc:///tmp/llm/5010.sock") 3000.
Definition fwd_manager : manager ZSim.zsim unit :=
  let z := mkZ (ZSim.mkZsim 10 ∅ ∅ [] ∅) {[1 := fwd_publisher]} 2 in
  let s := {[str "llm.7" := AnyUnit 3]} in
  let us := {[3 := mkUnit (Some 1) (str "llm.7") [] (str "ipc:///tmp/llm/5010.sock") 7]} in
  {| sim_manager with m_zmq := z; key_sql := s; m_units := us |}.
Definition fwd_l : bytes := str "ipc:///tmp/llm/".
Definition fwd_r : bytes := str ".sock".

Lemma fwd_format : session_format fwd_l fwd_r (zmq_c_format fwd_manager).
Proof.
  split; [split|apply (bool_decide_unpack _); reflexivity|vm_compute; congruence].
  - reflexivity.
  - reflexivity.
  - reflexivity.
  - by intros c t [= <- _].
  - vm_compute. congruence.
Qed.

Definition fwd_inference : bytes :=
  json "'request_id':'1','work_id':'llm.7','action':'inference','object':'llm.utf-8','data':'hello'}".
Lemma inference_reaches_unit_witness : ∃ m',
  unit_action_match 8000 ("{"%char :: fwd_inference) fwd_manager = Ret tt m'
  ∧ ZSim.zs_sent (z_kernel (m_zmq m')) = [(9, json "{'zmq_com':'ipc:///tmp/llm/8000.sock','request_id':'1','work_id':'llm.7','action':'inference','object':'llm.utf-8','data':'hello'}")]
  ∧ ∀ call (n : node ZSim.zsim unit unit),
      subscriber_event_call 4 call (mkData (framed (str "ipc:///tmp/llm/8000.sock") fwd_inference)) n
      = take_inference 4 call (str "ipc:///tmp/llm/8000.sock") fwd_inference n.
Proof.
  destruct (inference_reaches_unit (KN := ZSim.zsim) (U := unit) (X := unit) fwd_l fwd_r 8000 "{"%char fwd_inference
    (str "1") (str "llm.7") 3 (mkUnit (Some 1) (str "llm.7") [] (str "ipc:///tmp/llm/5010.sock") 7) 1 fwd_publisher fwd_manager
    fwd_format ltac:(lia)) as [Hm Hn];
    [split_and!; vm_compute; reflexivity|discriminate|vm_compute; reflexivity..| |vm_compute; reflexivity|].
  - exists 35%nat. split; [vm_compute; reflexivity|]. right. vm_compute. discriminate.
  - eexists. split; [exact Hm|]. split; [vm_compute; reflexivity|]. intros call n. exact (Hn 4 call n).
Defined.

Definition fwd_setup : bytes := json "{'request_id':'2','work_id':'llm','action':'setup','object':'llm.setup'}".
#[local] Instance fwd_unit : StackFlowUnit ZSim.zsim unit unit :=
  {| unit_setup _ _ _ := ret 0; unit_exit _ _ _ := ret 0; unit_pause _ _ _ := ret tt; unit_taskinfo _ _ _ := ret tt;
     run_call _ _ _ := ret tt |}.
Definition fwd_server : pzmq rpc_action (node_callback unit) :=
  mkPzmq rpc_url_head (Some 8) (Some 9) {[str "setup" := RpcUser Rpc_setup]} false (Some None) (Some ZMQ_RPC_FUN) (str "llm") [] 3000.
Definition fwd_node : node ZSim.zsim unit unit :=
  mkNode (mkZ (ZSim.mkZsim 10 ∅ ∅ [] ∅) {[1 := fwd_server]} 2) ∅ 1 (str "llm") [] [] false 1 [] true (Some 1) ∅ tt.
End Sim.
End Forwarding.
