(* ===== verification/Sessions.v ===== *)
(** * TCP sessions: what a connection's session holds, and gives back
    (session.h, zmq_bus_com of zmq_bus.cpp, tcp_comm.cpp) *)

From S2P Require Import Prelude.
From S2P Require Import CStdlib.
From S2P Require Import Endian.
From S2P Require Import Kernel.
From S2P Require Import PzmqData.
From S2P Require Import StackFlowUtil.
From S2P Require Import Json.
From S2P Require Import Pzmq.
From S2P Require Import UnitCall.
From S2P Require Import Buffer.
From S2P Require Import NetTypes.
From S2P Require Import SocketsOps.
From S2P Require Import EventLoop.
From S2P Require Import TcpConnection.
From S2P Require Import System.
From S2P Require Import Manager.
From S2P Require Import UnitTable.
From S2P Require Import UnitAction.
From S2P Require Import TcpComm.
Import PzmqData Pzmq Manager Json UnitAction TcpComm.

Module Sessions.
Section Access.
Context {K N : Type}.
Implicit Types m : manager K N.

Lemma wpe_net {A} (z : M (World N) A) Q E m :
  wpe (net z) Q E m ↔
  wpe z (λ a t, Q a {| m with m_net := t |}) (λ e t, E e {| m with m_net := t |}) (m_net m).
Proof. apply wpe_zoom. Qed.
Lemma wpe_get_session t Q E m : wpe (get_session t) Q E m ↔ ∃ x, m_sessions m !! t = Some x ∧ Q x m.
Proof. unfold get_session. by wp_simp. Qed.
Lemma wpe_upd_session t f Q E m :
  wpe (upd_session t f) Q E m ↔
  ∃ x, m_sessions m !! t = Some x ∧ Q tt (let s := m_sessions m in {| m with m_sessions := <[t := f x]> s |}).
Proof. unfold upd_session. by rewrite wpe_bind, wpe_get_session. Qed.

End Access.

Ltac s_step :=
  lazymatch goal with
  | |- wpe (get_session _) _ _ _ => refine (proj2 (wpe_get_session _ _ _ _) _)
  | |- wpe (upd_session _ _) _ _ _ => refine (proj2 (wpe_upd_session _ _ _ _ _) _)
  | _ => m_step
  end; cbn beta zeta; simpl_m.
Ltac s_run :=
  repeat lazymatch goal with
  | |- ∃ x, _ !! _ = Some x ∧ _ => eexists; split; [solve [solve_cell]|]; cbn beta; simpl_m
  | |- ∃ a, Some _ = Some a ∧ _ => eexists; split; [reflexivity|]; cbn beta
  | _ => s_step
  end.

Section Lifecycle.
Context {K N : Type} `{Zmq K, Attempts, !ZmqHealthy K, !Clock K, JsonLib, Simdjson, Kernel N, UserCode N, Inet, HostOrder}.
Implicit Types m : manager K N.

(** The connection is there, and up or not. *)
Definition conn_is (up : bool) (conn : ptr) m : Prop :=
  ∃ y, w_conns (m_net m) !! conn = Some y ∧ TcpConnection.connected y = up.

(** A session that serves the connection [conn]: its pull socket [p], whose
    thread hands the messages to the session. *)
Record serving (l r : bytes) m (t conn : ptr) (port : Z) (p : ptr) (y : pzmq sys_action bus_callback) : Prop := {
  se_context : m_context m !! conn = Some t;
  se_session : ∃ s, m_sessions m !! t = Some s ∧ conn_ s = conn ∧ _port s = Some port ∧
    _zmq_url s = UnitTable.url l r port [] ∧ user_chennal_ s = Some p ∧ exit_flage s = 1;
  se_socket : z_objs (m_zmq m) !! p = Some y;
  se_mode : client (UnitTable.url l r port []) ZMQ_PULL y;
  se_thread : zmq_thread_ y = Some (Some (Bus_send_data t));
}.

Definition next_port (port : Z) : Z := if port =? 65535 then 8000 else port + 1.

Lemma wp_session_url l r m port : UnitTable.format_ok l r (zmq_s_format m) → 0 < port ≤ INT_MAX →
  sprintf_buf (S := manager K N) (zlen (zmq_s_format m) + zlen (to_string port)) (zmq_s_format m) port
  = ret (UnitTable.url l r port []).
Proof.
  intros Hf Hp. destruct (UnitTable.sprintf_url l r _ Hf port []) as [E _]; [done|done|by intros ? ?|].
  rewrite app_nil_r in E. unfold sprintf_buf. rewrite E. unfold bind, deref, ret.
  assert (zlen (UnitTable.url l r port []) + 1 ≤ zlen (zmq_s_format m) + zlen (to_string port)) as Hl.
  { unfold UnitTable.url. pose proof (UnitTable.fo_eq _ _ _ Hf) as ->. rewrite !zlen_app, zlen_nil.
    change (zlen (str "%i")) with 2. lia. }
  by rewrite (proj2 (Z.leb_le _ _) Hl).
Qed.

Lemma session_url_pos l r fmt port : UnitTable.format_ok l r fmt → rpc_url_head_length ≤ zlen (UnitTable.url l r port []).
Proof.
  intros Hf. pose proof (UnitTable.fo_len _ _ _ Hf). unfold UnitTable.url. rewrite !zlen_app, zlen_nil.
  pose proof (zlen_nonneg (to_string port)). pose proof (zlen_nonneg r). lia.
Qed.

(** A connection comes up: the manager with a session, its socket [y], and the
    next port. *)
Definition came_up (l r : bytes) (conn : ptr) (y : pzmq sys_action bus_callback) (k : K) m : manager K N :=
  let t := m_next m in let z := m_zmq m in let port := counter_port m in
  let zs := mkZ k (<[z_next z := y]> (z_objs z)) (z_next z + 1) in
  let s := mkSession (UnitTable.url l r port []) 1 0 (Some port) [] 0 (Some (z_next z)) conn in
  let ss := <[t := s]> (m_sessions m) in let cx := <[conn := t]> (m_context m) in
  let np := next_port port in let nx := t + 1 in
  {| m with m_zmq := zs; m_sessions := ss; m_context := cx; counter_port := np; m_next := nx |}.

Lemma wp_connection_up l r conn m :
  UnitTable.format_ok l r (zmq_s_format m) → 8000 ≤ counter_port m ≤ 65535 → conn_is true conn m →
  wp (onConnection conn) (λ _ m1, ∃ y k, m1 = came_up l r conn y k m ∧
    client (UnitTable.url l r (counter_port m) []) ZMQ_PULL y ∧
    zmq_thread_ y = Some (Some (Bus_send_data (m_next m)))) m.
Proof.
  intros Hf Hport (c & Hc & Hup). assert (0 < counter_port m ≤ INT_MAX) as Hp by (unfold INT_MAX; lia).
  unfold onConnection. s_run. apply wpe_net. unfold get_conn. wp_simp. exists c. split; [done|]. rewrite Hup.
  replace ({| m with m_net := m_net m |}) with m by (by destruct m).
  s_step. match goal with |- wpe (TcpSession_ctor _) _ _ _ => unfold TcpSession_ctor, wpe at 1 end. cbn beta zeta. simpl_m.
  s_run. unfold work. s_run.
  match goal with |- wpe (sprintf_buf _ _ _) _ _ ?w => change w with w; rewrite (wp_session_url l r m _ Hf Hp) end.
  s_run. pose proof (session_url_pos l r _ (counter_port m) Hf) as Hlen. unfold rpc_url_head_length in Hlen.
  eapply wpe_mono; [apply (wp_pzmq_ctor _ ZMQ_PULL (Some (Bus_send_data (m_next m))) _); [lia|by right; right; right]| |done].
  intros p z (-> & y & k & -> & Hy & Hth). s_run. cbn [user_chennal_]. s_run.
  rewrite !insert_insert_eq. cbn [_zmq_url exit_flage err_count _port json_str_ json_str_flage_ conn_].
  assert (swrap 32 (counter_port m + 1) = counter_port m + 1) as -> by (apply swrap_small; lia).
  assert ((if 65535 <? counter_port m + 1 then 8000 else counter_port m + 1) = next_port (counter_port m)) as En.
  { unfold next_port. destruct (Z.ltb_spec 65535 (counter_port m + 1)), (Z.eqb_spec (counter_port m) 65535); lia. }
  destruct (Z.ltb_spec 65535 (counter_port m + 1)); cbn [when]; s_run; exists y, k; unfold came_up; rewrite <-En; done.
Qed.

Lemma came_up_serving l r conn y k m :
  client (UnitTable.url l r (counter_port m) []) ZMQ_PULL y → zmq_thread_ y = Some (Some (Bus_send_data (m_next m))) →
  serving l r (came_up l r conn y k m) (m_next m) conn (counter_port m) (z_next (m_zmq m)) y.
Proof.
  intros Hy Hth. split; cbn; [apply lookup_insert_eq| |apply lookup_insert_eq|done|done].
  eexists. split; [apply lookup_insert_eq|done].
Qed.

(** A session stops: its socket is closed, and the session stays. *)
Definition went_down (t : ptr) (s : TcpSession) (k : K) m : manager K N :=
  let z := m_zmq m in
  let objs := match user_chennal_ s with Some p => delete p (z_objs z) | None => z_objs z end in
  let zs := mkZ k objs (z_next z) in
  let ss := <[t := {| s with exit_flage := 0; user_chennal_ := None |}]> (m_sessions m) in
  {| m with m_zmq := zs; m_sessions := ss |}.

Lemma wp_connection_down conn t s m :
  conn_is false conn m → m_context m !! conn = Some t → m_sessions m !! t = Some s →
  (∀ p, user_chennal_ s = Some p → ∃ y, z_objs (m_zmq m) !! p = Some y ∧ closable y) →
  wp (onConnection conn) (λ _ m', ∃ k, m' = went_down t s k m) m.
Proof.
  intros (c & Hc & Hdown) Hcx Hs Hp.
  unfold onConnection. s_run. apply wpe_net. unfold get_conn. wp_simp. exists c. split; [done|]. rewrite Hdown.
  replace ({| m with m_net := m_net m |}) with m by (by destruct m).
  s_step. s_run. rewrite Hcx. unfold stop, went_down. s_run. destruct (user_chennal_ s) as [p|]; s_run.
  - destruct (Hp p eq_refl) as (y & Hy & Hcl). eapply wpe_mono; [by eapply (wp_pzmq_dtor p y)| |by intros e z []].
    intros [] z (k & ->). by exists k.
  - exists (z_kernel (m_zmq m)). by destruct m as [[] ? ? ? ? ? ? ? ? ? ? ? ? ? ? ? ?].
Qed.

Lemma serving_closable l r t conn port p y m : UnitTable.format_ok l r (zmq_s_format m) → serving l r m t conn port p y → closable y.
Proof.
  intros Hf [_ _ _ (Hm & Hurl & _) _]. exists ZMQ_PULL. split; [done|right]. rewrite Hurl. by eapply session_url_pos.
Qed.

Lemma in_input_run {A} conn c (w : World N) (z : M Buffer.Buffer A) a b :
  w_conns w !! conn = Some c → z (inputBuffer_ c) = Ret a b →
  TcpConnection.in_input conn z w = Ret a (let cs := <[conn := {| c with inputBuffer_ := b |}]> (w_conns w) in
    {| w with w_conns := cs |}).
Proof. intros Hc Hz. unfold TcpConnection.in_input, get_conn, bind, get, deref, ret, zoom. by rewrite Hc, Hz. Qed.

(** The text without its last newline. *)
Definition chomp (text : bytes) : bytes :=
  if bool_decide (last text = Some (char_of 10)) then ztake (zlen text - 1) text else text.

(** Bytes come in: the session routes them under its port. *)
Lemma onMessage_routes l r t conn port p y c m :
  serving l r m t conn port p y → w_conns (m_net m) !! conn = Some c → Buffer.inv (inputBuffer_ c) →
  ∃ b, Buffer.inv b ∧ Buffer.contents b = [] ∧
    onMessage conn m =
    try_catch (unit_action_match port (chomp (Buffer.contents (inputBuffer_ c))))
      (λ e, if bool_decide (e = boost_bad_any_cast) then ret tt else throw e)
      (let cs := <[conn := {| c with inputBuffer_ := b |}]> (w_conns (m_net m)) in
       let nw := m_net m in let w := {| nw with w_conns := cs |} in {| m with m_net := w |}).
Proof.
  intros [Hcx (s & Hs & _ & Hport & _) _ _ _] Hc Hb.
  destruct (proj1 (wp_run _ _ _) (Buffer.wp_retrieveAllAsString _ Hb)) as (d & b & Hrun & -> & Hib & Hcb & _).
  exists b. split; [done|]. split; [done|].
  pose proof (in_input_run conn c (m_net m) Buffer.retrieveAllAsString (Buffer.contents (inputBuffer_ c)) b Hc Hrun) as Hin.
  unfold onMessage, net, zoom. unfold bind at 1. rewrite Hin.
  unfold try_catch, bind at 1, get at 1. cbn [m_context]. rewrite Hcx. unfold UnitAction.select_json_str, on_data, chomp.
  unfold get_session, bind, get, deref. cbn [m_sessions]. rewrite Hs, Hport. reflexivity.
Qed.

(** C12: a client's session, from its connection to its end.  When the
    connection comes up, the manager files one session for it, with a pull
    socket on the next session port and a thread that sends what the socket
    receives back to the client; the next client gets the next port, and 8000
    after 65535.  While it is up, each message, less its last newline, is routed
    under the session's port and the connection's buffer is left empty.  When
    it goes down the pull socket is gone; the session and the connection it
    holds stay. *)
Theorem session_lifecycle l r conn m :
  UnitTable.format_ok l r (zmq_s_format m) → 8000 ≤ counter_port m ≤ 65535 → conn_is true conn m →
  let port := counter_port m in let t := m_next m in let p := z_next (m_zmq m) in
  wp (onConnection conn) (λ _ m1, ∃ y, serving l r m1 t conn port p y ∧
    z_objs (m_zmq m1) = <[p := y]> (z_objs (m_zmq m)) ∧
    counter_port m1 = next_port port ∧ 8000 ≤ counter_port m1 ≤ 65535 ∧
    (∀ t', t' ≠ t → m_sessions m1 !! t' = m_sessions m !! t') ∧
    m_net m1 = m_net m ∧ zmq_s_format m1 = zmq_s_format m) m
  ∧ (∀ m1 y c, serving l r m1 t conn port p y → w_conns (m_net m1) !! conn = Some c → Buffer.inv (inputBuffer_ c) →
      ∃ b, Buffer.inv b ∧ Buffer.contents b = [] ∧ onMessage conn m1 =
        try_catch (unit_action_match port (chomp (Buffer.contents (inputBuffer_ c))))
          (λ e, if bool_decide (e = boost_bad_any_cast) then ret tt else throw e)
          (let cs := <[conn := {| c with inputBuffer_ := b |}]> (w_conns (m_net m1)) in
           let nw := m_net m1 in let w := {| nw with w_conns := cs |} in {| m1 with m_net := w |}))
  ∧ (∀ m1 y, UnitTable.format_ok l r (zmq_s_format m1) → serving l r m1 t conn port p y → conn_is false conn m1 →
      wp (onConnection conn) (λ _ m2, z_objs (m_zmq m2) = delete p (z_objs (m_zmq m1)) ∧
        m_context m2 !! conn = Some t ∧
        ∃ s, m_sessions m2 !! t = Some s ∧ conn_ s = conn ∧ user_chennal_ s = None ∧ exit_flage s = 0) m1).
Proof.
  intros Hf Hport Hup port t p. split_and!.
  - eapply wpe_mono; [by apply (wp_connection_up l r)| |done]. intros [] m1 (y & k & -> & Hy & Hth). exists y.
    split; [by apply came_up_serving|]. cbn. unfold next_port. split_and!; try done; [destruct (Z.eqb_spec (counter_port m) 65535); lia..|].
    intros t' Ht. by rewrite lookup_insert_ne.
  - intros m1 y c Hs Hc Hb. by eapply onMessage_routes.
  - intros m1 y Hf1 Hs Hdown. pose proof (serving_closable _ _ _ _ _ _ _ _ Hf1 Hs) as Hcl.
    destruct Hs as [Hcx (s & Hs & Hconn & _ & _ & Hu & _) Hp _ _].
    eapply wpe_mono; [apply (wp_connection_down conn t s m1 Hdown Hcx Hs)| |done].
    + intros q Hq. rewrite Hu in Hq. injection Hq as <-. by exists y.
    + intros [] m2 [k ->]. unfold went_down. rewrite Hu. cbn. split_and!; [done|done|]. eexists. by rewrite lookup_insert_eq.
Qed.
End Lifecycle.

(** ** One client, on the last of the session ports *)
Section Sim.
Import LittleEndianHost.
#[local] Existing Instances sim_json_lib sim_simdjson sim_clock.
#[local] Instance silent_user : UserCode Sim.sim := {
  uc_connection _ _ := ret tt; uc_message _ _ := ret tt; uc_write_complete _ _ := ret tt;
  uc_functor _ := ret tt }.
#[local] Instance no_inet : Inet := {
  inet_ntop _ _ := []; inet_pton _ _ := None; gethostbyname _ := None }.
Definition session_l : bytes := str "ipc:///tmp/llm/".
Definition session_r : bytes := str ".sock".
Definition session_conn (st : StateE) : TcpConnection :=
  mkTcpConnection 1 (str "c") st true 5 2 [] [] None None None None
    (Buffer.mkBuffer (replicate 8 (char_of 0) ++ str "hello" ++ [char_of 10]) 8 14)
    (Buffer.mkBuffer (replicate 8 (char_of 0)) 8 8).
Definition session_world (st : StateE) : World Sim.sim :=
  let w := start_world Sim.empty in {| w with w_conns := {[3 := session_conn st]} |}.
Definition session_manager : manager ZSim.zsim Sim.sim :=
  mkManager (mkZ (ZSim.mkZsim 1 ∅ ∅ [] ∅) ∅ 1) ∅ 0 5010 [] None ∅ 1
    (session_l ++ str "%i" ++ session_r) (session_l ++ str "%i" ++ session_r) 0
    (session_world kConnected) None 0 ∅ ∅ 65535.

Lemma session_format : UnitTable.format_ok session_l session_r (zmq_s_format session_manager).
Proof. split; try done. by intros c t [= <- _]. Qed.

Lemma session_lifecycle_witness : ∃ m1 m2,
  onConnection 3 session_manager = Ret tt m1 ∧ counter_port m1 = 8000 ∧
  (∃ b m', Buffer.contents b = [] ∧ onMessage 3 m1 = try_catch (unit_action_match 65535 (str "hello"))
    (λ e, if bool_decide (e = boost_bad_any_cast) then ret tt else throw e) m') ∧
  onConnection 3 {| m1 with m_net := session_world kDisconnected |} = Ret tt m2 ∧ z_objs (m_zmq m2) = ∅.
Proof.
  destruct (session_lifecycle session_l session_r 3 session_manager session_format
    ltac:(split; done) ltac:(by exists (session_conn kConnected))) as (Hup & Hmsg & Hdown).
  destruct (proj1 (wp_run _ _ _) Hup) as ([] & m1 & Hrun1 & y & Hs & Ho & Hc & _ & _ & Hn & Hf).
  destruct (Hmsg m1 y (session_conn kConnected) Hs) as (b & _ & Hb & Hm); [by rewrite Hn|by split|].
  destruct (proj1 (wp_run _ _ _) (Hdown {| m1 with m_net := session_world kDisconnected |} y
    ltac:(cbn; rewrite Hf; exact session_format) ltac:(by destruct Hs) ltac:(by exists (session_conn kDisconnected))))
    as ([] & m2 & Hrun2 & Hz & _).
  eexists _, _. split; [exact Hrun1|]. split; [exact Hc|]. split; [|split; [exact Hrun2|]].
  - eexists b, _. split; [exact Hb|exact Hm].
  - rewrite Hz. cbn [m_zmq]. rewrite Ho. reflexivity.
Defined.
End Sim.
End Sessions.
