(* ===== verification/Replies.v ===== *)
(** * From a unit's answer to the client that asked
    (llm_task_user_data and llm_channel_obj of the node, TcpSession of the
    manager, the connection's loop) *)

From S2P Require Import Prelude.
From S2P Require Import CStdlib.
From S2P Require Import PzmqData.
From S2P Require Import StackFlowUtil.
From S2P Require Import Json.
From S2P Require Import Pzmq.
From S2P Require Import UnitCall.
From S2P Require Import Node.
From S2P Require Import LlmChannel.
From S2P Require Import StackFlow.
From S2P Require Import LlmNode.
From S2P Require Import LlmLife.
From S2P Require Import LlmEvents.
From S2P Require Import Forwarding.
From S2P Require Import Endian.
From S2P Require Import Kernel.
From S2P Require Import Buffer.
From S2P Require Import NetTypes.
From S2P Require Import SocketsOps.
From S2P Require Import Poller.
From S2P Require Import EventLoop.
From S2P Require Import TcpConnection.
From S2P Require Import System.
From S2P Require Import Manager.
From S2P Require Import UnitTable.
From S2P Require Import UnitAction.
From S2P Require Import TcpComm.
From S2P Require Import Sessions.
Import PzmqData StackFlowUtil Json Pzmq Node LlmChannel LlmNode Forwarding.

Module Replies.
(** ** The texts of the answers *)

(** The JSON of a reply without error. *)
Definition reply (request_id work_id : bytes) (now : Z) (object : bytes) (data : jvalue) : jvalue :=
  JObject [(str "request_id", JString request_id); (str "work_id", JString work_id); (str "created", JNumber now);
           (str "object", JString object); (str "data", data);
           (str "error", JObject [(str "code", JNumber 0); (str "message", JString [])])].
Lemma reply_body_eq {S} request_id work_id now object data (s : S) :
  reply_body request_id work_id now object data [] s = Ret (reply request_id work_id now object data) s.
Proof. reflexivity. Qed.

(** The data of the answers to the message [msg]: a stream has three pieces,
    numbered from [count] on; otherwise there is one answer, and it is empty. *)
Definition piece (index : Z) (delta : bytes) (finish : bool) : jvalue :=
  JObject [(str "index", JNumber index); (str "delta", JString delta); (str "finish", JBool finish)].
Definition answers (stream : bool) (count : Z) (msg : bytes) : list jvalue :=
  if stream then [piece count msg false; piece (swrap 32 (count + 1)) (str "hello") false;
                  piece (swrap 32 (swrap 32 (count + 1) + 1)) [] true]
  else [JString []].

Section Node.
Context `{Zmq K, Attempts, !ZmqHealthy K, Hashing, !Clock K, JsonLib}.
Abbreviation llm_node := (node K llm_llm llm_call).
Implicit Types n : llm_node.

(** One answer: the clock is read, and the text and a newline go out on the
    unit's publisher [yp], then on the user's socket [yq]. *)
Definition post (yp yq : pzmq rpc_action (node_callback llm_call)) (request_id work_id object : bytes) (data : jvalue) (k : K) : option K :=
  let '(now, k1) := sys_time k in
  text ← dump_text (reply request_id work_id now object data);
  let d := text ++ [char_of 10] in
  Some (zmq_send (zmq_socket_ yq) d 0 (zmq_send (zmq_socket_ yp) d 0 k1).2).2.
Fixpoint posts yp yq (request_id work_id object : bytes) (l : list jvalue) (k : K) : option K :=
  match l with
  | [] => Some k
  | data :: l => k ← post yp yq request_id work_id object data k; posts yp yq request_id work_id object l k
  end.

(** A channel that publishes on [yp] and pushes to the user at [url] over [yq]. *)
Record answering (c : ptr) (url : bytes) (x : llm_channel_obj) yp yq n : Prop := {
  an_chan : n_channels n !! c = Some x;
  an_url : output_url_ x = url;
  an_pub : ∃ p, zmq_ x !! (-1) = Some (Some p) ∧ z_objs (n_zmq n) !! p = Some yp;
  an_push : ∃ p, zmq_ x !! (-2) = Some (Some p) ∧ z_objs (n_zmq n) !! p = Some yq;
  an_client : client url ZMQ_PUSH yq;
  an_output : enoutput_ x = Some true;
}.

Definition with_kernel (k : K) n : llm_node := with_zmq (let s := n_zmq n in {| s with z_kernel := k |}) n.

Lemma answering_kernel c url x yp yq n k : answering c url x yp yq n → answering c url x yp yq (with_kernel k n).
Proof. by intros []. Qed.

Lemma wp_send_answer c url x yp yq n object data k :
  answering c url x yp yq n →
  post yp yq (ch_request_id_ x) (work_id_ x) object data (z_kernel (n_zmq n)) = Some k →
  wp (LlmChannel.send c object data [] []) (λ _ n', n' = with_kernel k n) n.
Proof.
  intros [Hc Hurl (p & Hp & Hyp) (q & Hq & Hyq) _ Ho] Hk. unfold post in Hk.
  destruct (sys_time (z_kernel (n_zmq n))) as [now k1] eqn:Et.
  destruct (dump_text _) as [text|] eqn:Ed; [|done]. injection Hk as <-.
  unfold LlmChannel.send. n_run. rewrite Et. cbn [fst snd].
  rewrite bool_decide_true by done. unfold wpe at 1. rewrite reply_body_eq. cbv beta iota.
  unfold dump, send_raw_to_pub, send_raw_to_usr, get_output, zmq_at, Pzmq.send_data. rewrite Ed. n_run. rewrite Hp. n_run.
  rewrite Ho. n_run. rewrite Hq. n_run. reflexivity.
Qed.

(** One call of the output callback. *)
Definition output_of (en : bool) (count : Z) (data : bytes) (finish : bool) : list jvalue :=
  if en then [piece count (if finish then [] else data) finish] else if finish then [JString data] else [].
Definition count_after (en : bool) (count : Z) (finish : bool) : Z :=
  if en then if finish then 0 else swrap 32 (count + 1) else count.

Lemma wp_output_answer c url x yp yq n t o en data finish k :
  answering c url x yp yq n → l_tasks (n_unit n) !! t = Some o → enstream_ x = Some en →
  posts yp yq (ch_request_id_ x) (work_id_ x) (response_format_ o) (output_of en (count_ (n_unit n)) data finish)
    (z_kernel (n_zmq n)) = Some k →
  wp (task_output t c data finish) (λ _ n', answering c url x yp yq n' ∧ z_kernel (n_zmq n') = k ∧
    l_tasks (n_unit n') = l_tasks (n_unit n) ∧ count_ (n_unit n') = count_after en (count_ (n_unit n)) finish) n.
Proof.
  intros Ha Ht Hen Hk. pose proof (an_chan _ _ _ _ _ _ Ha) as Hc.
  unfold task_output, lock_task, lock_chan, get_llm, upd_llm, upd_unit_data. n_run. rewrite Ht. n_run. rewrite Hc, Hen. n_run.
  destruct en; cbn [output_of posts] in Hk.
  - destruct (post _ _ _ _ _ _ _) as [k1|] eqn:Hp; [|done]. injection Hk as <-. unfold set_field. n_run.
    destruct finish; n_run.
    all: eapply wpe_mono; [eapply (wp_send_answer c url x yp yq); [|exact Hp]| |done]; [by destruct Ha|].
    all: intros _ n' ->; n_run; by destruct Ha.
  - destruct finish; cbn [posts] in Hk; n_run.
    + destruct (post _ _ _ _ _ _ _) as [k1|] eqn:Hp; [|done]. injection Hk as <-.
      eapply wpe_mono; [eapply (wp_send_answer c url x yp yq); [done|exact Hp]| |done]. intros _ n' ->. n_run. by destruct Ha.
    + by injection Hk as <-.
Qed.

Lemma posts_app yp yq rid wid f l1 l2 k :
  posts yp yq rid wid f (l1 ++ l2) k = (k1 ← posts yp yq rid wid f l1 k; posts yp yq rid wid f l2 k1).
Proof. revert k. induction l1 as [|d l1 IH]; intros k; cbn; [done|]. destruct (post _ _ _ _ _ d k); cbn; auto. Qed.

Lemma answers_eq en count msg : answers en count msg =
  output_of en count msg false ++ output_of en (count_after en count false) (str "hello") false ++
  output_of en (count_after en (count_after en count false) false) [] true.
Proof. by destruct en. Qed.

(** What a message makes of a task: its answers. *)
Lemma wp_answers c url x yp yq n t o en msg k :
  answering c url x yp yq n → l_tasks (n_unit n) !! t = Some o → out_callback_ o = Some (t, c) →
  enstream_ x = Some en →
  posts yp yq (ch_request_id_ x) (work_id_ x) (response_format_ o) (answers en (count_ (n_unit n)) msg)
    (z_kernel (n_zmq n)) = Some k →
  wp (inference t msg) (λ _ n', answering c url x yp yq n' ∧ z_kernel (n_zmq n') = k ∧
    count_ (n_unit n') = if en then 0 else count_ (n_unit n)) n.
Proof.
  intros Ha Ht Hcb Hen Hk. rewrite answers_eq, posts_app in Hk.
  destruct (posts _ _ _ _ _ _ _) as [k1|] eqn:H1'; [|done]. cbn [mbind option_bind] in Hk. rewrite posts_app in Hk.
  destruct (posts _ _ _ _ _ (output_of _ _ (str "hello") _) _) as [k2|] eqn:H2'; [|done]. cbn [mbind option_bind] in Hk.
  unfold inference, lock_task. n_run. rewrite Hcb. n_run.
  eapply wpe_mono; [by eapply wp_output_answer| |done]. intros _ n1 (Ha1 & <- & Et1 & Ec1). n_run.
  rewrite <-Ec1 in H2'. rewrite <-Et1 in Ht.
  eapply wpe_mono; [by eapply wp_output_answer| |done]. intros _ n2 (Ha2 & <- & Et2 & Ec2). n_run.
  rewrite <-Ec1, <-Ec2 in Hk. rewrite <-Et2 in Ht.
  eapply wpe_mono; [by eapply wp_output_answer| |done]. intros _ n3 (Ha3 & <- & _ & Ec3).
  split_and!; [done..|]. rewrite Ec3, Ec2, Ec1. by destruct en.
Qed.

Lemma posts_total yp yq rid wid f l : (∀ now d, is_Some (dump_text (reply rid wid now f d))) →
  ∀ k, is_Some (posts yp yq rid wid f l k).
Proof.
  intros Hd. induction l as [|d l IH]; intros k; cbn; [by eexists|]. unfold post.
  destruct (sys_time k) as [now k1]. destruct (Hd now d) as [text ->]. cbn. apply IH.
Qed.

(** A channel that answers, set up by [set_push_url]: the user it talks to is
    this one already, or it is another and the socket to it is replaced. *)
Record publishing (c : ptr) (x : llm_channel_obj) (p : ptr) yp n : Prop := {
  pu_chan : n_channels n !! c = Some x;
  pu_sock : sockets_ok (n_channels n) (n_zmq n);
  pu_entry : zmq_ x !! (-1) = Some (Some p);
  pu_pub : z_objs (n_zmq n) !! p = Some yp;
  pu_output : enoutput_ x = Some true;
}.

Lemma wp_new_url c url x p yp n : publishing c x p yp n → output_url_ x ≠ url → 1 ≤ zlen url →
  wp (set_push_url c url) (λ _ n', ∃ x' yq, answering c url x' yp yq n' ∧ enstream_ x' = enstream_ x ∧ n_unit n' = n_unit n) n.
Proof.
  intros [Hc Hok Hp Hyp Ho] Hne Hu. unfold set_push_url. n_step. n_step. exists x. split; [done|]. n_run.
  rewrite bool_decide_false by done. n_step. n_step. exists x. split; [done|]. n_step.
  set (x1 := mkChannel _ _ _ _ _ _ _ _ _ _ _). match goal with |- wpe _ _ _ ?v => set (n1 := v) end.
  assert (sockets_ok (n_channels n1) (n_zmq n1)) as Hok1 by (eapply LlmEvents.sockets_ok_same; [exact Hok|exact Hc|done]).
  eapply (wp_open c (-2) x1 url ZMQ_PUSH None n1); [exact Hok1|apply lookup_insert_eq|done|by left|].
  intros s' _ _ Hold (yq & Hq & Hcl). exists (with_sockets (<[-2 := Some (z_next (n_zmq n1))]> (zmq_ x1)) x1), yq. split; [|done]. split.
  - apply lookup_insert_eq.
  - done.
  - exists p. split; [by apply lookup_insert_Some; right|]. cbn. rewrite Hold; [done|by eexists|]. intros E.
    destruct (so_once _ _ Hok p c (-1) c (-2)) as [_ E']; [by exists x..|done].
  - exists (z_next (n_zmq n)). split; [apply lookup_insert_eq|exact Hq].
  - done.
  - done.
Qed.

Lemma wp_user_url c url x p yp n : publishing c x p yp n → 1 ≤ zlen url →
  (output_url_ x = url → ∃ yq, answering c url x yp yq n) →
  wp (set_push_url c url) (λ _ n', ∃ x' yq, answering c url x' yp yq n' ∧ enstream_ x' = enstream_ x ∧ n_unit n' = n_unit n) n.
Proof.
  intros Hp Hu Hsame. destruct (decide (output_url_ x = url)) as [E|]; [|by eapply wp_new_url].
  destruct (Hsame E) as [yq Ha]. pose proof (pu_chan _ _ _ _ _ Hp) as Hc. unfold set_push_url. n_run.
  rewrite bool_decide_true by done. n_run. by exists x, yq.
Qed.

(** C11: the answers of the LLM unit to an inference that is not itself a stream.
    A channel set up for streaming answers with three numbered pieces: the
    user's text, ["hello"], and the last one, empty; the numbering starts again.
    Any other channel answers once, and its answer is empty: the text is lost.
    Each answer carries the request id and the work id of the inference, and
    goes out on the unit's publisher and on the socket to the user. *)
Theorem inference_answers c t url body x p yp o en n :
  publishing c x p yp n → enstream_ x = Some en → 1 ≤ zlen url →
  (output_url_ x = url → ∃ yq, answering c url x yp yq n) →
  l_tasks (n_unit n) !! t = Some o → out_callback_ o = Some (t, c) →
  let data := json_value body (str "data") in
  let request_id := json_value body (str "request_id") in
  let work_id := json_value body (str "work_id") in
  data ≠ [] → data ≠ StackFlow.None_text → contains (str "stream") (json_value body (str "object")) = false →
  (∀ now d, is_Some (dump_text (reply request_id work_id now (response_format_ o) d))) →
  ∃ n1 n' x' yq, set_push_url c url n = Ret tt n1 ∧ take_inference c (task_user_data t c) url body n = Ret tt n' ∧
    answering c url x' yp yq n' ∧
    posts yp yq request_id work_id (response_format_ o) (answers en (count_ (n_unit n)) data) (z_kernel (n_zmq n1))
    = Some (z_kernel (n_zmq n')) ∧
    count_ (n_unit n') = if en then 0 else count_ (n_unit n).
Proof.
  intros Hp Hen Hu Hsame Ht Hcb data request_id work_id Hne Hnone Hobj Hdump.
  destruct (proj1 (wp_run _ _ _) (wp_user_url c url x p yp n Hp Hu Hsame)) as ([] & n1 & Hrun & x1 & yq & Ha & Hen1 & Eu).
  pose proof (an_chan _ _ _ _ _ _ Ha) as Hc1. rewrite <-Eu in Ht |- *.
  destruct (posts_total yp yq request_id work_id (response_format_ o) (answers en (count_ (n_unit n1)) data)
    Hdump (z_kernel (n_zmq n1))) as [k Hk].
  assert (wp (take_inference c (task_user_data t c) url body) (λ _ n', ∃ x', answering c url x' yp yq n' ∧
    z_kernel (n_zmq n') = k ∧ count_ (n_unit n') = if en then 0 else count_ (n_unit n1)) n) as Hw.
  { unfold take_inference. fold data request_id work_id. set (object := json_value body (str "object")) in Hobj |- *.
    clearbody object data request_id work_id. apply wpe_bind. unfold wpe at 1. rewrite Hrun. n_run. rewrite !insert_insert_eq. cbn.
    match goal with |- wpe _ _ _ ?v => set (n2 := v) end.
    assert (answering c url (let y := x1 in {| y with ch_request_id_ := request_id; work_id_ := work_id |}) yp yq n2) as Ha2.
    { destruct Ha. split; try done. apply lookup_insert_eq. }
    unfold task_user_data, lock_task, lock_chan. n_run. change (n_unit n2) with (n_unit n1). rewrite Ht, (an_chan _ _ _ _ _ _ Ha2).
    rewrite !bool_decide_false by done. cbn [orb]. rewrite Hobj.
    eapply wpe_mono; [eapply wp_answers; [exact Ha2|exact Ht|exact Hcb|by rewrite <-Hen1 in Hen|exact Hk]| |done].
    intros [] n' (Ha' & Ek & Ec). by eexists. }
  destruct (proj1 (wp_run _ _ _) Hw) as ([] & n' & Hrun' & x' & Ha' & <- & Hcount).
  by exists n1, n', x', yq.
Qed.
End Node.

(** ** From the session's socket to the client *)
Section Loop.
Context {N : Type} `{Kernel N, Observe N, !KernelLaws N, !SocketLaws N, UserCode N, Inet, HostOrder}.
Import TcpConnection.
Implicit Types w : World N.

Lemma stream_at_loop c x ch lp lp' w : stream_at c x ch lp w → Poller.same_poller lp lp' →
  wakeupFd_ lp' = wakeupFd_ lp → threadId_ lp' = threadId_ lp →
  let w' := {| w with w_loops := <[loop_ x := lp']> (w_loops w) |} in
  stream_at c x ch lp' w' ∧ stream x w' = stream x w.
Proof. intros [Ha Hb Hu Hw Hf] ? ? ?. split; [|done]. split; try done. by eapply conn_at_loop. Qed.

(** The turn of the loop that runs a queued message. *)
Lemma wp_turn_sends c x ch lp w d :
  stream_at c x ch lp w → fin (w_kernel w) (socket_ x) = false →
  pendingFunctors_ lp = [F_sendInLoop c d] → Buffer.size (outputBuffer_ x) + zlen d ≤ Buffer.max_size →
  wp (System.end_turn (loop_ x)) (λ _ w', ∃ x' ch' lp', stream_at c x' ch' lp' w' ∧ same_ids x x' ∧ state_ x' = state_ x ∧
    extended x w d x' w') w.
Proof.
  intros Hs Hfin Hq Hmax. pose proof (at_loop _ _ _ _ _ (st_at _ _ _ _ _ Hs)) as Hl.
  unfold System.end_turn, EventLoop.doPendingFunctors, EventLoop.begin_pending. wp_run_cells.
  rewrite !insert_insert_eq, Hq. cbn [pendingFunctors_ forM System.run_functor].
  match goal with |- context [<[loop_ x := ?v]> (w_loops w)] => set (lp1 := v) end.
  match goal with |- wpe _ _ _ ?v => set (w1 := v) end.
  destruct (stream_at_loop c x ch lp lp1 w Hs) as [Hs1 Es1]; [done..|]. wp_run_cells.
  eapply wpe_mono; [by apply (wp_sendInLoop c x ch lp1 w1 d (λ _ _, False))| |done].
  intros [] w2 (x2 & ch2 & lp2 & Hs2 & Hids & Hst & _ & _ & Hext).
  pose proof (at_loop _ _ _ _ _ (st_at _ _ _ _ _ Hs2)) as Hl2. pose proof Hids as (El & _). rewrite <-El.
  unfold EventLoop.end_pending. wp_run_cells.
  match goal with |- context [<[loop_ x2 := ?v]> (w_loops w2)] => set (lp3 := v) end.
  destruct (stream_at_loop c x2 ch2 lp2 lp3 w2 Hs2) as [Hs3 Es3]; [done..|].
  exists x2, ch2, lp3. split_and!; [exact Hs3|done..|]. unfold extended in *. rewrite Es3. exact Hext.
Qed.
End Loop.

Section Session.
Context {K N : Type} `{Zmq K, Attempts, Hashing, !Clock K, JsonLib, Simdjson}.
Context `{Kernel N, Observe N, !KernelLaws N, !SocketLaws N, UserCode N, Inet, HostOrder}.
Import TcpConnection Manager TcpComm Sessions.
Implicit Types m : manager K N.

(** A message that waits at a session's socket. *)
Definition waiting (y : pzmq sys_action bus_callback) (d : bytes) (k k' : K) : Prop :=
  ∃ r revents k1, zmq_poll (zmq_socket_ y) ZMQ_POLLIN (-1) k = ((r, revents), k1) ∧ r ≠ -1 ∧
    Z.land revents ZMQ_POLLIN ≠ 0 ∧ zmq_msg_recv (zmq_socket_ y) 0 k1 = ((zlen d, d), k').

Definition on_net (w : World N) m : manager K N := {| m with m_net := w |}.

(** The session's thread hands the message to the connection's loop. *)
Lemma wp_session_forwards l r t conn port p y x ch lp d k' m :
  serving l r m t conn port p y → waiting y d (z_kernel (m_zmq m)) k' → d ≠ [] →
  stream_at conn x ch lp (Wakeup.by_thread (threadId_ lp) (m_net m)) → connected x = true →
  threadId_ lp ≠ w_tid (m_net m) → zlen d + 8 ≤ Buffer.max_size →
  wp (event_loop_step p (Some (Bus_send_data t))) (λ _ m', ∃ lp',
    stream_at conn x ch lp' (Wakeup.by_thread (threadId_ lp) (m_net m')) ∧
    stream x (m_net m') = stream x (m_net m) ∧
    pendingFunctors_ lp' = pendingFunctors_ lp ++ [F_sendInLoop conn d] ∧
    m' = on_net (m_net m') (let z := m_zmq m in let z' := {| z with z_kernel := k' |} in {| m with m_zmq := z' |})) m.
Proof.
  intros Hserve Hwait Hne Hs Hup Hth Hlen.
  destruct Hserve as [_ (s & Hsess & Hconn & _) Hp (Hmode & _) _].
  destruct Hwait as (rp & ev & k1 & Hpoll & Hrp & Hev & Hrecv).
  unfold event_loop_step, get_mode. m_run. rewrite Hmode. m_run. change (ZMQ_PULL =? ZMQ_PULL) with true. m_run.
  rewrite Hpoll. cbn [fst snd]. rewrite (proj2 (Z.eqb_neq _ _)) by done. m_run. rewrite (proj2 (Z.eqb_neq _ _)) by done. cbn [negb]. m_run.
  rewrite Hrecv. cbn [fst snd].
  rewrite (proj2 (Z.leb_gt _ _)) by (destruct d; [done|rewrite zlen_cons; pose proof (zlen_nonneg d); lia]).
  change (ZMQ_PULL =? ZMQ_RPC_FUN) with false. cbn [run_msg manager_user string_ msg]. unfold send_data. s_run.
  eapply wpe_buffer_ctor.
  pose proof default_buffer_ok as [Hib Hcb]. pose proof (zlen_nonneg d) as Hd0.
  assert (wp (Buffer.append d) (λ _ b, Buffer.inv b ∧ Buffer.contents b = d) default_buffer) as Happ.
  { eapply wpe_mono; [apply Buffer.wpe_append; [done|lia]| |].
    - intros _ b (Hb & Hc & _). by rewrite Hcb in Hc.
    - intros e b (_ & _ & Hbad). change (Buffer.writerIndex_ default_buffer) with 8 in Hbad. lia. }
  destruct (proj1 (wp_run _ _ _) Happ) as ([] & b & Hrun & Hb & Hcont).
  s_step. unfold wpe at 1. rewrite Hrun. s_run. rewrite Hconn.
  refine (proj2 (wpe_net _ _ _ _) _). cbn [m_net].
  eapply wpe_mono; [apply (wp_send_from (threadId_ lp) conn x ch lp _ b (λ _ _, False)); [apply Hs|done..]| |done].
  intros _ w' (lp' & Ha' & Et & Hq & Hu). s_run. exists lp'. rewrite Hcont in Hq.
  split_and!; [|by unfold stream; rewrite (proj1 Hu)|exact Hq|done].
  destruct Hs as [_ Hbuf Hcl Hwr Hfin]. split; [exact Ha'|done..|]. cbn. by rewrite (proj2 Hu).
Qed.

(** What the loop's thread does. *)
Definition in_loop (tid : Z) (z : M (World N) unit) : M (manager K N) unit :=
  modify (λ m, let w := m_net m in {| m with m_net := Wakeup.by_thread tid w |}) ;;; net z.

End Session.

(** ** A unit set up for streams, and a client with a reply on its way *)
Section Sim.
Import LittleEndianHost Manager TcpComm Sessions TcpConnection UnitAction.
#[local] Instance text_json : JsonLib := {| dump_text _ := Some (str "{}"); parse_text _ := None |}.
#[local] Existing Instances LlmLife.sim_clock sim_simdjson.
#[local] Instance silent_user : UserCode Sim.sim := {
  uc_connection _ _ := ret tt; uc_message _ _ := ret tt; uc_write_complete _ _ := ret tt;
  uc_functor _ := ret tt }.
#[local] Instance no_inet : Inet := {
  inet_ntop _ _ := []; inet_pton _ _ := None; gethostbyname _ := None }.

Definition stream_chan : llm_channel_obj :=
  mkChannel {[-1 := Some 1]} (-1000) ∅ (str "llm") (Some true) (Some true) [] [] [] (str "ipc:///tmp/llm/5010.sock") [].
Definition stream_task : llm_task :=
  {| new_task with response_format_ := str "llm.utf-8.stream"; out_callback_ := Some (1, 1) |}.
Definition stream_node : node ZSim.zsim llm_llm llm_call :=
  let n := LlmLife.busy_node in let cs := n_channels n in
  {| n with n_channels := <[1 := stream_chan]> cs; n_unit := mkLlm 3 {[0 := 1]} {[1 := stream_task]} 2 ∅ 0 |}.
Definition user_url : bytes := str "ipc:///tmp/llm/8000.sock".
Definition user_body : bytes :=
  json "'request_id':'1','work_id':'llm.0','action':'inference','object':'llm.utf-8','data':'hello'}".

Lemma inference_answers_witness : ∃ (n1 n' : node ZSim.zsim llm_llm llm_call) yq,
  take_inference 1 (task_user_data 1 1) user_url user_body stream_node = Ret tt n' ∧
  client user_url ZMQ_PUSH yq ∧
  posts LlmLife.busy_pub yq (str "1") (str "llm.0") (str "llm.utf-8.stream")
    [piece 0 (str "hello") false; piece 1 (str "hello") false; piece 2 [] true] (z_kernel (n_zmq n1))
  = Some (z_kernel (n_zmq n')).
Proof.
  destruct (inference_answers 1 1 user_url user_body stream_chan 1 LlmLife.busy_pub stream_task true stream_node)
    as (n1 & n' & x' & yq & _ & Hrun & Ha & Hp & _).
  - split; try done.
    eapply LlmEvents.sockets_ok_same; [apply LlmLife.busy_ok|apply lookup_singleton_eq|done].
  - done.
  - vm_compute. congruence.
  - intros E. discriminate E.
  - apply lookup_singleton_eq.
  - done.
  - apply (bool_decide_unpack _). reflexivity.
  - apply (bool_decide_unpack _). reflexivity.
  - reflexivity.
  - by eexists.
  - exists n1, n', yq. split; [exact Hrun|]. split; [apply Ha|exact Hp].
Defined.

Definition session_socket : pzmq sys_action bus_callback :=
  mkPzmq rpc_url_head (Some 8) (Some 9) ∅ false (Some (Some (Bus_send_data 1))) (Some ZMQ_PULL) []
    (UnitTable.url session_l session_r 8000 []) 3000.
Definition replied_manager (w : World Sim.sim) : manager ZSim.zsim Sim.sim :=
  mkManager (mkZ (ZSim.mkZsim 10 ∅ {[9 := [str "{}"]]} [] ∅) {[5 := session_socket]} 6) ∅ 0 5010 [] None ∅ 2
    (session_l ++ str "%i" ++ session_r) (session_l ++ str "%i" ++ session_r) 0 w None 0
    {[1 := mkSession (UnitTable.url session_l session_r 8000 []) 1 0 (Some 8000) [] 0 (Some 5) 3]} {[3 := 1]} 8001.

End Sim.
End Replies.
