(* ===== verification/SessionTable.v ===== *)
(** * The unit manager's sessions and objects stay consistent

    [manager_ok], the invariant of the whole manager (the units' tables, the TCP
    sessions and their sockets), and what keeps it: calls to other units, the
    "sys" actions, the start and the end of a session, and a send from a
    session's thread. *)

From S2P Require Import Prelude.
From S2P Require Import CStdlib.
From S2P Require Import Endian.
From S2P Require Import Kernel.
From S2P Require Import PzmqData.
From S2P Require Import StackFlowUtil.
From S2P Require Import Json.
From S2P Require Import Pzmq.
From S2P Require Import UnitCall.
From S2P Require Import Buffer.
From S2P Require Import NetTypes.
From S2P Require Import SocketsOps.
From S2P Require Import EventLoop.
From S2P Require Import TcpConnection.
From S2P Require Import System.
From S2P Require Import Manager.
From S2P Require Import UnitTable.
From S2P Require Import UnitAction.
From S2P Require Import TcpComm.
From S2P Require Import Forwarding.
From S2P Require Import Sessions.
Import PzmqData Pzmq Manager Json UnitAction TcpComm.

Module SessionTable.
(** ** The connections of the network library *)
Section Net.
Context {N : Type} `{Kernel N}.
Implicit Types w : World N.

(** The connection [c] is alive, its loop too, and its input buffer is well
    formed. *)
Definition linked w (c : NetTypes.ptr) : Prop :=
  ∃ y lp, w_conns w !! c = Some y ∧ w_loops w !! loop_ y = Some lp ∧ Buffer.inv (inputBuffer_ y).

(** The current thread runs none of the loops. *)
Definition foreign w : Prop := ∀ l lp, w_loops w !! l = Some lp → threadId_ lp ≠ w_tid w.

(** Every connection that was linked still is. *)
Definition keeps_links w w' : Prop := ∀ c, linked w c → linked w' c.

Lemma keeps_links_loop w l lp lp' k : w_loops w !! l = Some lp →
  keeps_links w (let ls := w_loops w in {| w with w_loops := <[l := lp']> ls; w_kernel := k |}).
Proof.
  intros Hl c (y & lq & Hc & Hq & Hb). exists y. destruct (decide (loop_ y = l)) as [<-|Hne].
  - exists lp'. cbn. by rewrite lookup_insert_eq.
  - exists lq. cbn. by rewrite lookup_insert_ne.
Qed.

Lemma wp_queueInLoop_links l lp f w : w_loops w !! l = Some lp →
  wp (EventLoop.queueInLoop l f) (λ _ w', keeps_links w w') w.
Proof.
  intros Hl. unfold EventLoop.queueInLoop, EventLoop.queue_push, EventLoop.queue_notify, EventLoop.wakeup, sockets.write.
  wp_run_cells. destruct (negb _ || _); wp_run_cells; [by eapply (keeps_links_loop w l lp)|].
  by eapply (keeps_links_loop w l lp).
Qed.

(** A send from a thread that runs no loop queues the data. *)
Lemma wp_send_links c b w : linked w c → foreign w → Buffer.inv b →
  wp (TcpConnection.send c b) (λ _ w', keeps_links w w') w.
Proof.
  intros (y & lp & Hc & Hl & _) Hfor Hb. pose proof (Hfor _ _ Hl) as Ht. unfold TcpConnection.send. wp_run_cells.
  destruct (TcpConnection.connected y); wp_run_cells; [|by intros ?].
  rewrite (proj2 (Z.eqb_neq _ _) Ht). wp_run_cells. apply wpe_zoom. wp_run_cells.
  eapply wpe_mono; [by apply Buffer.wp_retrieveAllAsString| |done]. intros d b' _. wp_run_cells.
  unfold EventLoop.runInLoop. wp_run_cells. rewrite (proj2 (Z.eqb_neq _ _) Ht).
  eapply wpe_mono; [by apply (wp_queueInLoop_links _ lp)| |done]. intros [] w' Hw'. by wp_run_cells.
Qed.

(** Reading a connection's input. *)
Lemma keeps_links_input w c y b : w_conns w !! c = Some y → Buffer.inv b →
  keeps_links w (let cs := <[c := {| y with inputBuffer_ := b |}]> (w_conns w) in {| w with w_conns := cs |}).
Proof.
  intros Hc Hb c' (y' & lq & Hc' & Hq & Hb'). destruct (decide (c' = c)) as [->|Hne].
  - simplify_eq. exists {| y with inputBuffer_ := b |}, lq. cbn. by rewrite lookup_insert_eq.
  - exists y', lq. cbn. by rewrite lookup_insert_ne.
Qed.
End Net.

(** ** The invariant *)
Section Invariant.
Context {K N : Type} `{Zmq K, Attempts, !ZmqHealthy K, !Clock K, JsonLib, Simdjson, Kernel N, UserCode N, Inet, HostOrder}.
Implicit Types m : manager K N.

(** A session: its port, its connection, and, until it stops, its own pull
    socket. *)
Record session_ok m (t : ptr) (s : TcpSession) : Prop := {
  so_port : ∃ port, _port s = Some port ∧ 8000 ≤ port ≤ 65535;
  so_conn : linked (m_net m) (conn_ s);
  so_socket : ∀ p, user_chennal_ s = Some p → ∃ y, z_objs (m_zmq m) !! p = Some y ∧
    zmq_thread_ y = Some (Some (Bus_send_data t)) ∧ mode_ y = Some ZMQ_PULL ∧
    rpc_url_head_length ≤ zlen (zmq_url_ y);
}.

Context (l r lc rc : bytes).

(** The units' tables are consistent, every session is well formed, a
    connection's context is its session, each thread serves a live session or
    is an RPC server's, and the session ports are in their range. *)
Record manager_ok m : Prop := {
  mk_tables : UnitTable.tables_ok l r m;
  mk_format : Forwarding.session_format lc rc (zmq_c_format m);
  mk_session : ∀ t s, m_sessions m !! t = Some s → t < m_next m ∧ session_ok m t s;
  mk_context : ∀ c t, m_context m !! c = Some t → ∃ s, m_sessions m !! t = Some s ∧ conn_ s = c;
  mk_puller : ∀ p y t, z_objs (m_zmq m) !! p = Some y → zmq_thread_ y = Some (Some (Bus_send_data t)) →
    ∃ s, m_sessions m !! t = Some s ∧ user_chennal_ s = Some p;
  mk_server : ∀ p y, z_objs (m_zmq m) !! p = Some y → zmq_thread_ y = Some None → mode_ y = Some ZMQ_RPC_FUN;
  mk_ports : 8000 ≤ counter_port m ≤ 65535;
}.

(** The zmq library moves on, objects come and go, and the network library
    keeps the sessions' connections. *)
Lemma manager_ok_env m k n w : manager_ok m → z_next (m_zmq m) ≤ n →
  (∀ t s, m_sessions m !! t = Some s → linked w (conn_ s)) →
  manager_ok (let z := mkZ k (z_objs (m_zmq m)) n in {| m with m_zmq := z; m_net := w |}).
Proof.
  intros [] Hn Hw. split; cbn; try done.
  - eapply UnitTable.tables_ok_frame; [exact mk_tables0|done..|cbn; lia|done|].
    cbn. intros z ?. apply (UnitTable.to_objs _ _ _ mk_tables0). lia.
  - intros t s Hs. destruct (mk_session0 t s Hs) as [? [? _ ?]]. split; [done|]. split; eauto.
Qed.
Lemma manager_ok_links m w : manager_ok m → keeps_links (m_net m) w → manager_ok {| m with m_net := w |}.
Proof.
  intros Hm Hw. pose proof (manager_ok_env m (z_kernel (m_zmq m)) (z_next (m_zmq m)) w Hm) as H'.
  destruct m as [[] ? ? ? ? ? ? ? ? ? ? ? ? ? ? ? ?]. apply H'; [done|]. intros t s Hs. apply Hw. by eapply (mk_session _ Hm).
Qed.
Lemma manager_ok_kernel m k : manager_ok m → manager_ok (let z := m_zmq m in let z := {| z with z_kernel := k |} in {| m with m_zmq := z |}).
Proof.
  intros Hm. pose proof (manager_ok_env m k (z_next (m_zmq m)) (m_net m) Hm) as H'.
  destruct m as [[] ? ? ? ? ? ? ? ? ? ? ? ? ? ? ? ?]. apply H'; [done|]. intros t s Hs. by eapply (mk_session _ Hm).
Qed.
Lemma manager_ok_calls m m' : manager_ok m → UnitCall.calls m m' → manager_ok m'.
Proof.
  intros Hm (k & n & Hn & ->). pose proof (manager_ok_env m k n (m_net m) Hm Hn) as H'.
  destruct m as [[] ? ? ? ? ? ? ? ? ? ? ? ? ? ? ? ?]. apply H'. intros t s Hs. by eapply (mk_session _ Hm).
Qed.

(** An action of the "sys" server. *)
Lemma manager_ok_bystanders m m' : manager_ok m → UnitTable.tables_ok l r m' → UnitTable.bystanders m m' → manager_ok m'.
Proof.
  intros [] Ht' [Hobjs Hth Hn (Ec & Es & Ex & Ep & En)]. split; rewrite ?Ec, ?Es, ?Ex, ?Ep; try done.
  - intros t s Hs. destruct (mk_session0 t s Hs) as [? [? Hc Hp]]. split; [lia|]. split; [done|by rewrite En|].
    intros p (y & Hy & ? & Hm & ?)%Hp. exists y. split; [|done]. apply Hobjs; [by rewrite Hm|done].
  - intros p y t Hy Hyt. eauto.
  - intros p y Hy Hyt. eauto.
Qed.

(** A session's start and its end. *)
Lemma manager_ok_up m conn y k : manager_ok m → linked (m_net m) conn → UnitTable.format_ok l r (zmq_s_format m) →
  client (UnitTable.url l r (counter_port m) []) ZMQ_PULL y →
  zmq_thread_ y = Some (Some (Bus_send_data (m_next m))) → manager_ok (Sessions.came_up l r conn y k m).
Proof.
  intros [] Hl Hf (Hmode & Hurl & _) Hth.
  assert (m_sessions m !! m_next m = None) as Hnew.
  { destruct (m_sessions m !! m_next m) as [s|] eqn:Hs; [|done]. destruct (mk_session0 _ _ Hs). lia. }
  pose proof (UnitTable.to_objs _ _ _ mk_tables0 (z_next (m_zmq m)) ltac:(lia)) as Hfresh.
  split; cbn; try done.
  - eapply UnitTable.tables_ok_frame; [exact mk_tables0|done..| | |]; cbn; [lia| |].
    + intros z x Hz _. rewrite lookup_insert_ne; [done|congruence].
    + intros z ?. rewrite lookup_insert_ne by lia. apply (UnitTable.to_objs _ _ _ mk_tables0). lia.
  - intros t s [[<- <-]|[Hne Hs]]%lookup_insert_Some.
    + split; [lia|]. split; cbn; [by eexists|done|]. intros p [= <-]. exists y. rewrite lookup_insert_eq, Hurl.
      split_and!; [done..|]. by eapply Sessions.session_url_pos.
    + destruct (mk_session0 t s Hs) as [? [? Hc Hp]]. split; [lia|]. split; [done|done|].
      intros p (x & Hx & ?)%Hp. exists x. cbn. rewrite lookup_insert_ne; [done|congruence].
  - intros c t [[<- <-]|[Hne Hc]]%lookup_insert_Some; [by eexists; rewrite lookup_insert_eq|].
    destruct (mk_context0 c t Hc) as (s & Hs & ?). exists s. rewrite lookup_insert_ne; [done|congruence].
  - intros p x t [[<- <-]|[Hne Hx]]%lookup_insert_Some Hxt.
    + rewrite Hth in Hxt. injection Hxt as <-. eexists. by rewrite lookup_insert_eq.
    + destruct (mk_puller0 p x t Hx Hxt) as (s & Hs & ?). exists s. rewrite lookup_insert_ne; [done|congruence].
  - intros p x [[<- <-]|[Hne Hx]]%lookup_insert_Some Hxt; [congruence|eauto].
  - unfold Sessions.next_port. destruct (Z.eqb_spec (counter_port m) 65535); lia.
Qed.

Lemma manager_ok_down m t s k : manager_ok m → m_sessions m !! t = Some s → manager_ok (Sessions.went_down t s k m).
Proof.
  intros [] Hs. pose proof (mk_session0 t s Hs) as [Htn [Hport Hconn Hsock]].
  set (m' := Sessions.went_down t s k m).
  assert (∀ p y, z_objs (m_zmq m') !! p = Some y ↔ z_objs (m_zmq m) !! p = Some y ∧ user_chennal_ s ≠ Some p) as Hobjs.
  { intros p y. unfold m', Sessions.went_down. cbn. destruct (user_chennal_ s) as [q|]; [|naive_solver].
    rewrite lookup_delete_Some. naive_solver. }
  split; cbn -[m']; try done.
  - eapply UnitTable.tables_ok_frame; [exact mk_tables0|done..|cbn; lia| |].
    + intros z x Hx Hm. apply Hobjs. split; [done|]. intros (y & Hy & _ & Hmy & _)%Hsock.
      rewrite Hx in Hy. injection Hy as <-. rewrite Hm in Hmy. discriminate Hmy.
    + intros z Hz. apply eq_None_not_Some. intros [x [Hx _]%Hobjs].
      by rewrite (UnitTable.to_objs _ _ _ mk_tables0) in Hx.
  - intros t' s' Hs'. unfold m' in Hs'. cbn in Hs'. apply lookup_insert_Some in Hs' as [[<- <-]|[Hne Hs']].
    + split; [done|]. by split.
    + destruct (mk_session0 t' s' Hs') as [? [? Hc Hp]]. split; [done|]. split; [done|done|].
      intros p (x & Hx & Hxt & ?)%Hp. exists x. rewrite Hobjs. split; [|done]. split; [done|].
      intros (y & Hy & Hyt & _)%Hsock. rewrite Hy in Hx. injection Hx as ->. rewrite Hyt in Hxt. congruence.
  - intros c t' Hc. destruct (mk_context0 c t' Hc) as (s' & Hs' & Hc'). unfold m'. cbn. destruct (decide (t' = t)) as [->|].
    + rewrite lookup_insert_eq. eexists. split; [done|]. cbn. congruence.
    + exists s'. by rewrite lookup_insert_ne.
  - intros p x t' [Hx Hp]%Hobjs Hxt. destruct (mk_puller0 p x t' Hx Hxt) as (s' & Hs' & Hu). exists s'.
    unfold m'. cbn. rewrite lookup_insert_ne; [done|]. congruence.
  - intros p x [Hx _]%Hobjs. eauto.
Qed.
End Invariant.
End SessionTable.
