(* ===== verification/ManagerRun.v ===== *)
(** * The unit manager: every state it reaches is consistent

    [Routing]: whatever a client sends, [unit_action_match] only makes calls.
    [Threads]: a turn of a session's thread or of the "sys" server's, and the
    network library's callbacks, keep [manager_ok] (SessionTable).  [Start]:
    [all_work] up to the TCP server establishes it.  [Steps]: the transition
    system, and the theorem. *)

From S2P Require Import Prelude.
From S2P Require Import CStdlib.
From S2P Require Import Endian.
From S2P Require Import Kernel.
From S2P Require Import PzmqData.
From S2P Require Import StackFlowUtil.
From S2P Require Import Json.
From S2P Require Import Pzmq.
From S2P Require Import UnitCall.
From S2P Require Import Buffer.
From S2P Require Import NetTypes.
From S2P Require Import SocketsOps.
From S2P Require Import EventLoop.
From S2P Require Import TcpConnection.
From S2P Require Import System.
From S2P Require Import Manager.
From S2P Require Import UnitTable.
From S2P Require Import UnitAction.
From S2P Require Import TcpComm.
From S2P Require Import LlmEvents.
From S2P Require Import Forwarding.
From S2P Require Import Sessions.
From S2P Require Import SessionTable.
Import PzmqData Pzmq Manager Json UnitCall UnitAction TcpComm SessionTable.

Module ManagerRun.
Section Routing.
Context {K N : Type} `{Zmq K, Attempts, !ZmqHealthy K, !Clock K, JsonLib, Simdjson}.
Implicit Types m : manager K N.
Context (lu ru lc rc : bytes) (com_id : Z) (Hid : 0 < com_id ≤ INT_MAX).

(** ** Errors sent to the client *)
Lemma wp_zmq_com_send out m : Forwarding.session_format lc rc (zmq_c_format m) → zfresh m →
  wp (zmq_com_send com_id out) (λ _ m', calls m m') m.
Proof.
  intros Hf Hz. unfold zmq_com_send, with_pzmq. m_step.
  eapply wpe_Ret_eq; [by apply (Forwarding.push_url_eq lc rc)|].
  m_run. eapply wpe_mono; [apply (wp_pzmq_ctor _ ZMQ_PUSH None)| |done].
  { apply (Forwarding.session_url_len lc rc _ Hf com_id Hid). }
  { right; right; by left. }
  intros p z (-> & x & k & -> & (Hm & _ & _) & _). unfold Pzmq.send_data. m_run.
  eapply wpe_mono; [apply (wp_pzmq_dtor _ x)| |done].
  { cbn. apply lookup_insert_eq. }
  { exists ZMQ_PUSH. by split; [|left]. }
  intros [] z (k' & ->). m_run. cbn. rewrite delete_insert_id by done.
  exists k', (z_next (m_zmq m) + 1). split; [cbn; lia|done].
Qed.

Lemma quiet_set_field {S} k v j : LlmEvents.quiet (set_field (S := S) k v j).
Proof. destruct j; try apply LlmEvents.quiet_throw; apply LlmEvents.quiet_ret. Qed.
Lemma quiet_parse {S} t : LlmEvents.quiet (parse (S := S) t).
Proof. unfold parse. destruct (parse_text t); [apply LlmEvents.quiet_ret|apply LlmEvents.quiet_throw]. Qed.
Lemma quiet_dump {S} j : LlmEvents.quiet (dump (S := S) j).
Proof. unfold dump. destruct (dump_text j); [apply LlmEvents.quiet_ret|apply LlmEvents.quiet_throw]. Qed.

(** [m]: only calls, whatever the outcome. *)
Abbreviation only_calls z m := (wpe z (λ _ m', calls m m') (λ _ m', calls m m') m).

Lemma wp_usr_print_error request_id work_id error_msg m :
  Forwarding.session_format lc rc (zmq_c_format m) → zfresh m →
  only_calls (usr_print_error request_id work_id error_msg com_id) m.
Proof.
  intros Hf Hz. unfold usr_print_error.
  pose proof (calls_refl m) as Hr.
  pose proof (calls_kernel m (sys_time (z_kernel (m_zmq m))).2) as Hk.
  do 2 (m_step; apply LlmEvents.wpe_quiet; [apply quiet_set_field|intros ? _|done]).
  do 3 m_step. 
  match goal with |- wpe _ _ _ ?w => set (m1 := w) in *; change (calls m m1) in Hk end.
  assert (Forwarding.session_format lc rc (zmq_c_format m1)) as Hf1 by done.
  assert (zfresh m1) as Hz1 by done. clearbody m1.
  m_step; apply LlmEvents.wpe_quiet; [apply quiet_set_field|intros ? _|done].
  m_step; apply LlmEvents.wpe_quiet; [apply quiet_parse|intros ? _|done].
  do 3 (m_step; apply LlmEvents.wpe_quiet; [apply quiet_set_field|intros ? _|done]).
  m_step; apply LlmEvents.wpe_quiet; [apply quiet_dump|intros ? _|done].
  eapply wpe_mono; [by apply wp_zmq_com_send| |done]. intros [] m2 Hm2. by eapply calls_trans.
Qed.
(** ** Requests to other units *)
Lemma work_unit_ne w : w ≠ [] → head w ≠ Some "."%char → StackFlowUtil.sample_get_work_id_name w ≠ [].
Proof.
  intros Hw Hd. unfold StackFlowUtil.sample_get_work_id_name. destruct (find (str ".") w) as [a|] eqn:Ha; [|done].
  destruct w as [|c w]; [done|]. destruct a as [|a]; [|done]. cbn in Ha.
  destruct (bool_decide (("."%char) = c)) eqn:Hc; [|by destruct (find _ w)].
  apply bool_decide_eq_true in Hc as <-. done.
Qed.
Lemma fragments_dot w : head (fragments [] w) ≠ Some [] → head w ≠ Some "."%char.
Proof. intros Hf Hw. destruct w as [|c w]; [done|]. injection Hw as ->. by apply Hf. Qed.
Lemma fragments_some w : w ≠ [] → is_Some (head (fragments [] w)).
Proof.
  intros Hw. destruct (decide (head w = Some "."%char)) as [Hd|Hd].
  - destruct w as [|c w]; [done|]. injection Hd as ->. by eexists.
  - destruct (fragments_head w Hw Hd) as (d & f & t & ->). by eexists.
Qed.

Lemma wp_remote_call json_str m :
  Forwarding.session_format lc rc (zmq_c_format m) → zfresh m →
  (field_or_empty json_str (str "work_id") ≠ [] → head (field_or_empty json_str (str "work_id")) ≠ Some "."%char) →
  only_calls (remote_call com_id json_str) m.
Proof.
  intros Hf Hz Hdot. unfold remote_call. pose proof (calls_refl m) as Hr.
  destruct (bool_decide_reflect (field_or_empty json_str (str "work_id") = [])) as [|Hw]; [done|].
  destruct (bool_decide _); [done|]. cbn [orb]. m_step.
  eapply wpe_Ret_eq; [by apply (Forwarding.com_url_eq lc rc)|]. m_step.
  eapply wpe_mono; [apply (wp_with_local _ _ (λ _, True) (λ _, True) m Hz); [apply work_unit_ne; auto|]| |].
  - intros p x m1 Hc. eapply wpe_mono; [apply (wp_call_rpc_action p x _ _ _ (λ _ _, True) (λ _, False) (λ _, True) m1 Hc)|..].
    + done.
    + by intros d w _.
    + intros [r oa] m2 [(y & k & E & _ & ?) _]. split; [done|]. by exists y, k.
    + by intros e m2 [[] _].
  - intros [r oa] m' [_ Hc]. by m_run.
  - by intros e m' [_ Hc].
Qed.

Lemma wp_publisher_push work_id data m : UnitTable.tables_ok lu ru m →
  wp (zmq_bus_publisher_push work_id data) (λ _ m', calls m m') m.
Proof.
  intros Hm. unfold zmq_bus_publisher_push. pose proof (calls_refl m) as Hr.
  case_bool_decide; [by m_run|]. unfold SAFE_READING. m_run.
  destruct (key_sql m !! work_id) as [[| | |u]|] eqn:Hk; cbn [default cast_unit fmap option_fmap option_map]; m_run; try done.
  destruct (UnitTable.to_unit _ _ _ Hm _ _ Hk) as (o & i & z & [(x & s1 & s2 & y & Hu & _ & Hz & _ & _ & _ & _ & _ & _ & Hy & _) _]).
  unfold send_msg, Pzmq.send_data. cbn [id]. m_run. rewrite Hz. m_run. exact (calls_kernel m (zmq_send (zmq_socket_ y) data 0 (z_kernel (m_zmq m))).2).
Qed.

(** Whatever a client sends, the manager makes calls and nothing else. *)
Lemma wp_unit_action json_str m : iterate_ok [] = false →
  Forwarding.session_format lc rc (zmq_c_format m) → UnitTable.tables_ok lu ru m →
  only_calls (unit_action_match com_id json_str) m.
Proof.
  intros Hsj Hf Ht. pose proof (UnitTable.to_objs _ _ _ Ht _ (Z.le_refl _)) as Hz. change (zfresh m) in Hz.
  unfold unit_action_match. destruct (iterate_ok json_str) eqn:Hi; cbn [negb]; [|by apply wp_usr_print_error].
  destruct (get_string json_str (str "request_id")) as [rid|]; [|by apply wp_usr_print_error].
  destruct (get_string json_str (str "work_id")) as [w|] eqn:Hw; [|by apply wp_usr_print_error].
  destruct (get_string json_str (str "action")) as [action|]; [|by apply wp_usr_print_error].
  destruct json_str as [|c body]; [congruence|].
  assert (∀ r rid' wid e m1, calls m m1 →
    wpe (when (negb (r =? 0)) (usr_print_error rid' wid e com_id)) (λ _ m', calls m m') (λ _ m', calls m m') m1) as Herr.
  { intros r rid' wid e m1 Hc. m_step. destruct (negb _); [|done].
    pose proof Hc as (k & n & Hn & ->). eapply wpe_mono; [apply wp_usr_print_error| |]; [done| |..].
    - apply (UnitTable.to_objs _ _ _ Ht). exact Hn.
    - intros [] m2 ?. by eapply calls_trans.
    - intros ? m2 ?. by eapply calls_trans. }
  case_bool_decide.
  - m_step. eapply wpe_Ret_eq; [by apply (Forwarding.push_url_eq lc rc)|]. m_step.
    eapply wpe_Ret_eq; [apply inference_data_eq|]. m_step.
    eapply wpe_mono; [by apply wp_publisher_push|intros r m1; apply Herr|done].
  - set (work_id := if bool_decide (w = []) then str "sys" else w).
    destruct (fragments_some work_id) as [first Hfirst]; [unfold work_id; by case_bool_decide|].
    m_step. rewrite Hfirst. m_run. case_bool_decide as Hne; m_run; [apply calls_refl|].
    eapply wpe_mono; [apply wp_remote_call|intros r m1; apply Herr|done]; [done..|].
    unfold field_or_empty. rewrite Hw. cbn [default from_option id]. intros Hwne. apply fragments_dot.
    unfold work_id in Hfirst. rewrite bool_decide_false in Hfirst by done. rewrite Hfirst. congruence.
Qed.
End Routing.

Section Threads.
Context {K N : Type} `{Zmq K, Attempts, !ZmqHealthy K, !Clock K, JsonLib, Simdjson, Kernel N, UserCode N, Inet, HostOrder, Hashing}.
Implicit Types m : manager K N.
Context (l r lc rc : bytes).
Abbreviation ok := (manager_ok l r lc rc).

(** ** A session's thread *)

(** What a pull socket's next turn receives. *)
Definition pulled (y : pzmq sys_action bus_callback) (k : K) : bytes :=
  (zmq_msg_recv (zmq_socket_ y) 0 (zmq_poll (zmq_socket_ y) ZMQ_POLLIN (-1) k).2).1.2.

Lemma wp_session_send t s d m : m_sessions m !! t = Some s → linked (m_net m) (conn_ s) → foreign (m_net m) →
  zlen d ≤ Buffer.max_size →
  may_throw (TcpComm.send_data t d) (λ _ m', ∃ w, m' = {| m with m_net := w |} ∧ keeps_links (m_net m) w) m.
Proof.
  intros Hs Hl Hf Hd. unfold TcpComm.send_data. Sessions.s_run. apply TcpConnection.wpe_buffer_ctor. Sessions.s_run.
  unfold wpe at 1. pose proof (Buffer.wpe_append d TcpConnection.default_buffer (proj1 TcpConnection.default_buffer_ok) Hd) as Ha. unfold wpe in Ha.
  destruct (Buffer.append d TcpConnection.default_buffer) as [[] b|e b|]; [|done|done]. destruct Ha as (Hb & _). Sessions.s_run.
  apply Sessions.wpe_net. eapply wpe_mono; [by apply wp_send_links| |done]. intros b' w Hw. Sessions.s_run. by exists w.
Qed.

Lemma wp_puller_step p y t m : ok m → z_objs (m_zmq m) !! p = Some y → zmq_thread_ y = Some (Some (Bus_send_data t)) →
  foreign (m_net m) → zlen (pulled y (z_kernel (m_zmq m))) ≤ Buffer.max_size →
  may_throw (event_loop_step p (Some (Bus_send_data t))) (λ _ m', ok m' ∧ z_objs (m_zmq m') !! p = Some y) m.
Proof.
  intros Hok Hp Hth Hf Hd. destruct (mk_puller _ _ _ _ _ Hok p y t Hp Hth) as (s & Hs & Hu).
  destruct (mk_session _ _ _ _ _ Hok t s Hs) as [_ [_ Hlink Hsock]].
  destruct (Hsock p Hu) as (y' & Hy' & _ & Hm & _). rewrite Hp in Hy'. injection Hy' as <-.
  unfold event_loop_step. Sessions.s_run. exists ZMQ_PULL. split; [done|]. Sessions.s_run.
  change (ZMQ_PULL =? ZMQ_PULL) with true. cbv iota. Sessions.s_run. unfold pulled in Hd.
  destruct (zmq_poll (zmq_socket_ y) ZMQ_POLLIN (-1) (z_kernel (m_zmq m))) as [[n ev] k1]. cbn [fst snd] in *.
  pose proof (λ k, manager_ok_kernel l r lc rc m k Hok) as Hk.
  destruct (n =? -1); Sessions.s_run; cbn [negb]; Sessions.s_run; [by split; [apply (Hk _)|]|].
  destruct (Z.land _ _ =? 0); cbn [negb]; Sessions.s_run; [by split; [apply (Hk _)|]|].
  destruct (zmq_msg_recv (zmq_socket_ y) 0 k1) as [[n' d] k2]. cbn [fst snd] in *.
  destruct (n' <=? 0); Sessions.s_run; [by split; [apply (Hk _)|]|].
  change (ZMQ_PULL =? ZMQ_RPC_FUN) with false. cbv iota. cbn [run_msg manager_user].
  eapply wpe_mono; [by apply (wp_session_send t s)| |done].
  intros [] m' (w & -> & Hw). split; [|done]. apply (manager_ok_links l r lc rc _ w (Hk k2) Hw).
Qed.

(** ** The thread of the "sys" server *)

(** The action and the data its next turn receives. *)
Definition requested (y : pzmq sys_action bus_callback) (k : K) : bytes * bytes :=
  let '((_, a), k) := zmq_msg_recv (zmq_socket_ y) 0 k in (a, (zmq_msg_recv (zmq_socket_ y) 0 k).1.2).

Lemma wp_sys_answer p y a d m : ok m → z_objs (m_zmq m) !! p = Some y → mode_ y = Some ZMQ_RPC_FUN →
  (∀ f, zmq_fun_ y !! a = Some (RpcUser f) → UnitTable.admitted f d m) →
  wp (rpc_answer p (mkData a) (mkData d)) (λ _ m', ok m' ∧ z_objs (m_zmq m') !! p = Some y) m.
Proof.
  intros Hok Hp Hm Ha. unfold rpc_answer, string_. Sessions.s_run. cbn [msg].
  assert ({| m with m_zmq := m_zmq m |} = m) as -> by (by destruct m).
  destruct (zmq_fun_ y !! a) as [[|f]|] eqn:Hf.
  - m_step. destruct (list_action_run p y a m ltac:(exact Hp) Hf) as (keys & _ & Hrun).
    eapply wpe_Ret_eq; [exact Hrun|]. by destruct m.
  - assert (∀ m', UnitTable.tables_ok l r m' ∧ UnitTable.bystanders m m' → ok m' ∧ z_objs (m_zmq m') !! p = Some y) as Hdone.
    { intros m' [Ht Hby]. split; [by eapply manager_ok_bystanders|]. apply (UnitTable.by_objs _ _ Hby); [by rewrite Hm|done]. }
    eapply wpe_mono; [apply (UnitTable.wp_sys_rpc l r f d m); [apply (mk_tables _ _ _ _ _ Hok)|by apply Ha]|..].
    + intros ? m'. apply Hdone.
    + intros ? m' Hm'. m_step. by apply Hdone.
  - by m_step.
Qed.

Lemma wp_server_step p y m : ok m → z_objs (m_zmq m) !! p = Some y → zmq_thread_ y = Some None →
  (∀ f, let '(a, d) := requested y (z_kernel (m_zmq m)) in zmq_fun_ y !! a = Some (RpcUser f) → UnitTable.admitted f d m) →
  may_throw (event_loop_step p None) (λ _ m', ok m' ∧ z_objs (m_zmq m') !! p = Some y) m.
Proof.
  intros Hok Hp Hth Ha. pose proof (mk_server _ _ _ _ _ Hok p y Hp Hth) as Hm.
  unfold event_loop_step. Sessions.s_run. exists ZMQ_RPC_FUN. split; [done|]. Sessions.s_run.
  change (ZMQ_RPC_FUN =? ZMQ_PULL) with false. cbv iota. Sessions.s_run. cbn [negb]. Sessions.s_run. unfold requested in Ha.
  pose proof (λ k, manager_ok_kernel l r lc rc m k Hok) as Hk.
  destruct (zmq_msg_recv (zmq_socket_ y) 0 (z_kernel (m_zmq m))) as [[n a] k1]. cbn [fst snd] in *.
  destruct (n <=? 0); Sessions.s_run; [by split; [apply (Hk _)|]|].
  change (ZMQ_RPC_FUN =? ZMQ_RPC_FUN) with true. cbv iota. Sessions.s_run.
  destruct (zmq_msg_recv (zmq_socket_ y) 0 k1) as [[n' d] k2]. cbn [fst snd] in *.
  m_step. eapply wpe_mono; [apply (wp_sys_answer p y a d _ (Hk k2) Hp Hm)| |done].
  - intros f Hf. by apply (Ha f) in Hf; destruct f.
  - intros v m1 [Hok1 Hp1]. Sessions.s_run. split; [|done].
    apply (manager_ok_kernel l r lc rc m1 _ Hok1).
Qed.

(** A turn of either thread. *)
Definition next_ok (y : pzmq sys_action bus_callback) m : Prop :=
  let k := z_kernel (m_zmq m) in
  match zmq_thread_ y with
  | Some (Some _) => foreign (m_net m) ∧ zlen (pulled y k) ≤ Buffer.max_size
  | Some None => ∀ f, let '(a, d) := requested y k in zmq_fun_ y !! a = Some (RpcUser f) → UnitTable.admitted f d m
  | None => False
  end.

Lemma thread_turn p y cb m : ok m → z_objs (m_zmq m) !! p = Some y → zmq_thread_ y = Some cb → next_ok y m →
  turn_ok (zmq_event_loop 1 p cb) ok m.
Proof.
  intros Hok Hp Hth Hn. apply (loop_turn p cb y); [done..|]. unfold next_ok in Hn. rewrite Hth in Hn.
  destruct cb as [[t]|]; [destruct Hn; by apply (wp_puller_step p y t)|by apply wp_server_step].
Qed.

(** ** The network's callbacks *)
Lemma wp_up (conn : ptr) m : ok m → linked (m_net m) conn → Sessions.conn_is true conn m → wp (onConnection conn) (λ _ m', ok m') m.
Proof.
  intros Hok Hl Hup. pose proof (UnitTable.to_format _ _ _ (mk_tables _ _ _ _ _ Hok)) as Hf.
  eapply wpe_mono; [apply (Sessions.wp_connection_up l r conn m Hf (mk_ports _ _ _ _ _ Hok) Hup)| |done].
  intros [] m' (y & k & -> & Hy & Hth). by apply manager_ok_up.
Qed.

Lemma wp_down (conn : ptr) m : ok m → Sessions.conn_is false conn m → may_throw (onConnection conn) (λ _ m', ok m') m.
Proof.
  intros Hok Hdown. destruct (m_context m !! conn) as [t|] eqn:Hcx.
  - destruct (mk_context _ _ _ _ _ Hok conn t Hcx) as (s & Hs & _).
    eapply wp_mono; [apply (Sessions.wp_connection_down conn t s m Hdown Hcx Hs)|].
    + intros p Hp. destruct (mk_session _ _ _ _ _ Hok t s Hs) as [_ [_ _ Hsock]].
      destruct (Hsock p Hp) as (y & Hy & _ & Hm & Hlen). exists y. split; [done|]. exists ZMQ_PULL. by split; [|right].
    + intros [] m' [k ->]. by apply manager_ok_down.
  - destruct Hdown as (c & Hc & Hdown). unfold onConnection. Sessions.s_run. apply Sessions.wpe_net. unfold get_conn.
    wp_simp. exists c. split; [done|]. rewrite Hdown. Sessions.s_run. rewrite Hcx. by Sessions.s_run.
Qed.

Lemma wp_message (conn : ptr) m : iterate_ok [] = false → ok m → linked (m_net m) conn →
  may_throw (onMessage conn) (λ _ m', ok m') m.
Proof.
  intros Hsj Hok (c & lp & Hc & Hl & Hb). unfold onMessage. Sessions.s_run. apply Sessions.wpe_net.
  destruct (proj1 (wp_run _ _ _) (Buffer.wp_retrieveAllAsString _ Hb)) as (d & b & Hrun & -> & Hib & _).
  eapply wpe_Ret_eq; [by apply (Sessions.in_input_run conn c _ _ _ b)|]. Sessions.s_run.
  match goal with |- context [wpe _ _ _ ?v] => set (m1 := v) end.
  assert (ok m1) as Hok1 by (apply (manager_ok_links l r lc rc m _ Hok); by apply keeps_links_input).
  change (m_context m) with (m_context m1). clearbody m1. clear m Hok Hc Hl. rename m1 into m, Hok1 into Hok.
  apply (wpe_mono _ (λ _ m', ok m') _ (λ _ m', ok m')); [|done|intros e m' Hm'; by case_bool_decide; Sessions.s_run].
  destruct (m_context m !! conn) as [t|] eqn:Hcx; [|by Sessions.s_run].
  destruct (mk_context _ _ _ _ _ Hok conn t Hcx) as (s & Hs & _).
  destruct (mk_session _ _ _ _ _ Hok t s Hs) as [_ [(port & Hport & Hrange) _ _]].
  unfold select_json_str, on_data. Sessions.s_run. exists port. split; [done|].
  eapply wpe_mono; [apply (wp_unit_action l r lc rc port)|..]; [unfold INT_MAX; lia|done|apply Hok|apply Hok|..];
    intros ? m' Hm'; by eapply manager_ok_calls.
Qed.
End Threads.

(** ** The start *)
Section Start.
Context {K N : Type} `{Zmq K, Attempts, !ZmqHealthy K, !Clock K, JsonLib, Simdjson, Kernel N, UserCode N, Inet, HostOrder}.
Implicit Types m : manager K N.
Context (l r lc rc : bytes).
Abbreviation ok := (manager_ok l r lc rc).

(** The key store after [load_default_config], with formats and ports that make
    sense, in a process that has nothing else; and the same once the formats
    are read. *)
Record configured m : Prop := {
  cf_server : ∃ fmt, key_sql m !! str "config_zmq_s_format" = Some (AnyString fmt) ∧ UnitTable.format_ok l r fmt;
  cf_client : ∃ fmt, key_sql m !! str "config_zmq_c_format" = Some (AnyString fmt) ∧ Forwarding.session_format lc rc fmt;
  cf_ports : ∃ lo hi, key_sql m !! str "config_zmq_min_port" = Some (AnyInt lo) ∧
    key_sql m !! str "config_zmq_max_port" = Some (AnyInt hi) ∧ 0 < lo ≤ hi ∧ hi ≤ INT_MAX;
  cf_keys : ∀ key p, key_sql m !! key ≠ Some (AnyUnit p);
  cf_blank : z_objs (m_zmq m) = ∅ ∧ sys_rpc_server_ m = None ∧ port_list m = [] ∧ m_units m = ∅ ∧
    m_sessions m = ∅ ∧ m_context m = ∅;
  cf_counter : 8000 ≤ counter_port m ≤ 65535;
}.
Definition formatted m : Prop :=
  configured m ∧ UnitTable.format_ok l r (zmq_s_format m) ∧ Forwarding.session_format lc rc (zmq_c_format m).

(** [all_work] before the TCP server. *)
Definition boot : M (manager K N) unit :=
  let* s := config_string (str "config_zmq_s_format") in
  modify (λ m, {| m with zmq_s_format := s |}) ;;;
  let* c := config_string (str "config_zmq_c_format") in
  modify (λ m, {| m with zmq_c_format := c |}) ;;;
  remote_server_work.
Lemma all_work_boot fuel raw m : all_work fuel raw m = (boot ;;; tcp_work fuel raw) m.
Proof.
  unfold all_work, boot, bind. destruct (config_string _ m) as [s m1| |]; [|done..]. unfold modify.
  by destruct (config_string _ _) as [c m2| |].
Qed.

(** An RPC server whose thread runs. *)
Definition serves (x : pzmq sys_action bus_callback) : Prop :=
  zmq_fun_ x ≠ ∅ ∧ zmq_thread_ x = Some None ∧ mode_ x = Some ZMQ_RPC_FUN.
Definition at_pz p x k m : manager K N := let z := with_pz p x k (m_zmq m) in {| m with m_zmq := z |}.

Lemma wp_server_register p x k action f (Q : Z → manager K N → Prop) E m :
  zmq_fun_ x = ∅ ∧ zmq_thread_ x = None ∨ serves x → (∀ n x' k', serves x' → Q n (at_pz p x' k' m)) →
  wpe (zq (register_rpc_action p action f)) Q E (at_pz p x k m).
Proof.
  intros Hx HQ. m_step. eapply wpe_mono; [apply (wp_register p action f x)| |done].
  - apply with_pz_lookup.
  - by intros Hf; destruct Hx as [[_ ?]|[? _]].
  - intros n z (x' & k' & -> & Hf & Hc). cbn. rewrite with_pz_twice. apply HQ.
    unfold serves. case_decide as Hd; destruct Hx as [[? ?]|(? & ? & ?)]; try done; destruct Hc; split_and!; congruence.
Qed.

Lemma wp_tables_start m : formatted m → wp remote_server_work (λ _ m', ok m') m.
Proof.
  intros ([_ _ (lo & hi & Hlo & Hhi & Hr1 & Hr2) Hkeys (Ho & Hrpc & Hpl & Hu & Hse & Hcx) Hcp] & Hs & Hc).
  unfold remote_server_work, SAFE_READING, SAFE_READING_uninit. m_run. rewrite Hlo, Hhi.
  exists hi. split; [done|]. cbn [default cast_int id].
  unfold resize_ports. rewrite swrap_small by (unfold INT_MAX in *; lia). rewrite (proj2 (Z.ltb_ge (hi - lo) 0)) by lia.
  unfold pzmq_lazy. m_run. rewrite Hrpc, Ho. do 4 m_step.
  match goal with |- context [mkPzmq ?h None None ∅ true None None ?s [] 3000] =>
    set (x := mkPzmq h None None ∅ true None None s [] 3000 : pzmq sys_action bus_callback) end.
  match goal with |- wpe _ _ _ ?w => set (m1 := w) end.
  assert (m1 = at_pz (z_next (m_zmq m)) x (z_kernel (m_zmq m1)) m1) as E.
  { unfold at_pz, with_pz, m1. cbn. by rewrite insert_insert_eq. }
  rewrite E. apply wp_server_register; [by left|intros _ x1 k1 Hx1].
  do 4 (m_step; apply wp_server_register; [by right|clear x1 k1 Hx1; intros _ x1 k1 Hx1]).
  m_run. clear E. unfold m1. split; unfold at_pz; cbn; rewrite ?Hse, ?Hcx; try done.
  - apply UnitTable.tables_ok_intro; cbn; rewrite ?Hu; try done.
    + split; cbn; [lia|]. rewrite Hpl. unfold zlen. rewrite length_resize. lia.
    + intros z ?. rewrite lookup_insert_ne by lia. rewrite lookup_insert_ne by lia. done.
    + intros key p Hk. by destruct (Hkeys key p).
    + intros k2 k3 p2 p3 Hk. by destruct (Hkeys k2 p2).
  - intros p y t [[_ <-]|[Hne Hy]]%lookup_insert_Some Hyt.
    + destruct Hx1 as (_ & Ht & _). congruence.
    + by rewrite lookup_insert_ne in Hy.
  - intros p y [[_ <-]|[Hne Hy]]%lookup_insert_Some Hyt; [by apply Hx1|by rewrite lookup_insert_ne in Hy].
Qed.

Lemma wp_start m : configured m → wp boot (λ _ m', ok m') m.
Proof.
  intros Hm. pose proof (cf_server _ Hm) as (s & Hs & Hsf). pose proof (cf_client _ Hm) as (c & Hc & Hcf).
  unfold boot, config_string. m_run. rewrite Hs. m_run. rewrite Hc. m_run.
  apply wp_tables_start. split; [by destruct Hm|by split].
Qed.
End Start.

(** ** The manager as a transition system *)
Section Steps.
Context {K N : Type} `{Zmq K, Attempts, !ZmqHealthy K, !Clock K, JsonLib, Simdjson, Kernel N, UserCode N, Inet, HostOrder, Hashing}.
Implicit Types m : manager K N.
Context (l r lc rc : bytes).

(** zmq and the network library move on. *)
Definition elsewhere (k : K) (w : World N) m : manager K N :=
  let z := mkZ k (z_objs (m_zmq m)) (z_next (m_zmq m)) in {| m with m_zmq := z; m_net := w |}.

(** A thread of a [pzmq] makes a turn, the network library calls back for a
    connection, or something else happens to the two libraries: zmq may do
    anything, and the network library keeps the connections that sessions
    hold. *)
Inductive manager_step m : manager K N → Prop :=
| ms_thread p y cb b m' : z_objs (m_zmq m) !! p = Some y → zmq_thread_ y = Some cb → next_ok y m →
    zmq_event_loop 1 p cb m = Ret b m' → manager_step m m'
| ms_connection (conn : ptr) m' : linked (m_net m) conn → onConnection conn m = Ret tt m' → manager_step m m'
| ms_message (conn : ptr) m' : linked (m_net m) conn → onMessage conn m = Ret tt m' → manager_step m m'
| ms_elsewhere k w : (∀ t s, m_sessions m !! t = Some s → linked w (conn_ s)) →
    manager_step m (elsewhere k w m).

Inductive manager_reachable : manager K N → Prop :=
| mr_starts m m' : configured l r lc rc m → boot m = Ret tt m' → manager_reachable m'
| mr_steps m m' : manager_reachable m → manager_step m m' → manager_reachable m'.

Lemma connection_called (conn : ptr) m : manager_ok l r lc rc m → linked (m_net m) conn →
  may_throw (onConnection conn) (λ _ m', manager_ok l r lc rc m') m.
Proof.
  intros Hok Hl. pose proof Hl as (y & lp & Hy & _).
  destruct (TcpConnection.connected y) eqn:Hup.
  - eapply wp_mono; [apply (wp_up l r lc rc); [done|done|by exists y]|done].
  - apply wp_down; [done|by exists y].
Qed.

Lemma step_ok m m' : iterate_ok [] = false → manager_ok l r lc rc m → manager_step m m' → manager_ok l r lc rc m'.
Proof.
  intros Hsj Hok [p y cb b m1 Hp Hth Hn Hrun|conn m1 Hl Hrun|conn m1 Hl Hrun|k w Hw].
  - by eapply turn_ok_ret; [eapply (thread_turn l r lc rc p y)|exact Hrun].
  - exact (wpe_Ret _ _ _ _ _ _ (connection_called conn m Hok Hl) Hrun).
  - exact (wpe_Ret _ _ _ _ _ _ (wp_message l r lc rc conn m Hsj Hok Hl) Hrun).
  - by apply manager_ok_env.
Qed.

End Steps.

(** ** A manager with one client and one unit *)
Section Sim.
Import LittleEndianHost.
#[local] Existing Instances sim_json_lib sim_clock Sessions.silent_user Sessions.no_inet.
#[local] Instance strict_simdjson : Simdjson :=
  {| iterate_ok t := negb (bool_decide (t = [])); get_string t k := Some (StackFlowUtil.json_value t k) |}.
Abbreviation mgr := (manager ZSim.zsim Sim.sim).
Abbreviation steps := (manager_reachable Sessions.session_l Sessions.session_r Sessions.session_l Sessions.session_r).

Definition run {S A} (x : M S A) (s : S) : S := match x s with Ret _ s' => s' | _ => s end.
Definition returns {S A} (x : M S A) (s : S) : bool := match x s with Ret _ _ => true | _ => false end.
Lemma run_ret {S A} (x : M S A) s : returns x s = true → ∃ a, x s = Ret a (run x s).
Proof. unfold returns, run. destruct (x s); [by eexists|done..]. Qed.

(** The process starts, and a client's connection comes up. *)
Definition sim_start : mgr :=
  let m := Sessions.session_manager in
  let f := AnyString (zmq_s_format m) in
  let kv := {[str "config_zmq_min_port" := AnyInt 5010; str "config_zmq_max_port" := AnyInt 5014;
              str "config_zmq_s_format" := f; str "config_zmq_c_format" := f]} in
  {| m with key_sql := kv |}.
Definition sim_loops : World Sim.sim :=
  let w := EventLoop.sim_world in {| w with w_conns := {[3 := Sessions.session_conn kConnected]} |}.
Definition sim_idle : mgr := run boot sim_start.
Definition sim_up : mgr := elsewhere (z_kernel (m_zmq sim_idle)) sim_loops sim_idle.
Definition sim_client : mgr := run (onConnection 3) sim_up.

(** A node asks the "sys" server for a unit. *)
Definition sim_asked : mgr :=
  let k := z_kernel (m_zmq sim_client) in
  let rs := (λ _, mkRep [] [[str "register_unit"; str "llm"]] false []) <$> ZSim.zs_rep k in
  elsewhere {| k with ZSim.zs_rep := rs |} sim_loops sim_client.
Definition sim_unit : mgr := run (zmq_event_loop 1 1 None) sim_asked.

Lemma sim_runs : returns boot sim_start = true ∧ returns (onConnection 3) sim_up = true ∧
  returns (zmq_event_loop 1 1 None) sim_asked = true ∧
  base.size (m_units sim_unit) = 1%nat ∧ base.size (m_sessions sim_unit) = 1%nat ∧ base.size (z_objs (m_zmq sim_unit)) = 3%nat.
Proof. vm_compute. split_and!; reflexivity. Qed.

Lemma sim_configured : configured Sessions.session_l Sessions.session_r Sessions.session_l Sessions.session_r sim_start.
Proof.
  split; [| |exists 5010, 5014; split_and!; done| |done|done].
  - eexists. split; [reflexivity|exact Sessions.session_format].
  - eexists. split; [reflexivity|].
    split; [exact Sessions.session_format|apply (bool_decide_unpack _); reflexivity|vm_compute; congruence].
  - intros key p. unfold sim_start. cbn [key_sql].
    by intros [[_ ?]|[_ [[_ ?]|[_ [[_ ?]|[_ [_ ?]%lookup_singleton_Some]]%lookup_insert_Some]]%lookup_insert_Some]]%lookup_insert_Some.
Qed.

Lemma sim_linked : linked sim_loops 3.
Proof. exists (Sessions.session_conn kConnected), EventLoop.sim_loop. split_and!; [reflexivity..|]. by split. Qed.

Lemma sim_next : ∃ y, z_objs (m_zmq sim_asked) !! 1 = Some y ∧ zmq_thread_ y = Some None ∧ next_ok y sim_asked.
Proof.
  assert ((λ y, (zmq_thread_ y, requested y (z_kernel (m_zmq sim_asked)), zmq_fun_ y !! str "register_unit"))
    <$> z_objs (m_zmq sim_asked) !! 1 = Some (Some None, (str "register_unit", str "llm"), Some (RpcUser Rpc_register_unit))) as E
    by (vm_compute; reflexivity).
  destruct (z_objs (m_zmq sim_asked) !! 1) as [y|]; [|discriminate E].
  apply (inj Some) in E. pose proof (f_equal (λ x, x.1.1) E) as Ht. pose proof (f_equal (λ x, x.1.2) E) as Hr.
  pose proof (f_equal snd E) as Hf. cbn [fst snd] in Ht, Hr, Hf. exists y.
  split; [done|]. split; [exact Ht|]. unfold next_ok. rewrite Ht, Hr. intros f. rewrite Hf.
  intros [= <-]. split; [reflexivity|]. exists 0%nat, 1%nat. split; [done|]. vm_compute. by split.
Qed.

End Sim.
End ManagerRun.
